(* ===== verification/_CoqProject ===== *)
-Q . S2P
Prelude.v
Headers.v
Text.v
Sched.v
SchedProps.v
Kmutex.v
KmutexProps.v
KmutexWait.v
Vmmap.v
VmmapProps.v
VmmapChange.v
VmmapCopy.v
VmmapBytes.v
VmmapInfo.v
VmmapEx.v
VmCalls.v
VmCallsProps.v
VmCallsMap.v
VmCallsFault.v
VmCallsEx.v
Syscall.v
SyscallBufs.v
Mount.v
SyscallProps.v
SyscallPaths.v
SyscallEx.v
Pframe.v
PframeProps.v
PframeLookup.v
PframeShadow.v
PframeCow.v
PframePut.v
Pageout.v
PframeMm.v
PframeRelease.v
PageoutProps.v
PframePages.v
FaultMem.v
PframeEx.v
FaultEx.v
PageoutEx.v
Reclaim.v
ReclaimEx.v
VnSpecial.v
Vfs.v
NamevProps.v
VfsProps.v
VfsNames.v
VfsEx.v
Proc.v
ProcProps.v
ProcExit.v
ProcWait.v
ProcThread.v
ProcLinks.v
ProcInfo.v
ProcEx.v
InfoEx.v
Fork.v
ForkProps.v
ForkKeeps.v
ForkCall.v
ForkMemory.v
ForkIsolate.v
ForkExit.v
ForkEx.v
ForkIsolateEx.v
ForkCallEx.v
Main.v
MainDev.v
MainProps.v
Init.v
MainIdle.v
MainEx.v
