(* ===== verification/Prelude.v ===== *)
(** * A verification development for the Weenix kernel

    The program is the kernel of a teaching operating system: the .c files under
    src/kernel.  Threads run in processes and are switched by a scheduler without
    preemption; processes have an address space made of areas that map memory
    objects, whose pages the page cache holds; files are reached through a virtual
    file system; and user programs enter through page faults and system calls.  The
    headers of the kernel, its drivers, file systems, allocators and page tables are
    not part of the repository.  Their constants and functions are fields of type
    classes here, with the facts about them that the code relies on as laws of the
    classes; every class that a theorem needs has an instance, most of them in the
    files whose name ends in Ex, where the theorems are applied to concrete states.

    ** How the code is modelled

    Kernel code is a function from a state to an outcome ([M] and [res] below): it
    returns ([Ret]), stops the kernel ([Panic]: a failed KASSERT, a NULL pointer that
    is followed, a write past the end of a buffer), or gives up the processor
    ([Block]) with a continuation that goes on from whatever state the rest of the
    kernel hands back.  Structures live in heaps (finite maps from addresses) and
    refer to each other by address, so that sharing is modelled as the code has it;
    intrusive lists are lists of addresses.  Machine integers are [Z] with [u32] and
    [s32] where the code can wrap.  A component's code runs inside a larger state by
    [zoom].  [returns m s Q] is total correctness; [rwp] and [keeps] reason about code
    that gives up the processor, under a rely on what the others do meanwhile.

    Loops that are not structural take fuel, and running out is an outcome of its own
    ([OutOfFuel]), which [returns] excludes.  The bounds: the broadcast loop takes the
    length of the queue; vmmap_remove's loop twice the number of areas, as a split
    adds one; reading and writing memory the number of bytes; dir_namev the length of
    the path; _proc_getid PROC_MAX_COUNT; range_perm the number of pages; getdents the
    count; the walks down shadow objects the number of objects, which a chain cannot
    exceed; putting objects two more than that; looking up a page one more.  Waiting
    loops (sched_switch for interrupts, do_waitpid, pframe_get on a busy page, the
    pageout daemon, the kernel shell) are bounded by parameters of the classes
    ([intr_waits], [wait_turns], [get_turns], [kshell_cmds]), since their number of
    turns depends on the environment.

    ** Files

    - Prelude: this file: the monad, 32-bit arithmetic, lemmas and tactics.  Headers:
      the constants of the kernel headers.  Text: printf's conversions and snprintf.
    - Sched models proc/sched.c and proc/sched_helper.c: run queue, wait queues,
      sleeping, cancelling, switching.  SchedProps: queues, wait channels and sleep
      states stay consistent over any sequence of calls (C1); waking is first in,
      first out and complete (C38, C26); switching (C37); cancellation.
    - Kmutex models proc/kmutex.c over Sched.  KmutexProps: mutual exclusion (C10)
      and hand-over (C28).  KmutexWait: a thread that waits for a mutex runs again
      only as its holder, whatever the others do (C27).
    - Vmmap models vm/vmmap.c: the areas of address spaces in a heap, over the
      interface [MmOps] of memory objects.  VmmapProps: what an address space maps
      ([page_at]) and the searches (C39).  VmmapChange: inserting, removing and
      mapping ranges refine the change of [page_at] and balance references (C8, C22).
      VmmapCopy: cloning and destroying.  VmmapBytes: reading back what was
      written (C30).  VmmapInfo models vmmap_mapping_info, which prints the
      areas, and shows when it stays inside its buffer (C40).
    - VmCalls models api/access.c, vm/brk.c, vm/mmap.c and vm/pagefault.c for the
      current process, over Vmmap.  VmCallsProps: copying from user memory is checked
      (C14).  VmCallsMap: mmap, munmap and brk on every branch (C23, C34, C35).
      VmCallsFault: a forbidden fault ends the process (C24), a permitted one maps the
      right page, over any memory that keeps the laws stated there.
    - Syscall models api/syscall.c over VmCalls; the calls behind the wrappers are the
      interface [SysOps].  SyscallBufs: a system call that returns has given back the kernel
      memory it allocated, piece by piece to the allocator it came from (C5).  SyscallProps: dispatch and failed argument copies.
      SyscallPaths: strings reach the file system as they are in user memory (C36),
      and the overrun of the one-page buffer.  Mount models sys_mount and sys_umount,
      which a kernel has that is configured for mounting: they free what they allocate
      and fail.
    - Pframe models mm/pframe.c, vm/anon.c and vm/shadow.c: frames, memory objects,
      hash table and lists.  PframeProps: the invariant of the page cache, the hash
      table as a search (C31), pinning as a counter (C21).  PframeLookup and
      PframeShadow: what is seen through an object ([sees]) and that filling and
      looking up pages keeps it.  PframeCow: demand zero (C32), reading through shadow
      objects (C15) and copy-on-write (C4).  PframePut: freeing pages and
      what the last reference to an anonymous object frees.  Pageout: the pageout daemon,
      its start and its end.  PageoutProps: the daemon makes room and stops (C20),
      and shutting down empties the page cache.  PframeMm and PframePages
      make the page cache an instance of [MmOps] and of its laws.  FaultMem: page faults
      over the page cache (C9).  PframeRelease: the
      references of all objects are counted ([counted]), and giving one up frees exactly
      what is no longer referred to (C12).  Reclaim: destroying an address space gives
      back its memory (C7).
    - Vfs models fs/namev.c, fs/open.c and fs/vfs_syscall.c over the interface of vnode
      operations.  NamevProps: resolving paths walks the components and balances
      references (C11).  VfsProps: opening (C33) and the invariant of the descriptor
      table (C16).  VfsNames: making, removing (C25) and linking entries.
    - Proc models proc/proc.c and proc/kthread.c over Sched.  ProcProps: process
      numbers and creation (C29).  ProcExit: exiting (C13).  ProcWait: waiting
      for children (C17).  ProcThread: threads.
      ProcLinks: changes the invariant does not depend on.  ProcInfo models proc_info and
      proc_list_info, which print processes.
    - VnSpecial models fs/vn_special.c over the interface of drivers: reading and writing
      a character device is reading and writing its driver.
    - Fork models proc/fork.c.  Here processes run over the real address spaces: the
      operations of vmmap.c that proc.c calls are those of Vmmap.  ForkProps: the
      child gets the memory of the parent with copy-on-write.  ForkKeeps: what the
      operations on objects keep, fork keeps.  ForkCall: the whole call, with the
      process, its files and the thread that enters user mode (C3).  ForkMemory and
      ForkIsolate put the address spaces over the page cache: after a fork neither
      process sees what the other stores (C2).  ForkExit: a fork and the end of the
      child leave the memory as it was (C6).
    - Main models main/kmain.c over Proc and Vfs.  MainProps: the idle process is made and
      switched to (C19).  MainDev: what making the devices leaves in the file
      system.  MainIdle: the idle process makes init and the devices and waits for init
      (C18).  Init models the initialisers that run before: in any order, they leave
      a kernel that bootstrap can start from.
    - The files whose name ends in Ex hold instances of the interfaces, concrete states and
      the theorems applied to them.

    The interfaces are where components meet: address spaces use memory objects by
    [MmOps] with laws on references ([MmLaws]) and page contents ([MmPages]); system calls
    and faults run on address spaces; processes run on the scheduler's queues, fork on
    both, and kernel start on processes and files.  The page cache of Pframe discharges
    [MmLaws] and [MmPages], and the law of giving up a reference ([MmPutLaws]), which may
    free the pages of an object, with [counted] for its invariant.  There the objects of
    files, whose operations are not in the repository, keep one reference of the file
    system, so that giving up the reference of an area does not free them; and the page
    cache reads the areas on the list of an object through its interface [PmemExt].

    ** Limits

    The theorems on kernel memory, processes and page frames take the operations of the
    interfaces to return without giving up the processor, except where they speak of
    [Block]: fput and vput in proc_cleanup, the file systems' operations on pages, and
    the allocators.  Interrupts arrive where sched_switch waits for them.  Pin and
    reference counts are not bounded.  Where the code touches memory that it has freed
    (anon_put, pframe_free), the model changes nothing.  A dead process whose children
    went to init keeps a list head that points into another list ([Stale]), which only
    printing processes would follow.  Where the code does something other than its
    comments say, a theorem is stated for the cases in which they agree, and a theorem
    of its own, where there is one, shows the difference (do_dup2_leaks,
    dir_namev_no_lookup_panics, copy_wraps_unchecked, do_mmap_bad_args_panic,
    trailing_slash_panics, kmutex_lock_cancellable_keeps_lock).

    ** Not modelled

    syscall_init, which registers the trap handler, the debugging messages (dbg), and the
    stubs of functions that are compiled out and do nothing (lookup_name and
    lookup_dirpath for getcwd, and the functions of multi-threaded processes in
    kthread.c).  None of them changes state that the rest of the code reads. *)
From Stdlib Require Export ZArith Lia.
From stdpp Require Export base tactics list numbers gmap.

Declare Scope kernel_scope.
Delimit Scope kernel_scope with kernel.
Global Open Scope Z_scope.

(** ** Outcomes of kernel code *)

(** Why a piece of kernel code gave up the processor. *)
Inductive why : Set :=
| ContextSwitch (* sched_switch switched to another thread *)
| IntrWait.     (* sched_switch waits for an interrupt *)

(** What running kernel code on a state of type [S] comes to. *)
Inductive res (S A : Type) : Type :=
| Ret (a : A) (s : S)
| Panic
| OutOfFuel
| Block (w : why) (s : S) (k : S → res S A).
Arguments Ret {S A} a s.
Arguments Panic {S A}.
Arguments OutOfFuel {S A}.
Arguments Block {S A} w s k.

(** Kernel code: a function of the state. *)
Definition M (S A : Type) : Type := S → res S A.

Fixpoint rbind {S A B} (r : res S A) (f : A → M S B) : res S B :=
  match r with
  | Ret a s => f a s
  | Panic => Panic
  | OutOfFuel => OutOfFuel
  | Block w s k => Block w s (λ s', rbind (k s') f)
  end.

Definition bind {S A B} (m : M S A) (f : A → M S B) : M S B :=
  λ s, rbind (m s) f.
Definition ret {S A} (a : A) : M S A := λ s, Ret a s.
Definition get {S A} (f : S → A) : M S A := λ s, Ret (f s) s.
Definition modify {S} (f : S → S) : M S unit := λ s, Ret tt (f s).
Definition panic {S A} : M S A := λ _, Panic.
Definition out_of_fuel {S A} : M S A := λ _, OutOfFuel.

(** [KASSERT(b)]: a failed assertion stops the kernel. *)
Definition kassert {S} (b : bool) : M S unit := if b then ret tt else panic.

(** Following a pointer: [NULL] stops the kernel. *)
Definition deref {S A} (o : option A) : M S A :=
  match o with Some a => ret a | None => panic end.

(** Giving up the processor; the environment supplies the state in which the
    code goes on. *)
Definition block {S} (w : why) : M S unit := λ s, Block w s (λ s', Ret tt s').

Notation "x <- m ;; k" := (bind m (λ x, k))
  (at level 20, m at level 99, k at level 200, right associativity) : kernel_scope.
Notation "' p <- m ;; k" := (bind m (λ x, match x with p => k end))
  (at level 20, p pattern, m at level 99, k at level 200) : kernel_scope.
Notation "m ;;; k" := (bind m (λ _, k))
  (at level 100, k at level 200, right associativity) : kernel_scope.

(** Running code of a component inside a larger state that embeds it. *)
Fixpoint rzoom {S T A} (set : S → T → T) (get : T → S) (t : T) (r : res S A) : res T A :=
  match r with
  | Ret a s => Ret a (set s t)
  | Panic => Panic
  | OutOfFuel => OutOfFuel
  | Block w s k => Block w (set s t) (λ t', rzoom set get t' (k (get t')))
  end.
Definition zoom {S T A} (get : T → S) (set : S → T → T) (m : M S A) : M T A :=
  λ t, rzoom set get t (m (get t)).

(** Total correctness of code that returns: [returns m s Q] says that [m]
    started in [s] returns, and that the result and final state satisfy [Q]. *)
Definition returns {S A} (m : M S A) (s : S) (Q : A → S → Prop) : Prop :=
  ∃ a s', m s = Ret a s' ∧ Q a s'.

(** ** 32-bit unsigned arithmetic *)

Definition U32 : Z := 2 ^ 32.
Definition u32 (z : Z) : Z := z mod U32.
(** The [int] a 32-bit pattern stands for. *)
Definition s32 (z : Z) : Z := let u := u32 z in if u <? 2 ^ 31 then u else u - U32.

Lemma u32_small z : 0 <= z < U32 → u32 z = z.
Proof. intros. by apply Z.mod_small. Qed.

Lemma u32_range z : 0 <= u32 z < U32.
Proof. apply Z.mod_pos_bound. reflexivity. Qed.

Lemma u32_add_l x y : u32 (u32 x + y) = u32 (x + y).
Proof. unfold u32. by rewrite Zplus_mod_idemp_l. Qed.

Lemma u32_add_r x y : u32 (x + u32 y) = u32 (x + y).
Proof. unfold u32. by rewrite Zplus_mod_idemp_r. Qed.

Lemma u32_sub_l x y : u32 (u32 x - y) = u32 (x - y).
Proof. unfold u32. by rewrite Zminus_mod_idemp_l. Qed.

Lemma u32_idem x : u32 (u32 x) = u32 x.
Proof. apply u32_small, u32_range. Qed.

Lemma s32_small z : 0 <= z < 2 ^ 31 → s32 z = z.
Proof.
  intros. unfold s32. rewrite u32_small by (unfold U32; lia).
  by rewrite (proj2 (Z.ltb_lt _ _)) by lia.
Qed.

Lemma s32_neg z : - 2 ^ 31 <= z < 0 → s32 z = z.
Proof.
  intros. unfold s32.
  assert (u32 z = z + U32) as ->.
  { unfold u32. rewrite <- (Z_mod_plus_full z 1), Z.mul_1_l.
    apply Z.mod_small. unfold U32. lia. }
  rewrite (proj2 (Z.ltb_ge _ _)) by (unfold U32; lia). lia.
Qed.

(** ** Maps and lists *)

Lemma alter_lookup_insert {K V} `{Countable K} (f : V → V) (m : gmap K V) k x :
  m !! k = Some x → alter f k m = <[k := f x]> m.
Proof.
  intros Hk. apply map_eq. intros j. rewrite lookup_alter, lookup_insert.
  case_decide; [|done]. subst. by rewrite Hk.
Qed.

Lemma alter_twice {K V} `{Countable K} (f g : V → V) (m : gmap K V) k :
  alter f k (alter g k m) = alter (λ x, f (g x)) k m.
Proof.
  apply map_eq. intros j. rewrite !lookup_alter. repeat case_decide; try done.
  subst. by destruct (m !! j).
Qed.

Lemma filter_ne_perm {A} `{EqDecision A} (l : list A) x :
  NoDup l → x ∈ l → l ≡ₚ x :: filter (λ y, y ≠ x) l.
Proof.
  intros Hnd Hin. apply NoDup_Permutation; [done| |].
  - apply NoDup_cons. split; [|by apply NoDup_filter].
    rewrite list_elem_of_filter. naive_solver.
  - intros y. rewrite elem_of_cons, list_elem_of_filter.
    destruct (decide (y = x)); naive_solver.
Qed.

Lemma filter_ne_absent {A} `{EqDecision A} (l : list A) x :
  x ∉ l → filter (λ y, y ≠ x) l = l.
Proof.
  induction l as [|y l IH]; [done|]. intros [Hne Hx]%not_elem_of_cons.
  rewrite filter_cons_True by auto. by rewrite IH.
Qed.

Lemma filter_ne_middle {A} `{EqDecision A} (l1 l2 : list A) x :
  NoDup (l1 ++ x :: l2) → filter (λ y, y ≠ x) (l1 ++ x :: l2) = l1 ++ l2.
Proof.
  intros (_ & Hd & [Hx _]%NoDup_cons)%NoDup_app.
  rewrite filter_app, filter_cons_False by auto. f_equal; apply filter_ne_absent; [|done].
  intros Hin. apply (Hd x Hin). apply elem_of_cons. by left.
Qed.

Lemma filter_length_le {A} (P : A → Prop) `{∀ x, Decision (P x)} (l : list A) : (length (filter P l) <= length l)%nat.
Proof. induction l as [|x l IHl]; [done|]. rewrite filter_cons. case_decide; simpl; lia. Qed.

Lemma filter_length_lt {A} (P Q : A → Prop) `{∀ x, Decision (P x), ∀ x, Decision (Q x)} (l : list A) y :
  (∀ x, Q x → P x) → y ∈ l → P y → ¬ Q y → (length (filter Q l) < length (filter P l))%nat.
Proof.
  intros HQP Hy HP HQ. assert (∀ k : list A, (length (filter Q k) <= length (filter P k))%nat) as Hle.
  { induction k as [|x k IHk]; [done|]. rewrite !filter_cons. destruct (decide (Q x)) as [HQx|].
    - rewrite (decide_True (P := P x)) by auto. simpl. lia.
    - case_decide; simpl; lia. }
  apply list_elem_of_split in Hy as (l1 & l2 & ->). rewrite !filter_app, !length_app, !filter_cons.
  rewrite decide_False, decide_True by done. simpl. pose proof (Hle l1). pose proof (Hle l2). lia.
Qed.

Lemma elem_of_middle {A} (l1 l2 : list A) x : x ∈ l1 ++ x :: l2.
Proof. apply elem_of_app. right. apply elem_of_cons. by left. Qed.

Lemma last_perm {A} (l : list A) x : last l = Some x → l ≡ₚ x :: removelast l.
Proof.
  intros [l' ->]%last_Some. rewrite removelast_last. by rewrite Permutation_app_comm.
Qed.

(** ** Lemmas on outcomes *)

Lemma bind_ret_inv {S A B} (m : M S A) (f : A → M S B) s b s' :
  bind m f s = Ret b s' → ∃ a s1, m s = Ret a s1 ∧ f a s1 = Ret b s'.
Proof. unfold bind. destruct (m s); simpl; intros; simplify_eq; eauto. Qed.

Lemma bind_Ret {S A B} (m : M S A) (f : A → M S B) s a s1 :
  m s = Ret a s1 → bind m f s = f a s1.
Proof. unfold bind. by intros ->. Qed.

Lemma returns_bind {S A B} (m : M S A) (f : A → M S B) s Q :
  returns m s (λ a s1, returns (f a) s1 Q) → returns (bind m f) s Q.
Proof.
  intros (a & s1 & Hm & b & s2 & Hf & HQ). exists b, s2.
  by rewrite (bind_Ret _ _ _ _ _ Hm).
Qed.

Lemma returns_mono {S A} (m : M S A) s (Q Q' : A → S → Prop) :
  returns m s Q → (∀ a s', Q a s' → Q' a s') → returns m s Q'.
Proof. intros (a & s' & ? & ?) ?. exists a, s'. eauto. Qed.

Lemma returns_ret {S A} (a : A) (s : S) (Q : A → S → Prop) :
  Q a s → returns (ret a) s Q.
Proof. intros. by exists a, s. Qed.

Lemma kassert_true {S} (b : bool) (s : S) : b = true → kassert b s = Ret tt s.
Proof. by intros ->. Qed.

Lemma kassert_inv {S} (b : bool) (s s' : S) u :
  kassert b s = Ret u s' → b = true ∧ s' = s.
Proof. destruct b; unfold kassert, ret, panic; intros; by simplify_eq. Qed.

(** ** Counting the entries of a map *)

Section map_count.
Context {A : Type} (P : A → Prop) `{∀ a, Decision (P a)}.
Implicit Types m : gmap positive A.

Definition map_count m : Z := Z.of_nat (size (filter (λ kv : positive * A, P kv.2) m)).

Lemma map_count_fresh m k y :
  m !! k = None → map_count (<[k := y]> m) = map_count m + (if decide (P y) then 1 else 0).
Proof.
  intros Hk. unfold map_count. rewrite map_filter_insert. simpl. destruct (decide (P y)).
  - rewrite map_size_insert_None; [lia|]. apply map_lookup_filter_None. by left.
  - rewrite delete_id by done. lia.
Qed.

Lemma map_count_delete m k x :
  m !! k = Some x → map_count (delete k m) = map_count m - (if decide (P x) then 1 else 0).
Proof.
  intros Hk. rewrite <- (insert_delete_id m k x Hk) at 2.
  rewrite map_count_fresh by apply lookup_delete_eq. lia.
Qed.

Lemma map_count_insert m k x y :
  m !! k = Some x → map_count (<[k := y]> m) =
    map_count m - (if decide (P x) then 1 else 0) + (if decide (P y) then 1 else 0).
Proof.
  intros Hk. rewrite <- insert_delete_eq, map_count_fresh by apply lookup_delete_eq.
  by rewrite (map_count_delete m k x).
Qed.

Lemma map_count_pos m : 0 <= map_count m.
Proof. unfold map_count. lia. Qed.
End map_count.

(** ** Code that gives up the processor *)

(** [rwp P G R Q r]: the outcome [r] returns with [Q], stops the kernel only if
    [P], guarantees [G] whenever it gives up the processor, and goes on like this
    from every state that the rest of the kernel may hand back, which the rely
    relation [R] describes. *)
Fixpoint rwp {S A} (P : Prop) (G : why → S → Prop) (R : why → S → S → Prop)
    (Q : A → S → Prop) (r : res S A) : Prop :=
  match r with
  | Ret a s => Q a s
  | Panic => P
  | OutOfFuel => True
  | Block w s k => G w s ∧ ∀ s', R w s s' → rwp P G R Q (k s')
  end.

Lemma rwp_bind {S A B} P G R (Q : B → S → Prop) (m : M S A) (f : A → M S B) s :
  rwp P G R (λ a s1, rwp P G R Q (f a s1)) (m s) → rwp P G R Q (bind m f s).
Proof.
  unfold bind. generalize (m s) as r. fix IH 1.
  intros [a s'| | |w s' k]; simpl; [done|done|done|].
  intros [HG Hk]. split; [done|]. intros s'' HR. apply IH. by apply Hk.
Qed.

Lemma rwp_mono {S A} (P : Prop) G R (Q Q' : A → S → Prop) r :
  rwp P G R Q r → (∀ a s, Q a s → Q' a s) → rwp P G R Q' r.
Proof.
  intros Hr HQ. revert r Hr. fix IH 1.
  intros [a s'| | |w s' k]; simpl; [by auto|done|done|].
  intros [HG Hk]. split; [done|]. intros s'' HR. apply IH. by apply Hk.
Qed.

Lemma rwp_Ret {S A} (P : Prop) G R (Q : A → S → Prop) r a s :
  r = Ret a s → Q a s → rwp P G R Q r.
Proof. by intros ->. Qed.

Lemma rwp_Panic {S A} (P : Prop) G R (Q : A → S → Prop) r : r = Panic → P → rwp P G R Q r.
Proof. by intros ->. Qed.

(** Running a component's code inside a larger state, step by step. *)
Section zoom.
Context {S T : Type} (get : T → S) (set : S → T → T).
Context (get_set : ∀ s t, get (set s t) = s) (set_set : ∀ s s' t, set s (set s' t) = set s t).

Lemma rzoom_set {A} s t (r : res S A) : rzoom set get (set s t) r = rzoom set get t r.
Proof using set_set. destruct r; simpl; by rewrite ?set_set. Qed.

Lemma rwp_zoom_bind {A B} P G R (Q : B → T → Prop) (m : M S A) (f : A → M S B) t :
  rwp P G R (λ a t', rwp P G R Q (zoom get set (f a) t')) (zoom get set m t) →
  rwp P G R Q (zoom get set (bind m f) t).
Proof using get_set set_set.
  unfold zoom, bind. generalize (m (get t)) as r. intros r. revert r t. fix IH 1.
  intros [a s'| | |w s' k] t; simpl; [|done|done|].
  - by rewrite get_set, rzoom_set.
  - intros [HG Hk]. split; [done|]. intros t' HR. apply IH. by apply Hk.
Qed.
End zoom.

(** [keeps G I m]: started in a state of [I], [m] restores [I] whenever it
    returns and establishes [G] whenever it gives up the processor, as long as the
    rest of the kernel also hands back states of [G]. *)
Definition keeps {S A} (G : why → S → Prop) (I : S → Prop) (m : M S A) : Prop :=
  ∀ s, I s → rwp True G (λ w _ s', G w s') (λ _, I) (m s).

Section keeps.
Context {S : Type} (G : why → S → Prop) (I : S → Prop).

Lemma keeps_bind {A B} (m : M S A) (f : A → M S B) :
  keeps G I m → (∀ a, keeps G I (f a)) → keeps G I (bind m f).
Proof.
  intros Hm Hf s HI. apply rwp_bind. eapply rwp_mono; [by apply Hm|].
  intros a s1 HI1. by apply Hf.
Qed.

Lemma keeps_ret {A} (a : A) : keeps G I (ret a).
Proof. by intros s HI. Qed.

Lemma keeps_get {A} (f : S → A) : keeps G I (get f).
Proof. by intros s HI. Qed.

Lemma keeps_kassert b : keeps G I (kassert b).
Proof. by destruct b; intros s HI. Qed.

Lemma keeps_deref {A} (o : option A) : keeps G I (deref o).
Proof. by destruct o; intros s HI. Qed.

Lemma keeps_out_of_fuel {A} : keeps (A:=A) G I out_of_fuel.
Proof. by intros s HI. Qed.

Lemma keeps_modify f : (∀ s, I s → I (f s)) → keeps G I (modify f).
Proof. intros Hf s HI. by apply Hf. Qed.

Lemma keeps_block w :
  (∀ s, I s → G w s) → (∀ s, G w s → I s) → keeps G I (block w).
Proof. intros H1 H2 s HI. simpl. auto. Qed.
End keeps.

Lemma keeps_panic {S A} (G : why → S → Prop) I : keeps (A:=A) G I panic.
Proof. by intros s HI. Qed.

(** A component's code inside a larger state, whose invariant is that of the
    component. *)
Lemma keeps_zoom {S T A} (g : T → S) (st : S → T → T) G I G' I' (m : M S A) :
  (∀ t, I' t → I (g t)) → (∀ s t, I s → I' (st s t)) →
  (∀ w t, G' w t → G w (g t)) → (∀ w s t, G w s → G' w (st s t)) →
  keeps G I m → keeps G' I' (zoom g st m).
Proof.
  intros HI HI' HG HG' Hm t Ht. unfold zoom. pose proof (Hm (g t) (HI t Ht)) as Hr. clear Ht.
  revert Hr. generalize (m (g t)) as r. intros r. revert r t. fix IH 1.
  intros [a s'| | |w s' k] t; simpl; [auto|done|done|].
  intros [Hw Hk]. split; [auto|]. intros t' Ht'. apply IH. auto.
Qed.

Create HintDb keeps.
#[export] Hint Resolve keeps_ret keeps_get keeps_kassert keeps_deref
  keeps_out_of_fuel keeps_panic : keeps.

(** Walks through a sequence of operations that keep the invariant. *)
Ltac keeps_step :=
  first
    [ solve [auto with keeps]
    | apply keeps_bind; [|intros ?]
    | match goal with |- keeps _ _ (match ?x with _ => _ end) => destruct x end ].
Ltac keeps := repeat keeps_step.

(** Steps over an operation that returns at once. *)
Ltac kstep := erewrite bind_Ret by reflexivity.

(** Inverts a run that returned, one [bind] at a time. *)
Ltac minv_step :=
  match goal with
  | H : bind _ _ _ = Ret _ _ |- _ =>
      apply bind_ret_inv in H as (? & ? & ? & ?)
  | H : ret _ _ = Ret _ _ |- _ => unfold ret in H; simplify_eq
  | H : get _ _ = Ret _ _ |- _ => unfold get in H; simplify_eq
  | H : modify _ _ = Ret _ _ |- _ => unfold modify in H; simplify_eq
  | H : kassert _ _ = Ret _ _ |- _ => apply kassert_inv in H as [? ->]
  | H : panic _ = Ret _ _ |- _ => discriminate H
  | H : out_of_fuel _ = Ret _ _ |- _ => discriminate H
  end.
Ltac minv := repeat (minv_step; simpl in *).

(** Turns boolean comparisons in the context and the goal into propositions. *)
Ltac zbool :=
  repeat match goal with
  | H : _ && _ = true |- _ => apply andb_true_iff in H as [? ?]
  | H : _ || _ = false |- _ => apply orb_false_iff in H as [? ?]
  | H : (_ <? _) = true |- _ => apply Z.ltb_lt in H
  | H : (_ <? _) = false |- _ => apply Z.ltb_ge in H
  | H : (_ <=? _) = true |- _ => apply Z.leb_le in H
  | H : (_ <=? _) = false |- _ => apply Z.leb_gt in H
  | H : (_ =? _) = true |- _ => apply Z.eqb_eq in H
  | H : (_ =? _) = false |- _ => apply Z.eqb_neq in H
  | H : negb _ = true |- _ => apply negb_true_iff in H
  | H : negb _ = false |- _ => apply negb_false_iff in H
  end.
