(* ===== verification/Headers.v ===== *)
(** * Constants and macros of the headers the kernel files include

    The repository holds the .c files of the kernel and none of its headers.
    Every constant or macro those files take from a header is a field of one of
    the classes below, together with the facts about it that the code relies on.
    The instances at the end of each section give the classes concrete values,
    so that definitions over them evaluate; the theorems never use the values. *)
From S2P Require Import Prelude.

(** ** errno.h *)

Class ErrnoH := {
  EPERM : Z; ENOENT : Z; EINTR : Z; EBADF : Z; ECHILD : Z; ENOMEM : Z;
  EACCES : Z; EFAULT : Z; EEXIST : Z; ENOTDIR : Z; EISDIR : Z; EINVAL : Z;
  EMFILE : Z; ENAMETOOLONG : Z; ENOTEMPTY : Z; ENOSYS : Z;
  (** Error numbers are positive [int]s: [-errno] is a negative result. *)
  errno_pos : Forall (λ e, 0 < e < 2 ^ 31)
    [EPERM; ENOENT; EINTR; EBADF; ECHILD; ENOMEM; EACCES; EFAULT; EEXIST;
     ENOTDIR; EISDIR; EINVAL; EMFILE; ENAMETOOLONG; ENOTEMPTY; ENOSYS]
}.

(** Brings the bounds of every error number into the context. *)
Ltac errno_bounds :=
  let H := fresh "Herr" in
  pose proof errno_pos as H; rewrite !Forall_cons in H; destruct_and! H.

Definition errno_ex : ErrnoH.
Proof.
  refine {| EPERM := 1; ENOENT := 2; EINTR := 4; EBADF := 9; ECHILD := 10;
    ENOMEM := 12; EACCES := 13; EFAULT := 14; EEXIST := 17; ENOTDIR := 20;
    EISDIR := 21; EINVAL := 22; EMFILE := 24; ENAMETOOLONG := 36; ENOSYS := 38;
    ENOTEMPTY := 39 |}.
  repeat constructor.
Defined.

(** ** mm/page.h and mm/mm.h *)

Class PageH := {
  PAGE_SHIFT : Z;
  PAGE_SIZE : Z;
  USER_MEM_LOW : Z;
  USER_MEM_HIGH : Z;
  ADDR_TO_PN : Z → Z;
  PN_TO_ADDR : Z → Z;
  PAGE_OFFSET : Z → Z;
  PAGE_ALIGNED : Z → bool;
  PAGE_ALIGN_UP : Z → Z;
  PAGE_ALIGN_DOWN : Z → Z;
  (** A page has [2 ^ PAGE_SHIFT] bytes and the 32-bit address space a whole
      number of pages, more than one of them. *)
  page_shift_range : 0 < PAGE_SHIFT < 32;
  page_size_eq : PAGE_SIZE = 2 ^ PAGE_SHIFT;
  (** Page numbers, offsets and alignment of a 32-bit address. *)
  addr_to_pn_eq a : ADDR_TO_PN a = a / PAGE_SIZE;
  pn_to_addr_eq p : PN_TO_ADDR p = u32 (p * PAGE_SIZE);
  page_offset_eq a : PAGE_OFFSET a = a mod PAGE_SIZE;
  page_aligned_eq a : PAGE_ALIGNED a = (a mod PAGE_SIZE =? 0);
  page_align_down_eq a : PAGE_ALIGN_DOWN a = a - a mod PAGE_SIZE;
  page_align_up_eq a : PAGE_ALIGN_UP a = PAGE_ALIGN_DOWN (u32 (a + (PAGE_SIZE - 1)));
  (** User memory is a range of whole pages above page 0. *)
  user_mem_range : PAGE_SIZE <= USER_MEM_LOW < USER_MEM_HIGH ∧ USER_MEM_HIGH < U32;
  user_mem_low_aligned : USER_MEM_LOW mod PAGE_SIZE = 0;
  user_mem_high_aligned : USER_MEM_HIGH mod PAGE_SIZE = 0
}.

Definition page_ex : PageH.
Proof.
  refine {| PAGE_SHIFT := 12; PAGE_SIZE := 4096;
    USER_MEM_LOW := 4194304; USER_MEM_HIGH := 3221225472;
    ADDR_TO_PN a := a / 4096; PN_TO_ADDR p := u32 (p * 4096);
    PAGE_OFFSET a := a mod 4096; PAGE_ALIGNED a := a mod 4096 =? 0;
    PAGE_ALIGN_DOWN a := a - a mod 4096;
    PAGE_ALIGN_UP a := u32 (a + 4095) - u32 (a + 4095) mod 4096 |};
  first [reflexivity | intros; reflexivity | unfold U32; lia].
Defined.

(** The first page number of user memory and the one after its last. *)
Definition USER_PN_LOW `{PageH} : Z := ADDR_TO_PN USER_MEM_LOW.
Definition USER_PN_HIGH `{PageH} : Z := ADDR_TO_PN USER_MEM_HIGH.

Section page_facts.
Context `{PageH}.

Lemma page_size_pos : 1 < PAGE_SIZE < U32.
Proof.
  rewrite page_size_eq. pose proof page_shift_range. split.
  - change 1 with (2 ^ 0). apply Z.pow_lt_mono_r; lia.
  - unfold U32. apply Z.pow_lt_mono_r; lia.
Qed.

Lemma page_size_gt : 0 < PAGE_SIZE.
Proof. pose proof page_size_pos. lia. Qed.

Lemma page_size_nz : PAGE_SIZE ≠ 0.
Proof. pose proof page_size_pos. lia. Qed.

Lemma page_size_div : U32 = 2 ^ (32 - PAGE_SHIFT) * PAGE_SIZE.
Proof.
  pose proof page_shift_range. rewrite page_size_eq, <- Z.pow_add_r by lia.
  unfold U32. f_equal. lia.
Qed.

Lemma user_pn_range :
  0 < USER_PN_LOW < USER_PN_HIGH ∧ USER_PN_HIGH < 2 ^ 31.
Proof.
  pose proof page_size_pos. pose proof user_mem_range as [[??]?].
  unfold USER_PN_LOW, USER_PN_HIGH. rewrite !addr_to_pn_eq.
  assert (PAGE_SIZE ≠ 0) as Hnz by lia.
  pose proof (Z.div_mod USER_MEM_LOW _ Hnz) as HL.
  pose proof (Z.div_mod USER_MEM_HIGH _ Hnz) as HH.
  rewrite user_mem_low_aligned in HL. rewrite user_mem_high_aligned in HH.
  repeat split; try nia.
  apply Z.div_lt_upper_bound; [lia|]. unfold U32 in *. lia.
Qed.

Lemma addr_to_pn_mono a b : a <= b → ADDR_TO_PN a <= ADDR_TO_PN b.
Proof.
  intros. rewrite !addr_to_pn_eq. pose proof page_size_pos.
  apply Z.div_le_mono; lia.
Qed.

(** A page number below [2 ^ (32 - PAGE_SHIFT)] is recovered from the address
    of the page. *)
Lemma pn_addr_pn p :
  0 <= p < 2 ^ (32 - PAGE_SHIFT) → ADDR_TO_PN (PN_TO_ADDR p) = p.
Proof.
  intros. rewrite addr_to_pn_eq, pn_to_addr_eq. pose proof page_size_pos.
  rewrite u32_small.
  2: { rewrite page_size_div. split; [lia|]. apply Z.mul_lt_mono_pos_r; lia. }
  apply Z.div_mul. lia.
Qed.

Lemma addr_to_pn_bound a : 0 <= a < U32 → 0 <= ADDR_TO_PN a < 2 ^ (32 - PAGE_SHIFT).
Proof.
  intros. rewrite addr_to_pn_eq. pose proof page_size_pos.
  rewrite page_size_div in *. split; [apply Z.div_pos; lia|].
  apply Z.div_lt_upper_bound; lia.
Qed.
End page_facts.

(** ** mm/mman.h and vm/vmmap.h *)

Class MmanH := {
  PROT_READ : Z; PROT_WRITE : Z; PROT_EXEC : Z;
  MAP_SHARED : Z; MAP_PRIVATE : Z; MAP_FIXED : Z; MAP_ANON : Z; MAP_TYPE : Z;
  VMMAP_DIR_LOHI : Z; VMMAP_DIR_HILO : Z
}.

Definition mman_ex : MmanH :=
  {| PROT_READ := 1; PROT_WRITE := 2; PROT_EXEC := 4;
     MAP_SHARED := 1; MAP_PRIVATE := 2; MAP_TYPE := 3; MAP_FIXED := 4; MAP_ANON := 8;
     VMMAP_DIR_LOHI := 1; VMMAP_DIR_HILO := 2 |}.

(** A flag test of the code, [flags & f] used as a condition. *)
Definition has (flags f : Z) : bool := negb (Z.land flags f =? 0).

(** ** Kernel limits: config.h, proc/proc.h, fs/dirent.h *)

Class LimitsH := {
  NFILES : nat;
  NAME_LEN : Z;
  PROC_MAX_COUNT : Z;
  PID_IDLE : Z;
  PID_INIT : Z;
  nfiles_pos : (0 < NFILES)%nat;
  name_len_pos : 0 < NAME_LEN < 2 ^ 31;
  proc_max_count_pos : 2 < PROC_MAX_COUNT < 2 ^ 31;
  (** The idle process is process 0 and the init process is process 1. *)
  pid_idle_eq : PID_IDLE = 0;
  pid_init_eq : PID_INIT = 1
}.

Definition limits_ex : LimitsH.
Proof.
  refine {| NFILES := 32; NAME_LEN := 28; PROC_MAX_COUNT := 65536;
            PID_IDLE := 0; PID_INIT := 1 |}; first [reflexivity | lia].
Defined.

(** ** fs/fcntl.h, fs/file.h, fs/stat.h, fs/lseek.h, fs/dirent.h *)

Class FcntlH := {
  O_RDONLY : Z; O_WRONLY : Z; O_RDWR : Z; O_CREAT : Z; O_APPEND : Z;
  FMODE_READ : Z; FMODE_WRITE : Z; FMODE_APPEND : Z;
  SEEK_SET : Z; SEEK_CUR : Z; SEEK_END : Z;
  S_ISDIR : Z → bool; S_ISCHR : Z → bool; S_ISBLK : Z → bool; S_ISREG : Z → bool;
  sizeof_dirent : Z
}.

Definition fcntl_ex : FcntlH :=
  {| O_RDONLY := 0; O_WRONLY := 1; O_RDWR := 2; O_CREAT := 256; O_APPEND := 1024;
     FMODE_READ := 1; FMODE_WRITE := 2; FMODE_APPEND := 4;
     SEEK_SET := 0; SEEK_CUR := 1; SEEK_END := 2;
     S_ISDIR m := m =? 2; S_ISCHR m := m =? 1; S_ISBLK m := m =? 3; S_ISREG m := m =? 4;
     sizeof_dirent := 36 |}.

(** The flags of [open] are one bit each and reading only is no bit at all: the code
    tests them with [&]. *)
Definition open_flags `{FcntlH} : list Z := [O_WRONLY; O_RDWR; O_CREAT; O_APPEND].
Class FlagBits `{FcntlH} := {
  o_rdonly : O_RDONLY = 0;
  o_flag_bits : Forall (λ f, Forall (λ g, has f g = bool_decide (f = g)) open_flags) open_flags;
  o_flags_distinct : NoDup open_flags
}.
Lemma fcntl_ex_bits : @FlagBits fcntl_ex.
Proof.
  split; [done|by repeat constructor|]. apply (bool_decide_unpack _). by vm_compute.
Qed.

Lemma has_lor a b f : has (Z.lor a b) f = has a f || has b f.
Proof.
  unfold has. rewrite Z.land_lor_distr_l, <- negb_andb. f_equal.
  apply eq_true_iff_eq. rewrite andb_true_iff, !Z.eqb_eq. apply Z.lor_eq_0_iff.
Qed.
Lemma has_0 f : has 0 f = false.
Proof. done. Qed.

(** ** mm/kmalloc.h, mm/page.h *)

(** The two allocators that the calls use, and a piece of memory with the allocator it
    comes from: what [kmalloc] gave is freed by [kfree], a page by [page_free]. *)
Inductive allocator := Kmalloced | Paged.
Abbreviation buf := (allocator * positive)%type.

#[export] Instance allocator_eq_dec : EqDecision allocator.
Proof. solve_decision. Defined.
#[export] Instance allocator_countable : Countable allocator.
Proof.
  refine (inj_countable' (λ a, match a with Kmalloced => true | Paged => false end)
                         (λ b, if b : bool then Kmalloced else Paged) _).
  by intros [].
Defined.
#[export] Instance buf_eq_dec : EqDecision buf := _.
#[export] Instance buf_countable : Countable buf := _.
