(* ===== verification/Text.v ===== *)
(** * Text: the printing functions of the C library that the kernel uses

    Characters are bytes.  The conversions of printf that occur in the code, each as
    the text it makes, and [snprintf] on a buffer that the caller hands over. *)
From Stdlib Require Import Ascii String.
From stdpp Require Import pretty.
From S2P Require Import Prelude.
Local Open Scope kernel_scope.

(** The characters of a string, as bytes. *)
Definition bytes_of (name : string) : list Z :=
  (λ c, Z.of_N (N_of_ascii c)) <$> list_ascii_of_string name.

(** ** Conversions *)

(** [%i] *)
Definition dec (z : Z) : list Z := bytes_of (pretty z).

(** [%s]: the characters before the zero that ends the string. *)
Fixpoint cstr (l : list Z) : list Z :=
  match l with [] => [] | c :: l => if c =? 0 then [] else c :: cstr l end.

(** [%ns] and [%ni]: at least [n] characters, to the right; [%-ns]: to the left. *)
Definition pad_left (n : nat) (l : list Z) : list Z := replicate (n - length l) 32 ++ l.
Definition pad_right (n : nat) (l : list Z) : list Z := l ++ replicate (n - length l) 32.

(** [%#.nx]: at least [n] digits, after 0x if the number is not zero.  An unsigned
    [int] has at most eight digits. *)
Definition hex_digit (d : Z) : Z := if d <? 10 then 48 + d else 87 + d.
Fixpoint hex_digits (k : nat) (z : Z) : list Z :=
  match k with
  | O => []
  | S k => if z =? 0 then [] else hex_digits k (z / 16) ++ [hex_digit (z mod 16)]
  end.
Definition hex (n : nat) (z : Z) : list Z :=
  let ds := hex_digits 8 (u32 z) in
  (if u32 z =? 0 then [] else bytes_of "0x") ++ replicate (n - length ds) 48 ++ ds.

(** ** Buffers *)

(** Storing bytes in a buffer of [length b] bytes; past its end is an error. *)
Definition store (pos : Z) (bs : list Z) : M (list Z) unit := λ b,
  if decide (0 <= pos ∧ pos + Z.of_nat (length bs) <= Z.of_nat (length b))
  then Ret tt (take (Z.to_nat pos) b ++ bs ++ drop (Z.to_nat pos + length bs) b)
  else Panic.

(** [snprintf(buf + pos, n, ...)] where the format makes [text]: at most [n] bytes
    with the zero at the end; the result is the length of the whole text. *)
Definition snprintf (pos n : Z) (text : list Z) : M (list Z) Z :=
  (if n =? 0 then ret tt else store pos (take (Z.to_nat (n - 1)) text ++ [0])) ;;;
  ret (Z.of_nat (length text)).

(** The buffer [b] after the string [text] was put at its start. *)
Definition printed (text b : list Z) : list Z :=
  (take (length b - 1) text ++ [0]) ++ drop (length (take (length b - 1) text) + 1) b.

(** ** Storing one text after the other *)

Lemma store_run pos bs b :
  0 <= pos → pos + Z.of_nat (length bs) <= Z.of_nat (length b) →
  store pos bs b = Ret tt (take (Z.to_nat pos) b ++ bs ++ drop (Z.to_nat pos + length bs) b).
Proof. intros. unfold store. by rewrite decide_True by lia. Qed.

Lemma store_overruns pos bs b :
  Z.of_nat (length b) < pos + Z.of_nat (length bs) → store pos bs b = Panic.
Proof. intros. unfold store. by rewrite decide_False by lia. Qed.

Lemma printed_length text b : b ≠ [] → length (printed text b) = length b.
Proof.
  intros Hb. unfold printed. rewrite !length_app, length_drop, length_take. simpl.
  destruct b; [done|]. simpl. lia.
Qed.

(** The first text of a buffer. *)
Lemma snprintf_first text b :
  b ≠ [] → snprintf 0 (Z.of_nat (length b)) text b = Ret (Z.of_nat (length text)) (printed text b).
Proof.
  intros Hb. assert (0 < length b)%nat by (destruct b; simpl; [done|lia]). unfold snprintf.
  replace (Z.of_nat (length b) =? 0) with false by lia.
  unfold bind at 1. rewrite store_run; [|lia|rewrite length_app, length_take; simpl; lia].
  simpl. unfold ret, printed. rewrite length_app. simpl.
  replace (Z.to_nat (Z.of_nat (length b) - 1)) with (length b - 1)%nat by lia. done.
Qed.

(** A text that follows another one takes the place of its final zero. *)
Lemma printed_app l1 l2 b :
  (length l1 < length b)%nat →
  snprintf (Z.of_nat (length l1)) (Z.of_nat (length b) - Z.of_nat (length l1)) l2 (printed l1 b) =
  Ret (Z.of_nat (length l2)) (printed (l1 ++ l2) b).
Proof.
  intros Hl. unfold snprintf.
  replace (Z.of_nat (length b) - Z.of_nat (length l1) =? 0) with false by lia.
  assert (length (printed l1 b) = length b) as Hp by (apply printed_length; destruct b; simpl in *; [lia|done]).
  set (n := Z.to_nat _). assert (n = length b - 1 - length l1)%nat as Hn by (unfold n; lia).
  unfold bind at 1. rewrite store_run;
    [|lia|rewrite Hp, length_app, length_take; simpl; lia].
  simpl. unfold ret. f_equal. unfold printed.
  rewrite (take_ge l1 (length b - 1)) by lia.
  rewrite (take_app_ge l1 l2) by lia. rewrite <- Hn, Nat2Z.id.
  rewrite <- !(assoc_L (++)). rewrite take_app_length. f_equal. f_equal.
  rewrite !length_app, length_take. simpl. f_equal.
  rewrite <- drop_drop, drop_app_length. simpl. 
  rewrite Nat.add_comm. simpl. rewrite drop_drop. f_equal. lia.
Qed.
