(* ===== verification/Sched.v ===== *)
(** * The scheduler: proc/sched.c and proc/sched_helper.c

    Threads, the run queue and wait queues.  A [ktqueue_t] is the list of the
    threads linked in it, head of the C list first: threads enter at the head and
    leave at the tail ([l_prev] of the list head).  [sched_switch] is where a
    thread gives up the processor; the rest of its code is the continuation of
    the [Block] outcome. *)
From S2P Require Import Prelude Headers.
Local Open Scope kernel_scope.

(** ** Data *)

Inductive ktstate : Set :=
| KT_NO_STATE | KT_RUN | KT_SLEEP | KT_SLEEP_CANCELLABLE | KT_EXITED.

#[export] Instance ktstate_eq_dec : EqDecision ktstate.
Proof. solve_decision. Defined.

(** Addresses of threads, queues and processes; [NULL] is [None]. *)
Abbreviation tid := positive (only parsing).
Abbreviation qid := positive (only parsing).
Abbreviation procp := positive (only parsing).

(** [kthread_t], less its context, stack and process link.  [kt_qlink] tells
    whether the two pointers of the link are set. *)
Record kthread := Kthread {
  kt_state : ktstate;
  kt_wchan : option qid;
  kt_qlink : bool;
  kt_cancelled : Z;
  kt_retval : Z;
  kt_errno : Z;
  kt_proc : option procp
}.

Definition set_kt_state v t := Kthread v (kt_wchan t) (kt_qlink t)
  (kt_cancelled t) (kt_retval t) (kt_errno t) (kt_proc t).
Definition set_kt_wchan v t := Kthread (kt_state t) v (kt_qlink t)
  (kt_cancelled t) (kt_retval t) (kt_errno t) (kt_proc t).
Definition set_kt_qlink v t := Kthread (kt_state t) (kt_wchan t) v
  (kt_cancelled t) (kt_retval t) (kt_errno t) (kt_proc t).
Definition set_kt_cancelled v t := Kthread (kt_state t) (kt_wchan t) (kt_qlink t)
  v (kt_retval t) (kt_errno t) (kt_proc t).
Definition set_kt_retval v t := Kthread (kt_state t) (kt_wchan t) (kt_qlink t)
  (kt_cancelled t) v (kt_errno t) (kt_proc t).
Definition set_kt_errno v t := Kthread (kt_state t) (kt_wchan t) (kt_qlink t)
  (kt_cancelled t) (kt_retval t) v (kt_proc t).

Record ktqueue := Ktqueue { tq_list : list tid; tq_size : Z }.

(** The globals [curthr] and [curproc], the interrupt priority level, and the
    threads and queues reachable through pointers. *)
Record sched := Sched {
  threads : gmap tid kthread;
  queues : gmap qid ktqueue;
  curthr : option tid;
  curproc : option procp;
  ipl : Z
}.

(** The run queue, a static variable of sched.c. *)
Definition kt_runq : qid := 1%positive.

(** main/interrupt.h: the priority levels.  [intr_waits] bounds how many
    interrupts [sched_switch] waits for before the model gives up. *)
Class IntrH := { IPL_LOW : Z; IPL_HIGH : Z; intr_waits : nat }.
Definition intr_ex : IntrH := {| IPL_LOW := 0; IPL_HIGH := 255; intr_waits := 3 |}.

Section sched.
Context `{ErrnoH, IntrH}.

(** ** Reading and writing through pointers *)

Definition thr_get (t : tid) : M sched kthread := λ s, deref (threads s !! t) s.
Definition q_get (q : qid) : M sched ktqueue := λ s, deref (queues s !! q) s.
Definition thr_upd (t : tid) (f : kthread → kthread) : M sched unit :=
  modify (λ s, Sched (alter f t (threads s)) (queues s) (curthr s) (curproc s) (ipl s)).
Definition q_upd (q : qid) (f : ktqueue → ktqueue) : M sched unit :=
  modify (λ s, Sched (threads s) (alter f q (queues s)) (curthr s) (curproc s) (ipl s)).
Definition set_cur (t : option tid) (p : option procp) : M sched unit :=
  modify (λ s, Sched (threads s) (queues s) t p (ipl s)).
Definition intr_setipl (v : Z) : M sched unit :=
  modify (λ s, Sched (threads s) (queues s) (curthr s) (curproc s) v).
Definition curthr_get : M sched tid := λ s, deref (curthr s) s.

(** ** Queues *)

Definition sched_queue_init (q : qid) : M sched unit :=
  modify (λ s, Sched (threads s) (<[q := Ktqueue [] 0]> (queues s))
                     (curthr s) (curproc s) (ipl s)).

Definition sched_queue_empty (q : qid) : M sched bool :=
  Q <- q_get q ;;
  ret (match tq_list Q with [] => true | _ => false end).

Definition ktqueue_enqueue (q : qid) (thr : tid) : M sched unit :=
  t <- thr_get thr ;;
  kassert (bool_decide (kt_wchan t = None)) ;;;
  Q <- q_get q ;;
  q_upd q (λ Q, Ktqueue (thr :: tq_list Q) (tq_size Q)) ;;;
  thr_upd thr (set_kt_qlink true) ;;;
  thr_upd thr (set_kt_wchan (Some q)) ;;;
  q_upd q (λ Q, Ktqueue (tq_list Q) (tq_size Q + 1)).

Definition ktqueue_dequeue (q : qid) : M sched (option tid) :=
  Q <- q_get q ;;
  match last (tq_list Q) with
  | None => ret None
  | Some thr =>
      t <- thr_get thr ;;
      q_upd q (λ Q, Ktqueue (removelast (tq_list Q)) (tq_size Q)) ;;;
      thr_upd thr (set_kt_qlink false) ;;;
      thr_upd thr (set_kt_wchan None) ;;;
      q_upd q (λ Q, Ktqueue (tq_list Q) (tq_size Q - 1)) ;;;
      ret (Some thr)
  end.

Definition ktqueue_remove (q : qid) (thr : tid) : M sched unit :=
  t <- thr_get thr ;;
  kassert (kt_qlink t) ;;;
  Q <- q_get q ;;
  q_upd q (λ Q, Ktqueue (filter (λ t, t ≠ thr) (tq_list Q)) (tq_size Q)) ;;;
  thr_upd thr (set_kt_qlink false) ;;;
  thr_upd thr (set_kt_wchan None) ;;;
  q_upd q (λ Q, Ktqueue (tq_list Q) (tq_size Q - 1)).

(** ** Scheduling *)

Definition sched_make_runnable (thr : tid) : M sched unit :=
  t <- thr_get thr ;;
  kassert (bool_decide (kt_wchan t ≠ Some kt_runq)) ;;;
  old_IPL <- get ipl ;;
  intr_setipl IPL_HIGH ;;;
  ktqueue_enqueue kt_runq thr ;;;
  intr_setipl old_IPL.

(** [while (sched_queue_empty(&kt_runq))]: each turn lets interrupts in and
    waits for one, whose handler may make threads runnable.  [intr_disable] before the wait
    closes the window between the test and [intr_wait], which lets interrupts in again;
    here handlers run at [IntrWait] only, and the flag has no counterpart. *)
Fixpoint sched_switch_wait (n : nat) : M sched unit :=
  e <- sched_queue_empty kt_runq ;;
  if (e : bool) then
    match n with
    | O => out_of_fuel
    | S n => intr_setipl IPL_LOW ;;; block IntrWait ;;; intr_setipl IPL_HIGH ;;;
             sched_switch_wait n
    end
  else ret tt.

Definition sched_switch : M sched unit :=
  old_IPL <- get ipl ;;
  intr_setipl IPL_HIGH ;;;
  sched_switch_wait intr_waits ;;;
  old_thread <- curthr_get ;;
  next <- ktqueue_dequeue kt_runq ;;
  next <- deref next ;;
  t <- thr_get next ;;
  set_cur (Some next) (kt_proc t) ;;;
  block ContextSwitch ;;;
  intr_setipl old_IPL.

Definition sched_sleep_on (q : qid) : M sched unit :=
  cur <- curthr_get ;;
  thr_get cur ;;;
  thr_upd cur (set_kt_state KT_SLEEP) ;;;
  ktqueue_enqueue q cur ;;;
  sched_switch.

Definition sched_cancellable_sleep_on (q : qid) : M sched Z :=
  cur <- curthr_get ;;
  t <- thr_get cur ;;
  if negb (kt_cancelled t =? 1) then
    thr_upd cur (set_kt_state KT_SLEEP_CANCELLABLE) ;;;
    ktqueue_enqueue q cur ;;;
    sched_switch ;;;
    cur' <- curthr_get ;;
    t' <- thr_get cur' ;;
    if negb (kt_cancelled t' =? 1) then ret 0 else ret (- EINTR)
  else ret (- EINTR).

Definition sched_cancel (kthr : tid) : M sched unit :=
  t <- thr_get kthr ;;
  if bool_decide (kt_state t = KT_SLEEP_CANCELLABLE) then
    thr_upd kthr (set_kt_cancelled 1) ;;;
    q <- deref (kt_wchan t) ;;
    ktqueue_remove q kthr ;;;
    sched_make_runnable kthr
  else thr_upd kthr (set_kt_cancelled 1).

Definition sched_wakeup_on (q : qid) : M sched (option tid) :=
  e <- sched_queue_empty q ;;
  if (e : bool) then ret None
  else
    res_thread <- ktqueue_dequeue q ;;
    thr <- deref res_thread ;;
    t <- thr_get thr ;;
    kassert (bool_decide (kt_state t = KT_SLEEP)
             || bool_decide (kt_state t = KT_SLEEP_CANCELLABLE)) ;;;
    thr_upd thr (set_kt_state KT_RUN) ;;;
    sched_make_runnable thr ;;;
    ret (Some thr).

(** [while (!sched_queue_empty(q))], with fuel for its turns. *)
Fixpoint sched_broadcast_loop (n : nat) (q : qid) : M sched unit :=
  e <- sched_queue_empty q ;;
  if (e : bool) then ret tt
  else
    match n with
    | O => out_of_fuel
    | S n =>
        res_thread <- ktqueue_dequeue q ;;
        thr <- deref res_thread ;;
        thr_get thr ;;;
        thr_upd thr (set_kt_state KT_RUN) ;;;
        sched_make_runnable thr ;;;
        sched_broadcast_loop n q
    end.

(** As many turns as threads are queued. *)
Definition sched_broadcast_on (q : qid) : M sched unit :=
  Q <- q_get q ;;
  sched_broadcast_loop (length (tq_list Q)) q.

(** ** What the queue operations compute *)

(** A thread linked in queue [q], and one taken off its queue. *)
Definition linked (q : qid) (t : kthread) : kthread :=
  set_kt_wchan (Some q) (set_kt_qlink true t).
Definition unlinked (t : kthread) : kthread :=
  set_kt_wchan None (set_kt_qlink false t).

Definition put_thr (t : tid) (th : kthread) (s : sched) : sched :=
  Sched (<[t := th]> (threads s)) (queues s) (curthr s) (curproc s) (ipl s).
Definition put_q (q : qid) (Q : ktqueue) (s : sched) : sched :=
  Sched (threads s) (<[q := Q]> (queues s)) (curthr s) (curproc s) (ipl s).

Definition enqueued (q : qid) (thr : tid) (t : kthread) (Q : ktqueue) (s : sched) :=
  put_thr thr (linked q t) (put_q q (Ktqueue (thr :: tq_list Q) (tq_size Q + 1)) s).
Definition dequeued (q : qid) (l : list tid) (thr : tid) (t : kthread) (Q : ktqueue)
    (s : sched) :=
  put_thr thr (unlinked t) (put_q q (Ktqueue l (tq_size Q - 1)) s).

(** Turns the pointer updates of the code into insertions. *)
Ltac upds :=
  unfold q_upd, thr_upd, modify; simpl; rewrite ?alter_twice;
  repeat erewrite alter_lookup_insert by eassumption.

Lemma ktqueue_enqueue_eq q thr s :
  ktqueue_enqueue q thr s =
    match threads s !! thr, queues s !! q with
    | Some t, Some Q =>
        if bool_decide (kt_wchan t = None) then Ret tt (enqueued q thr t Q s) else Panic
    | _, _ => Panic
    end.
Proof.
  unfold ktqueue_enqueue, thr_get, bind. destruct (threads s !! thr) as [t|] eqn:Ht;
    [|done]. simpl.
  case_bool_decide; simpl; destruct (queues s !! q) as [Q|] eqn:HQ;
    unfold q_get; rewrite ?HQ; try done.
  simpl. upds. done.
Qed.

Lemma ktqueue_dequeue_eq q s :
  ktqueue_dequeue q s =
    match queues s !! q with
    | Some Q =>
        match last (tq_list Q) with
        | None => Ret None s
        | Some thr =>
            match threads s !! thr with
            | Some t => Ret (Some thr) (dequeued q (removelast (tq_list Q)) thr t Q s)
            | None => Panic
            end
        end
    | None => Panic
    end.
Proof.
  unfold ktqueue_dequeue, q_get, bind. destruct (queues s !! q) as [Q|] eqn:HQ; [|done].
  simpl. destruct (last (tq_list Q)) as [thr|]; [|done]. unfold thr_get.
  destruct (threads s !! thr) as [t|] eqn:Ht; [|done]. simpl. upds. done.
Qed.

Lemma ktqueue_remove_eq q thr s :
  ktqueue_remove q thr s =
    match threads s !! thr with
    | Some t =>
        if kt_qlink t then
          match queues s !! q with
          | Some Q => Ret tt (dequeued q (filter (λ t, t ≠ thr) (tq_list Q)) thr t Q s)
          | None => Panic
          end
        else Panic
    | None => Panic
    end.
Proof.
  unfold ktqueue_remove, thr_get, bind. destruct (threads s !! thr) as [t|] eqn:Ht;
    [|done]. simpl. destruct (kt_qlink t); [|done]. simpl. unfold q_get.
  destruct (queues s !! q) as [Q|] eqn:HQ; [|done]. simpl. upds. done.
Qed.

Lemma sched_queue_empty_eq q s :
  sched_queue_empty q s =
    match queues s !! q with
    | Some Q => Ret (match tq_list Q with [] => true | _ => false end) s
    | None => Panic
    end.
Proof.
  unfold sched_queue_empty, bind, q_get. by destruct (queues s !! q).
Qed.

Lemma sched_make_runnable_eq thr s :
  sched_make_runnable thr s =
    match threads s !! thr, queues s !! kt_runq with
    | Some t, Some Q =>
        if bool_decide (kt_wchan t = None) then Ret tt (enqueued kt_runq thr t Q s)
        else Panic
    | _, _ => Panic
    end.
Proof.
  unfold sched_make_runnable, bind, thr_get.
  destruct (threads s !! thr) as [t|] eqn:Ht; [|done]. simpl.
  case_bool_decide as Hr; simpl.
  - rewrite ktqueue_enqueue_eq. simpl. rewrite Ht.
    destruct (queues s !! kt_runq); [|done]. by case_bool_decide.
  - destruct (queues s !! kt_runq); [|done].
    rewrite bool_decide_eq_false_2; [done|]. intros E. rewrite E in Hr. naive_solver.
Qed.
End sched.
