(* ===== verification/SchedProps.v ===== *)
(** * Properties of the scheduler

    The queue invariant and its preservation by every scheduler operation, the
    first-in first-out discipline of the queues, and what sleeping, waking,
    cancelling and switching do to the threads. *)
From S2P Require Import Prelude Headers Sched.
Local Open Scope kernel_scope.

(** ** The queue invariant *)

(** Queues and threads agree: a queue counts its threads and holds each once, a
    thread is in the queue its [kt_wchan] names and in no other, and its link is
    set exactly while it is queued. *)
Record sched_core (s : sched) : Prop := {
  core_size q Q : queues s !! q = Some Q → tq_size Q = Z.of_nat (length (tq_list Q));
  core_nodup q Q : queues s !! q = Some Q → NoDup (tq_list Q);
  core_on q Q t : queues s !! q = Some Q → t ∈ tq_list Q →
    ∃ th, threads s !! t = Some th ∧ kt_wchan th = Some q;
  core_chan t th q : threads s !! t = Some th → kt_wchan th = Some q →
    ∃ Q, queues s !! q = Some Q ∧ t ∈ tq_list Q;
  core_link t th : threads s !! t = Some th → kt_qlink th = bool_decide (kt_wchan th ≠ None)
}.

(** Thread states agree with the queues: a thread on a wait queue is asleep, and
    a cancellable sleeper is on some queue unless it is the running thread. *)
Record sched_sleepers (s : sched) : Prop := {
  sl_wait t th q : threads s !! t = Some th → kt_wchan th = Some q → q ≠ kt_runq →
    kt_state th = KT_SLEEP ∨ kt_state th = KT_SLEEP_CANCELLABLE;
  sl_canc t th : threads s !! t = Some th → kt_state th = KT_SLEEP_CANCELLABLE →
    kt_wchan th ≠ None ∨ curthr s = Some t
}.

Record sched_wf (s : sched) : Prop := {
  wf_core : sched_core s;
  wf_sleepers : sched_sleepers s
}.

Lemma core_enqueued s q thr t Q :
  sched_core s → threads s !! thr = Some t → kt_wchan t = None →
  queues s !! q = Some Q → sched_core (enqueued q thr t Q s).
Proof.
  intros [Hsz Hnd Hon Hch Hli] Ht Hw HQ.
  assert (∀ q' Q', queues s !! q' = Some Q' → thr ∉ tq_list Q') as Hfree.
  { intros q' Q' HQ' Hin. destruct (Hon _ _ _ HQ' Hin) as (th & ? & ?). congruence. }
  split; simpl.
  - intros q' Q' [[<- <-]|[??]]%lookup_insert_Some; simpl; [|by eauto].
    rewrite (Hsz _ _ HQ). lia.
  - intros q' Q' [[<- <-]|[??]]%lookup_insert_Some; simpl; [|by eauto].
    apply NoDup_cons; eauto.
  - intros q' Q' t' [[<- <-]|[??]]%lookup_insert_Some; simpl.
    + intros [->|Hin]%elem_of_cons; [rewrite lookup_insert_eq; eauto|].
      rewrite lookup_insert_ne by (intros ->; naive_solver). eauto.
    + intros Hin. rewrite lookup_insert_ne by (intros ->; naive_solver). eauto.
  - intros t' th' q' [[<- <-]|[? Hth]]%lookup_insert_Some Hq'; simpl in *.
    + simplify_eq. rewrite lookup_insert_eq. eexists. split; [done|]. simpl. set_solver.
    + destruct (Hch _ _ _ Hth Hq') as (Q' & HQ' & Hin).
      destruct (decide (q = q')) as [->|]; [|rewrite lookup_insert_ne by done; eauto].
      simplify_eq. rewrite lookup_insert_eq. eexists. split; [done|]. simpl. set_solver.
  - intros t' th' [[<- <-]|[??]]%lookup_insert_Some; [done|by eauto].
Qed.

Lemma core_dequeued s q l thr t Q :
  sched_core s → queues s !! q = Some Q → threads s !! thr = Some t →
  tq_list Q ≡ₚ thr :: l → sched_core (dequeued q l thr t Q s).
Proof.
  intros [Hsz Hnd Hon Hch Hli] HQ Ht Hp.
  assert (kt_wchan t = Some q) as Hw.
  { destruct (Hon q Q thr HQ) as (th & ? & ?); [rewrite Hp; set_solver|congruence]. }
  assert (thr ∉ l ∧ NoDup l) as [Hnin Hndl].
  { apply NoDup_cons. rewrite <- Hp. eauto. }
  split; simpl.
  - intros q' Q' [[<- <-]|[??]]%lookup_insert_Some; simpl; [|by eauto].
    rewrite (Hsz _ _ HQ), Hp. simpl. lia.
  - intros q' Q' [[<- <-]|[??]]%lookup_insert_Some; simpl; by eauto.
  - intros q' Q' t' [[<- <-]|[Hne HQ']]%lookup_insert_Some Hin; simpl in *.
    + rewrite lookup_insert_ne by (intros ->; done).
      apply (Hon _ _ _ HQ). rewrite Hp. set_solver.
    + destruct (Hon _ _ _ HQ' Hin) as (th & Hth & Hq').
      exists th. split; [|done]. rewrite lookup_insert_ne; [done|]. congruence.
  - intros t' th' q' [[<- <-]|[? Hth]]%lookup_insert_Some Hq'; simpl in *; [done|].
    destruct (Hch _ _ _ Hth Hq') as (Q' & HQ' & Hin).
    destruct (decide (q = q')) as [->|]; [|rewrite lookup_insert_ne by done; eauto].
    simplify_eq. rewrite lookup_insert_eq. eexists. split; [done|]. simpl.
    rewrite Hp in Hin. set_solver.
  - intros t' th' [[<- <-]|[??]]%lookup_insert_Some; [done|by eauto].
Qed.

Lemma core_put_thr s thr t t' :
  sched_core s → threads s !! thr = Some t →
  kt_wchan t' = kt_wchan t → kt_qlink t' = kt_qlink t → sched_core (put_thr thr t' s).
Proof.
  intros [Hsz Hnd Hon Hch Hli] Ht Hw Hl. split; simpl; [by eauto|by eauto| | |].
  - intros q Q t1 HQ Hin. destruct (Hon _ _ _ HQ Hin) as (th & Hth & ?).
    destruct (decide (thr = t1)) as [->|]; [|rewrite lookup_insert_ne by done; eauto].
    simplify_eq. rewrite lookup_insert_eq. eexists. split; [done|congruence].
  - intros t1 th q [[<- <-]|[??]]%lookup_insert_Some; [|by eauto].
    rewrite Hw. eauto.
  - intros t1 th [[<- <-]|[??]]%lookup_insert_Some; [|by eauto].
    rewrite Hw, Hl. eauto.
Qed.

(** The current thread and the interrupt level play no part in [sched_core]. *)
Lemma core_globals s c p i :
  sched_core s → sched_core (Sched (threads s) (queues s) c p i).
Proof. by intros [????]. Qed.


(** Every cancellable sleeper is queued: what holds while no thread runs. *)
Definition sched_strict (s : sched) : Prop :=
  ∀ t th, threads s !! t = Some th → kt_state th = KT_SLEEP_CANCELLABLE →
    kt_wchan th ≠ None.

(** What holds whenever the processor is given up: the invariant, and while the
    scheduler waits for an interrupt no cancellable sleeper is off its queue. *)
Definition sched_guar (w : why) (s : sched) : Prop :=
  sched_wf s ∧ (w = IntrWait → sched_strict s).

Lemma sleepers_enqueued s q thr t Q :
  sched_sleepers s →
  q = kt_runq ∨ kt_state t = KT_SLEEP ∨ kt_state t = KT_SLEEP_CANCELLABLE →
  sched_sleepers (enqueued q thr t Q s).
Proof.
  intros [Hw Hc] Hq. split; simpl.
  - intros t' th' q' [[<- <-]|[??]]%lookup_insert_Some; [|by eauto].
    simpl. naive_solver.
  - intros t' th' [[<- <-]|[??]]%lookup_insert_Some; [by left|by eauto].
Qed.

(** Taking a thread off its queue and giving it a state other than that of a
    cancellable sleeper. *)
Lemma sleepers_dequeued s q l thr t Q t' :
  sched_sleepers s → kt_wchan t' = None → kt_state t' ≠ KT_SLEEP_CANCELLABLE →
  sched_sleepers (put_thr thr t' (dequeued q l thr t Q s)).
Proof.
  intros [Hw Hc] Hn Hs. split; simpl; rewrite insert_insert_eq.
  - intros t1 th q' [[<- <-]|[??]]%lookup_insert_Some; [congruence|by eauto].
  - intros t1 th [[<- <-]|[??]]%lookup_insert_Some; [congruence|by eauto].
Qed.

Lemma put_thr_twice t th th' s : put_thr t th (put_thr t th' s) = put_thr t th s.
Proof. unfold put_thr. simpl. by rewrite insert_insert_eq. Qed.

(** ** Checking the invariant *)

Definition queue_okb (s : sched) (q : qid) (Q : ktqueue) : bool :=
  (tq_size Q =? Z.of_nat (length (tq_list Q))) && bool_decide (NoDup (tq_list Q)) &&
  forallb (λ t, match threads s !! t with
                | Some th => bool_decide (kt_wchan th = Some q)
                | None => false
                end) (tq_list Q).

Definition thread_okb (s : sched) (t : tid) (th : kthread) : bool :=
  Bool.eqb (kt_qlink th) (bool_decide (kt_wchan th ≠ None)) &&
  match kt_wchan th with
  | Some q =>
      match queues s !! q with Some Q => bool_decide (t ∈ tq_list Q) | None => false end &&
      (bool_decide (q = kt_runq) || bool_decide (kt_state th = KT_SLEEP)
       || bool_decide (kt_state th = KT_SLEEP_CANCELLABLE))
  | None =>
      negb (bool_decide (kt_state th = KT_SLEEP_CANCELLABLE))
      || bool_decide (curthr s = Some t)
  end.

(** A decision procedure for [sched_wf]. *)
Definition sched_wfb (s : sched) : bool :=
  bool_decide (map_Forall (λ q Q, queue_okb s q Q = true) (queues s)) &&
  bool_decide (map_Forall (λ t th, thread_okb s t th = true) (threads s)).

Lemma sched_wfb_wf s : sched_wfb s = true → sched_wf s.
Proof.
  intros [HQ HT]%andb_true_iff. apply bool_decide_eq_true_1 in HQ, HT.
  assert (∀ q Q, queues s !! q = Some Q → queue_okb s q Q = true) as HQ' by done.
  assert (∀ t th, threads s !! t = Some th → thread_okb s t th = true) as HT' by done.
  clear HQ HT. unfold queue_okb, thread_okb in *. split; split.
  - intros q Q Hq. specialize (HQ' q Q Hq). zbool. done.
  - intros q Q Hq. specialize (HQ' q Q Hq). zbool. by eapply bool_decide_eq_true_1.
  - intros q Q t Hq Hin. specialize (HQ' q Q Hq). zbool.
    match goal with H : forallb _ _ = true |- _ => rename H into Hall end.
    rewrite forallb_forall in Hall. specialize (Hall t). rewrite <- list_elem_of_In in Hall.
    specialize (Hall Hin). destruct (threads s !! t) as [th|]; [|done].
    apply bool_decide_eq_true_1 in Hall. eauto.
  - intros t th q Ht Hw. specialize (HT' t th Ht). rewrite Hw in HT'. zbool.
    destruct (queues s !! q) as [Q|]; [|done]. exists Q. split; [done|].
    by eapply bool_decide_eq_true_1.
  - intros t th Ht. specialize (HT' t th Ht). zbool. by apply eqb_prop.
  - intros t th q Ht Hw Hq. specialize (HT' t th Ht). rewrite Hw in HT'. zbool.
    repeat match goal with H : _ || _ = true |- _ => apply orb_true_iff in H as [H|H] end;
      match goal with H : bool_decide (_ ) = true |- _ => apply bool_decide_eq_true_1 in H end;
      naive_solver.
  - intros t th Ht Hst. specialize (HT' t th Ht). destruct (kt_wchan th); [by left|]. zbool.
    rewrite Hst in *. simpl in *. right. by eapply bool_decide_eq_true_1.
Qed.

Section keeps.
Context `{ErrnoH, IntrH}.

Lemma make_runnable_keeps thr : keeps sched_guar sched_wf (sched_make_runnable thr).
Proof.
  intros s [Hc Hs]. rewrite sched_make_runnable_eq.
  destruct (threads s !! thr) as [t|] eqn:Ht; [|done].
  destruct (queues s !! kt_runq) as [Q|] eqn:HQ; [|done].
  case_bool_decide; [|done]. simpl.
  split; [by apply core_enqueued|apply sleepers_enqueued; auto].
Qed.

Lemma make_runnable_wf thr s s' :
  sched_wf s → sched_make_runnable thr s = Ret tt s' → sched_wf s'.
Proof. intros Hwf Hs. pose proof (make_runnable_keeps thr s Hwf) as Hk. by rewrite Hs in Hk. Qed.

(** Dequeuing and waking the thread taken off, the common part of
    [sched_wakeup_on] and [sched_broadcast_on]. *)
Lemma dequeue_wake_wf s q Q thr t :
  sched_wf s → queues s !! q = Some Q → last (tq_list Q) = Some thr →
  threads s !! thr = Some t →
  sched_wf (put_thr thr (set_kt_state KT_RUN (unlinked t))
             (dequeued q (removelast (tq_list Q)) thr t Q s)).
Proof.
  intros [Hc Hs] HQ Hl Ht. split.
  - eapply core_put_thr; [|apply lookup_insert_eq|done|done].
    apply core_dequeued; [done|done|done|]. by apply last_perm.
  - by apply sleepers_dequeued.
Qed.

(** The thread just dequeued is woken and made runnable. *)
Lemma wake_keeps s q Q thr t {A} (m : M sched A) :
  sched_wf s → queues s !! q = Some Q → last (tq_list Q) = Some thr →
  threads s !! thr = Some t → keeps sched_guar sched_wf m →
  rwp True sched_guar (λ w _ s', sched_guar w s') (λ _, sched_wf)
    ((thr_upd thr (set_kt_state KT_RUN) ;;; sched_make_runnable thr ;;; m)
       (dequeued q (removelast (tq_list Q)) thr t Q s)).
Proof.
  intros Hwf HQ Hla Ht Hm. apply rwp_bind. simpl.
  erewrite alter_lookup_insert by apply lookup_insert_eq.
  apply keeps_bind; [apply make_runnable_keeps|done|].
  by apply dequeue_wake_wf.
Qed.

Lemma wakeup_on_keeps q : keeps sched_guar sched_wf (sched_wakeup_on q).
Proof.
  intros s Hwf. apply rwp_bind. rewrite sched_queue_empty_eq.
  destruct (queues s !! q) as [Q|] eqn:HQ; [|done]. simpl.
  destruct (tq_list Q) as [|x l] eqn:Hl; [done|]. apply rwp_bind.
  rewrite ktqueue_dequeue_eq, HQ. destruct (last (tq_list Q)) as [thr|] eqn:Hla; [|done].
  destruct (threads s !! thr) as [t|] eqn:Ht; [|done]. simpl.
  apply rwp_bind. simpl. apply rwp_bind. unfold thr_get. simpl. rewrite lookup_insert_eq.
  apply rwp_bind. simpl. destruct (_ || _); [|done].
  apply wake_keeps; auto with keeps.
Qed.

Lemma broadcast_loop_keeps n q : keeps sched_guar sched_wf (sched_broadcast_loop n q).
Proof.
  induction n as [|n IH]; intros s Hwf; simpl; apply rwp_bind;
    rewrite sched_queue_empty_eq; (destruct (queues s !! q) as [Q|] eqn:HQ; [|done]);
    simpl; (destruct (tq_list Q) as [|x l] eqn:Hl; [done|]); [done|].
  apply rwp_bind. rewrite ktqueue_dequeue_eq, HQ.
  destruct (last (tq_list Q)) as [thr|] eqn:Hla; [|done].
  destruct (threads s !! thr) as [t|] eqn:Ht; [|done]. simpl.
  apply rwp_bind. simpl. apply rwp_bind. unfold thr_get. simpl. rewrite lookup_insert_eq.
  by apply wake_keeps.
Qed.

Lemma thr_get_keeps G I t : keeps G I (thr_get t).
Proof. intros s Hs. unfold thr_get. by destruct (threads s !! t). Qed.

Lemma q_get_keeps G I q : keeps G I (q_get q).
Proof. intros s Hs. unfold q_get. by destruct (queues s !! q). Qed.

Lemma broadcast_on_keeps q : keeps sched_guar sched_wf (sched_broadcast_on q).
Proof. apply keeps_bind; [apply q_get_keeps|intros Q; apply broadcast_loop_keeps]. Qed.

(** A change of flags that leaves queueing and sleep states alone. *)
Lemma thr_flag_wf s thr t t' :
  sched_wf s → threads s !! thr = Some t →
  kt_wchan t' = kt_wchan t → kt_qlink t' = kt_qlink t → kt_state t' = kt_state t →
  sched_wf (put_thr thr t' s).
Proof.
  intros [Hc [Hw Hs]] Ht Ew El Es. split; [by eapply core_put_thr|]. split; simpl.
  - intros t1 th q [[<- <-]|[??]]%lookup_insert_Some; [|by eauto].
    rewrite Ew, Es. eauto.
  - intros t1 th [[<- <-]|[??]]%lookup_insert_Some; [|by eauto].
    rewrite Ew, Es. eauto.
Qed.

Lemma cancel_keeps thr : keeps sched_guar sched_wf (sched_cancel thr).
Proof.
  intros s Hwf. apply rwp_bind. unfold thr_get.
  destruct (threads s !! thr) as [t|] eqn:Ht; [|done]. simpl.
  assert (sched_wf (put_thr thr (set_kt_cancelled 1 t) s)) as Hwf1
    by (by eapply thr_flag_wf).
  case_bool_decide as Hst; simpl; [apply rwp_bind|]; simpl;
    (erewrite alter_lookup_insert by done); [|done].
  fold (put_thr thr (set_kt_cancelled 1 t) s).
  destruct (kt_wchan t) as [q|] eqn:Hq; [|done]. do 2 (apply rwp_bind; simpl).
  rewrite ktqueue_remove_eq. simpl. rewrite lookup_insert_eq. simpl.
  destruct (kt_qlink t); [|done].
  destruct (queues s !! q) as [Q|] eqn:HQ; [|done]. simpl.
  rewrite sched_make_runnable_eq. simpl. rewrite lookup_insert_eq.
  set (l := filter _ (tq_list Q)). destruct Hwf1 as [Hc1 Hs1].
  assert (sched_core (dequeued q l thr (set_kt_cancelled 1 t) Q
            (put_thr thr (set_kt_cancelled 1 t) s))) as Hc2.
  { apply core_dequeued; [done|done|apply lookup_insert_eq|].
    apply filter_ne_perm; [by eapply core_nodup; eauto using wf_core|].
    destruct Hwf as [[_ _ _ Hch _] _]. destruct (Hch _ _ _ Ht Hq) as (?&?&?).
    by simplify_eq. }
  destruct (<[q:=_]> (queues s) !! kt_runq) as [Q2|] eqn:HQ2; [|done].
  simpl. split.
  - apply core_enqueued; [done|apply lookup_insert_eq|done|done].
  - destruct Hs1 as [Hw1 Hs1]. split; simpl; rewrite insert_insert_eq.
    + intros t1 th q1 [[<- <-]|[??]]%lookup_insert_Some ??; simpl in *; [congruence|].
      eapply Hw1; simpl; eauto.
    + intros t1 th [[<- <-]|[??]]%lookup_insert_Some ?; simpl in *; [by left|].
      eapply Hs1; simpl; eauto.
Qed.

(** While no thread runs. *)
Definition sched_idle (s : sched) : Prop := sched_wf s ∧ sched_strict s.

Lemma wf_ipl s i :
  sched_wf s → sched_wf (Sched (threads s) (queues s) (curthr s) (curproc s) i).
Proof. intros [Hc [??]]. split; [by apply core_globals|done]. Qed.

Lemma setipl_keeps i : keeps sched_guar sched_wf (intr_setipl i).
Proof. apply keeps_modify. intros s. apply wf_ipl. Qed.

Lemma setipl_keeps_idle i : keeps sched_guar sched_idle (intr_setipl i).
Proof. apply keeps_modify. intros s [? ?]. split; [by apply wf_ipl|done]. Qed.

Lemma switch_wait_keeps n : keeps sched_guar sched_idle (sched_switch_wait n).
Proof.
  assert (∀ q, keeps sched_guar sched_idle (sched_queue_empty q)) as He.
  { intros q s Hs. rewrite sched_queue_empty_eq. by destruct (queues s !! q). }
  assert (keeps sched_guar sched_idle (block IntrWait)) as Hb.
  { apply keeps_block; unfold sched_guar, sched_idle; naive_solver. }
  induction n as [|n IH]; simpl.
  - apply keeps_bind; [done|]. intros []; auto with keeps.
  - apply keeps_bind; [done|]. intros []; [|auto with keeps].
    repeat (apply keeps_bind; [auto using setipl_keeps_idle|intros _]). done.
Qed.

(** Dispatching the thread at the tail of the run queue. *)
Lemma dispatch_wf s Q thr t p :
  sched_idle s → queues s !! kt_runq = Some Q → last (tq_list Q) = Some thr →
  threads s !! thr = Some t →
  let s' := dequeued kt_runq (removelast (tq_list Q)) thr t Q s in
  sched_wf (Sched (threads s') (queues s') (Some thr) p (ipl s')).
Proof.
  intros [[Hc [Hw Hs]] Hst] HQ Hl Ht s'. split.
  - apply core_globals, core_dequeued; [done|done|done|]. by apply last_perm.
  - split; simpl.
    + intros t1 th q [[<- <-]|[??]]%lookup_insert_Some; [done|by eauto].
    + intros t1 th [[<- <-]|[??]]%lookup_insert_Some; [by right|left; eauto].
Qed.

Lemma switch_keeps s :
  sched_idle s →
  rwp True sched_guar (λ w _ s', sched_guar w s') (λ _, sched_wf) (sched_switch s).
Proof.
  intros Hi. unfold sched_switch. apply rwp_bind. simpl.
  apply rwp_bind. eapply rwp_mono; [by apply setipl_keeps_idle|]. intros [] s1 Hi1.
  apply rwp_bind. eapply rwp_mono; [by apply switch_wait_keeps|]. intros [] s2 Hi2.
  apply rwp_bind. unfold curthr_get. destruct (curthr s2) as [old|]; [|done]. simpl.
  apply rwp_bind. rewrite ktqueue_dequeue_eq.
  destruct (queues s2 !! kt_runq) as [Q|] eqn:HQ; [|done].
  destruct (last (tq_list Q)) as [thr|] eqn:Hl; [|done].
  destruct (threads s2 !! thr) as [t|] eqn:Ht; [|done]. simpl.
  do 2 (apply rwp_bind; simpl). unfold thr_get. simpl. rewrite lookup_insert_eq. simpl.
  split.
  - split; [|done]. by eapply (dispatch_wf _ Q thr t).
  - intros s3 [Hwf3 _]. by apply setipl_keeps.
Qed.

(** Putting the running thread to sleep on [q], before the switch. *)
Lemma go_to_sleep_idle s q cur t Q st :
  sched_wf s → curthr s = Some cur → threads s !! cur = Some t → kt_wchan t = None →
  queues s !! q = Some Q → st = KT_SLEEP ∨ st = KT_SLEEP_CANCELLABLE →
  sched_idle (enqueued q cur (set_kt_state st t) Q (put_thr cur (set_kt_state st t) s)).
Proof.
  intros [Hc [Hw Hs]] Hcur Ht Hn HQ Hst. split; [split|].
  - apply core_enqueued; [|apply lookup_insert_eq|done|done].
    by eapply core_put_thr.
  - split; simpl; rewrite insert_insert_eq.
    + intros t1 th q1 [[<- <-]|[??]]%lookup_insert_Some; simpl; [naive_solver|by eauto].
    + intros t1 th [[<- <-]|[??]]%lookup_insert_Some; simpl; [by left|by eauto].
  - intros t1 th. simpl. rewrite insert_insert_eq.
    intros [[<- <-]|[??]]%lookup_insert_Some Hcs; [done|].
    destruct (Hs t1 th) as [|?]; [done|done|done|congruence].
Qed.

Lemma sleep_enqueue s q cur t st :
  sched_wf s → curthr s = Some cur → threads s !! cur = Some t →
  st = KT_SLEEP ∨ st = KT_SLEEP_CANCELLABLE →
  rwp True sched_guar (λ w _ s', sched_guar w s') (λ _, sched_idle)
    (ktqueue_enqueue q cur (put_thr cur (set_kt_state st t) s)).
Proof.
  intros Hwf Hcur Ht Hst. rewrite ktqueue_enqueue_eq. simpl. rewrite lookup_insert_eq.
  destruct (queues s !! q) as [Q|] eqn:HQ; [|done]. case_bool_decide; [|done]. simpl.
  by apply go_to_sleep_idle.
Qed.

Lemma sleep_on_keeps q : keeps sched_guar sched_wf (sched_sleep_on q).
Proof.
  intros s Hwf. apply rwp_bind. unfold curthr_get.
  destruct (curthr s) as [cur|] eqn:Hcur; [|done]. simpl. apply rwp_bind. unfold thr_get.
  destruct (threads s !! cur) as [t|] eqn:Ht; [|done]. simpl.
  apply rwp_bind. simpl. erewrite alter_lookup_insert by done.
  apply rwp_bind. eapply rwp_mono; [apply sleep_enqueue; auto|].
  intros [] s1. apply switch_keeps.
Qed.

Lemma curthr_get_keeps G I : keeps G I curthr_get.
Proof. intros s Hs. unfold curthr_get. by destruct (curthr s). Qed.

Lemma cancellable_sleep_on_keeps q :
  keeps sched_guar sched_wf (sched_cancellable_sleep_on q).
Proof.
  intros s Hwf. apply rwp_bind. change (curthr_get s) with (deref (curthr s) s).
  destruct (curthr s) as [cur|] eqn:Hcur; [|done]. simpl. apply rwp_bind.
  change (thr_get cur s) with (deref (threads s !! cur) s). destruct (threads s !! cur) as [t|] eqn:Ht; [|done]. simpl.
  destruct (negb _); [|done].
  apply rwp_bind. simpl. erewrite alter_lookup_insert by done.
  apply rwp_bind. eapply rwp_mono; [apply sleep_enqueue; auto|].
  intros [] s1 Hi1. apply rwp_bind. eapply rwp_mono; [by apply switch_keeps|].
  intros [] s2 Hwf2. revert s2 Hwf2.
  repeat (apply keeps_bind; [auto using curthr_get_keeps, thr_get_keeps|intros ?]).
  destruct (negb _); auto with keeps.
Qed.
End keeps.

(** ** Any program of scheduler calls keeps the invariant *)

(** The public entry points of the scheduler. *)
Inductive sched_call :=
| MakeRunnable (thr : tid) | SleepOn (q : qid) | CancellableSleepOn (q : qid)
| Cancel (thr : tid) | WakeupOn (q : qid) | BroadcastOn (q : qid).

Definition run_call `{ErrnoH, IntrH} (c : sched_call) : M sched unit :=
  match c with
  | MakeRunnable thr => sched_make_runnable thr
  | SleepOn q => sched_sleep_on q
  | CancellableSleepOn q => sched_cancellable_sleep_on q ;;; ret tt
  | Cancel thr => sched_cancel thr
  | WakeupOn q => sched_wakeup_on q ;;; ret tt
  | BroadcastOn q => sched_broadcast_on q
  end.

Fixpoint run_calls `{ErrnoH, IntrH} (cs : list sched_call) : M sched unit :=
  match cs with [] => ret tt | c :: cs => run_call c ;;; run_calls cs end.

(** The state after [sched_init]: no thread exists yet. *)
Definition sched_boot : sched := Sched ∅ {[kt_runq := Ktqueue [] 0]} None None 0.

Lemma sched_boot_wf : sched_wf sched_boot.
Proof.
  split; split; simpl; try (intros *; by rewrite lookup_empty).
  - by intros q Q [<- <-]%lookup_singleton_Some.
  - intros q Q [<- <-]%lookup_singleton_Some. constructor.
  - intros q Q t [<- <-]%lookup_singleton_Some. by intros ?%elem_of_nil.
Qed.

(** C1: The scheduler keeps its queues consistent. Whatever sequence of scheduler
    calls a thread makes, at every point where it gives up the processor (and when
    the sequence ends) each queue counts its threads and holds each of them once,
    every queued thread is in exactly the queue its [kt_wchan] names with its link
    set, threads on wait queues are asleep, and cancellable sleepers are queued;
    this holds for every interleaving in which the other threads do the same. *)
Theorem sched_calls_keep_wf `{ErrnoH, IntrH} (cs : list sched_call) :
  sched_wf sched_boot ∧ keeps sched_guar sched_wf (run_calls cs).
Proof.
  split; [apply sched_boot_wf|].
  induction cs as [|c cs IH]; simpl; [auto with keeps|]. apply keeps_bind; [|done].
  destruct c; simpl; auto using make_runnable_keeps, sleep_on_keeps, cancel_keeps,
    broadcast_on_keeps; apply keeps_bind; auto using cancellable_sleep_on_keeps,
    wakeup_on_keeps with keeps.
Qed.

(** ** First in, first out *)

(** The threads waiting in a queue, the one that has waited longest first. *)
Definition waiting (s : sched) (q : qid) : list tid :=
  match queues s !! q with Some Q => reverse (tq_list Q) | None => [] end.

Lemma waiting_enqueued s q thr t Q :
  queues s !! q = Some Q → waiting (enqueued q thr t Q s) q = waiting s q ++ [thr].
Proof. intros HQ. unfold waiting. simpl. rewrite lookup_insert_eq, HQ. simpl. apply reverse_cons. Qed.
Lemma waiting_enqueued_ne s q q' thr t Q :
  q' ≠ q → waiting (enqueued q thr t Q s) q' = waiting s q'.
Proof. intros Hq. unfold waiting. simpl. by rewrite lookup_insert_ne. Qed.

(** The threads other than those of [ts] are the same in both states. *)
Definition same_threads_but (ts : list tid) (s s' : sched) : Prop :=
  ∀ t, t ∉ ts → threads s' !! t = threads s !! t.
Definition same_queues_but (qs : list qid) (s s' : sched) : Prop :=
  ∀ q, q ∉ qs → queues s' !! q = queues s !! q.

(** Queues and threads are still there, and threads belong to the same process. *)
Record sched_frame (x x' : sched) : Prop := {
  sf_threads t th : threads x !! t = Some th →
    ∃ th', threads x' !! t = Some th' ∧ kt_proc th' = kt_proc th;
  sf_queues q : is_Some (queues x !! q) → is_Some (queues x' !! q);
  sf_curthr : curthr x' = curthr x;
  sf_curproc : curproc x' = curproc x
}.

Lemma sched_frame_refl x : sched_frame x x.
Proof. split; eauto. Qed.

Lemma sched_frame_trans x y z : sched_frame x y → sched_frame y z → sched_frame x z.
Proof.
  intros [H1 H2 H3 H4] [G1 G2 G3 G4]. split; [|by auto|congruence|congruence].
  intros t th Ht. destruct (H1 _ _ Ht) as (th1 & Ht1 & ?).
  destruct (G1 _ _ Ht1) as (th2 & Ht2 & ?). eexists. split; [done|congruence].
Qed.

Lemma sched_frame_put_q x q Q : sched_frame x (put_q q Q x).
Proof.
  split; simpl; [by eauto| |done|done]. intros q1 Hq1.
  destruct (decide (q = q1)) as [->|]; [rewrite lookup_insert_eq; eauto|].
  by rewrite lookup_insert_ne.
Qed.

(** Changing a thread and a queue. *)
Lemma sched_frame_put x t th th' q Q :
  threads x !! t = Some th → kt_proc th' = kt_proc th →
  sched_frame x (put_thr t th' (put_q q Q x)).
Proof.
  intros Ht Hp. eapply sched_frame_trans; [apply (sched_frame_put_q x q Q)|].
  split; simpl; [|by auto|done|done]. intros t1 th1 Ht1.
  destruct (decide (t = t1)) as [->|]; [rewrite lookup_insert_eq; naive_solver|].
  rewrite lookup_insert_ne by done. eauto.
Qed.

Lemma waiting_cons s q thr rest :
  waiting s q = thr :: rest →
  ∃ Q, queues s !! q = Some Q ∧ tq_list Q = reverse rest ++ [thr].
Proof.
  unfold waiting. destruct (queues s !! q) as [Q|] eqn:HQ; [|done].
  intros Hr. exists Q. split; [done|].
  rewrite <- (reverse_involutive (tq_list Q)), Hr, reverse_cons. done.
Qed.

(** The state after the thread that has waited longest on [q] was woken. *)
Definition woken (q : qid) (Q R : ktqueue) (thr : tid) (t : kthread) (s : sched) : sched :=
  Sched (<[thr := linked kt_runq (set_kt_state KT_RUN t)]> (threads s))
        (<[kt_runq := Ktqueue (thr :: tq_list R) (tq_size R + 1)]>
           (<[q := Ktqueue (removelast (tq_list Q)) (tq_size Q - 1)]> (queues s)))
        (curthr s) (curproc s) (ipl s).

Section fifo.
Context `{ErrnoH, IntrH}.

Lemma make_runnable_dequeued s q l Q R thr t :
  queues s !! kt_runq = Some R → q ≠ kt_runq →
  (thr_upd thr (set_kt_state KT_RUN) ;;; sched_make_runnable thr)
     (dequeued q l thr t Q s) =
  Ret tt (Sched (<[thr := linked kt_runq (set_kt_state KT_RUN t)]> (threads s))
            (<[kt_runq := Ktqueue (thr :: tq_list R) (tq_size R + 1)]>
               (<[q := Ktqueue l (tq_size Q - 1)]> (queues s)))
            (curthr s) (curproc s) (ipl s)).
Proof.
  intros HR Hq. unfold bind, thr_upd, modify. simpl.
  erewrite alter_lookup_insert by apply lookup_insert_eq.
  rewrite sched_make_runnable_eq. simpl. rewrite lookup_insert_eq, lookup_insert_ne by done.
  rewrite HR, bool_decide_eq_true_2 by done. unfold enqueued, put_thr, put_q. simpl.
  by rewrite !insert_insert_eq.
Qed.

Lemma waiting_woken s q Q R thr t rest :
  queues s !! q = Some Q → queues s !! kt_runq = Some R → q ≠ kt_runq →
  waiting s q = thr :: rest →
  waiting (woken q Q R thr t s) q = rest ∧
  waiting (woken q Q R thr t s) kt_runq = waiting s kt_runq ++ [thr].
Proof.
  intros HQ HR Hq Hw. destruct (waiting_cons _ _ _ _ Hw) as (Q' & ? & Hl). simplify_eq.
  unfold waiting. simpl.
  rewrite lookup_insert_ne, lookup_insert_eq, lookup_insert_eq, HR by done. simpl.
  by rewrite Hl, removelast_last, reverse_involutive, reverse_cons.
Qed.

Lemma woken_wf s q Q R thr t :
  sched_wf s → queues s !! q = Some Q → queues s !! kt_runq = Some R → q ≠ kt_runq →
  last (tq_list Q) = Some thr → threads s !! thr = Some t →
  sched_wf (woken q Q R thr t s).
Proof.
  intros Hwf HQ HR Hq Hl Ht.
  pose proof (make_runnable_dequeued s q (removelast (tq_list Q)) Q R thr t HR Hq) as Hm.
  unfold bind, thr_upd, modify in Hm. simpl in Hm.
  erewrite alter_lookup_insert in Hm by apply lookup_insert_eq.
  eapply make_runnable_wf; [|exact Hm]. by apply dequeue_wake_wf.
Qed.

(** A waiting thread exists, is asleep and names its queue. *)
Lemma waiting_thread s q thr :
  sched_wf s → q ≠ kt_runq → thr ∈ waiting s q →
  ∃ t, threads s !! thr = Some t ∧ kt_wchan t = Some q ∧
    (kt_state t = KT_SLEEP ∨ kt_state t = KT_SLEEP_CANCELLABLE).
Proof.
  intros [Hc Hs] Hq Hin. unfold waiting in Hin.
  destruct (queues s !! q) as [Q|] eqn:HQ; [|set_solver].
  rewrite elem_of_reverse in Hin. destruct (core_on _ Hc _ _ _ HQ Hin) as (t & Ht & Hw).
  exists t. eauto using sl_wait.
Qed.

Lemma wakeup_on_run s q thr rest R :
  sched_wf s → q ≠ kt_runq → queues s !! kt_runq = Some R → waiting s q = thr :: rest →
  ∃ Q t, queues s !! q = Some Q ∧ threads s !! thr = Some t ∧
    last (tq_list Q) = Some thr ∧
    sched_wakeup_on q s = Ret (Some thr) (woken q Q R thr t s).
Proof.
  intros Hwf Hq HR Hw. destruct (waiting_cons _ _ _ _ Hw) as (Q & HQ & Hl).
  destruct (waiting_thread s q thr Hwf Hq) as (t & Ht & Htw & Hst); [rewrite Hw; set_solver|].
  assert (last (tq_list Q) = Some thr) as Hla by (rewrite Hl; apply last_snoc).
  exists Q, t. split; [done|]. split; [done|]. split; [done|].
  unfold sched_wakeup_on. erewrite bind_Ret by (by rewrite sched_queue_empty_eq, HQ).
  rewrite Hl. destruct (reverse rest ++ [thr]) as [|x l] eqn:E;
    [by destruct (reverse rest)|]. rewrite <- E, <- Hl in *.
  erewrite bind_Ret by (by rewrite ktqueue_dequeue_eq, HQ, Hla, Ht).
  erewrite bind_Ret by done.
  erewrite (bind_Ret (thr_get thr)) by (unfold thr_get; simpl; by rewrite lookup_insert_eq).
  erewrite bind_Ret by (apply kassert_true; destruct Hst as [E'|E']; simpl; by rewrite E').
  pose proof (make_runnable_dequeued s q (removelast (tq_list Q)) Q R thr t HR Hq) as Hm.
  unfold bind in *. simpl in *. by rewrite Hm.
Qed.

(** C38: Wait queues are first-in first-out. [sched_wakeup_on] on a non-empty wait
    queue returns, and wakes exactly the thread that has waited longest: that
    thread becomes runnable behind all runnable threads, the others keep their
    places, and no other thread or queue changes. *)
Theorem sched_wakeup_on_fifo s q thr rest :
  sched_wf s → q ≠ kt_runq → is_Some (queues s !! kt_runq) →
  waiting s q = thr :: rest →
  returns (sched_wakeup_on q) s (λ r s',
    r = Some thr ∧ waiting s' q = rest ∧
    waiting s' kt_runq = waiting s kt_runq ++ [thr] ∧
    (∃ t, threads s' !! thr = Some t ∧ kt_state t = KT_RUN ∧ kt_wchan t = Some kt_runq) ∧
    same_threads_but [thr] s s' ∧ same_queues_but [q; kt_runq] s s' ∧
    curthr s' = curthr s ∧ ipl s' = ipl s).
Proof.
  intros Hwf Hq [R HR] Hw.
  destruct (wakeup_on_run s q thr rest R Hwf Hq HR Hw) as (Q & t & HQ & Ht & Hla & Hrun).
  exists (Some thr), (woken q Q R thr t s). split; [done|].
  destruct (waiting_woken s q Q R thr t rest HQ HR Hq Hw).
  do 3 (split; [done|]). split; [|split; [|split; [|done]]].
  - simpl. rewrite lookup_insert_eq. eauto.
  - intros t' Hne. simpl. rewrite lookup_insert_ne; [done|]. set_solver.
  - intros q' Hne. simpl. rewrite !lookup_insert_ne; [done|set_solver|set_solver].
Qed.

Lemma woken_frame q Q R thr t s :
  threads s !! thr = Some t → sched_frame s (woken q Q R thr t s).
Proof.
  intros Ht. set (Q1 := Ktqueue (removelast (tq_list Q)) (tq_size Q - 1)).
  apply (sched_frame_trans _ (put_q q Q1 s)); [apply sched_frame_put_q|].
  apply (sched_frame_put (put_q q Q1 s) thr t _ kt_runq); [exact Ht|done].
Qed.

(** One turn of the broadcast loop. *)
Lemma broadcast_loop_step n s q thr rest R :
  sched_wf s → q ≠ kt_runq → queues s !! kt_runq = Some R → waiting s q = thr :: rest →
  ∃ Q t, queues s !! q = Some Q ∧ threads s !! thr = Some t ∧
    sched_wf (woken q Q R thr t s) ∧
    sched_broadcast_loop (S n) q s = sched_broadcast_loop n q (woken q Q R thr t s).
Proof.
  intros Hwf Hq HR Hw. destruct (waiting_cons _ _ _ _ Hw) as (Q & HQ & Hl).
  assert (last (tq_list Q) = Some thr) as Hla by (rewrite Hl; apply last_snoc).
  destruct (waiting_thread s q thr Hwf Hq) as (t & Ht & _); [rewrite Hw; set_solver|].
  exists Q, t. do 2 (split; [done|]). split; [by apply woken_wf|].
  simpl. erewrite bind_Ret by (by rewrite sched_queue_empty_eq, HQ).
  rewrite Hl. destruct (reverse rest ++ [thr]) as [|x l] eqn:E; [by destruct (reverse rest)|].
  erewrite bind_Ret by (by rewrite ktqueue_dequeue_eq, HQ, Hla, Ht).
  erewrite bind_Ret by done.
  erewrite (bind_Ret (thr_get thr)) by (unfold thr_get; simpl; by rewrite lookup_insert_eq).
  pose proof (make_runnable_dequeued s q (removelast (tq_list Q)) Q R thr t HR Hq) as Hm.
  unfold bind in *. simpl in *. by rewrite Hm.
Qed.

Lemma broadcast_loop_run n : ∀ s q,
  sched_wf s → q ≠ kt_runq → is_Some (queues s !! kt_runq) → is_Some (queues s !! q) →
  length (waiting s q) = n →
  returns (sched_broadcast_loop n q) s (λ _ s',
    waiting s' q = [] ∧ waiting s' kt_runq = waiting s kt_runq ++ waiting s q ∧
    (∀ t, t ∈ waiting s q → ∃ th, threads s' !! t = Some th ∧ kt_state th = KT_RUN) ∧
    same_threads_but (waiting s q) s s' ∧ same_queues_but [q; kt_runq] s s' ∧
    sched_frame s s').
Proof.
  induction n as [|n IH]; intros s q Hwf Hq [R HR] [Q HQ] Hn.
  - apply nil_length_inv in Hn. exists tt, s. split.
    + unfold waiting in Hn. rewrite HQ in Hn. apply (f_equal reverse) in Hn.
      rewrite reverse_involutive in Hn. simpl. unfold bind.
      rewrite sched_queue_empty_eq, HQ. simpl. by rewrite Hn.
    + rewrite Hn, app_nil_r. split; [done|]. split; [done|]. split; [set_solver|].
      split; [done|]. split; [done|]. apply sched_frame_refl.
  - destruct (waiting s q) as [|thr rest] eqn:Hw; [done|]. simpl in Hn.
    destruct (broadcast_loop_step n s q thr rest R Hwf Hq HR Hw)
      as (Q' & t & ? & Ht & Hwf' & Hstep). simplify_eq.
    destruct (waiting_woken s q Q R thr t rest HQ HR Hq Hw) as [Hw' Hr'].
    destruct (IH (woken q Q R thr t s) q Hwf' Hq)
      as ([] & s' & Hrun & He & Hrq & Hst & Hsm & Hsq & Hc).
    { simpl. rewrite lookup_insert_eq. eauto. }
    { simpl. rewrite lookup_insert_ne, lookup_insert_eq by done. eauto. }
    { by rewrite Hw'. }
    exists tt, s'. rewrite Hstep. split; [done|].
    rewrite Hw' in *. rewrite Hr', <- app_assoc in Hrq.
    split; [done|]. split; [done|]. split; [|split; [|split]].
    + intros t1 [->|Hin]%elem_of_cons; [|by apply Hst].
      destruct (decide (thr ∈ rest)) as [Hin|Hnin]; [by apply Hst|].
      rewrite (Hsm _ Hnin). simpl. rewrite lookup_insert_eq. eauto.
    + intros t1 Hne. rewrite Hsm by set_solver. simpl.
      rewrite lookup_insert_ne; [done|set_solver].
    + intros q1 Hne. rewrite Hsq by done. simpl.
      rewrite !lookup_insert_ne; [done|set_solver|set_solver].
    + eapply sched_frame_trans; [|exact Hc]. by eapply woken_frame.
Qed.

Lemma broadcast_on_run s q :
  sched_wf s → q ≠ kt_runq → is_Some (queues s !! kt_runq) → is_Some (queues s !! q) →
  returns (sched_broadcast_on q) s (λ _ s',
    waiting s' q = [] ∧ waiting s' kt_runq = waiting s kt_runq ++ waiting s q ∧
    (∀ t, t ∈ waiting s q → ∃ th, threads s' !! t = Some th ∧ kt_state th = KT_RUN) ∧
    same_threads_but (waiting s q) s s' ∧ same_queues_but [q; kt_runq] s s' ∧
    sched_frame s s').
Proof.
  intros Hwf Hq HR [Q HQ]. apply returns_bind. exists Q, s.
  unfold q_get. rewrite HQ. split; [done|]. apply broadcast_loop_run; try done.
  unfold waiting. rewrite HQ. apply length_reverse.
Qed.

(** C26: [sched_broadcast_on] terminates and empties a wait queue: every thread that
    waited becomes runnable, in the order in which they had gone to sleep and
    behind the threads that were runnable before; nothing else changes. *)
Theorem sched_broadcast_on_wakes_all s q :
  sched_wf s → q ≠ kt_runq → is_Some (queues s !! kt_runq) → is_Some (queues s !! q) →
  returns (sched_broadcast_on q) s (λ _ s',
    waiting s' q = [] ∧ waiting s' kt_runq = waiting s kt_runq ++ waiting s q ∧
    (∀ t, t ∈ waiting s q → ∃ th, threads s' !! t = Some th ∧ kt_state th = KT_RUN) ∧
    same_threads_but (waiting s q) s s' ∧ same_queues_but [q; kt_runq] s s' ∧
    sched_frame s s').
Proof. apply broadcast_on_run. Qed.

(** The thread that [sched_switch] dispatches next, with a non-empty run queue. *)
Lemma sched_switch_run s cur next rest t :
  curthr s = Some cur → waiting s kt_runq = next :: rest →
  threads s !! next = Some t →
  ∃ Q, queues s !! kt_runq = Some Q ∧
    sched_switch s =
      let s' := dequeued kt_runq (removelast (tq_list Q)) next t Q s in
      Block ContextSwitch
        (Sched (threads s') (queues s') (Some next) (kt_proc t) IPL_HIGH)
        (intr_setipl (ipl s)).
Proof.
  intros Hcur Hw Ht. destruct (waiting_cons _ _ _ _ Hw) as (Q & HQ & Hl).
  assert (last (tq_list Q) = Some next) as Hla by (rewrite Hl; apply last_snoc).
  exists Q. split; [done|]. unfold sched_switch.
  erewrite bind_Ret by done. erewrite bind_Ret by done. simpl.
  erewrite (bind_Ret (sched_switch_wait _)).
  2: { destruct intr_waits; simpl; unfold bind; rewrite sched_queue_empty_eq; simpl;
       rewrite HQ; simpl; rewrite Hl; by destruct (reverse rest). }
  erewrite (bind_Ret curthr_get) by (unfold curthr_get; simpl; by rewrite Hcur).
  erewrite bind_Ret by (rewrite ktqueue_dequeue_eq; simpl; by rewrite HQ, Hla, Ht).
  erewrite bind_Ret by done.
  erewrite (bind_Ret (thr_get next)) by (unfold thr_get; simpl; by rewrite lookup_insert_eq).
  done.
Qed.

(** With a runnable thread, [sched_switch] hands over the processor. *)
Lemma sched_switch_dispatch s cur next rest :
  sched_wf s → curthr s = Some cur → waiting s kt_runq = next :: rest →
  ∃ s' t, sched_switch s = Block ContextSwitch s' (intr_setipl (ipl s)) ∧
    threads s !! next = Some t ∧ threads s' !! next = Some (unlinked t) ∧
    curthr s' = Some next ∧ curproc s' = kt_proc t ∧
    waiting s' kt_runq = rest ∧ same_threads_but [next] s s' ∧
    same_queues_but [kt_runq] s s'.
Proof.
  intros [Hc _] Hcur Hw. destruct (waiting_cons _ _ _ _ Hw) as (Q & HQ & Hl).
  destruct (core_on _ Hc _ _ next HQ) as (t & Ht & _); [rewrite Hl; set_solver|].
  destruct (sched_switch_run s cur next rest t Hcur Hw Ht) as (Q' & ? & Hrun). simplify_eq.
  eexists _, t. split; [exact Hrun|]. split; [done|]. simpl.
  split; [by rewrite lookup_insert_eq|]. do 2 (split; [done|]). split; [|split].
  - unfold waiting. simpl. rewrite lookup_insert_eq. simpl.
    by rewrite Hl, removelast_last, reverse_involutive.
  - intros t1 ?. simpl. rewrite lookup_insert_ne; [done|set_solver].
  - intros q1 ?. simpl. rewrite lookup_insert_ne; [done|set_solver].
Qed.

(** With nothing runnable, [sched_switch] waits for an interrupt, and it does so at
    the low interrupt level, with queues and threads untouched. *)
Lemma sched_switch_idles s :
  (0 < intr_waits)%nat → is_Some (queues s !! kt_runq) → waiting s kt_runq = [] →
  ∃ k, sched_switch s =
    Block IntrWait (Sched (threads s) (queues s) (curthr s) (curproc s) IPL_LOW) k.
Proof.
  intros Hn [Q HQ] Hw. unfold waiting in Hw. rewrite HQ in Hw.
  apply (f_equal reverse) in Hw. rewrite reverse_involutive in Hw. simpl in Hw.
  unfold sched_switch, bind. simpl. destruct intr_waits as [|n]; [lia|]. simpl.
  unfold bind. rewrite sched_queue_empty_eq. simpl. rewrite HQ, Hw. simpl. eauto.
Qed.

(** C37: With a runnable thread, [sched_switch] never waits for an interrupt: it
    hands the processor to the thread that has been runnable longest, which it
    takes off the run queue and makes the current thread of the current process;
    the switched-out thread, whenever it is resumed, returns at once with the
    interrupt level it had before. With none, it waits for an interrupt at the low
    interrupt level and changes nothing else. *)
Theorem sched_switch_dispatches s cur :
  sched_wf s → is_Some (queues s !! kt_runq) → curthr s = Some cur →
  (0 < intr_waits)%nat →
  match waiting s kt_runq with
  | next :: rest =>
      ∃ s' t, sched_switch s = Block ContextSwitch s' (intr_setipl (ipl s)) ∧
        threads s !! next = Some t ∧ threads s' !! next = Some (unlinked t) ∧
        curthr s' = Some next ∧ curproc s' = kt_proc t ∧
        waiting s' kt_runq = rest ∧ same_threads_but [next] s s' ∧
        same_queues_but [kt_runq] s s'
  | [] =>
      ∃ k, sched_switch s =
        Block IntrWait (Sched (threads s) (queues s) (curthr s) (curproc s) IPL_LOW) k
  end.
Proof.
  intros Hwf HR Hcur Hn. destruct (waiting s kt_runq) as [|next rest] eqn:Hw.
  - by apply sched_switch_idles.
  - by eapply sched_switch_dispatch.
Qed.

Lemma filter_ne_notin (l : list tid) x : x ∉ l → filter (λ y, y ≠ x) l = l.
Proof.
  induction l as [|y l IH]; intros Hn; [done|].
  rewrite filter_cons_True by set_solver. f_equal. apply IH. set_solver.
Qed.

(** A thread waits in the queue its [kt_wchan] names and nowhere else. *)
Lemma not_waiting s q thr t :
  sched_core s → threads s !! thr = Some t → kt_wchan t ≠ Some q → thr ∉ waiting s q.
Proof.
  intros Hc Ht Hw Hin. unfold waiting in Hin.
  destruct (queues s !! q) as [Q|] eqn:HQ; [|set_solver].
  rewrite elem_of_reverse in Hin. destruct (core_on _ Hc _ _ _ HQ Hin) as (?&?&?).
  congruence.
Qed.

Lemma waiting_elsewhere s q q' thr t :
  sched_core s → threads s !! thr = Some t → kt_wchan t = Some q → q' ≠ q →
  thr ∉ waiting s q'.
Proof. intros ? ? ? ?. eapply not_waiting; [done|done|congruence]. Qed.

Lemma sched_cancel_run s thr t q Q R :
  threads s !! thr = Some t → kt_state t = KT_SLEEP_CANCELLABLE → kt_wchan t = Some q →
  kt_qlink t = true → queues s !! q = Some Q →
  let Q' := Ktqueue (filter (λ t, t ≠ thr) (tq_list Q)) (tq_size Q - 1) in
  <[q := Q']> (queues s) !! kt_runq = Some R →
  sched_cancel thr s =
    Ret tt (Sched (<[thr := linked kt_runq (set_kt_cancelled 1 t)]> (threads s))
              (<[kt_runq := Ktqueue (thr :: tq_list R) (tq_size R + 1)]>
                 (<[q := Q']> (queues s)))
              (curthr s) (curproc s) (ipl s)).
Proof.
  intros Ht Hst Hq Hli HQ Q' HR. unfold sched_cancel.
  erewrite bind_Ret by (unfold thr_get; by rewrite Ht).
  rewrite bool_decide_eq_true_2 by done. erewrite bind_Ret by done. rewrite Hq.
  erewrite bind_Ret by done. erewrite alter_lookup_insert by done.
  erewrite bind_Ret.
  2: { rewrite ktqueue_remove_eq. simpl. rewrite lookup_insert_eq. simpl.
       rewrite Hli, HQ. done. }
  rewrite sched_make_runnable_eq. simpl. rewrite lookup_insert_eq. fold Q'. rewrite HR.
  rewrite bool_decide_eq_true_2 by done.
  unfold enqueued, dequeued, put_thr, put_q. simpl. by rewrite !insert_insert_eq.
Qed.

(** Cancelling a thread in a cancellable sleep returns, marks the thread
    cancelled, takes it off the queue it slept on, leaves every other waiting
    thread in its place, and makes the thread runnable behind all others. *)
Theorem sched_cancel_wakes_sleeper s thr t :
  sched_wf s → is_Some (queues s !! kt_runq) → curthr s ≠ Some thr →
  threads s !! thr = Some t → kt_state t = KT_SLEEP_CANCELLABLE →
  returns (sched_cancel thr) s (λ _ s',
    (∀ q, q ≠ kt_runq → waiting s' q = filter (λ t, t ≠ thr) (waiting s q)) ∧
    waiting s' kt_runq = filter (λ t, t ≠ thr) (waiting s kt_runq) ++ [thr] ∧
    (∃ t', threads s' !! thr = Some t' ∧ kt_cancelled t' = 1 ∧
       kt_wchan t' = Some kt_runq ∧ kt_state t' = KT_SLEEP_CANCELLABLE) ∧
    same_threads_but [thr] s s').
Proof.
  intros [Hc Hs] HR Hcur Ht Hst.
  destruct (sl_canc _ Hs _ _ Ht Hst) as [Hw|]; [|done].
  destruct (kt_wchan t) as [q|] eqn:Hq; [clear Hw|done].
  destruct (core_chan _ Hc _ _ _ Ht Hq) as (Q & HQ & Hin).
  assert (kt_qlink t = true) as Hli by (by rewrite (core_link _ Hc _ _ Ht), Hq).
  set (Q' := Ktqueue (filter (λ t, t ≠ thr) (tq_list Q)) (tq_size Q - 1)).
  assert (∃ R, <[q := Q']> (queues s) !! kt_runq = Some R ∧
    reverse (tq_list R) = filter (λ t, t ≠ thr) (waiting s kt_runq)) as (R & HR' & HRl).
  { destruct (decide (q = kt_runq)) as [->|Hne].
    - exists Q'. rewrite lookup_insert_eq. split; [done|]. unfold waiting. rewrite HQ.
      simpl. by rewrite filter_reverse.
    - destruct HR as [R HR]. exists R. rewrite lookup_insert_ne by done. split; [done|].
      rewrite filter_ne_notin by (by eapply waiting_elsewhere).
      unfold waiting. by rewrite HR. }
  eexists tt, _. split; [by apply (sched_cancel_run s thr t q Q R)|].
  split; [|split; [|split]].
  - intros q' Hq'. unfold waiting at 1. simpl. rewrite lookup_insert_ne by done.
    destruct (decide (q = q')) as [<-|Hne].
    + rewrite lookup_insert_eq. unfold waiting. rewrite HQ. simpl. by rewrite filter_reverse.
    + rewrite lookup_insert_ne by done.
      rewrite filter_ne_notin by (by eapply waiting_elsewhere). done.
  - unfold waiting at 1. simpl. rewrite lookup_insert_eq. simpl.
    by rewrite reverse_cons, HRl.
  - simpl. rewrite lookup_insert_eq. eauto 10.
  - intros t1 ?. simpl. rewrite lookup_insert_ne; [done|set_solver].
Qed.

(** The current thread goes to sleep on [q] while another one is runnable. *)
Lemma sleep_switches s q Q cur t st next rest :
  sched_wf s → curthr s = Some cur → threads s !! cur = Some t → kt_wchan t = None →
  queues s !! q = Some Q → q ≠ kt_runq → waiting s kt_runq = next :: rest →
  st = KT_SLEEP ∨ st = KT_SLEEP_CANCELLABLE →
  let t1 := set_kt_state st t in
  ∃ s', sched_switch (enqueued q cur t1 Q (put_thr cur t1 s)) =
      Block ContextSwitch s' (intr_setipl (ipl s)) ∧
    waiting s' q = waiting s q ++ [cur] ∧ curthr s' = Some next ∧ waiting s' kt_runq = rest ∧
    threads s' !! cur = Some (linked q t1).
Proof.
  intros Hwf Hcur Ht Hn HQ Hq Hw Hst t1.
  destruct (go_to_sleep_idle s q cur t Q st) as [Hwf1 _]; auto.
  fold t1 in Hwf1. set (s1 := enqueued q cur t1 Q (put_thr cur t1 s)) in *.
  assert (waiting s1 kt_runq = next :: rest) as Hw1.
  { unfold waiting in *. simpl. by rewrite lookup_insert_ne. }
  destruct (sched_switch_dispatch s1 cur next rest Hwf1 Hcur Hw1)
    as (s2 & tn & Hsw & Htn & _ & Hc2 & _ & Hrq2 & Hst2 & Hsq2).
  assert (cur ≠ next) as Hne.
  { intros <-. apply (waiting_elsewhere s1 q kt_runq cur (linked q t1)); try done.
    - by apply wf_core.
    - simpl. by rewrite lookup_insert_eq.
    - rewrite Hw1. set_solver. }
  exists s2. split; [done|]. split; [|split; [done|split; [done|]]].
  - unfold waiting. rewrite Hsq2 by set_solver. simpl. rewrite lookup_insert_eq, HQ. simpl.
    by rewrite reverse_cons.
  - rewrite Hst2 by set_solver. simpl. by rewrite lookup_insert_eq.
Qed.

(** What a cancellable sleep returns once the thread runs again. *)
Definition cancellable_sleep_rest (i : Z) : M sched Z :=
  intr_setipl i ;;;
  cur' <- curthr_get ;;
  t' <- thr_get cur' ;;
  if negb (kt_cancelled t' =? 1) then ret 0 else ret (- EINTR).

Lemma cancellable_sleep_rest_run i s cur t :
  curthr s = Some cur → threads s !! cur = Some t →
  cancellable_sleep_rest i s =
    Ret (if kt_cancelled t =? 1 then - EINTR else 0)
        (Sched (threads s) (queues s) (curthr s) (curproc s) i).
Proof.
  intros Hc Ht. unfold cancellable_sleep_rest. erewrite bind_Ret by done.
  unfold bind, curthr_get. simpl. rewrite Hc. simpl. unfold thr_get. simpl. rewrite Ht.
  simpl. by destruct (kt_cancelled t =? 1).
Qed.

Lemma cancellable_sleep_blocks s q Q cur t next rest :
  sched_wf s → curthr s = Some cur → threads s !! cur = Some t → kt_wchan t = None →
  queues s !! q = Some Q → q ≠ kt_runq → waiting s kt_runq = next :: rest →
  kt_cancelled t =? 1 = false →
  ∃ s' k, sched_cancellable_sleep_on q s = Block ContextSwitch s' k ∧
    waiting s' q = waiting s q ++ [cur] ∧ curthr s' = Some next ∧
    threads s' !! cur = Some (linked q (set_kt_state KT_SLEEP_CANCELLABLE t)) ∧
    ∀ s'', k s'' = cancellable_sleep_rest (ipl s) s''.
Proof.
  intros Hwf Hcur Ht Hn HQ Hq Hw Hcn. unfold sched_cancellable_sleep_on.
  erewrite (bind_Ret curthr_get) by (unfold curthr_get; by rewrite Hcur).
  erewrite (bind_Ret (thr_get cur)) by (unfold thr_get; by rewrite Ht).
  rewrite Hcn. simpl. erewrite bind_Ret by done. erewrite alter_lookup_insert by done.
  erewrite bind_Ret.
  2: { rewrite ktqueue_enqueue_eq. simpl. rewrite lookup_insert_eq, HQ.
       by rewrite bool_decide_eq_true_2. }
  destruct (sleep_switches s q Q cur t KT_SLEEP_CANCELLABLE next rest)
    as (s2 & Hsw & Hwq & Hc2 & _ & Ht2); auto.
  unfold bind at 1. fold (put_thr cur (set_kt_state KT_SLEEP_CANCELLABLE t) s).
  rewrite Hsw. simpl.
  eexists _, _. split; [done|]. split; [done|]. split; [done|]. by split.
Qed.

(** A cancellable sleep reports cancellation. If the thread is already
    cancelled it does not sleep and returns [-EINTR]; otherwise it sleeps on the
    queue, in the state of a cancellable sleeper and behind all earlier sleepers,
    and when it runs again it returns 0, or [-EINTR] if it was cancelled
    meanwhile. *)
Theorem sched_cancellable_sleep_on_result s q Q cur t next rest :
  sched_wf s → curthr s = Some cur → threads s !! cur = Some t → kt_wchan t = None →
  queues s !! q = Some Q → q ≠ kt_runq → waiting s kt_runq = next :: rest →
  if kt_cancelled t =? 1 then sched_cancellable_sleep_on q s = Ret (- EINTR) s
  else ∃ s' k, sched_cancellable_sleep_on q s = Block ContextSwitch s' k ∧
    waiting s' q = waiting s q ++ [cur] ∧ curthr s' = Some next ∧
    (∃ t', threads s' !! cur = Some t' ∧ kt_state t' = KT_SLEEP_CANCELLABLE) ∧
    ∀ s'' t'', curthr s'' = Some cur → threads s'' !! cur = Some t'' →
      ∃ s3, k s'' = Ret (if kt_cancelled t'' =? 1 then - EINTR else 0) s3 ∧
        threads s3 = threads s'' ∧ queues s3 = queues s''.
Proof.
  intros Hwf Hcur Ht Hn HQ Hq Hw. destruct (kt_cancelled t =? 1) eqn:Hcn.
  - unfold sched_cancellable_sleep_on.
    erewrite (bind_Ret curthr_get) by (unfold curthr_get; by rewrite Hcur).
    erewrite (bind_Ret (thr_get cur)) by (unfold thr_get; by rewrite Ht).
    by rewrite Hcn.
  - destruct (cancellable_sleep_blocks s q Q cur t next rest)
      as (s' & k & Hb & Hwq & Hc & Ht' & Hk); try done.
    exists s', k. do 3 (split; [done|]). split; [by eexists|].
    intros s'' t'' Hc'' Ht''. rewrite Hk, (cancellable_sleep_rest_run _ _ cur t'') by done.
    eauto.
Qed.
End fifo.

(** ** The theorems at work on a small state *)

(** Thread 1 runs, 2 is runnable, 3 and then 4 (cancellably) went to sleep on
    queue 2. *)
Definition ex_sched : sched :=
  let thr st w := Kthread st w (bool_decide (w ≠ None)) 0 0 0 (Some 1%positive) in
  Sched
    (list_to_map [(1%positive, thr KT_RUN None);
                  (2%positive, thr KT_RUN (Some kt_runq));
                  (3%positive, thr KT_SLEEP (Some 2%positive));
                  (4%positive, thr KT_SLEEP_CANCELLABLE (Some 2%positive))])
    (list_to_map [(kt_runq, Ktqueue [2%positive] 1);
                  (2%positive, Ktqueue [4%positive; 3%positive] 2)])
    (Some 1%positive) (Some 1%positive) 0.

Lemma ex_sched_wf : sched_wf ex_sched.
Proof. apply sched_wfb_wf. vm_compute. reflexivity. Qed.

#[local] Existing Instance errno_ex.
#[local] Existing Instance intr_ex.

Lemma sched_wakeup_on_fifo_witness :
  waiting ex_sched 2 = [3%positive; 4%positive] ∧
  returns (sched_wakeup_on 2) ex_sched (λ r s', r = Some 3%positive ∧ waiting s' 2 = [4%positive]).
Proof.
  split; [reflexivity|]. eapply returns_mono.
  - apply (sched_wakeup_on_fifo ex_sched 2 3 [4%positive]);
      [apply ex_sched_wf|done|by eexists|reflexivity].
  - naive_solver.
Defined.

Lemma sched_broadcast_on_wakes_all_witness :
  returns (sched_broadcast_on 2) ex_sched (λ _ s',
    waiting s' kt_runq = [2%positive; 3%positive; 4%positive]).
Proof.
  eapply returns_mono.
  - apply (sched_broadcast_on_wakes_all ex_sched 2);
      [apply ex_sched_wf|done|by eexists|by eexists].
  - naive_solver.
Defined.

Lemma sched_switch_dispatches_witness :
  ∃ s' k, sched_switch ex_sched = Block ContextSwitch s' k ∧ curthr s' = Some 2%positive.
Proof.
  destruct (sched_switch_dispatches ex_sched 1) as (s' & t & Hs & _ & _ & Hc & _);
    [apply ex_sched_wf|by eexists|reflexivity|simpl; lia|].
  eauto.
Defined.

Lemma sched_cancel_wakes_sleeper_witness :
  returns (sched_cancel 4) ex_sched (λ _ s',
    waiting s' 2 = [3%positive] ∧ waiting s' kt_runq = [2%positive; 4%positive]).
Proof.
  eapply returns_mono.
  - eapply (sched_cancel_wakes_sleeper ex_sched 4);
      [apply ex_sched_wf|by eexists|done|reflexivity|reflexivity].
  - intros a s' (Hq & Hr & _). split; [by rewrite Hq|by rewrite Hr].
Defined.

Lemma sched_cancellable_sleep_on_result_witness :
  ∃ s' k, sched_cancellable_sleep_on 2 ex_sched = Block ContextSwitch s' k ∧
    waiting s' 2 = [3%positive; 4%positive; 1%positive].
Proof.
  pose proof (sched_cancellable_sleep_on_result ex_sched 2
    (Ktqueue [4%positive; 3%positive] 2) 1 (Kthread KT_RUN None false 0 0 0 (Some 1%positive))
    2 [] ex_sched_wf) as Hr.
  destruct Hr as (s' & k & Hs & Hw & _); try reflexivity; [done|].
  eauto.
Defined.
