(* ===== verification/Kmutex.v ===== *)
(** * Kernel mutexes: proc/kmutex.c

    A mutex is a holder and a wait queue.  The queue lives in the scheduler's
    state; the mutex operations run the scheduler's operations on it. *)
From S2P Require Import Prelude Headers Sched.
Local Open Scope kernel_scope.

(** [kmutex_t]; [km_waitq] is the address of the queue inside the struct. *)
Record kmutex := Kmutex { km_holder : option tid; km_waitq : qid }.

(** The scheduler and the mutexes, by address. *)
Record kms := Kms { km_sched : sched; mutexes : gmap positive kmutex }.

Section kmutex.
Context `{ErrnoH, IntrH}.

Definition on_sched {A} (m : M sched A) : M kms A :=
  zoom km_sched (λ s k, Kms s (mutexes k)) m.

Definition mtx_get (mtx : positive) : M kms kmutex := λ k, deref (mutexes k !! mtx) k.
Definition set_holder (mtx : positive) (h : option tid) : M kms unit :=
  modify (λ k, Kms (km_sched k)
                 (alter (λ m, Kmutex h (km_waitq m)) mtx (mutexes k))).

Definition kmutex_init (mtx : positive) : M kms unit :=
  m <- mtx_get mtx ;;
  set_holder mtx None ;;;
  on_sched (sched_queue_init (km_waitq m)).

Definition kmutex_lock (mtx : positive) : M kms unit :=
  m <- mtx_get mtx ;;
  cur <- on_sched (get curthr) ;;
  kassert (bool_decide (cur ≠ None) && bool_decide (cur ≠ km_holder m)) ;;;
  if bool_decide (km_holder m = None) then set_holder mtx cur
  else on_sched (sched_sleep_on (km_waitq m)).

Definition kmutex_lock_cancellable (mtx : positive) : M kms Z :=
  m <- mtx_get mtx ;;
  cur <- on_sched (get curthr) ;;
  kassert (bool_decide (cur ≠ None) && bool_decide (cur ≠ km_holder m)) ;;;
  if bool_decide (km_holder m = None) then set_holder mtx cur ;;; ret 0
  else on_sched (sched_cancellable_sleep_on (km_waitq m)).

Definition kmutex_unlock (mtx : positive) : M kms unit :=
  m <- mtx_get mtx ;;
  cur <- on_sched (get curthr) ;;
  kassert (bool_decide (cur ≠ None) && bool_decide (cur = km_holder m)) ;;;
  set_holder mtx None ;;;
  e <- on_sched (sched_queue_empty (km_waitq m)) ;;
  (if (e : bool) then ret tt
   else w <- on_sched (sched_wakeup_on (km_waitq m)) ;; set_holder mtx w) ;;;
  m' <- mtx_get mtx ;;
  kassert (bool_decide (cur ≠ km_holder m')).
End kmutex.
