(* ===== verification/KmutexProps.v ===== *)
(** * Properties of kernel mutexes

    Ownership, mutual exclusion and hand-over, stated for a kernel whose other
    threads also use the mutex only through its operations. *)
From S2P Require Import Prelude Headers Sched SchedProps Kmutex.
Local Open Scope kernel_scope.

Section kmutex.
Context `{ErrnoH, IntrH}.

(** The holder and the waiting threads of the mutex at [mtx]. *)
Definition holder (k : kms) (mtx : positive) : option tid :=
  match mutexes k !! mtx with Some m => km_holder m | None => None end.
Definition waiters (k : kms) (mtx : positive) : list tid :=
  match mutexes k !! mtx with Some m => waiting (km_sched k) (km_waitq m) | None => [] end.

Lemma on_sched_ret {A} (m : M sched A) k a s :
  m (km_sched k) = Ret a s → on_sched m k = Ret a (Kms s (mutexes k)).
Proof. unfold on_sched, zoom. by intros ->. Qed.

(** The state in which [sched_switch] leaves the processor to the next thread. *)
Definition dispatched (s s' : sched) : Prop :=
  ∃ Q next t, queues s !! kt_runq = Some Q ∧ last (tq_list Q) = Some next ∧
    threads s !! next = Some t ∧
    let d := dequeued kt_runq (removelast (tq_list Q)) next t Q s in
    s' = Sched (threads d) (queues d) (Some next) (kt_proc t) (ipl d).

Definition with_ipl (i : Z) (k : kms) : kms :=
  let s := km_sched k in
  Kms (Sched (threads s) (queues s) (curthr s) (curproc s) i) (mutexes k).

(** Rules for code of the scheduler run by code that also has mutexes: [I] holds
    from the call of [sched_switch] and through its waits for interrupts. *)
Section switch_rule.
Context (P : Prop) (G : why → kms → Prop) (R : why → kms → kms → Prop) (I : kms → Prop).
Context (HP : P) (Hipl : ∀ k i, I k → I (with_ipl i k))
  (HG1 : ∀ k, I k → G IntrWait k) (HR1 : ∀ k k', R IntrWait k k' → I k').

Lemma on_sched_wait_rwp n : ∀ k, I k →
  rwp P G R (λ _, I) (on_sched (sched_switch_wait n) k).
Proof using All.
  induction n as [|n IH]; intros [s ms] HI; (apply rwp_zoom_bind; [done|done|]);
    (destruct (queues s !! kt_runq) as [Q|] eqn:HQ;
     [|eapply rwp_Panic; [unfold zoom; rewrite sched_queue_empty_eq; simpl; by rewrite HQ|done]]);
    (eapply rwp_Ret; [unfold zoom; rewrite sched_queue_empty_eq; simpl; by rewrite HQ|]);
    simpl; (destruct (tq_list Q); [|done]); [done|].
  apply rwp_zoom_bind; [done|done|]. eapply rwp_Ret; [reflexivity|].
  apply rwp_zoom_bind; [done|done|]. split; [by apply HG1, (Hipl (Kms s ms))|].
  intros k' HR. apply rwp_zoom_bind; [done|done|]. eapply rwp_Ret; [reflexivity|].
  apply IH, (Hipl k'). by eapply HR1.
Qed.

Lemma on_sched_switch_rwp (Q : unit → kms → Prop) k :
  I k →
  (∀ k s', I k → dispatched (km_sched k) s' → G ContextSwitch (Kms s' (mutexes k))) →
  (∀ k k' i, R ContextSwitch k k' → Q tt (with_ipl i k')) →
  rwp P G R Q (on_sched sched_switch k).
Proof using All.
  intros HI HG2 HR2. apply rwp_zoom_bind; [done|done|]. eapply rwp_Ret; [reflexivity|].
  apply rwp_zoom_bind; [done|done|]. eapply rwp_Ret; [reflexivity|].
  apply rwp_zoom_bind; [done|done|].
  eapply rwp_mono; [apply on_sched_wait_rwp; by apply (Hipl k)|]. intros [] [s ms] HI1.
  apply rwp_zoom_bind; [done|done|].
  destruct (curthr s) as [old|] eqn:Hold;
    [|eapply rwp_Panic; [unfold zoom, curthr_get; simpl; by rewrite Hold|exact HP]].
  eapply rwp_Ret; [unfold zoom, curthr_get; simpl; by rewrite Hold|].
  apply rwp_zoom_bind; [done|done|].
  destruct (queues s !! kt_runq) as [Qr|] eqn:HQ;
    [|eapply rwp_Panic; [unfold zoom; rewrite ktqueue_dequeue_eq; simpl; by rewrite HQ|exact HP]].
  destruct (last (tq_list Qr)) as [next|] eqn:Hl.
  2: { eapply rwp_Ret; [unfold zoom; rewrite ktqueue_dequeue_eq; simpl; by rewrite HQ, Hl|].
       apply rwp_zoom_bind; [done|done|]. done. }
  destruct (threads s !! next) as [t|] eqn:Ht.
  2: { eapply rwp_Panic; [|done]. unfold zoom. rewrite ktqueue_dequeue_eq. simpl.
       by rewrite HQ, Hl, Ht. }
  eapply rwp_Ret; [unfold zoom; rewrite ktqueue_dequeue_eq; simpl; by rewrite HQ, Hl, Ht|].
  apply rwp_zoom_bind; [done|done|]. eapply rwp_Ret; [reflexivity|].
  apply rwp_zoom_bind; [done|done|].
  eapply rwp_Ret; [unfold zoom, thr_get; simpl; by rewrite lookup_insert_eq|].
  simpl. split.
  - apply (HG2 (Kms s ms)); [done|]. exists Qr, next, t. done.
  - intros k' HR. by eapply HR2.
Qed.
End switch_rule.

(** ** Ownership *)

(** Thread [t] waits for the mutex or has been given it. *)
Definition pending (mtx : positive) (t : tid) (k : kms) : Prop :=
  ∃ m, mutexes k !! mtx = Some m ∧ km_waitq m ≠ kt_runq ∧
    (t ∈ waiting (km_sched k) (km_waitq m) ∨ km_holder m = Some t).

(** The states in which a thread blocked on the mutex can be resumed, when the
    other threads keep to the mutex operations: it is the current thread, it still
    waits or has been given the mutex, and if it was dispatched by the scheduler it
    is no longer queued. *)
Definition resumed (mtx : positive) (t : tid) (w : why) (k' : kms) : Prop :=
  curthr (km_sched k') = Some t ∧ pending mtx t k' ∧
  (w = ContextSwitch → t ∉ waiters k' mtx).

Lemma dispatched_waiting s s' q :
  dispatched s s' → q ≠ kt_runq → waiting s' q = waiting s q.
Proof.
  intros (Q & next & t & HQ & Hl & Ht & ->) Hq. unfold waiting. simpl.
  by rewrite lookup_insert_ne.
Qed.

Lemma pending_dispatched mtx t k s' :
  pending mtx t k → dispatched (km_sched k) s' → pending mtx t (Kms s' (mutexes k)).
Proof.
  intros (m & Hm & Hq & Hp) Hd. exists m. split; [done|]. split; [done|]. simpl.
  by erewrite dispatched_waiting.
Qed.

(** The part of a sleep on [q] before the switch, for the current thread. *)
Lemma on_sched_sleep_rwp {A} (P : Prop) G R (Q : A → kms → Prop) k cur st q (m : M sched A) :
  P → is_Some (threads (km_sched k) !! cur) →
  (∀ t Qu, threads (km_sched k) !! cur = Some t → kt_wchan t = None →
     queues (km_sched k) !! q = Some Qu →
     let t1 := set_kt_state st t in
     rwp P G R Q
       (on_sched m (Kms (enqueued q cur t1 Qu (put_thr cur t1 (km_sched k))) (mutexes k)))) →
  rwp P G R Q
    (on_sched (thr_upd cur (set_kt_state st) ;;; ktqueue_enqueue q cur ;;; m) k).
Proof.
  intros HP [t Ht] Hsw. apply rwp_zoom_bind; [done|done|].
  eapply rwp_Ret; [unfold zoom; simpl; by erewrite alter_lookup_insert|].
  apply rwp_zoom_bind; [done|done|].
  destruct (queues (km_sched k) !! q) as [Qu|] eqn:HQ.
  2: { eapply rwp_Panic; [|done]. unfold zoom. rewrite ktqueue_enqueue_eq. simpl.
       by rewrite lookup_insert_eq, HQ. }
  destruct (decide (kt_wchan t = None)) as [Hn|Hn].
  2: { eapply rwp_Panic; [|done]. unfold zoom. rewrite ktqueue_enqueue_eq. simpl.
       by rewrite lookup_insert_eq, HQ, bool_decide_eq_false_2. }
  eapply rwp_Ret.
  { unfold zoom. rewrite ktqueue_enqueue_eq. simpl.
    by rewrite lookup_insert_eq, HQ, bool_decide_eq_true_2. }
  by apply (Hsw t Qu).
Qed.

(** The sleep of [kmutex_lock]: every state in which it gives up the processor has
    the thread queued on the mutex or the mutex given to it. *)
Lemma on_sched_sleep_on_rwp mtx me k m :
  mutexes k !! mtx = Some m → km_waitq m ≠ kt_runq → curthr (km_sched k) = Some me →
  rwp True (λ _, pending mtx me) (λ w _, resumed mtx me w)
    (λ _ k', holder k' mtx = Some me) (on_sched (sched_sleep_on (km_waitq m)) k).
Proof.
  intros Hm Hq Hcur. apply rwp_zoom_bind; [done|done|].
  eapply rwp_Ret; [unfold zoom, curthr_get; by rewrite Hcur|].
  destruct k as [s ms]. simpl in *. apply rwp_zoom_bind; [done|done|].
  destruct (threads s !! me) as [t|] eqn:Ht;
    [|eapply rwp_Panic; [unfold zoom, thr_get; simpl; by rewrite Ht|done]].
  eapply rwp_Ret; [unfold zoom, thr_get; simpl; by rewrite Ht|].
  apply on_sched_sleep_rwp; [done|simpl; rewrite Ht; eauto|].
  intros t' Qu Ht' Hn HQ t1. apply (on_sched_switch_rwp _ _ _ (pending mtx me)).
  - done.
  - intros k i (m' & Hm' & Hp). by exists m'.
  - done.
  - by intros k k' (_ & Hp & _).
  - exists m. split; [done|]. split; [done|]. left. simpl.
    rewrite waiting_enqueued by done. set_solver.
  - intros k s'. apply pending_dispatched.
  - intros k k' i (_ & (m' & Hm' & Hq' & Hp) & Hnw). unfold holder. simpl. rewrite Hm'.
    destruct Hp as [Hin|]; [|done]. exfalso. apply Hnw; [done|].
    unfold waiters. by rewrite Hm'.
Qed.

Lemma kmutex_lock_cases mtx me k m :
  mutexes k !! mtx = Some m → curthr (km_sched k) = Some me →
  kmutex_lock mtx k =
    match km_holder m with
    | None => Ret tt (Kms (km_sched k) (<[mtx := Kmutex (Some me) (km_waitq m)]> (mutexes k)))
    | Some h => if bool_decide (h = me) then Panic
                else on_sched (sched_sleep_on (km_waitq m)) k
    end.
Proof.
  intros Hm Hcur. unfold kmutex_lock.
  erewrite bind_Ret by (unfold mtx_get; by rewrite Hm).
  erewrite bind_Ret by (by apply on_sched_ret). rewrite Hcur.
  replace (Kms (km_sched k) (mutexes k)) with k by (by destruct k).
  destruct (km_holder m) as [h|] eqn:Hh.
  - destruct (decide (h = me)) as [->|Hne].
    + by rewrite (bool_decide_eq_true_2 (me = me)), bool_decide_eq_true_2,
        bool_decide_eq_false_2 by naive_solver.
    + by rewrite (bool_decide_eq_false_2 (h = me)), !bool_decide_eq_true_2,
        bool_decide_eq_false_2 by naive_solver.
  - rewrite !bool_decide_eq_true_2 by naive_solver. unfold bind, set_holder, modify. simpl.
    by erewrite alter_lookup_insert.
Qed.

(** A free mutex is taken at once, with the scheduler untouched.  Otherwise the caller
    waits: whenever it gives up the processor it is queued on the mutex (or already owns
    it), and when it returns it is the holder, if the other threads resume it only by
    handing over the mutex ([KmutexWait] shows that they do). *)
Theorem kmutex_lock_waits mtx me k m :
  mutexes k !! mtx = Some m → km_waitq m ≠ kt_runq → curthr (km_sched k) = Some me →
  rwp True (λ _, pending mtx me) (λ w _, resumed mtx me w)
    (λ _ k', holder k' mtx = Some me) (kmutex_lock mtx k) ∧
  (km_holder m = None → returns (kmutex_lock mtx) k (λ _ k',
     holder k' mtx = Some me ∧ km_sched k' = km_sched k)).
Proof.
  intros Hm Hq Hcur.
  assert (∀ w, holder (Kms (km_sched k) (<[mtx := Kmutex (Some me) w]> (mutexes k))) mtx
             = Some me) as Hh by (intros w; unfold holder; simpl; by rewrite lookup_insert_eq).
  unfold returns. rewrite (kmutex_lock_cases mtx me k m Hm Hcur).
  destruct (km_holder m) as [h|]; split; try done.
  - case_bool_decide; [done|]. by apply on_sched_sleep_on_rwp.
  - simpl. apply Hh.
  - intros _. eexists _, _. split; [done|]. auto.
Qed.

(** ** Mutual exclusion *)

Definition held (mtx : positive) (t : tid) (k : kms) : Prop := holder k mtx = Some t.

Lemma held_mutexes mtx t k s : held mtx t k → held mtx t (Kms s (mutexes k)).
Proof. done. Qed.

(** Scheduler code, which has no access to the mutexes, keeps the holder. *)
Lemma on_sched_held {A} mtx t (m : M sched A) k :
  held mtx t k →
  rwp True (λ _, held mtx t) (λ _ _, held mtx t) (λ _, held mtx t) (on_sched m k).
Proof.
  unfold on_sched, zoom. generalize (m (km_sched k)) as r. intros r. revert r k. fix IH 1.
  intros [a s'| | |w s' c] k Hh; simpl; [done|done|done|].
  split; [done|]. intros k' Hk'. by apply IH.
Qed.

Lemma kmutex_lock_cancellable_cases mtx me k m :
  mutexes k !! mtx = Some m → curthr (km_sched k) = Some me →
  kmutex_lock_cancellable mtx k =
    match km_holder m with
    | None => Ret 0 (Kms (km_sched k) (<[mtx := Kmutex (Some me) (km_waitq m)]> (mutexes k)))
    | Some h => if bool_decide (h = me) then Panic
                else on_sched (sched_cancellable_sleep_on (km_waitq m)) k
    end.
Proof.
  intros Hm Hcur. unfold kmutex_lock_cancellable.
  erewrite bind_Ret by (unfold mtx_get; by rewrite Hm).
  erewrite bind_Ret by (by apply on_sched_ret). rewrite Hcur.
  replace (Kms (km_sched k) (mutexes k)) with k by (by destruct k).
  destruct (km_holder m) as [h|] eqn:Hh.
  - destruct (decide (h = me)) as [->|Hne].
    + by rewrite (bool_decide_eq_true_2 (me = me)), bool_decide_eq_true_2,
        bool_decide_eq_false_2 by naive_solver.
    + by rewrite (bool_decide_eq_false_2 (h = me)), !bool_decide_eq_true_2,
        bool_decide_eq_false_2 by naive_solver.
  - rewrite !bool_decide_eq_true_2 by naive_solver. unfold bind, set_holder, modify. simpl.
    by erewrite alter_lookup_insert.
Qed.

(** Another thread does not get the mutex, and its unlock stops the kernel. *)
Lemma held_kept mtx t me k :
  held mtx t k → curthr (km_sched k) = Some me → me ≠ t →
  rwp True (λ _, held mtx t) (λ _ _, held mtx t) (λ _, held mtx t) (kmutex_lock mtx k) ∧
  rwp True (λ _, held mtx t) (λ _ _, held mtx t) (λ _, held mtx t)
    (kmutex_lock_cancellable mtx k) ∧
  kmutex_unlock mtx k = Panic.
Proof.
  intros Hh Hcur Hne. pose proof Hh as Hh'. unfold held, holder in Hh'.
  destruct (mutexes k !! mtx) as [m|] eqn:Hm; [|done].
  rewrite (kmutex_lock_cases mtx me k m Hm Hcur),
    (kmutex_lock_cancellable_cases mtx me k m Hm Hcur), Hh'.
  rewrite bool_decide_eq_false_2 by done.
  split; [by apply on_sched_held|]. split; [by apply on_sched_held|].
  unfold kmutex_unlock. erewrite bind_Ret by (unfold mtx_get; by rewrite Hm).
  erewrite bind_Ret by (by apply on_sched_ret). rewrite Hcur, Hh'.
  rewrite (bool_decide_eq_false_2 (Some me = Some t)) by naive_solver.
  by rewrite andb_false_r.
Qed.

(** C10: Mutual exclusion. While thread [t] holds the mutex, another thread cannot
    get it: through a whole call of [kmutex_lock] or [kmutex_lock_cancellable] the
    holder stays [t] at every point, and [kmutex_unlock] by a thread that is not
    the holder stops the kernel. *)
Theorem kmutex_mutual_exclusion mtx t me k :
  held mtx t k → curthr (km_sched k) = Some me → me ≠ t →
  rwp True (λ _, held mtx t) (λ _ _, held mtx t) (λ _, held mtx t) (kmutex_lock mtx k) ∧
  rwp True (λ _, held mtx t) (λ _ _, held mtx t) (λ _, held mtx t)
    (kmutex_lock_cancellable mtx k) ∧
  kmutex_unlock mtx k = Panic.
Proof. apply held_kept. Qed.

(** ** Hand-over *)

Lemma kmutex_unlock_prefix mtx me k m Q :
  mutexes k !! mtx = Some m → curthr (km_sched k) = Some me → km_holder m = Some me →
  queues (km_sched k) !! km_waitq m = Some Q →
  let k1 := Kms (km_sched k) (<[mtx := Kmutex None (km_waitq m)]> (mutexes k)) in
  kmutex_unlock mtx k =
    ((match tq_list Q with
      | [] => ret tt
      | _ => w <- on_sched (sched_wakeup_on (km_waitq m)) ;; set_holder mtx w
      end) ;;;
     m' <- mtx_get mtx ;; kassert (bool_decide (Some me ≠ km_holder m'))) k1.
Proof.
  intros Hm Hcur Hh HQ k1. unfold kmutex_unlock.
  erewrite bind_Ret by (unfold mtx_get; by rewrite Hm).
  erewrite bind_Ret by (by apply on_sched_ret). rewrite Hcur, Hh.
  erewrite bind_Ret by (apply kassert_true; by rewrite !bool_decide_eq_true_2).
  erewrite bind_Ret by (unfold set_holder, modify; simpl; by erewrite alter_lookup_insert).
  erewrite bind_Ret.
  2: { apply on_sched_ret. rewrite sched_queue_empty_eq. simpl. by rewrite HQ. }
  by destruct (tq_list Q).
Qed.

(** C28: [kmutex_unlock] by the holder returns without giving up the processor and
    hands the mutex over: to the thread that has waited longest, which becomes
    runnable and leaves the wait queue with the others in their places; or to
    nobody if no thread waits. Every thread that was waiting still waits or now
    owns the mutex. *)
Theorem kmutex_unlock_hands_over mtx me k m Q R t :
  sched_wf (km_sched k) → mutexes k !! mtx = Some m → km_waitq m ≠ kt_runq →
  curthr (km_sched k) = Some me → km_holder m = Some me →
  threads (km_sched k) !! me = Some t → kt_wchan t = None →
  queues (km_sched k) !! km_waitq m = Some Q → queues (km_sched k) !! kt_runq = Some R →
  returns (kmutex_unlock mtx) k (λ _ k',
    holder k' mtx = head (waiters k mtx) ∧ waiters k' mtx = tail (waiters k mtx) ∧
    waiting (km_sched k') kt_runq =
      waiting (km_sched k) kt_runq ++ option_list (head (waiters k mtx)) ∧
    curthr (km_sched k') = Some me ∧
    ∀ u, u ≠ me → pending mtx u k → pending mtx u k').
Proof.
  intros Hwf Hm Hq Hcur Hh Ht Hn HQ HR. unfold returns.
  rewrite (kmutex_unlock_prefix mtx me k m Q Hm Hcur Hh HQ).
  set (q := km_waitq m) in *.
  assert (waiters k mtx = reverse (tq_list Q)) as Hwq
    by (unfold waiters, waiting; by rewrite Hm; fold q; rewrite HQ).
  destruct (tq_list Q) as [|x l] eqn:Hl.
  - rewrite Hwq. simpl. exists tt, (Kms (km_sched k) (<[mtx:=Kmutex None q]> (mutexes k))).
    split; [unfold bind, mtx_get; simpl; by rewrite lookup_insert_eq|].
    unfold holder, waiters. simpl. rewrite lookup_insert_eq. simpl.
    split; [done|]. split; [unfold waiting; by rewrite HQ, Hl|].
    split; [by rewrite app_nil_r|]. split; [done|].
    intros u Hu (m' & ? & _ & [Hin|Hho]); simplify_eq.
    exfalso. fold q in Hin. unfold waiting in Hin. rewrite HQ, Hl in Hin. set_solver.
  - assert (waiting (km_sched k) q = reverse (x :: l)) as Hwt
      by (unfold waiting; by rewrite HQ, Hl).
    destruct (reverse (x :: l)) as [|w rest] eqn:Hrev.
    { apply (f_equal length) in Hrev. by rewrite length_reverse in Hrev. }
    assert (w ≠ me) as Hwme.
    { intros ->. destruct (waiting_thread (km_sched k) q me Hwf Hq) as (t' & ? & ? & _);
        [rewrite Hwt; set_solver|congruence]. }
    destruct (wakeup_on_run (km_sched k) q w rest R Hwf Hq HR Hwt)
      as (Q' & tw & ? & Htw & Hla & Hrun). simplify_eq.
    destruct (waiting_woken (km_sched k) q Q R w tw rest HQ HR Hq Hwt) as [Hw1 Hw2].
    eexists tt, (Kms (woken q Q R w tw (km_sched k)) (<[mtx:=Kmutex (Some w) q]> (mutexes k))).
    split.
    + unfold bind. erewrite on_sched_ret by (simpl; exact Hrun). simpl.
      erewrite alter_lookup_insert by apply lookup_insert_eq. rewrite insert_insert_eq. simpl.
      unfold mtx_get. simpl. rewrite lookup_insert_eq. simpl.
      by rewrite bool_decide_eq_true_2 by naive_solver.
    + rewrite Hwq. unfold holder, waiters. simpl. rewrite lookup_insert_eq. simpl.
      split; [done|]. split; [done|]. split; [done|]. split; [done|].
      intros u Hu (m' & Hm' & _ & Hp). rewrite Hm in Hm'. injection Hm' as <-.
      eexists. simpl.
      rewrite lookup_insert_eq. split; [done|]. split; [done|]. simpl. fold q in Hp.
      destruct Hp as [Hin|]; [|congruence]. rewrite Hw1. rewrite Hwt in Hin. set_solver.
Qed.

(** ** Cancellation *)

(** A cancelled waiter keeps the lock it was given. When the mutex is handed to
    a thread waiting in [kmutex_lock_cancellable] and the thread is cancelled before
    it runs, the call returns [-EINTR] and the thread is still the holder: nothing
    unlocks the mutex, although the comment of the function asks for it. *)
Theorem kmutex_lock_cancellable_keeps_lock mtx me k m h Q t next rest :
  sched_wf (km_sched k) → mutexes k !! mtx = Some m → km_waitq m ≠ kt_runq →
  km_holder m = Some h → h ≠ me → curthr (km_sched k) = Some me →
  threads (km_sched k) !! me = Some t → kt_wchan t = None → kt_cancelled t = 0 →
  queues (km_sched k) !! km_waitq m = Some Q →
  waiting (km_sched k) kt_runq = next :: rest →
  ∃ k' c, kmutex_lock_cancellable mtx k = Block ContextSwitch k' c ∧
    waiters k' mtx = waiters k mtx ++ [me] ∧
    ∀ k'' t'', curthr (km_sched k'') = Some me → threads (km_sched k'') !! me = Some t'' →
      kt_cancelled t'' = 1 → held mtx me k'' →
      ∃ k3, c k'' = Ret (- EINTR) k3 ∧ held mtx me k3.
Proof.
  intros Hwf Hm Hq Hh Hne Hcur Ht Hn Hcn HQ Hw.
  rewrite (kmutex_lock_cancellable_cases mtx me k m Hm Hcur), Hh.
  rewrite bool_decide_eq_false_2 by done.
  destruct (cancellable_sleep_blocks (km_sched k) (km_waitq m) Q me t next rest)
    as (s' & c & Hb & Hwq & Hc & Ht' & Hk); try done; [by rewrite Hcn|].
  unfold on_sched at 1, zoom. rewrite Hb. simpl. eexists _, _. split; [done|].
  split; [unfold waiters; simpl; by rewrite Hm|].
  intros k'' t'' Hc'' Ht'' Hcn'' Hheld.
  rewrite Hk, (cancellable_sleep_rest_run _ _ me t'') by done. rewrite Hcn''.
  eexists. split; [reflexivity|]. done.
Qed.
End kmutex.

(** ** The theorems at work *)

#[local] Existing Instance errno_ex.
#[local] Existing Instance intr_ex.

(** Thread 1 runs; threads 3 and 4 sleep on queue 2, the wait queue of mutex 7. *)
Definition ex_kms (h : option tid) : kms := Kms ex_sched {[7%positive := Kmutex h 2]}.

Lemma kmutex_mutual_exclusion_witness : kmutex_unlock 7 (ex_kms (Some 2%positive)) = Panic.
Proof.
  destruct (kmutex_mutual_exclusion 7 2 1 (ex_kms (Some 2%positive))) as (_ & _ & Hu);
    [reflexivity|reflexivity|done|]. exact Hu.
Defined.

Lemma kmutex_unlock_hands_over_witness :
  returns (kmutex_unlock 7) (ex_kms (Some 1%positive)) (λ _ k',
    holder k' 7 = Some 3%positive ∧ waiters k' 7 = [4%positive]).
Proof.
  eapply returns_mono.
  - eapply (kmutex_unlock_hands_over 7 1 (ex_kms (Some 1%positive)));
      [apply ex_sched_wf|reflexivity|done|reflexivity|reflexivity|reflexivity|reflexivity
      |reflexivity|reflexivity].
  - intros [] k' (H1 & H2 & _). split; [by rewrite H1|by rewrite H2].
Defined.

(** Thread 1 waits for the mutex of thread 2; thread 2 releases it, which hands it
    to thread 3 first: with thread 1 alone in the queue it would go to thread 1. *)
Lemma kmutex_lock_cancellable_keeps_lock_witness :
  ∃ k' c k3, kmutex_lock_cancellable 7 (ex_kms (Some 2%positive)) = Block ContextSwitch k' c ∧
    c (Kms (Sched {[1%positive := Kthread KT_RUN None false 1 0 0 None]}
              {[kt_runq := Ktqueue [] 0; 2%positive := Ktqueue [] 0]} (Some 1%positive) None 0)
           {[7%positive := Kmutex (Some 1%positive) 2]})
      = Ret (- 4) k3 ∧ held 7 1 k3.
Proof.
  destruct (kmutex_lock_cancellable_keeps_lock 7 1 (ex_kms (Some 2%positive))
    (Kmutex (Some 2%positive) 2) 2 (Ktqueue [4%positive; 3%positive] 2)
    (Kthread KT_RUN None false 0 0 0 (Some 1%positive)) 2 [])
    as (k' & c & Hb & _ & Hc); try reflexivity; [apply ex_sched_wf|done|done|].
  edestruct Hc as (k3 & Hr & Hh); [| | | |exists k', c, k3; split; [done|split; [exact Hr|done]]];
    reflexivity.
Defined.
