(* ===== verification/KmutexWait.v ===== *)
(** * Waiting for a mutex

    What the other threads do while a thread waits in [kmutex_lock]: they make calls of
    the mutexes and of the scheduler, and switch among themselves.  Whatever they do,
    the thread stays in the queue of the mutex until [kmutex_unlock] hands the mutex to
    it, and it runs again only as the holder. *)
From S2P Require Import Prelude Headers Sched SchedProps Kmutex KmutexProps.
Local Open Scope kernel_scope.

(** The state in which a computation ends or first gives up the processor. *)
Definition reaches {S A} (r : res S A) (s' : S) : Prop :=
  match r with Ret _ s => s = s' | Block _ s _ => s = s' | _ => False end.

(** [Q] holds there. *)
Definition first {S A} (Q : S → Prop) (r : res S A) : Prop :=
  rwp True (λ _, Q) (λ _ _ _, False) (λ _, Q) r.

Lemma first_intro {S A} (Q : S → Prop) (r : res S A) : (∀ s', reaches r s' → Q s') → first Q r.
Proof. destruct r; simpl; intros HQ; [by apply HQ|done|done|]. split; [by apply HQ|done]. Qed.
Lemma first_reaches {S A} (Q : S → Prop) (r : res S A) s' : first Q r → reaches r s' → Q s'.
Proof. destruct r; simpl; [by intros ? <-|done|done|]. by intros [? _] <-. Qed.

Lemma first_bind {S A B} (Q Q' : S → Prop) (m : M S A) (f : A → M S B) s :
  first Q (m s) → (∀ s', Q s' → Q' s') → (∀ a s', m s = Ret a s' → Q s' → first Q' (f a s')) →
  first Q' (bind m f s).
Proof.
  unfold bind. destruct (m s) as [a s'| | |w s' c] eqn:Hm; simpl; [by auto|done|done|].
  intros [HQ _] Hi _. split; [by apply Hi|done].
Qed.

(** Code that keeps an invariant keeps it up to there. *)
Lemma keeps_first {S A} (G : why → S → Prop) (I : S → Prop) (m : M S A) s :
  keeps G I m → (∀ w s, G w s → I s) → I s → first I (m s).
Proof.
  intros Hk HG HI. pose proof (Hk s HI) as Hr. apply first_intro. intros s'.
  destruct (m s); simpl in *; [by intros <-|done|done|]. destruct Hr as [Hg _]. intros <-. by eapply HG.
Qed.

Section wait.
Context `{ErrnoH, IntrH}.

(** ** A sleeping thread *)

(** Thread [me] sleeps on [q] (not cancellably) and another thread runs. *)
Definition asleep (q : qid) (me : tid) (s : sched) : Prop :=
  curthr s ≠ Some me ∧
  ∃ t, threads s !! me = Some t ∧ kt_wchan t = Some q ∧ kt_state t = KT_SLEEP.

Lemma asleep_put q me thr t s : thr ≠ me → asleep q me s → asleep q me (put_thr thr t s).
Proof. intros Hne [Hc (u & Hu & ?)]. split; [done|]. exists u. simpl. by rewrite lookup_insert_ne. Qed.
Lemma asleep_put_q q me q' Q s : asleep q me s → asleep q me (put_q q' Q s).
Proof. done. Qed.
Local Hint Resolve asleep_put asleep_put_q : core.

Lemma asleep_enqueued q me q' thr t Q s :
  thr ≠ me → asleep q me s → asleep q me (enqueued q' thr t Q s).
Proof. intros ? ?. unfold enqueued. auto. Qed.
Lemma asleep_dequeued q me q' l thr t Q s :
  thr ≠ me → asleep q me s → asleep q me (dequeued q' l thr t Q s).
Proof. intros ? ?. unfold dequeued. auto. Qed.

(** A thread of another queue is another thread. *)
Lemma asleep_other q me q' Q thr s :
  sched_wf s → asleep q me s → queues s !! q' = Some Q → thr ∈ tq_list Q → q' ≠ q → thr ≠ me.
Proof.
  intros [Hc _] (_ & t & Ht & Hw & _) HQ Hin Hne ->.
  destruct (core_on _ Hc _ _ _ HQ Hin) as (? & ? & ?). congruence.
Qed.

Lemma last_in (l : list tid) x : last l = Some x → x ∈ l.
Proof. rewrite last_lookup. apply list_elem_of_lookup_2. Qed.

(** The invariant of the scheduler with the sleeping thread. *)
Definition wf_asleep q me s : Prop := sched_wf s ∧ asleep q me s.

Lemma make_runnable_asleep q me thr s :
  asleep q me s → first (asleep q me) (sched_make_runnable thr s).
Proof.
  intros Ha. rewrite sched_make_runnable_eq. destruct (threads s !! thr) as [t|] eqn:Ht; [|done].
  destruct (queues s !! kt_runq) as [Q|]; [|done]. case_bool_decide as Hw; [|done]. simpl.
  apply asleep_enqueued; [|done]. intros ->. destruct Ha as (_ & u & ? & ? & _). congruence.
Qed.

(** Waking the thread at the tail of another queue. *)
Lemma wake_asleep {A} q me q' Q thr t (m : M sched A) s :
  wf_asleep q me s → queues s !! q' = Some Q → last (tq_list Q) = Some thr →
  threads s !! thr = Some t → q' ≠ q →
  (∀ s', wf_asleep q me s' → first (wf_asleep q me) (m s')) →
  first (wf_asleep q me)
    ((thr_upd thr (set_kt_state KT_RUN) ;;; sched_make_runnable thr ;;; m)
       (dequeued q' (removelast (tq_list Q)) thr t Q s)).
Proof.
  intros [Hwf Ha] HQ Hl Ht Hne Hm.
  assert (thr ≠ me) as Hme by (eapply asleep_other; eauto using last_in).
  eapply (first_bind (λ s', s' = put_thr thr (set_kt_state KT_RUN (unlinked t))
             (dequeued q' (removelast (tq_list Q)) thr t Q s) ∧ wf_asleep q me s')).
  - unfold first. simpl. erewrite alter_lookup_insert by apply lookup_insert_eq. split; [done|].
    split; [by apply dequeue_wake_wf|].
    apply (asleep_put _ _ _ _ (dequeued q' _ thr t Q s)); [done|]. by apply asleep_dequeued.
  - tauto.
  - intros [] s1 _ [_ [Hwf1 Ha1]].
    eapply (first_bind (wf_asleep q me)); [|done|by auto].
    apply first_intro. intros s2 Hr. split.
    + eapply (first_reaches sched_wf); [|exact Hr].
      eapply keeps_first; [apply make_runnable_keeps|by intros ? ? []|done].
    + eapply first_reaches; [|exact Hr]. by apply make_runnable_asleep.
Qed.

Lemma wakeup_on_asleep q me q' s :
  wf_asleep q me s → q' ≠ q → first (wf_asleep q me) (sched_wakeup_on q' s).
Proof.
  intros Hi Hne. apply rwp_bind. rewrite sched_queue_empty_eq.
  destruct (queues s !! q') as [Q|] eqn:HQ; [|done]. simpl.
  destruct (tq_list Q) as [|x l] eqn:Hl; [done|]. apply rwp_bind.
  rewrite ktqueue_dequeue_eq, HQ. destruct (last (tq_list Q)) as [thr|] eqn:Hla; [|done].
  destruct (threads s !! thr) as [t|] eqn:Ht; [|done]. simpl.
  apply rwp_bind. simpl. apply rwp_bind. unfold thr_get. simpl. rewrite lookup_insert_eq.
  apply rwp_bind. simpl. destruct (_ || _); [|done]. by apply (wake_asleep q me q').
Qed.

Lemma broadcast_loop_asleep q me q' n : ∀ s,
  wf_asleep q me s → q' ≠ q → first (wf_asleep q me) (sched_broadcast_loop n q' s).
Proof.
  induction n as [|n IH]; intros s Hi Hne; simpl; apply rwp_bind;
    rewrite sched_queue_empty_eq; (destruct (queues s !! q') as [Q|] eqn:HQ; [|done]);
    simpl; (destruct (tq_list Q) as [|x l] eqn:Hl; [done|]); [done|].
  apply rwp_bind. rewrite ktqueue_dequeue_eq, HQ.
  destruct (last (tq_list Q)) as [thr|] eqn:Hla; [|done].
  destruct (threads s !! thr) as [t|] eqn:Ht; [|done]. simpl.
  apply rwp_bind. simpl. apply rwp_bind. unfold thr_get. simpl. rewrite lookup_insert_eq.
  apply (wake_asleep q me q'); auto.
Qed.

(** Cancelling marks the sleeping thread and leaves it asleep. *)
Lemma cancel_asleep q me thr s :
  asleep q me s → first (asleep q me) (sched_cancel thr s).
Proof.
  intros Ha. apply rwp_bind. unfold thr_get. destruct (threads s !! thr) as [t|] eqn:Ht; [|done].
  simpl. destruct (decide (thr = me)) as [->|Hne].
  - destruct Ha as (Hc & u & Hu & Hw & Hst). simplify_eq.
    rewrite bool_decide_eq_false_2 by congruence. simpl. erewrite alter_lookup_insert by done.
    split; [done|]. eexists. simpl. by rewrite lookup_insert_eq.
  - case_bool_decide; simpl; [|erewrite alter_lookup_insert by done; by apply asleep_put].
    apply rwp_bind. simpl. erewrite alter_lookup_insert by done.
    apply rwp_bind. destruct (kt_wchan t) as [q'|]; [|done]. simpl. apply rwp_bind.
    rewrite ktqueue_remove_eq. simpl. rewrite lookup_insert_eq. simpl.
    destruct (kt_qlink t); [|done]. destruct (queues s !! q') as [Q|]; [|done].
    apply make_runnable_asleep, (asleep_dequeued _ _ _ _ _ _ _ (put_thr thr _ s)); [done|].
    by apply asleep_put.
Qed.

(** Switching dispatches a thread of the run queue, not one that sleeps. *)
Lemma dispatched_asleep q me s s' :
  sched_idle s → asleep q me s → q ≠ kt_runq → dispatched s s' → wf_asleep q me s'.
Proof.
  intros Hi Ha Hq (Q & next & t & HQ & Hl & Ht & ->). split; [by eapply dispatch_wf|].
  assert (next ≠ me) as Hne by (eapply asleep_other; eauto using last_in; apply Hi).
  destruct Ha as (_ & u & Hu & ? & ?). split; [simpl; congruence|].
  exists u. simpl. by rewrite lookup_insert_ne.
Qed.

Lemma switch_asleep q me s :
  sched_idle s → asleep q me s → q ≠ kt_runq → first (wf_asleep q me) (sched_switch s).
Proof.
  intros Hi Ha Hq. unfold sched_switch. apply rwp_bind. simpl. apply rwp_bind. simpl.
  set (s1 := Sched _ _ _ _ _). assert (sched_idle s1 ∧ asleep q me s1) as [Hi1 Ha1].
  { split; [|done]. destruct Hi. split; [by apply wf_ipl|done]. }
  apply rwp_bind. assert (∀ n, first (λ s', sched_idle s' ∧ asleep q me s') (sched_switch_wait n s1)) as Hw.
  { intros n. assert (∀ i, let s2 := Sched (threads s1) (queues s1) (curthr s1) (curproc s1) i in
      sched_idle s2 ∧ asleep q me s2) as Hipl.
    { intros i. split; [|done]. destruct Hi1. split; [by apply wf_ipl|done]. }
    destruct n as [|n]; simpl; apply rwp_bind; rewrite sched_queue_empty_eq;
      (destruct (queues s1 !! kt_runq) as [Q|]; [|done]); simpl; (destruct (tq_list Q); [|done]);
      [done|]. simpl. split; [apply Hipl|done]. }
  specialize (Hw intr_waits). destruct (sched_switch_wait intr_waits s1) as [[] s2| | |w s2 c];
    [|done|done|split; [split; [apply Hw|apply Hw]|done]].
  simpl. destruct Hw as [Hi2 Ha2].
  apply rwp_bind. unfold curthr_get. destruct (curthr s2) as [old|]; [|done]. simpl.
  apply rwp_bind. rewrite ktqueue_dequeue_eq.
  destruct (queues s2 !! kt_runq) as [Q|] eqn:HQ; [|done].
  destruct (last (tq_list Q)) as [thr|] eqn:Hl; [|done].
  destruct (threads s2 !! thr) as [t|] eqn:Ht; [|done]. simpl.
  do 2 (apply rwp_bind; simpl). unfold thr_get. simpl. rewrite lookup_insert_eq. simpl.
  split; [|done]. eapply dispatched_asleep; [exact Hi2|done|done|]. by exists Q, thr, t.
Qed.

(** Another thread goes to sleep, on whichever queue. *)
Lemma go_asleep {A} q me q' cur t st (m : M sched A) s :
  wf_asleep q me s → q ≠ kt_runq → curthr s = Some cur → threads s !! cur = Some t →
  st = KT_SLEEP ∨ st = KT_SLEEP_CANCELLABLE →
  (∀ s1, sched_idle s1 → asleep q me s1 → first (wf_asleep q me) (m s1)) →
  first (wf_asleep q me) ((thr_upd cur (set_kt_state st) ;;; ktqueue_enqueue q' cur ;;; m) s).
Proof.
  intros [Hwf Ha] Hq Hcur Ht Hst Hm. assert (cur ≠ me) as Hne by (destruct Ha; congruence).
  apply rwp_bind. simpl. erewrite alter_lookup_insert by done. apply rwp_bind.
  rewrite ktqueue_enqueue_eq. simpl. rewrite lookup_insert_eq.
  destruct (queues s !! q') as [Q|] eqn:HQ; [|done]. case_bool_decide; [|done].
  apply Hm; [by apply go_to_sleep_idle|]. apply asleep_enqueued; [done|]. by apply asleep_put.
Qed.

Lemma sleep_on_asleep q me q' s :
  wf_asleep q me s → q ≠ kt_runq → first (wf_asleep q me) (sched_sleep_on q' s).
Proof.
  intros Hi Hq. apply rwp_bind. unfold curthr_get.
  destruct (curthr s) as [cur|] eqn:Hcur; [|done]. simpl. apply rwp_bind. unfold thr_get.
  destruct (threads s !! cur) as [t|] eqn:Ht; [|done]. simpl.
  apply (go_asleep _ _ _ _ t); auto. intros. by apply switch_asleep.
Qed.

Lemma cancellable_sleep_on_asleep q me q' s :
  wf_asleep q me s → q ≠ kt_runq → first (wf_asleep q me) (sched_cancellable_sleep_on q' s).
Proof.
  intros Hi Hq. apply rwp_bind. change (curthr_get s) with (deref (curthr s) s).
  destruct (curthr s) as [cur|] eqn:Hcur; [|done]. simpl. apply rwp_bind.
  change (thr_get cur s) with (deref (threads s !! cur) s).
  destruct (threads s !! cur) as [t|] eqn:Ht; [|done]. simpl. destruct (negb _); [|done].
  apply (go_asleep _ _ _ _ t); auto. intros s1 Hi1 Ha1.
  eapply (first_bind (wf_asleep q me)); [by apply switch_asleep|done|].
  intros [] s2 _ Hi2. apply rwp_bind. change (curthr_get s2) with (deref (curthr s2) s2).
  destruct (curthr s2) as [cur'|]; [|done]. simpl. apply rwp_bind.
  change (thr_get cur' s2) with (deref (threads s2 !! cur') s2).
  destruct (threads s2 !! cur'); [|done]. simpl. by destruct (negb _).
Qed.

(** A call of the scheduler that does not wake the queue [q] on purpose. *)
Definition leaves (q : qid) (c : sched_call) : Prop :=
  match c with WakeupOn q' | BroadcastOn q' => q' ≠ q | _ => True end.

Lemma sched_call_asleep q me c s :
  wf_asleep q me s → q ≠ kt_runq → leaves q c → first (wf_asleep q me) (run_call c s).
Proof.
  intros Hi Hq Hc. pose proof Hi as [Hwf Ha].
  assert (∀ A (m : M sched A), keeps sched_guar sched_wf m → first (asleep q me) (m s) →
    first (wf_asleep q me) (m s)) as Hboth.
  { intros A m Hk Hf. apply first_intro. intros s' Hr. split; [|by eapply first_reaches].
    eapply (first_reaches sched_wf); [|exact Hr]. by eapply keeps_first; [done|intros ? ? []|]. }
  destruct c; simpl in *.
  - apply Hboth; [apply make_runnable_keeps|by apply make_runnable_asleep].
  - by apply sleep_on_asleep.
  - eapply first_bind; [by apply cancellable_sleep_on_asleep|done|done].
  - apply Hboth; [apply cancel_keeps|by apply cancel_asleep].
  - eapply first_bind; [by apply wakeup_on_asleep|done|done].
  - apply rwp_bind. unfold q_get. destruct (queues s !! q0); [|done]. by apply broadcast_loop_asleep.
Qed.

(** ** The other threads *)

(** The calls they make: on any mutex, and on the scheduler. *)
Inductive kcall :=
| Lock (x : positive) | LockCancellable (x : positive) | Unlock (x : positive)
| SchedCall (c : sched_call).

Definition run_kcall (c : kcall) : M kms unit :=
  match c with
  | Lock x => kmutex_lock x
  | LockCancellable x => kmutex_lock_cancellable x ;;; ret tt
  | Unlock x => kmutex_unlock x
  | SchedCall c => on_sched (run_call c)
  end.

(** One step while [me] does not run: a call of the current thread (or of an interrupt
    handler that runs on it) up to its end or to where it gives up the processor, a
    dispatch that ends a wait for interrupts, or a change of the interrupt level. The
    queue [q] of the mutex is woken only by the mutex operations. *)
Inductive other_step (q : qid) (me : tid) (k : kms) : kms → Prop :=
| os_call u c k' : curthr (km_sched k) = Some u → u ≠ me →
    (∀ c', c = SchedCall c' → leaves q c') → reaches (run_kcall c k) k' → other_step q me k k'
| os_dispatch u s' : curthr (km_sched k) = Some u → u ≠ me → sched_strict (km_sched k) →
    dispatched (km_sched k) s' → other_step q me k (Kms s' (mutexes k))
| os_ipl u i : curthr (km_sched k) = Some u → u ≠ me → other_step q me k (with_ipl i k).

(** Each mutex has a queue of its own, which is not the run queue. *)
Definition own_queues (k : kms) : Prop :=
  ∀ x m, mutexes k !! x = Some m → km_waitq m ≠ kt_runq ∧
    ∀ x' m', mutexes k !! x' = Some m' → km_waitq m' = km_waitq m → x' = x.

(** [me] waits for the mutex, which somebody holds. *)
Record waits (mtx : positive) (q : qid) (me : tid) (k : kms) : Prop := Waits {
  w_wf : wf_asleep q me (km_sched k);
  w_mtx : ∃ m, mutexes k !! mtx = Some m ∧ km_waitq m = q ∧ km_holder m ≠ None;
  w_own : own_queues k
}.

(** The queues of the mutexes stay when only holders change. *)
Lemma own_queues_set k s x m h :
  own_queues k → mutexes k !! x = Some m →
  own_queues (Kms s (<[x := Kmutex h (km_waitq m)]> (mutexes k))).
Proof.
  intros Hown Hm.
  assert (∀ y my, mutexes (Kms s (<[x := Kmutex h (km_waitq m)]> (mutexes k))) !! y = Some my →
    ∃ m0, mutexes k !! y = Some m0 ∧ km_waitq m0 = km_waitq my) as Hback.
  { intros y my. simpl. intros [[<- <-]|[? ?]]%lookup_insert_Some; eauto. }
  intros y my (m0 & Hm0 & Hq0)%Hback. destruct (Hown y m0 Hm0) as [Hr Hd]. rewrite <- Hq0.
  split; [done|]. intros y' my' (m1 & Hm1 & Hq1)%Hback Heq. apply (Hd y' m1 Hm1). congruence.
Qed.

Lemma waits_sched mtx q me k s :
  waits mtx q me k → wf_asleep q me s → waits mtx q me (Kms s (mutexes k)).
Proof. intros [_ Hm Hown] Hs. by split. Qed.

Lemma on_sched_reaches {A} (m : M sched A) k k' :
  reaches (on_sched m k) k' → ∃ s', reaches (m (km_sched k)) s' ∧ k' = Kms s' (mutexes k).
Proof.
  unfold on_sched, zoom. destruct (m (km_sched k)); simpl; [|done|done|]; intros <-; eauto.
Qed.

Lemma on_sched_waits {A} mtx q me (m : M sched A) k k' :
  waits mtx q me k → first (wf_asleep q me) (m (km_sched k)) → reaches (on_sched m k) k' →
  waits mtx q me k'.
Proof.
  intros Hw Hf (s' & Hr & ->)%on_sched_reaches. apply waits_sched; [done|].
  by eapply first_reaches.
Qed.

(** Taking a free mutex: it is another one. *)
Lemma take_waits mtx q me u x m k :
  waits mtx q me k → mutexes k !! x = Some m → km_holder m = None →
  waits mtx q me (Kms (km_sched k) (<[x := Kmutex (Some u) (km_waitq m)]> (mutexes k))).
Proof.
  intros [Hs (m0 & Hm0 & Hq & Hh) Hown] Hm Hfree. split; [done| |by apply own_queues_set].
  exists m0. simpl. rewrite lookup_insert_ne by congruence. done.
Qed.

(** *** Unlocking *)

Lemma wakeup_on_panic s q thr rest :
  sched_wf s → waiting s q = thr :: rest → queues s !! kt_runq = None →
  sched_wakeup_on q s = Panic.
Proof.
  intros Hwf Hw HR. unfold waiting in Hw. destruct (queues s !! q) as [Q|] eqn:HQ; [|done].
  unfold sched_wakeup_on, bind. rewrite sched_queue_empty_eq, HQ.
  destruct (tq_list Q) as [|x l] eqn:Hl; [done|]. simpl. rewrite ktqueue_dequeue_eq, HQ.
  destruct (last (tq_list Q)) as [w|]; [|done]. destruct (threads s !! w) as [t|]; [|done]. simpl.
  unfold thr_get. simpl. rewrite lookup_insert_eq. simpl. destruct (_ || _); [|done]. simpl.
  erewrite alter_lookup_insert by apply lookup_insert_eq. rewrite sched_make_runnable_eq. simpl.
  rewrite lookup_insert_eq, lookup_insert_ne, HR by congruence. done.
Qed.

(** What an unlock that returns has done: the thread that has waited longest, if any,
    was woken and is the holder. *)
Lemma unlock_returns x u m k k' :
  sched_wf (km_sched k) → mutexes k !! x = Some m → km_waitq m ≠ kt_runq →
  curthr (km_sched k) = Some u → reaches (kmutex_unlock x k) k' →
  km_holder m = Some u ∧ ∃ Q, queues (km_sched k) !! km_waitq m = Some Q ∧
  match waiting (km_sched k) (km_waitq m) with
  | [] => k' = Kms (km_sched k) (<[x := Kmutex None (km_waitq m)]> (mutexes k))
  | w :: _ => ∃ R t, queues (km_sched k) !! kt_runq = Some R ∧ threads (km_sched k) !! w = Some t ∧
      last (tq_list Q) = Some w ∧
      k' = Kms (woken (km_waitq m) Q R w t (km_sched k)) (<[x := Kmutex (Some w) (km_waitq m)]> (mutexes k))
  end.
Proof.
  intros Hwf Hm Hq Hcur Hr. destruct (decide (km_holder m = Some u)) as [Hh|Hh].
  2: { exfalso. revert Hr. unfold kmutex_unlock. erewrite bind_Ret by (unfold mtx_get; by rewrite Hm).
       erewrite bind_Ret by (by apply on_sched_ret). rewrite Hcur, (bool_decide_eq_false_2 (Some u = _)) by congruence.
       by rewrite andb_false_r. }
  split; [done|]. destruct (queues (km_sched k) !! km_waitq m) as [Q|] eqn:HQ.
  2: { exfalso. revert Hr. unfold kmutex_unlock. erewrite bind_Ret by (unfold mtx_get; by rewrite Hm).
       erewrite bind_Ret by (by apply on_sched_ret). rewrite Hcur, Hh.
       erewrite bind_Ret by (apply kassert_true; by rewrite !bool_decide_eq_true_2).
       erewrite bind_Ret by (by apply (eq_refl (set_holder _ _ _))). unfold bind, on_sched, zoom.
       rewrite sched_queue_empty_eq. simpl. by rewrite HQ. }
  exists Q. split; [done|]. rewrite (kmutex_unlock_prefix x u k m Q Hm Hcur Hh HQ) in Hr.
  set (k1 := Kms _ _) in Hr. assert (waiting (km_sched k) (km_waitq m) = reverse (tq_list Q)) as Hwt
    by (unfold waiting; by rewrite HQ).
  destruct (tq_list Q) as [|y l] eqn:Hl.
  - rewrite Hwt. simpl. revert Hr. unfold bind, ret, mtx_get. simpl. rewrite lookup_insert_eq. simpl.
    by intros <-.
  - destruct (waiting (km_sched k) (km_waitq m)) as [|w rest] eqn:Hw.
    { symmetry in Hwt. apply (f_equal length) in Hwt. by rewrite length_reverse in Hwt. }
    destruct (queues (km_sched k) !! kt_runq) as [R|] eqn:HR.
    + destruct (wakeup_on_run _ _ w rest R Hwf Hq HR Hw) as (Q' & t & ? & Ht & Hla & Hrun). simplify_eq.
      exists R, t. split; [done|]. split; [done|]. split; [by rewrite <- Hl|]. revert Hr. unfold bind.
      erewrite on_sched_ret by (simpl; exact Hrun). simpl.
      erewrite alter_lookup_insert by apply lookup_insert_eq. rewrite insert_insert_eq.
      unfold mtx_get. simpl. rewrite lookup_insert_eq. simpl. case_bool_decide; simpl; [by intros <-|done].
    + exfalso. revert Hr. unfold bind, on_sched, zoom. simpl.
      by rewrite (wakeup_on_panic _ _ _ _ Hwf Hw HR).
Qed.

(** The woken thread is another one, or it is [me], which now holds the mutex. *)
Lemma woken_asleep q me q' Q R w t s :
  wf_asleep q me s → queues s !! q' = Some Q → queues s !! kt_runq = Some R → q' ≠ kt_runq →
  last (tq_list Q) = Some w → threads s !! w = Some t → w ≠ me →
  wf_asleep q me (woken q' Q R w t s).
Proof.
  intros [Hwf (Hc & u & Hu & ? & ?)] HQ HR Hq Hl Ht Hne. split; [by apply woken_wf|].
  split; [done|]. exists u. simpl. by rewrite lookup_insert_ne.
Qed.

Lemma unlock_waits mtx q me x u k k' :
  waits mtx q me k → curthr (km_sched k) = Some u → reaches (kmutex_unlock x k) k' →
  waits mtx q me k' ∨ held mtx me k'.
Proof.
  intros [Hs (m0 & Hm0 & <- & Hh0) Hown] Hcur Hr.
  destruct (mutexes k !! x) as [m|] eqn:Hm.
  2: { exfalso. revert Hr. unfold kmutex_unlock, bind, mtx_get. by rewrite Hm. }
  destruct (Hown x m Hm) as [Hqr Hd]. pose proof Hs as [Hwf Ha].
  destruct (unlock_returns x u m k k' Hwf Hm Hqr Hcur Hr) as (Hh & Q & HQ & Hcase).
  destruct (waiting (km_sched k) (km_waitq m)) as [|w rest] eqn:Hw.
  - subst k'. left. assert (x ≠ mtx) as Hx.
    { intros ->. simplify_eq. destruct Ha as (_ & t & Ht & Hwc & _).
      destruct (core_chan _ (wf_core _ Hwf) _ _ _ Ht Hwc) as (Q' & ? & Hin). simplify_eq.
      unfold waiting in Hw. rewrite HQ in Hw. apply elem_of_reverse in Hin. rewrite Hw in Hin.
      by apply elem_of_nil in Hin. }
    split; [done| |by apply own_queues_set]. exists m0. simpl. by rewrite lookup_insert_ne.
  - destruct Hcase as (R & t & HR & Ht & Hl & ->). destruct (decide (x = mtx)) as [->|Hx].
    + simplify_eq. destruct (decide (w = me)) as [->|Hne].
      * right. unfold held, holder. simpl. by rewrite lookup_insert_eq.
      * left. split; [by apply woken_asleep| |by apply own_queues_set].
        eexists. simpl. rewrite lookup_insert_eq. split; [done|]. done.
    + left. assert (w ≠ me) as Hne.
      { intros ->. apply Hx. symmetry. apply (Hd mtx m0 Hm0).
        destruct Ha as (_ & t' & Ht' & Hwc & _). simplify_eq.
        destruct (core_on _ (wf_core _ Hwf) _ _ me HQ (last_in _ _ Hl)) as (? & ? & ?). congruence. }
      split; [by apply woken_asleep| |by apply own_queues_set].
      exists m0. simpl. by rewrite lookup_insert_ne.
Qed.

(** *** A thread that holds the mutex *)

Lemma set_holder_held mtx me x h : x ≠ mtx → keeps (λ _, held mtx me) (held mtx me) (set_holder x h).
Proof.
  intros Hx. apply keeps_modify. intros k. unfold held, holder. simpl. by rewrite lookup_alter_ne.
Qed.
Lemma mtx_get_held mtx me x : keeps (λ _, held mtx me) (held mtx me) (mtx_get x).
Proof. intros k Hk. unfold mtx_get. by destruct (mutexes k !! x). Qed.
Lemma on_sched_keeps_held {A} mtx me (m : M sched A) :
  keeps (λ _, held mtx me) (held mtx me) (on_sched m).
Proof. intros k. apply on_sched_held. Qed.
Local Hint Resolve set_holder_held mtx_get_held on_sched_keeps_held keeps_kassert keeps_ret : core.

(** The calls of other threads do not take the mutex away. *)
Lemma kcall_held mtx me u c k k' :
  held mtx me k → curthr (km_sched k) = Some u → u ≠ me → reaches (run_kcall c k) k' → held mtx me k'.
Proof.
  intros Hh Hcur Hne. apply first_reaches.
  assert (∀ A (r : res kms A), rwp True (λ _, held mtx me) (λ _ _, held mtx me) (λ _, held mtx me) r →
    first (held mtx me) r) as Hf.
  { intros A r Hr. apply first_intro. intros s'. destruct r; simpl in *; [by intros <-|done|done|].
    destruct Hr as [? _]. by intros <-. }
  destruct (held_kept mtx me u k Hh Hcur Hne) as (H1 & H2 & H3).
  destruct c as [x|x|x|c]; simpl.
  - destruct (decide (x = mtx)) as [->|Hx]; [by apply Hf|]. apply (keeps_first (λ _, held mtx me)); [|done|done].
    unfold kmutex_lock. repeat (apply keeps_bind; [by auto|intros ?]). case_bool_decide; auto.
  - destruct (decide (x = mtx)) as [->|Hx]; [eapply first_bind; [by apply Hf|done|done]|].
    apply (keeps_first (λ _, held mtx me)); [|done|done]. apply keeps_bind; [|auto]. unfold kmutex_lock_cancellable.
    repeat (apply keeps_bind; [by auto|intros ?]). case_bool_decide; [apply keeps_bind|]; auto.
  - destruct (decide (x = mtx)) as [->|Hx]; [by rewrite H3|]. apply (keeps_first (λ _, held mtx me)); [|done|done].
    unfold kmutex_unlock. repeat (apply keeps_bind; [by auto|intros ?]).
    apply keeps_bind; [match goal with b : bool |- _ => destruct b end; [auto|apply keeps_bind; auto]|].
    intros ?. apply keeps_bind; auto.
  - by apply Hf, on_sched_held.
Qed.

(** *** The steps of the other threads *)

Lemma kcall_waits mtx q me u c k k' :
  waits mtx q me k → curthr (km_sched k) = Some u →
  (∀ c', c = SchedCall c' → leaves q c') → reaches (run_kcall c k) k' →
  waits mtx q me k' ∨ held mtx me k'.
Proof.
  intros Hw Hcur Hc Hr. pose proof Hw as [Hs (m0 & Hm0 & Hq0 & Hh0) Hown].
  assert (q ≠ kt_runq) as Hq by (rewrite <- Hq0; eapply Hown, Hm0).
  assert (∀ x : positive, mutexes k !! x = None → ∀ (f : kmutex → M kms unit), ¬ reaches (bind (mtx_get x) f k) k')
    as Hnone by (intros x Hx f; unfold bind, mtx_get; rewrite Hx; by intros []).
  destruct c as [x|x|x|c]; simpl in Hr.
  - destruct (mutexes k !! x) as [m|] eqn:Hm; [|by destruct (Hnone x Hm _ Hr)].
    rewrite (kmutex_lock_cases x u k m Hm Hcur) in Hr. left.
    destruct (km_holder m) as [h|] eqn:Hh; [|simpl in Hr; subst k'; by apply take_waits].
    destruct (bool_decide (h = u)); [done|].
    eapply on_sched_waits; [done|by apply sleep_on_asleep|exact Hr].
  - destruct (mutexes k !! x) as [m|] eqn:Hm.
    2: { exfalso. revert Hr. unfold kmutex_lock_cancellable, bind, mtx_get. by rewrite Hm. }
    left. assert (first (waits mtx q me) (kmutex_lock_cancellable x k)) as Hf.
    { rewrite (kmutex_lock_cancellable_cases x u k m Hm Hcur).
      destruct (km_holder m) as [h|] eqn:Hh; [|by apply take_waits].
      destruct (bool_decide (h = u)); [done|]. apply first_intro. intros k1 Hr1.
      eapply on_sched_waits; [done|by apply cancellable_sleep_on_asleep|exact Hr1]. }
    eapply first_reaches; [|exact Hr]. eapply first_bind; [exact Hf|done|done].
  - by eapply unlock_waits.
  - left. eapply on_sched_waits; [done|apply sched_call_asleep; auto|exact Hr].
Qed.

Lemma other_step_keeps mtx q me k k' :
  other_step q me k k' → waits mtx q me k ∨ held mtx me k → waits mtx q me k' ∨ held mtx me k'.
Proof.
  intros Hst [Hw|Hh].
  - pose proof Hw as [Hs (m0 & Hm0 & Hq0 & _) Hown].
    assert (q ≠ kt_runq) as Hq by (rewrite <- Hq0; eapply Hown, Hm0).
    destruct Hst as [u c k' Hcur Hne Hc Hr|u s' Hcur Hne Hstr Hd|u i Hcur Hne].
    + by eapply kcall_waits.
    + left. apply waits_sched; [done|]. destruct Hs. by eapply dispatched_asleep.
    + left. destruct Hs. apply waits_sched; [done|]. split; [by apply wf_ipl|done].
  - right. destruct Hst as [u c k' Hcur Hne Hc Hr| |]; [by eapply kcall_held|done|done].
Qed.

Lemma other_steps_keep mtx q me k k' :
  rtc (other_step q me) k k' → waits mtx q me k ∨ held mtx me k → waits mtx q me k' ∨ held mtx me k'.
Proof. induction 1 as [|k1 k2 k3 Hst _ IH]; [done|]. intros Hi. by eapply IH, other_step_keeps. Qed.

Lemma waits_queued mtx q me k :
  waits mtx q me k → me ∈ waiters k mtx ∧ holder k mtx ≠ None ∧ curthr (km_sched k) ≠ Some me.
Proof.
  intros [[Hwf (Hc & t & Ht & Hw & _)] (m & Hm & <- & Hh) _]. unfold waiters, holder. rewrite Hm.
  split; [|done]. destruct (core_chan _ (wf_core _ Hwf) _ _ _ Ht Hw) as (Q & HQ & Hin).
  unfold waiting. rewrite HQ. by apply elem_of_reverse.
Qed.

(** The call on a mutex that is held, while another thread is runnable. *)
Lemma lock_blocks mtx me k m h t Q next rest :
  sched_wf (km_sched k) → mutexes k !! mtx = Some m → km_waitq m ≠ kt_runq →
  km_holder m = Some h → h ≠ me → curthr (km_sched k) = Some me →
  threads (km_sched k) !! me = Some t → kt_wchan t = None →
  queues (km_sched k) !! km_waitq m = Some Q → waiting (km_sched k) kt_runq = next :: rest →
  ∃ s1, kmutex_lock mtx k = Block ContextSwitch (Kms s1 (mutexes k))
      (λ k2, on_sched (intr_setipl (ipl (km_sched k))) k2) ∧
    waiting s1 (km_waitq m) = waiting (km_sched k) (km_waitq m) ++ [me] ∧
    curthr s1 = Some next ∧ sched_wf s1 ∧
    threads s1 !! me = Some (linked (km_waitq m) (set_kt_state KT_SLEEP t)).
Proof.
  intros Hwf Hm Hq Hh Hne Hcur Ht Hn HQ Hrun.
  destruct (sleep_switches (km_sched k) (km_waitq m) Q me t KT_SLEEP next rest)
    as (s1 & Hsw & Hw1 & Hc1 & _ & Ht1); [by auto..|].
  assert (sched_sleep_on (km_waitq m) (km_sched k) =
    Block ContextSwitch s1 (intr_setipl (ipl (km_sched k)))) as Hsl.
  { unfold sched_sleep_on. erewrite bind_Ret by (unfold curthr_get; by rewrite Hcur).
    erewrite bind_Ret by (unfold thr_get; by rewrite Ht).
    erewrite bind_Ret by (unfold thr_upd, modify; by erewrite alter_lookup_insert).
    erewrite bind_Ret; [exact Hsw|]. rewrite ktqueue_enqueue_eq. simpl.
    by rewrite lookup_insert_eq, HQ, bool_decide_eq_true_2. }
  exists s1. split.
  - rewrite (kmutex_lock_cases mtx me k m Hm Hcur), Hh, bool_decide_eq_false_2 by done.
    unfold on_sched at 1, zoom. rewrite Hsl. done.
  - split; [done|]. split; [done|]. split; [|done].
    assert (first sched_wf (sched_sleep_on (km_waitq m) (km_sched k))) as Hf
      by (eapply keeps_first; [apply sleep_on_keeps|by intros ? ? []|done]).
    rewrite Hsl in Hf. apply Hf.
Qed.

(** C27: [kmutex_lock] acquires the mutex.  A free mutex is taken at once, and nothing
    else changes.  If another thread holds it (and some thread is runnable), the caller
    goes to the end of the queue of the mutex and gives up the processor; then, whatever
    calls on mutexes and on the scheduler the other threads make, and however they
    switch, the caller stays in the queue of a mutex that is held by another thread and
    does not run, until it is the holder; so when it runs again, the call returns with
    the caller as the holder. The other threads wake the queue of the mutex only through
    [kmutex_unlock]. *)
Theorem kmutex_lock_acquires mtx me k m t Q next rest :
  sched_wf (km_sched k) → own_queues k → mutexes k !! mtx = Some m →
  curthr (km_sched k) = Some me → threads (km_sched k) !! me = Some t → kt_wchan t = None →
  queues (km_sched k) !! km_waitq m = Some Q → waiting (km_sched k) kt_runq = next :: rest →
  match km_holder m with
  | None => kmutex_lock mtx k =
      Ret tt (Kms (km_sched k) (<[mtx := Kmutex (Some me) (km_waitq m)]> (mutexes k)))
  | Some h => h ≠ me →
      ∃ k1 c, kmutex_lock mtx k = Block ContextSwitch k1 c ∧
        waiters k1 mtx = waiters k mtx ++ [me] ∧ holder k1 mtx = Some h ∧
        curthr (km_sched k1) = Some next ∧
        ∀ k2, rtc (other_step (km_waitq m) me) k1 k2 →
          (holder k2 mtx ≠ Some me →
             me ∈ waiters k2 mtx ∧ holder k2 mtx ≠ None ∧ curthr (km_sched k2) ≠ Some me) ∧
          (curthr (km_sched k2) = Some me →
             ∃ k3, c k2 = Ret tt k3 ∧ holder k3 mtx = Some me)
  end.
Proof.
  intros Hwf Hown Hm Hcur Ht Hn HQ Hrun. pose proof (Hown mtx m Hm) as [Hq _].
  destruct (km_holder m) as [h|] eqn:Hh;
    [|by rewrite (kmutex_lock_cases mtx me k m Hm Hcur), Hh].
  intros Hne.
  destruct (lock_blocks mtx me k m h t Q next rest) as (s1 & Hl & Hw1 & Hc1 & Hwf1 & Ht1); try done.
  exists (Kms s1 (mutexes k)), (λ k2, on_sched (intr_setipl (ipl (km_sched k))) k2).
  split; [done|]. split; [unfold waiters; simpl; by rewrite Hm|].
  split; [unfold holder; simpl; by rewrite Hm|]. split; [done|].
  assert (next ≠ me) as Hnext.
  { intros ->. apply (not_waiting (km_sched k) kt_runq me t (wf_core _ Hwf) Ht ltac:(congruence)).
    rewrite Hrun. apply elem_of_cons. by left. }
  intros k2 Hsteps. assert (waits mtx (km_waitq m) me k2 ∨ held mtx me k2) as Hinv.
  { eapply other_steps_keep; [exact Hsteps|]. left. split; [split; [done|]| |done].
    - split; [simpl; congruence|]. by eexists.
    - exists m. split; [done|]. split; [done|congruence]. }
  destruct Hinv as [Hw|Hheld].
  - destruct (waits_queued _ _ _ _ Hw) as (? & ? & ?). done.
  - split; [done|]. intros _. eexists. split; [reflexivity|]. exact Hheld.
Qed.
End wait.

(** ** The theorem at work *)

#[local] Existing Instance errno_ex.
#[local] Existing Instance intr_ex.

(** Thread 1 runs, thread 2 is runnable and holds mutex 7, on whose queue 2 nobody
    waits; queue 3 is another wait queue. *)
Definition ex_two : sched :=
  Sched {[1%positive := Kthread KT_RUN None false 0 0 0 (Some 1%positive);
          2%positive := Kthread KT_RUN (Some kt_runq) true 0 0 0 (Some 1%positive)]}
        {[kt_runq := Ktqueue [2%positive] 1; 2%positive := Ktqueue [] 0; 3%positive := Ktqueue [] 0]}
        (Some 1%positive) (Some 1%positive) 0.
Definition ex_busy : kms := Kms ex_two {[7%positive := Kmutex (Some 2%positive) 2]}.

(** Thread 1 locks the mutex and waits; thread 2 unlocks it and goes to sleep on queue
    3; thread 1 runs again and returns from the call as the holder. *)
Lemma kmutex_lock_acquires_witness :
  ∃ k1 c k2 k3, kmutex_lock 7 ex_busy = Block ContextSwitch k1 c ∧ waiters k1 7 = [1%positive] ∧
    rtc (other_step 2 1) k1 k2 ∧ c k2 = Ret tt k3 ∧ holder k3 7 = Some 1%positive.
Proof.
  destruct (kmutex_lock_acquires 7 1 ex_busy (Kmutex (Some 2%positive) 2)
    (Kthread KT_RUN None false 0 0 0 (Some 1%positive)) (Ktqueue [] 0) 2 [])
    as (k1 & c & Hl & Hw & _ & _ & Hstep); try reflexivity.
  - apply sched_wfb_wf. by vm_compute.
  - intros x m. simpl. intros [<- <-]%lookup_singleton_Some. split; [done|].
    by intros x' m' [<- _]%lookup_singleton_Some.
  - done.
  - assert (∃ k2, rtc (other_step 2 1) k1 k2 ∧ curthr (km_sched k2) = Some 1%positive) as (k2 & Hst & Hc).
    { vm_compute in Hl. injection Hl as <- _. eexists. split.
      - eapply rtc_l; [eapply (os_call _ _ _ 2 (Unlock 7)); [reflexivity|done|done|vm_compute; reflexivity]|].
        eapply rtc_once, (os_call _ _ _ 2 (SchedCall (SleepOn 3)));
          [reflexivity|done|by intros c' [= <-]|vm_compute; reflexivity].
      - reflexivity. }
    destruct (Hstep k2 Hst) as [_ Hret]. destruct (Hret Hc) as (k3 & Hk3 & Hh).
    exists k1, c, k2, k3. by rewrite Hw.
Defined.
