(* ===== verification/Vmmap.v ===== *)
(** * Address spaces: vm/vmmap.c

    A [vmmap] is a list of pointers to [vmarea]s, which live in a heap of their
    own and are shared: callers keep and change the areas a lookup gives them.
    Memory objects, page frames and page tables are the interface [MmOps]: the
    functions of mmobj operations, anon.c, shadow.c, pframe.c and pagetable.c that
    vmmap.c calls. *)
From S2P Require Import Prelude Headers.
Local Open Scope kernel_scope.

(** ** Data *)

(** A [list_link_t]: both pointers null, pointing to itself ([list_init]), or
    linked into a list.  [list_link_is_linked] tests the pointers for null. *)
Inductive link : Set := LNull | LSelf | LIn.
Definition list_link_is_linked (l : link) : bool :=
  match l with LNull => false | LSelf | LIn => true end.

Record vmarea := Vmarea {
  vma_start : Z;
  vma_end : Z;
  vma_off : Z;
  vma_prot : Z;
  vma_flags : Z;
  vma_vmmap : option positive;
  vma_obj : option positive;
  vma_plink : link;
  vma_olink : link
}.

Definition set_vma_start v a := Vmarea v (vma_end a) (vma_off a) (vma_prot a)
  (vma_flags a) (vma_vmmap a) (vma_obj a) (vma_plink a) (vma_olink a).
Definition set_vma_end v a := Vmarea (vma_start a) v (vma_off a) (vma_prot a)
  (vma_flags a) (vma_vmmap a) (vma_obj a) (vma_plink a) (vma_olink a).
Definition set_vma_off v a := Vmarea (vma_start a) (vma_end a) v (vma_prot a)
  (vma_flags a) (vma_vmmap a) (vma_obj a) (vma_plink a) (vma_olink a).
Definition set_vma_prot v a := Vmarea (vma_start a) (vma_end a) (vma_off a) v
  (vma_flags a) (vma_vmmap a) (vma_obj a) (vma_plink a) (vma_olink a).
Definition set_vma_flags v a := Vmarea (vma_start a) (vma_end a) (vma_off a)
  (vma_prot a) v (vma_vmmap a) (vma_obj a) (vma_plink a) (vma_olink a).
Definition set_vma_vmmap v a := Vmarea (vma_start a) (vma_end a) (vma_off a)
  (vma_prot a) (vma_flags a) v (vma_obj a) (vma_plink a) (vma_olink a).
Definition set_vma_obj v a := Vmarea (vma_start a) (vma_end a) (vma_off a)
  (vma_prot a) (vma_flags a) (vma_vmmap a) v (vma_plink a) (vma_olink a).
Definition set_vma_plink v a := Vmarea (vma_start a) (vma_end a) (vma_off a)
  (vma_prot a) (vma_flags a) (vma_vmmap a) (vma_obj a) v (vma_olink a).
Definition set_vma_olink v a := Vmarea (vma_start a) (vma_end a) (vma_off a)
  (vma_prot a) (vma_flags a) (vma_vmmap a) (vma_obj a) (vma_plink a) v.

Record vmmap := Vmmap { vmm_list : list positive; vmm_proc : option positive }.

(** The areas and maps, by address, and the memory system [S] beneath them. *)
Record vm (S : Type) := Vm {
  vmareas : gmap positive vmarea;
  vmmaps : gmap positive vmmap;
  mm : S
}.
Arguments Vm {S} vmareas vmmaps mm.
Arguments vmareas {S} _.
Arguments vmmaps {S} _.
Arguments mm {S} _.

(** ** What vmmap.c calls *)

(** Memory objects, page frames and page tables.  Pointers to them are
    [positive]; an out-parameter that an operation leaves unset is [None]. *)
Class MmOps (S : Type) := {
  (** [o->mmo_ops->ref(o)], [o->mmo_ops->put(o)] *)
  mmo_ref : positive → M S unit;
  mmo_put : positive → M S unit;
  (** [o->mmo_ops->lookuppage(o, pagenum, forwrite, &pf)] *)
  mmo_lookuppage : positive → Z → bool → M S (Z * option positive);
  (** [list_insert_tail(&o->mmo_un.mmo_vmas, &vma->vma_olink)] *)
  mmo_vmas_insert_tail : positive → positive → M S unit;
  (** [list_remove(&vma->vma_olink)], the end of the list that holds the link *)
  mmo_vmas_remove : positive → M S unit;
  anon_create : M S (option positive);
  shadow_create : M S (option positive);
  (** [o->mmo_shadowed = p], [o->mmo_un.mmo_bottom_obj = p] *)
  mmo_set_shadowed : positive → positive → M S unit;
  mmo_set_bottom_obj : positive → positive → M S unit;
  mmobj_bottom_obj : positive → M S positive;
  (** [file->vn_ops->mmap(file, vma, &o)] *)
  vn_mmap : positive → positive → M S (Z * option positive);
  (** [memcpy] from and to [pf->pf_addr] at an offset *)
  pf_read : positive → Z → Z → M S (list Z);
  pf_write : positive → Z → list Z → M S unit;
  pframe_dirty : positive → M S Z;
  tlb_flush_all : M S unit;
  (** [pt_unmap_range(curproc->p_pagedir, lo, hi)] *)
  pt_unmap_range : Z → Z → M S unit
}.

(** The slab allocators of areas and maps: an address that is not in use, or
    [NULL].  A new object holds whatever was in the memory. *)
Class SlabOps (S : Type) := {
  vmarea_slab : vm S → option positive;
  vma_uninit : positive → vmarea;
  vmmap_slab : vm S → option positive;
  vmarea_slab_fresh s p : vmarea_slab s = Some p → vmareas s !! p = None;
  vmmap_slab_fresh s p : vmmap_slab s = Some p → vmmaps s !! p = None
}.

Section vmmap.
Context `{PageH, MmanH} {S : Type} `{MmOps S, SlabOps S}.
Implicit Types (map vma : positive) (s : vm S).

(** ** Reading and writing through pointers *)

Definition on_mm {A} (m : M S A) : M (vm S) A :=
  zoom mm (λ t s, Vm (vmareas s) (vmmaps s) t) m.

Definition vma_get vma : M (vm S) vmarea := λ s, deref (vmareas s !! vma) s.
Definition vma_upd vma (f : vmarea → vmarea) : M (vm S) unit :=
  modify (λ s, Vm (alter f vma (vmareas s)) (vmmaps s) (mm s)).
Definition map_get map : M (vm S) vmmap := λ s, deref (vmmaps s !! map) s.
Definition map_upd map (f : vmmap → vmmap) : M (vm S) unit :=
  modify (λ s, Vm (vmareas s) (alter f map (vmmaps s)) (mm s)).
(** The areas of a map, in the order of its list. *)
Definition vmm_areas map : M (vm S) (list (positive * vmarea)) := λ s,
  deref (m ← vmmaps s !! map;
         mapM (λ p, a ← vmareas s !! p; Some (p, a)) (vmm_list m)) s.

(** [list_iterate_begin(&map->vmm_list, tmp, ...) ... list_iterate_end()]: the
    pointer to the next area is read before the body runs. *)
Fixpoint next_in (l : list positive) (p : positive) : option positive :=
  match l with
  | [] => None
  | x :: r => if decide (x = p) then head r else next_in r p
  end.
Fixpoint vmm_iterate (fuel : nat) map (body : positive → M (vm S) unit)
    (cur : option positive) : M (vm S) unit :=
  match cur with
  | None => ret tt
  | Some tmp =>
      match fuel with
      | O => out_of_fuel
      | Datatypes.S fuel' =>
          m <- map_get map ;;
          let next := next_in (vmm_list m) tmp in
          body tmp ;;;
          vmm_iterate fuel' map body next
      end
  end.

(** ** Areas and maps *)

Definition vmarea_alloc : M (vm S) (option positive) := λ s,
  match vmarea_slab s with
  | Some newvma =>
      Ret (Some newvma)
        (Vm (<[newvma := set_vma_vmmap None (vma_uninit newvma)]> (vmareas s))
            (vmmaps s) (mm s))
  | None => Ret None s
  end.

Definition vmarea_free vma : M (vm S) unit :=
  modify (λ s, Vm (delete vma (vmareas s)) (vmmaps s) (mm s)).

Definition vmmap_create : M (vm S) positive :=
  map <- (λ s, deref (vmmap_slab s) s) ;;
  modify (λ s, Vm (vmareas s) (<[map := Vmmap [] None]> (vmmaps s)) (mm s)) ;;;
  ret map.

(** [list_remove(&vma->vma_plink)] and [list_remove(&vma->vma_olink)]. *)
Definition plink_remove map vma : M (vm S) unit :=
  map_upd map (λ m, Vmmap (filter (λ p, p ≠ vma) (vmm_list m)) (vmm_proc m)) ;;;
  vma_upd vma (set_vma_plink LNull).
Definition olink_remove vma : M (vm S) unit :=
  a <- vma_get vma ;;
  (match vma_olink a with LIn => on_mm (mmo_vmas_remove vma) | _ => ret tt end) ;;;
  vma_upd vma (set_vma_olink LNull).

Definition vmmap_destroy_body map (tmp : positive) : M (vm S) unit :=
  a <- vma_get tmp ;;
  (if list_link_is_linked (vma_plink a) then plink_remove map tmp else ret tt) ;;;
  (match vma_obj a with Some o => on_mm (mmo_put o) | None => ret tt end) ;;;
  a' <- vma_get tmp ;;
  (if list_link_is_linked (vma_olink a') then olink_remove tmp else ret tt).

Definition vmmap_destroy map : M (vm S) unit :=
  m <- map_get map ;;
  vmm_iterate (length (vmm_list m)) map (vmmap_destroy_body map) (head (vmm_list m)) ;;;
  modify (λ s, Vm (vmareas s) (delete map (vmmaps s)) (mm s)).

(** The position of the new area: before the first area that starts at or after
    its end. *)
Fixpoint insert_before (e : Z) (new : positive) (l : list (positive * vmarea)) : list positive :=
  match l with
  | [] => [new]
  | (p, a) :: r =>
      if vma_start a >=? e then new :: p :: r.*1 else p :: insert_before e new r
  end.

Definition vmmap_insert map newvma : M (vm S) unit :=
  l <- vmm_areas map ;;
  n <- vma_get newvma ;;
  kassert (bool_decide (vma_vmmap n = None)) ;;;
  kassert (vma_start n <? vma_end n) ;;;
  kassert ((ADDR_TO_PN USER_MEM_LOW <=? vma_start n) &&
           (ADDR_TO_PN USER_MEM_HIGH >=? vma_end n)) ;;;
  vma_upd newvma (set_vma_vmmap (Some map)) ;;;
  map_upd map (λ m, Vmmap (insert_before (vma_end n) newvma l) (vmm_proc m)) ;;;
  vma_upd newvma (set_vma_plink LIn).

(** The loop of [vmmap_find_range], from the last area to the first: the result
    so far, if [record] is set, and [pre_start]. *)
Definition find_range_step (npages : Z) (st : option Z * Z) (tmp : positive * vmarea)
    : option Z * Z :=
  let '(result, pre_start) := st in
  (if bool_decide (result = None) && (u32 (pre_start - vma_end tmp.2) >=? npages)
   then Some (u32 (pre_start - npages)) else result,
   vma_start tmp.2).

(** [dir] is not looked at.  On a map without areas the code takes the list head for an
    area, which stops the model. *)
Definition vmmap_find_range map (npages dir : Z) : M (vm S) Z :=
  l <- vmm_areas map ;;
  let '(result, _) :=
    fold_left (find_range_step npages) (reverse l) (None, ADDR_TO_PN USER_MEM_HIGH) in
  match result with
  | Some r => ret (s32 r)
  | None =>
      head_vma <- deref (head l) ;;
      if u32 (vma_start head_vma.2 - ADDR_TO_PN USER_MEM_LOW) >=? npages
      then ret (s32 (u32 (vma_start head_vma.2 - npages)))
      else ret (- 1)
  end.

Definition covers (vfn : Z) (a : vmarea) : bool :=
  (vma_start a <=? vfn) && (vma_end a >? vfn).

Definition vmmap_lookup map (vfn : Z) : M (vm S) (option positive) :=
  l <- vmm_areas map ;;
  ret (fold_left (λ vma_recorded '(vma, a),
         if bool_decide (vma_recorded = None) && covers vfn a
         then Some vma else vma_recorded) l None).

Definition vmmap_clone_body (newmap tmp : positive) : M (vm S) unit :=
  newobj <- vmarea_alloc ;;
  newobj <- deref newobj ;;
  vma_upd newobj (set_vma_obj None) ;;;
  a <- vma_get tmp ;;
  vma_upd newobj (set_vma_start (vma_start a)) ;;;
  vma_upd newobj (set_vma_end (vma_end a)) ;;;
  vma_upd newobj (set_vma_olink LSelf) ;;;
  vma_upd newobj (set_vma_off (vma_off a)) ;;;
  vma_upd newobj (set_vma_flags (vma_flags a)) ;;;
  vma_upd newobj (set_vma_plink LSelf) ;;;
  vma_upd newobj (set_vma_prot (vma_prot a)) ;;;
  vma_upd newobj (set_vma_vmmap (Some newmap)) ;;;
  map_upd newmap (λ m, Vmmap (vmm_list m ++ [newobj]) (vmm_proc m)) ;;;
  vma_upd newobj (set_vma_plink LIn).

Definition vmmap_clone map : M (vm S) positive :=
  newmap <- vmmap_create ;;
  map_upd newmap (λ m, Vmmap [] (vmm_proc m)) ;;;
  m <- map_get map ;;
  map_upd newmap (λ m', Vmmap (vmm_list m') (vmm_proc m)) ;;;
  vmm_iterate (length (vmm_list m)) map (vmmap_clone_body newmap) (head (vmm_list m)) ;;;
  ret newmap.

Definition vmmap_is_range_empty map (startvfn npages : Z) : M (vm S) bool :=
  let endvfn := u32 (startvfn + npages) in
  kassert ((startvfn <? endvfn) && (ADDR_TO_PN USER_MEM_LOW <=? startvfn) &&
           (ADDR_TO_PN USER_MEM_HIGH >=? endvfn)) ;;;
  l <- vmm_areas map ;;
  ret (fold_left (λ record tmp,
         if (vma_start tmp.2 <? u32 (startvfn + npages)) && (vma_end tmp.2 >? startvfn)
         then false else record) l true).

(** The body of the loop of [vmmap_remove], its four cases one after the other. *)
Definition remove_case1 map (lopage npages : Z) (tmp : positive) : M (vm S) unit :=
  t <- vma_get tmp ;;
  if (vma_start t <? lopage) && (vma_end t >? u32 (lopage + npages)) then
    newvma <- vmarea_alloc ;;
    newvma <- deref newvma ;;
    vma_upd newvma (set_vma_start (u32 (lopage + npages))) ;;;
    vma_upd newvma (set_vma_end (vma_end t)) ;;;
    vma_upd newvma (set_vma_olink LSelf) ;;;
    vma_upd newvma (set_vma_off
      (u32 (u32 (vma_off t + u32 (lopage + npages)) - vma_start t))) ;;;
    vma_upd newvma (set_vma_flags (vma_flags t)) ;;;
    vma_upd newvma (set_vma_plink LSelf) ;;;
    vma_upd newvma (set_vma_prot (vma_prot t)) ;;;
    vma_upd newvma (set_vma_obj (vma_obj t)) ;;;
    vmmap_insert map newvma ;;;
    o <- deref (vma_obj t) ;;
    on_mm (mmo_ref o) ;;;
    vma_upd tmp (set_vma_end lopage)
  else ret tt.

Definition remove_case2 (lopage npages : Z) (tmp : positive) : M (vm S) unit :=
  t <- vma_get tmp ;;
  if (vma_start t <? lopage) && (vma_end t >? lopage) && (vma_end t <=? u32 (lopage + npages))
  then vma_upd tmp (set_vma_end lopage)
  else ret tt.

Definition remove_case3 (lopage npages : Z) (tmp : positive) : M (vm S) unit :=
  t <- vma_get tmp ;;
  if (vma_end t >? u32 (lopage + npages)) && (vma_start t <? u32 (lopage + npages)) &&
     (vma_start t >=? lopage)
  then
    vma_upd tmp (set_vma_off
      (u32 (u32 (vma_off t + u32 (lopage + npages)) - vma_start t))) ;;;
    vma_upd tmp (set_vma_start (u32 (lopage + npages)))
  else ret tt.

Definition remove_case4 map (lopage npages : Z) (tmp : positive) : M (vm S) unit :=
  t <- vma_get tmp ;;
  if (vma_start t >=? lopage) && (vma_end t <=? u32 (lopage + npages)) then
    o <- deref (vma_obj t) ;;
    on_mm (mmo_put o) ;;;
    (if list_link_is_linked (vma_plink t) then plink_remove map tmp else ret tt) ;;;
    t' <- vma_get tmp ;;
    (if list_link_is_linked (vma_olink t') then olink_remove tmp else ret tt) ;;;
    vmarea_free tmp
  else ret tt.

Definition vmmap_remove_body map (lopage npages : Z) (tmp : positive) : M (vm S) unit :=
  remove_case1 map lopage npages tmp ;;;
  remove_case2 lopage npages tmp ;;;
  remove_case3 lopage npages tmp ;;;
  remove_case4 map lopage npages tmp.

Definition vmmap_remove map (lopage npages : Z) : M (vm S) Z :=
  m <- map_get map ;;
  vmm_iterate (2 * length (vmm_list m)) map (vmmap_remove_body map lopage npages)
    (head (vmm_list m)) ;;;
  on_mm tlb_flush_all ;;;
  on_mm (pt_unmap_range (PN_TO_ADDR lopage) (PN_TO_ADDR (u32 (lopage + npages)))) ;;;
  ret 0.

(** The object behind a new mapping: the file's, or a new anonymous one, below a
    new shadow object if the mapping is private. *)
Definition map_set_obj (file : option positive) vma : M (vm S) unit :=
  o <- (match file with
        | Some f => ' (_, o) <- on_mm (vn_mmap f vma) ;; ret o
        | None => on_mm anon_create
        end) ;;
  o <- deref o ;;
  on_mm (mmo_vmas_insert_tail o vma) ;;;
  vma_upd vma (set_vma_olink LIn) ;;;
  vma_upd vma (set_vma_obj (Some o)) ;;;
  a <- vma_get vma ;;
  if has (vma_flags a) MAP_PRIVATE then
    shadow_obj <- on_mm shadow_create ;;
    shadow_obj <- deref shadow_obj ;;
    on_mm (mmo_set_shadowed shadow_obj o) ;;;
    bottom_obj <- on_mm (mmobj_bottom_obj o) ;;
    on_mm (mmo_set_bottom_obj shadow_obj bottom_obj) ;;;
    on_mm (mmo_ref bottom_obj) ;;;
    vma_upd vma (set_vma_obj (Some shadow_obj))
  else ret tt.

(** The new area of [vmmap_map], before it is inserted. *)
Definition map_new_vma (lopage npages prot flags off : Z) : M (vm S) positive :=
  vma <- vmarea_alloc ;;
  vma <- deref vma ;;
  vma_upd vma (set_vma_end (u32 (lopage + npages))) ;;;
  vma_upd vma (set_vma_start lopage) ;;;
  vma_upd vma (set_vma_plink LSelf) ;;;
  vma_upd vma (set_vma_off (ADDR_TO_PN off)) ;;;
  vma_upd vma (set_vma_flags flags) ;;;
  vma_upd vma (set_vma_olink LSelf) ;;;
  vma_upd vma (set_vma_prot prot) ;;;
  ret vma.

(** Returns the result and what is stored in [*new]. *)
Definition vmmap_map map (file : option positive) (lopage npages prot flags off dir : Z)
    (new : bool) : M (vm S) (Z * option positive) :=
  kassert (0 <? npages) ;;;
  kassert (has MAP_SHARED flags || has MAP_PRIVATE flags) ;;;
  kassert ((0 =? lopage) || (ADDR_TO_PN USER_MEM_LOW <=? lopage)) ;;;
  kassert ((0 =? lopage) || (ADDR_TO_PN USER_MEM_HIGH >=? u32 (lopage + npages))) ;;;
  kassert (PAGE_ALIGNED off) ;;;
  range <- (if lopage =? 0 then vmmap_find_range map npages dir
            else
              e <- vmmap_is_range_empty map lopage npages ;;
              (if (e : bool) then ret 0 else vmmap_remove map lopage npages) ;;;
              ret lopage) ;;
  if (lopage =? 0) && (range <? 0) then ret (range, None)
  else
    vma <- map_new_vma (u32 range) npages prot flags off ;;
    vmmap_insert map vma ;;;
    map_set_obj file vma ;;;
    ret (0, if new then Some vma else None).

(** ** Copying to and from an address space *)

(** The loops run at most [count] times: every round copies at least a byte. *)
Fixpoint vmmap_read_loop (fuel : nat) map (count end_ cur readedBytes : Z)
    : M (vm S) (list Z) :=
  if end_ >? cur then
    match fuel with
    | O => out_of_fuel
    | Datatypes.S fuel' =>
        vma <- vmmap_lookup map (ADDR_TO_PN cur) ;;
        vma <- deref vma ;;
        a <- vma_get vma ;;
        let pagenum := u32 (u32 (ADDR_TO_PN cur - vma_start a) + vma_off a) in
        o <- deref (vma_obj a) ;;
        ' (_, pf) <- on_mm (mmo_lookuppage o pagenum false) ;;
        pf <- deref pf ;;
        let toRead := Z.min (u32 (count - readedBytes)) (PAGE_SIZE - PAGE_OFFSET cur) in
        bytes <- on_mm (pf_read pf (PAGE_OFFSET cur) toRead) ;;
        rest <- vmmap_read_loop fuel' map count end_ (u32 (cur + toRead))
                  (u32 (readedBytes + toRead)) ;;
        ret (bytes ++ rest)
    end
  else ret [].

(** Returns the result and the bytes stored at the start of [buf]. *)
Definition vmmap_read map (vaddr count : Z) : M (vm S) (Z * list Z) :=
  bytes <- vmmap_read_loop (Z.to_nat count) map count (u32 (vaddr + count)) vaddr 0 ;;
  ret (0, bytes).

(** The [n] bytes of the caller's buffer from [off] on. *)
Definition buf_slice (buf : list Z) (off n : Z) : list Z :=
  take (Z.to_nat n) (drop (Z.to_nat off) buf).

Fixpoint vmmap_write_loop (fuel : nat) map (buf : list Z) (count end_ cur writtenBytes : Z)
    : M (vm S) unit :=
  if end_ >? cur then
    match fuel with
    | O => out_of_fuel
    | Datatypes.S fuel' =>
        vma <- vmmap_lookup map (ADDR_TO_PN cur) ;;
        vma <- deref vma ;;
        a <- vma_get vma ;;
        let pagenum := u32 (u32 (ADDR_TO_PN cur - vma_start a) + vma_off a) in
        o <- deref (vma_obj a) ;;
        ' (_, pf) <- on_mm (mmo_lookuppage o pagenum true) ;;
        pf <- deref pf ;;
        let toWrite := Z.min (u32 (count - writtenBytes)) (PAGE_SIZE - PAGE_OFFSET cur) in
        on_mm (pf_write pf (PAGE_OFFSET cur) (buf_slice buf writtenBytes toWrite)) ;;;
        _ <- on_mm (pframe_dirty pf) ;;
        vmmap_write_loop fuel' map buf count end_ (u32 (cur + toWrite))
          (u32 (writtenBytes + toWrite))
    end
  else ret tt.

Definition vmmap_write map (vaddr : Z) (buf : list Z) (count : Z) : M (vm S) Z :=
  vmmap_write_loop (Z.to_nat count) map buf count (u32 (vaddr + count)) vaddr 0 ;;;
  ret 0.
End vmmap.
