(* ===== verification/VmmapProps.v ===== *)
(** * Properties of address spaces

    The areas of a map are sorted, disjoint and inside user memory; lookups,
    range searches, insertion, removal and cloning are described as functions on
    that list of areas, and, page by page, on what each page of the address space
    is mapped to. *)
From stdpp Require Import sorting.
From S2P Require Import Prelude Headers Vmmap.
Local Open Scope kernel_scope.

(** ** What the memory system promises

    [owned t o] counts the references to the object [o] that areas hold: its
    reference count less the references of its resident pages and of the shadow
    objects above it. *)
Class MmLaws (S : Type) `{MmOps S} := {
  owned : S → positive → Z;
  live : S → positive → Prop;
  shadowed : S → positive → option positive;
  bottom : S → positive → option positive;
  owned_live t o : 0 < owned t o → live t o;
  mmo_ref_spec t o : live t o → returns (mmo_ref o) t (λ _ t',
    (∀ x, owned t' x = owned t x + if decide (x = o) then 1 else 0) ∧
    (∀ x, live t' x ↔ live t x) ∧ ∀ x, shadowed t' x = shadowed t x ∧ bottom t' x = bottom t x);
  mmo_vmas_insert_tail_spec t o v : live t o → returns (mmo_vmas_insert_tail o v) t (λ _ t',
    (∀ x, owned t' x = owned t x) ∧ (∀ x, live t' x ↔ live t x) ∧
    ∀ x, shadowed t' x = shadowed t x ∧ bottom t' x = bottom t x);
  mmo_vmas_remove_spec t v : returns (mmo_vmas_remove v) t (λ _ t', ∀ x, owned t' x = owned t x);
  anon_create_spec t : returns anon_create t (λ r t',
    (∀ x, live t x → live t' x) ∧ (∀ x, r = Some x → ¬ live t x ∧ live t' x ∧ shadowed t' x = None) ∧
    (∀ x, owned t' x = owned t x + if decide (r = Some x) then 1 else 0));
  shadow_create_spec t : returns shadow_create t (λ r t',
    (∀ x, live t' x ↔ live t x ∨ r = Some x) ∧
    (∀ x, owned t' x = owned t x + if decide (r = Some x) then 1 else 0) ∧
    (∀ x, r = Some x → ¬ live t x ∧ live t' x ∧ shadowed t' x = None ∧ bottom t' x = None) ∧
    (∀ x, r ≠ Some x → shadowed t' x = shadowed t x ∧ bottom t' x = bottom t x));
  (** The reference to [o] now belongs to the shadow object. *)
  mmo_set_shadowed_spec t sh o : live t sh → live t o → shadowed t sh = None →
    returns (mmo_set_shadowed sh o) t (λ _ t',
      (∀ x, owned t' x = owned t x - if decide (x = o) then 1 else 0) ∧
      (∀ x, live t' x ↔ live t x) ∧ shadowed t' sh = Some o ∧
      (∀ x, x ≠ sh → shadowed t' x = shadowed t x) ∧ ∀ x, bottom t' x = bottom t x);
  mmo_set_bottom_obj_spec t sh o : live t sh → live t o → bottom t sh = None →
    returns (mmo_set_bottom_obj sh o) t (λ _ t',
      (∀ x, owned t' x = owned t x - if decide (x = o) then 1 else 0) ∧
      (∀ x, live t' x ↔ live t x) ∧ bottom t' sh = Some o ∧
      (∀ x, x ≠ sh → bottom t' x = bottom t x) ∧ ∀ x, shadowed t' x = shadowed t x);
  (** The object at the bottom of a shadow object is the one it was given. *)
  mmobj_bottom_obj_spec t o b : live t o →
    (if shadowed t o then bottom t o = Some b else b = o) → mmobj_bottom_obj o t = Ret b t;
  tlb_flush_all_spec t : returns tlb_flush_all t (λ _ t',
    owned t' = owned t ∧ shadowed t' = shadowed t ∧ bottom t' = bottom t);
  pt_unmap_range_spec t lo hi : returns (pt_unmap_range lo hi) t (λ _ t', owned t' = owned t)
}.

(** Giving up a reference, which may free the object and those it refers to: it needs
    the memory system in order, [mm_ok], as these calls leave it. *)
Class MmPutLaws (S : Type) `{MmLaws S} := {
  mm_ok : S → Prop;
  mmo_put_spec t o : mm_ok t → 0 < owned t o → returns (mmo_put o) t (λ _ t',
    mm_ok t' ∧ ∀ x, owned t' x = owned t x - if decide (x = o) then 1 else 0);
  mm_ok_ref t o t' : mm_ok t → mmo_ref o t = Ret tt t' → mm_ok t';
  mm_ok_vmas_remove t v t' : mm_ok t → mmo_vmas_remove v t = Ret tt t' → mm_ok t';
  mm_ok_tlb_flush_all t t' : mm_ok t → tlb_flush_all t = Ret tt t' → mm_ok t';
  mm_ok_pt_unmap_range t lo hi t' : mm_ok t → pt_unmap_range lo hi t = Ret tt t' → mm_ok t'
}.

(** The object at the bottom of [o] is known and in use. *)
Definition rooted {S} `{MmLaws S} (t : S) (o : positive) : Prop :=
  match shadowed t o with Some _ => ∃ b, bottom t o = Some b ∧ live t b | None => True end.

Lemma bottom_obj_rooted {S} `{MmLaws S} (t : S) o :
  live t o → rooted t o → ∃ b, mmobj_bottom_obj o t = Ret b t ∧ live t b ∧
    if shadowed t o then bottom t o = Some b else b = o.
Proof.
  intros Hl Hr. unfold rooted in Hr. destruct (shadowed t o) eqn:Hs.
  - destruct Hr as (b & Hb & Hlb). exists b. split; [|done]. apply mmobj_bottom_obj_spec; [done|by rewrite Hs].
  - exists o. split; [|done]. apply mmobj_bottom_obj_spec; [done|by rewrite Hs].
Qed.

(** ** Lists of areas *)

Section areas.
Context `{PageH}.
Implicit Types (a : vmarea) (al : list vmarea).

Definition before (a b : vmarea) : Prop := vma_end a <= vma_start b.

Record area_ok (map : positive) a : Prop := AreaOk {
  ok_low : USER_PN_LOW <= vma_start a;
  ok_len : vma_start a < vma_end a;
  ok_high : vma_end a <= USER_PN_HIGH;
  ok_off : 0 <= vma_off a < U32;
  ok_map : vma_vmmap a = Some map;
  ok_plink : vma_plink a = LIn
}.

Definition areas_ok map al : Prop := Forall (area_ok map) al ∧ StronglySorted before al.

(** What page [vfn] is mapped to: the object, the page in it, protection, flags. *)
Definition a_page (vfn : Z) a : option positive * Z * Z * Z :=
  (vma_obj a, u32 (u32 (vfn - vma_start a) + vma_off a), vma_prot a, vma_flags a).
Definition page_at al (vfn : Z) : option (option positive * Z * Z * Z) :=
  a_page vfn <$> head (filter (λ a, covers vfn a = true) al).

(** The part of an area below [lo] and the part from [hi] on.  The upper half of
    an area that is split in two is not in the list of areas of its object. *)
Definition lower (lo : Z) a : list vmarea :=
  if vma_start a <? lo then [set_vma_end (Z.min (vma_end a) lo) a] else [].
Definition upper (lo hi : Z) a : list vmarea :=
  if hi <? vma_end a then
    [set_vma_olink (if vma_start a <? lo then LSelf else vma_olink a)
       (set_vma_start (Z.max (vma_start a) hi)
          (set_vma_off (u32 (vma_off a + Z.max 0 (hi - vma_start a))) a))]
  else [].
Definition cut (lo hi : Z) a : list vmarea := lower lo a ++ upper lo hi a.

(** How many of the areas refer to the object [o]. *)
Definition obj_count (o : positive) al : Z :=
  Z.of_nat (length (filter (λ a, vma_obj a = Some o) al)).

Lemma covers_true vfn a : covers vfn a = true ↔ vma_start a <= vfn < vma_end a.
Proof. unfold covers. rewrite andb_true_iff, Z.leb_le, Z.gtb_lt. lia. Qed.

Lemma areas_ok_app map al1 al2 :
  areas_ok map (al1 ++ al2) ↔ areas_ok map al1 ∧ areas_ok map al2 ∧
    ∀ a b, a ∈ al1 → b ∈ al2 → before a b.
Proof. unfold areas_ok. rewrite Forall_app, StronglySorted_app. naive_solver. Qed.

Lemma areas_ok_one map a : areas_ok map [a] ↔ area_ok map a.
Proof.
  unfold areas_ok. rewrite Forall_singleton. split; [naive_solver|].
  intros. split; [done|]. repeat constructor.
Qed.

Lemma areas_ok_nil map : areas_ok map [].
Proof. split; constructor. Qed.

Lemma page_at_app al1 al2 vfn :
  page_at (al1 ++ al2) vfn =
    match page_at al1 vfn with Some x => Some x | None => page_at al2 vfn end.
Proof.
  unfold page_at. rewrite filter_app.
  by destruct (filter _ al1).
Qed.

Lemma page_at_one a vfn :
  page_at [a] vfn = if covers vfn a then Some (a_page vfn a) else None.
Proof.
  unfold page_at. destruct (covers vfn a) eqn:Hc.
  - by rewrite filter_cons_True.
  - rewrite filter_cons_False; [done|]. by rewrite Hc.
Qed.

Lemma page_at_None al vfn :
  page_at al vfn = None ↔ ∀ a, a ∈ al → ¬ (vma_start a <= vfn < vma_end a).
Proof.
  unfold page_at. split.
  - intros Hp a Ha Hc. destruct (filter _ al) as [|x l] eqn:Hf; [|done].
    assert (a ∈ filter (λ a, covers vfn a = true) al) as Hin.
    { apply list_elem_of_filter. by rewrite covers_true. }
    rewrite Hf in Hin. by apply elem_of_nil in Hin.
  - intros Hn. destruct (filter _ al) as [|x l] eqn:Hf; [done|].
    assert (x ∈ filter (λ a, covers vfn a = true) al) as Hin by (rewrite Hf; set_solver).
    apply list_elem_of_filter in Hin as [Hc Hin]. apply covers_true in Hc.
    by destruct (Hn x Hin).
Qed.

(** The only area that covers a page decides what the page is mapped to. *)
Lemma page_at_in map al a vfn :
  areas_ok map al → a ∈ al → vma_start a <= vfn < vma_end a →
  page_at al vfn = Some (a_page vfn a).
Proof.
  intros Hok Ha Hc. apply list_elem_of_split in Ha as (al1 & al2 & ->).
  apply areas_ok_app in Hok as (_ & _ & Hb). rewrite page_at_app.
  rewrite (proj2 (page_at_None al1 vfn)).
  - change (a :: al2) with ([a] ++ al2). rewrite page_at_app, page_at_one.
    by rewrite (proj2 (covers_true vfn a)).
  - intros b Hb1 Hb2. assert (before b a) as Hba by (apply Hb; set_solver).
    unfold before in Hba. lia.
Qed.

(** *** Cutting a range of pages out of an area *)

Ltac cut_cases :=
  unfold cut, lower, upper in *;
  repeat match goal with
  | |- context [?x <? ?y] => destruct (Z.ltb_spec x y)
  end; simpl.

Lemma elem_of_cut lo hi a b :
  b ∈ cut lo hi a → vma_start a <= vma_start b ∧ vma_end b <= vma_end a.
Proof.
  cut_cases; rewrite ?elem_of_cons, ?elem_of_nil; intros Hb;
    destruct_or? Hb; subst; simpl; try done; lia.
Qed.

Lemma cut_ok map lo hi a : lo < hi → area_ok map a → areas_ok map (cut lo hi a).
Proof.
  intros Hlh [????? ?]. unfold areas_ok. cut_cases; (split;
    [repeat constructor; simpl; first [done | lia | apply u32_range]
    |repeat constructor; unfold before; simpl; lia]).
Qed.

Lemma cut_before lo hi a b x y :
  before a b → x ∈ cut lo hi a → y ∈ cut lo hi b → before x y.
Proof. unfold before. intros ? [??]%elem_of_cut [??]%elem_of_cut. lia. Qed.

Lemma areas_ok_cut map lo hi al :
  lo < hi → areas_ok map al → areas_ok map (al ≫= cut lo hi).
Proof.
  intros Hlh. induction al as [|a al IH]; [intros; apply areas_ok_nil|].
  intros Hok. apply (areas_ok_app _ [a] al) in Hok as (H1 & H2 & H3).
  csimpl. apply areas_ok_app. split; [|split]; [|by apply IH|].
  - apply cut_ok; [done|]. by apply areas_ok_one.
  - intros x y Hx (b & Hy & Hb)%list_elem_of_bind.
    eapply cut_before; [|done|done]. apply H3; [|done]. set_solver.
Qed.

Lemma page_at_cut_one map lo hi a vfn :
  lo < hi → area_ok map a → 
  page_at (cut lo hi a) vfn =
    if (lo <=? vfn) && (vfn <? hi) then None else page_at [a] vfn.
Proof.
  intros Hlh [????? ?]. 
  assert (∀ l x, page_at [l; x] vfn = match page_at [l] vfn with
    Some x => Some x | None => page_at [x] vfn end) as Hcons.
  { intros l x. apply (page_at_app [l] [x]). }
  cut_cases; rewrite ?Hcons, ?page_at_one; unfold covers; rewrite ?Z.gtb_ltb; simpl;
    clear Hcons;
    repeat match goal with
    | |- context [?x <=? ?y] => destruct (Z.leb_spec x y); try (exfalso; lia); simpl
    | |- context [?x <? ?y] => destruct (Z.ltb_spec x y); try (exfalso; lia); simpl
    end; try done;
    unfold a_page; simpl; do 3 f_equal; f_equal;
    rewrite ?u32_add_l, ?u32_add_r; f_equal; lia.
Qed.

Lemma page_at_cut map lo hi al vfn :
  lo < hi → areas_ok map al →
  page_at (al ≫= cut lo hi) vfn =
    if (lo <=? vfn) && (vfn <? hi) then None else page_at al vfn.
Proof.
  intros Hlh. induction al as [|a al IH]; [by destruct (_ && _)|].
  intros Hok. apply (areas_ok_app _ [a] al) in Hok as (H1 & H2 & _).
  csimpl. change (a :: al) with ([a] ++ al). rewrite !page_at_app.
  rewrite (page_at_cut_one map) by (try done; by apply areas_ok_one).
  rewrite IH by done. by destruct (_ && _).
Qed.

(** A range that no area overlaps is left as it is. *)
Lemma cut_disjoint map lo hi a :
  lo < hi → area_ok map a → vma_end a <= lo ∨ hi <= vma_start a → cut lo hi a = [a].
Proof.
  intros ? [????? ?] Hd. destruct a as [st en off pr fl vmm ob pl ol]; simpl in *.
  cut_cases; simpl in *; try lia; unfold set_vma_end, set_vma_start, set_vma_off, set_vma_olink; simpl.
  - do 2 f_equal. lia.
  - do 2 f_equal; try lia. rewrite Z.max_l by lia. rewrite Z.add_0_r. by apply u32_small.
Qed.

Lemma obj_count_app o al1 al2 :
  obj_count o (al1 ++ al2) = obj_count o al1 + obj_count o al2.
Proof. unfold obj_count. rewrite filter_app, length_app. lia. Qed.

Lemma obj_count_cons o a al :
  obj_count o (a :: al) = (if decide (vma_obj a = Some o) then 1 else 0) + obj_count o al.
Proof. unfold obj_count. rewrite filter_cons. destruct (decide _); simpl; lia. Qed.

Lemma obj_count_one o a :
  obj_count o [a] = if decide (vma_obj a = Some o) then 1 else 0.
Proof. rewrite obj_count_cons. change (obj_count o []) with 0. lia. Qed.

Lemma obj_count_pos o al : 0 <= obj_count o al.
Proof. unfold obj_count. lia. Qed.

(** An object that a page is mapped to is the object of an area. *)
Lemma obj_count_page o al vfn i prot fl : page_at al vfn = Some (Some o, i, prot, fl) → 0 < obj_count o al.
Proof.
  unfold page_at, obj_count. destruct (filter (λ a, covers vfn a = true) al) as [|a l] eqn:Hf; [done|].
  simpl. intros [= Ho _ _ _]. assert (a ∈ al) as Ha.
  { assert (a ∈ filter (λ a, covers vfn a = true) al) as Hin by (rewrite Hf; apply elem_of_cons; by left).
    by apply list_elem_of_filter in Hin as [_ ?]. }
  assert (a ∈ filter (λ a, vma_obj a = Some o) al) as Hin by (by apply list_elem_of_filter).
  destruct (filter (λ a, vma_obj a = Some o) al); [by apply elem_of_nil in Hin|simpl; lia].
Qed.
End areas.

(** ** Maps in the heap *)

Section vmmap.
Context `{HP : PageH, HM : MmanH} {S : Type} `{HO : MmOps S, HL : !MmLaws S, HS : SlabOps S}.
Implicit Types (map vma : positive) (s : vm S) (pl : list (positive * vmarea)).

(** The map at [map] holds the areas [pl], in order and by address. *)
Record in_map s map (pr : option positive) pl : Prop := InMap {
  in_list : vmmaps s !! map = Some (Vmmap pl.*1 pr);
  in_areas : Forall (λ pa, vmareas s !! pa.1 = Some pa.2) pl
}.

Record vmmap_wf s map pr pl : Prop := VmmapWf {
  wf_in : in_map s map pr pl;
  wf_ok : areas_ok map pl.*2
}.

(** Nothing changed but the map [map] and the areas at [ps]. *)
Definition frame s s' map (ps : list positive) : Prop :=
  (∀ m, m ≠ map → vmmaps s' !! m = vmmaps s !! m) ∧
  (∀ q b, q ∉ ps → vmareas s !! q = Some b → vmareas s' !! q = Some b).

(** There is memory for one more area. *)
Definition can_alloc s : Prop :=
  ∀ s', dom (vmareas s') ⊆ dom (vmareas s) → is_Some (vmarea_slab s').

Definition set_area vma a s : vm S := Vm (<[vma := a]> (vmareas s)) (vmmaps s) (mm s).
Definition set_list map l pr s : vm S := Vm (vmareas s) (<[map := Vmmap l pr]> (vmmaps s)) (mm s).
Definition set_mm t s : vm S := Vm (vmareas s) (vmmaps s) t.

(** *** Equations of the primitive steps *)

Lemma vma_get_eq s vma a : vmareas s !! vma = Some a → vma_get vma s = Ret a s.
Proof. unfold vma_get. by intros ->. Qed.

Lemma vma_upd_eq s vma a f :
  vmareas s !! vma = Some a → vma_upd vma f s = Ret tt (set_area vma (f a) s).
Proof. intros Ha. unfold vma_upd, modify, set_area. by erewrite alter_lookup_insert. Qed.

Lemma set_area_lookup s vma a : vmareas (set_area vma a s) !! vma = Some a.
Proof. apply lookup_insert_eq. Qed.

Lemma vma_get_set s vma a : vma_get vma (set_area vma a s) = Ret a (set_area vma a s).
Proof. apply vma_get_eq, set_area_lookup. Qed.

Lemma vma_upd_set s vma a f :
  vma_upd vma f (set_area vma a s) = Ret tt (set_area vma (f a) s).
Proof.
  rewrite (vma_upd_eq _ _ a) by apply set_area_lookup.
  unfold set_area. simpl. by rewrite insert_insert_eq.
Qed.

Lemma map_get_eq s map pr pl : in_map s map pr pl → map_get map s = Ret (Vmmap pl.*1 pr) s.
Proof. intros [Hl _]. unfold map_get. by rewrite Hl. Qed.

Lemma map_upd_eq s map m f :
  vmmaps s !! map = Some m →
  map_upd map f s = Ret tt (set_list map (vmm_list (f m)) (vmm_proc (f m)) s).
Proof.
  intros Ha. unfold map_upd, modify, set_list. erewrite alter_lookup_insert by done.
  by destruct (f m).
Qed.

Lemma on_mm_eq {A} (m : M S A) s a t : m (mm s) = Ret a t → on_mm m s = Ret a (set_mm t s).
Proof. unfold on_mm, zoom. by intros ->. Qed.

Lemma vmm_areas_eq s map pr pl : in_map s map pr pl → vmm_areas map s = Ret pl s.
Proof.
  intros [Hl Ha]. unfold vmm_areas. rewrite Hl.
  change (deref (mapM (λ p, a ← vmareas s !! p; Some (p, a)) pl.*1) s = Ret pl s).
  clear Hl. erewrite mapM_Some_2; [done|].
  induction Ha as [|[p a] pl Hp _ IH]; constructor; simpl in *; [by rewrite Hp|done].
Qed.

Lemma vmarea_alloc_eq s p :
  vmarea_slab s = Some p →
  vmarea_alloc s = Ret (Some p) (set_area p (set_vma_vmmap None (vma_uninit p)) s).
Proof. unfold vmarea_alloc. by intros ->. Qed.

Lemma next_in_app l1 p l2 : p ∉ l1 → next_in (l1 ++ p :: l2) p = head l2.
Proof.
  induction l1 as [|x l1 IH]; intros Hp; simpl.
  - by rewrite decide_True.
  - rewrite decide_False by set_solver. apply IH. set_solver.
Qed.

(** *** Frames *)

Lemma frame_refl s map ps : frame s s map ps.
Proof. done. Qed.

Lemma frame_trans s1 s2 s3 map ps ps' :
  frame s1 s2 map ps → frame s2 s3 map ps' → frame s1 s3 map (ps ++ ps').
Proof.
  intros [Hm1 Ha1] [Hm2 Ha2]. split.
  - intros m Hm. by rewrite Hm2, Hm1.
  - intros q b Hq Hb. apply Ha2; [set_solver|]. apply Ha1; [set_solver|done].
Qed.

(** *** Well-formed maps *)

Lemma in_map_lookup s map pr pl p a :
  in_map s map pr pl → (p, a) ∈ pl → vmareas s !! p = Some a.
Proof. intros [_ Ha] Hin. by apply (proj1 (Forall_forall _ _) Ha (p, a) Hin). Qed.

Lemma in_map_areas s s' map pr pl :
  in_map s map pr pl → vmmaps s' !! map = Some (Vmmap pl.*1 pr) →
  (∀ p a, (p, a) ∈ pl → vmareas s' !! p = Some a) → in_map s' map pr pl.
Proof. intros _ Hm Ha. split; [done|]. apply Forall_forall. intros [p a]. apply Ha. Qed.

Lemma wf_area s map pr pl pa : vmmap_wf s map pr pl → pa ∈ pl → area_ok map pa.2.
Proof.
  intros [_ [Hok _]] Hpa. apply (proj1 (Forall_forall _ _) Hok), list_elem_of_fmap. by exists pa.
Qed.

Lemma wf_NoDup s map pr pl : vmmap_wf s map pr pl → NoDup pl.*1.
Proof.
  intros [[_ Ha] [Hok Hs]]. induction pl as [|[p a] pl IH]; [constructor|].
  apply Forall_cons in Ha as [Hp Ha]. apply Forall_cons in Hok as [Hoka Hok].
  apply StronglySorted_inv in Hs as [Hs Hb].
  constructor; [|by apply IH]. intros ([q b] & Heq & Hin)%list_elem_of_fmap. simpl in *. subst q.
  assert (a = b) as <-.
  { pose proof (proj1 (Forall_forall _ _) Ha _ Hin) as Hp'. simpl in *. congruence. }
  assert (before a a) as Hba.
  { apply (proj1 (Forall_forall _ _) Hb). apply list_elem_of_fmap. by exists (p, a). }
  destruct Hoka. unfold before in Hba. lia.
Qed.

(** ** Searching a map *)

Lemma lookup_fold vfn pl r :
  fold_left (λ vma_recorded '(vma, a),
    if bool_decide (vma_recorded = None) && covers vfn a
    then Some vma else vma_recorded) pl r
  = match r with Some p => Some p
    | None => fst <$> head (filter (λ pa, covers vfn pa.2 = true) pl) end.
Proof.
  revert r. induction pl as [|[p a] pl IH]; intros r; simpl; [by destruct r|].
  rewrite IH. destruct r as [q|]; simpl; [done|].
  destruct (covers vfn a) eqn:Hc; simpl.
  - by rewrite filter_cons_True.
  - rewrite filter_cons_False; [done|]. simpl. by rewrite Hc.
Qed.

Lemma vmmap_lookup_eq s map pr pl vfn :
  in_map s map pr pl →
  vmmap_lookup map vfn s = Ret (fst <$> head (filter (λ pa, covers vfn pa.2 = true) pl)) s.
Proof.
  intros Hin. unfold vmmap_lookup.
  rewrite (bind_Ret _ _ _ _ _ (vmm_areas_eq _ _ _ _ Hin)). unfold ret. by rewrite lookup_fold.
Qed.

Lemma filter_covers vfn pl :
  filter (λ a, covers vfn a = true) pl.*2 = (filter (λ pa, covers vfn pa.2 = true) pl).*2.
Proof.
  induction pl as [|[p a] pl IH]; [done|]. csimpl. rewrite !filter_cons. simpl.
  destruct (decide _); csimpl; by rewrite IH.
Qed.

(** The area a lookup finds decides what the page is mapped to. *)
Lemma lookup_page_at s map pr pl vfn :
  in_map s map pr pl →
  match page_at pl.*2 vfn with
  | None => vmmap_lookup map vfn s = Ret None s
  | Some pg => ∃ p a, vmmap_lookup map vfn s = Ret (Some p) s ∧ vmareas s !! p = Some a ∧
      (p, a) ∈ pl ∧ covers vfn a = true ∧ pg = a_page vfn a
  end.
Proof.
  intros Hin. rewrite (vmmap_lookup_eq s map pr pl) by done. unfold page_at.
  rewrite filter_covers. destruct (filter _ pl) as [|[p a] l] eqn:Hf; [done|]. simpl.
  assert ((p, a) ∈ filter (λ pa, covers vfn pa.2 = true) pl) as [Hc Hel]%list_elem_of_filter
    by (rewrite Hf; apply elem_of_cons; by left).
  exists p, a. split; [done|]. split; [by eapply in_map_lookup|]. done.
Qed.

Lemma areas_ok_unique map al a b vfn :
  areas_ok map al → a ∈ al → b ∈ al →
  vma_start a <= vfn < vma_end a → vma_start b <= vfn < vma_end b → a = b.
Proof.
  intros Hok Ha Hb Hca Hcb. apply list_elem_of_split in Ha as (al1 & al2 & ->).
  apply areas_ok_app in Hok as (_ & Hok & H1).
  apply (areas_ok_app _ [a] al2) in Hok as (_ & _ & H2).
  apply elem_of_app in Hb as [Hb|[Hb|Hb]%elem_of_cons]; [|done|].
  - assert (before b a) as Hba by (apply H1; set_solver). unfold before in Hba. lia.
  - assert (before a b) as Hba by (apply H2; set_solver). unfold before in Hba. lia.
Qed.

Lemma wf_area_addr s map pr pl p q a :
  vmmap_wf s map pr pl → (p, a) ∈ pl → (q, a) ∈ pl → p = q.
Proof.
  intros Hwf Hp Hq. pose proof (wf_NoDup _ _ _ _ Hwf) as Hnd. destruct Hwf as [_ [Hok Hs]].
  apply list_elem_of_split in Hp as (l1 & l2 & ->).
  rewrite fmap_app in Hok, Hs. apply Forall_app in Hok as [_ Hok].
  apply StronglySorted_app in Hs as (H1 & _ & Hs).
  apply Forall_cons in Hok as [[? Hlen ????] _]. apply StronglySorted_inv in Hs as [_ Hb].
  apply elem_of_app in Hq as [Hq|[Hq|Hq]%elem_of_cons]; [|by simplify_eq|].
  - assert (before a a) as Hba; [|unfold before in Hba; simpl in *; lia].
    apply H1; [|simpl; set_solver]. apply list_elem_of_fmap. by exists (q, a).
  - assert (before a a) as Hba; [|unfold before in Hba; simpl in *; lia].
    apply (proj1 (Forall_forall _ _) Hb). apply list_elem_of_fmap. by exists (q, a).
Qed.

(** In a well-formed map [vmmap_lookup] returns the address of an area exactly
    when that area covers the page, and so [NULL] exactly when the page is
    unmapped; it changes nothing. *)
Theorem vmmap_lookup_correct s map pr pl vfn :
  vmmap_wf s map pr pl →
  ∃ r, vmmap_lookup map vfn s = Ret r s ∧
    ∀ p, r = Some p ↔ ∃ a, (p, a) ∈ pl ∧ vma_start a <= vfn < vma_end a.
Proof.
  intros Hwf. eexists. split; [by eapply vmmap_lookup_eq, wf_in|]. intros p.
  set (P := λ pa : positive * vmarea, covers vfn pa.2 = true).
  assert (∀ x, x ∈ filter P pl ↔ x ∈ pl ∧ vma_start x.2 <= vfn < vma_end x.2) as Hin.
  { intros x. rewrite list_elem_of_filter. unfold P. rewrite covers_true. naive_solver. }
  destruct (filter P pl) as [|[q b] l] eqn:Hf; simpl.
  - split; [done|]. intros (a & Ha & Hc). 
    assert ((p, a) ∈ []) as Hn by (by apply Hin). by apply elem_of_nil in Hn.
  - destruct (proj1 (Hin (q, b))) as [Hq Hb]; [set_solver|]. split.
    + intros [= <-]. by exists b.
    + intros (a & Ha & Hc). f_equal.
      assert (b = a) as ->; [|by eapply wf_area_addr].
      eapply areas_ok_unique; [by apply (wf_ok _ _ _ _ Hwf)|..|done|done].
      * apply list_elem_of_fmap. by exists (q, b).
      * apply list_elem_of_fmap. by exists (p, a).
Qed.

Lemma range_empty_fold lo hi pl b :
  fold_left (λ record (tmp : positive * vmarea),
    if (vma_start tmp.2 <? hi) && (vma_end tmp.2 >? lo) then false else record) pl b
  = b && forallb (λ pa, negb ((vma_start pa.2 <? hi) && (vma_end pa.2 >? lo))) pl.
Proof.
  revert b. induction pl as [|pa pl IH]; intros b; simpl; [by rewrite andb_true_r|].
  rewrite IH. destruct ((vma_start pa.2 <? hi) && (vma_end pa.2 >? lo)); simpl;
    [by rewrite andb_false_r|done].
Qed.

(** A range of [n] pages from [r] on that is in user memory and free. *)
Definition free_range (al : list vmarea) (r n : Z) : Prop :=
  USER_PN_LOW <= r ∧ r + n <= USER_PN_HIGH ∧
  ∀ vfn, r <= vfn < r + n → page_at al vfn = None.

Lemma free_range_disjoint map al r n :
  areas_ok map al → 0 < n →
  free_range al r n ↔ USER_PN_LOW <= r ∧ r + n <= USER_PN_HIGH ∧
    ∀ a, a ∈ al → vma_end a <= r ∨ r + n <= vma_start a.
Proof.
  intros [Hok _] Hn. unfold free_range. split; intros (Hl & Hh & Hf); (split; [done|split; [done|]]).
  - intros a Ha. pose proof (proj1 (Forall_forall _ _) Hok a Ha) as [].
    destruct (Z.le_gt_cases (vma_end a) r) as [|H1]; [by left|].
    destruct (Z.le_gt_cases (r + n) (vma_start a)) as [|H2]; [by right|].
    specialize (Hf (Z.max r (vma_start a)) ltac:(lia)).
    rewrite page_at_None in Hf. destruct (Hf a Ha). lia.
  - intros vfn Hv. apply page_at_None. intros a Ha ?. destruct (Hf a Ha); lia.
Qed.

Lemma vmmap_is_range_empty_eq s map pr pl lo n :
  vmmap_wf s map pr pl → 0 < n → USER_PN_LOW <= lo → lo + n <= USER_PN_HIGH →
  ∃ b : bool, vmmap_is_range_empty map lo n s = Ret b s ∧ (b = true ↔ free_range pl.*2 lo n).
Proof.
  intros Hwf Hn Hl Hh. pose proof user_pn_range as [[??]?].
  assert (u32 (lo + n) = lo + n) as Hu by (apply u32_small; unfold U32; lia).
  eexists. split.
  - unfold vmmap_is_range_empty. rewrite !Hu.
    rewrite (bind_Ret _ _ s tt s).
    2: { apply kassert_true. rewrite !andb_true_iff, Z.ltb_lt, Z.leb_le, Z.geb_le.
         unfold USER_PN_LOW, USER_PN_HIGH in *. lia. }
    erewrite bind_Ret by (by eapply vmm_areas_eq, wf_in).
    unfold ret. by rewrite range_empty_fold.
  - rewrite (free_range_disjoint map) by (try done; apply Hwf). simpl.
    rewrite forallb_forall. split.
    + intros Hall. split; [done|split; [done|]]. intros a ([p a'] & -> & Hin)%list_elem_of_fmap.
      specialize (Hall _ (proj1 (list_elem_of_In _ _) Hin)).
      rewrite negb_true_iff, andb_false_iff, Z.ltb_ge, Z.gtb_ltb, Z.ltb_ge in Hall.
      simpl in *. lia.
    + intros (_ & _ & Hd) x Hx. apply list_elem_of_In in Hx.
      rewrite negb_true_iff, andb_false_iff, Z.ltb_ge, Z.gtb_ltb, Z.ltb_ge.
      destruct (Hd x.2); [apply list_elem_of_fmap; by exists x|lia|lia].
Qed.

(** On a range of user pages [vmmap_is_range_empty] decides whether every page
    of the range is unmapped, and changes nothing. *)
Theorem vmmap_is_range_empty_correct s map pr pl startvfn npages :
  vmmap_wf s map pr pl → 0 < npages →
  USER_PN_LOW <= startvfn → startvfn + npages <= USER_PN_HIGH →
  ∃ b : bool, vmmap_is_range_empty map startvfn npages s = Ret b s ∧
    (b = true ↔ ∀ vfn, startvfn <= vfn < startvfn + npages → page_at pl.*2 vfn = None).
Proof.
  intros Hwf Hn Hl Hh. destruct (vmmap_is_range_empty_eq s map pr pl startvfn npages)
    as (b & Hr & Hb); try done.
  exists b. split; [done|]. rewrite Hb. unfold free_range. naive_solver.
Qed.

Lemma find_range_fold_Some n pl r pre :
  ∃ pre', fold_left (find_range_step n) pl (Some r, pre) = (Some r, pre').
Proof.
  revert pre. induction pl as [|pa pl IH]; intros pre; [by exists pre|].
  simpl. apply IH.
Qed.

Definition fits (al : list vmarea) (n r : Z) : Prop :=
  ∀ a, a ∈ al → vma_end a <= r ∨ r + n <= vma_start a.

(** The loop of [vmmap_find_range] over the areas below the page [pre]. *)
Lemma find_range_fold map n pl pre :
  0 < n → areas_ok map pl.*2 → pre <= USER_PN_HIGH → USER_PN_LOW <= pre →
  (∀ a, a ∈ pl.*2 → vma_end a <= pre) →
  let free := fits pl.*2 n in
  let '(res, last) := fold_left (find_range_step n) (reverse pl) (None, pre) in
  match res with
  | Some r => USER_PN_LOW <= r ∧ r + n <= pre ∧ free r ∧
      ∀ r', r' + n <= pre → free r' → r' <= r
  | None => last = match head pl with Some pa => vma_start pa.2 | None => pre end ∧
      ∀ r', r' + n <= pre → free r' → r' + n <= last
  end.
Proof.
  intros Hn. pose proof user_pn_range as [[??]?]. revert pre.
  induction pl as [|[p x] pl IH] using rev_ind; intros pre Hok Hh Hl Hpre; [done|].
  cbv zeta.
  rewrite reverse_app, reverse_singleton. simpl.
  rewrite fmap_app in *. simpl in *.
  apply areas_ok_app in Hok as (Hok & Hx & Hb). apply areas_ok_one in Hx as [????? ?].
  assert (vma_end x <= pre) by (apply Hpre; set_solver).
  rewrite u32_small by (unfold U32; lia).
  rewrite Z.geb_leb. destruct (Z.leb_spec n (pre - vma_end x)) as [Hfit|Hfit].
  - rewrite u32_small by (unfold U32; lia).
    destruct (find_range_fold_Some n (reverse pl) (pre - n) (vma_start x)) as [pre' ->].
    split; [lia|]. split; [lia|]. split; [|intros; lia].
    intros a [Ha|Ha%list_elem_of_singleton]%elem_of_app; [|subst; lia].
    specialize (Hb a x Ha ltac:(set_solver)). unfold before in Hb. lia.
  - assert (∀ r, (∀ a, a ∈ pl.*2 → vma_end a <= r ∨ r + n <= vma_start a) →
      r + n <= vma_start x → fits (pl.*2 ++ [x]) n r) as Hfr.
    { intros r Hr Hrx a [Ha|Ha%list_elem_of_singleton]%elem_of_app; [by apply Hr|subst; lia]. }
    assert (∀ r, r + n <= pre → fits (pl.*2 ++ [x]) n r → r + n <= vma_start x ∧
      ∀ a, a ∈ pl.*2 → vma_end a <= r ∨ r + n <= vma_start a) as Hrf.
    { intros r Hr Hf. split; [destruct (Hf x); [set_solver|lia|done]|].
      intros a Ha. apply Hf. set_solver. }
    specialize (IH (vma_start x) Hok ltac:(lia) ltac:(lia)).
    specialize (IH ltac:(intros a Ha; apply (Hb a x Ha); set_solver)). simpl in IH.
    destruct (fold_left _ _ _) as [[r|] last].
    + destruct IH as (HrL & Hrp & Hrd & Hmax).
      split; [lia|]. split; [lia|]. split; [apply Hfr; [done|lia]|].
      intros r' Hr' Hf. destruct (Hrf r' Hr' Hf). by apply Hmax.
    + destruct IH as [-> Hmax]. split; [by destruct pl|].
      intros r' Hr' Hf. destruct (Hrf r' Hr' Hf). by apply Hmax.
Qed.

Lemma find_range_cases s map pr pl npages dir :
  vmmap_wf s map pr pl → pl ≠ [] → 0 < npages < U32 →
  ∃ r, vmmap_find_range map npages dir s = Ret r s ∧
    ((r = -1 ∧ ∀ r', ¬ free_range pl.*2 r' npages) ∨
     (free_range pl.*2 r npages ∧ ∀ r', free_range pl.*2 r' npages → r' <= r)).
Proof.
  intros Hwf Hne Hn. pose proof user_pn_range as [[??]?]. destruct Hwf as [Hin Hok].
  pose proof (λ r, free_range_disjoint map pl.*2 r npages Hok ltac:(lia)) as Hfree.
  epose proof (find_range_fold map npages pl USER_PN_HIGH _ Hok _ _ _) as HF.
  Unshelve. 2-4: lia. 2: intros a Ha; apply (proj1 (Forall_forall _ _) (proj1 Hok) a Ha).
  simpl in HF. unfold vmmap_find_range.
  rewrite (bind_Ret _ _ _ _ _ (vmm_areas_eq _ _ _ _ Hin)). 
  change (ADDR_TO_PN USER_MEM_HIGH) with USER_PN_HIGH.
  change (ADDR_TO_PN USER_MEM_LOW) with USER_PN_LOW.
  destruct (fold_left _ _ _) as [[r|] last].
  - destruct HF as (HrL & Hrh & Hrd & Hmax). exists r. unfold ret.
    rewrite s32_small by lia. split; [done|]. right. split; [by apply Hfree|].
    intros r' (?&?&?)%Hfree. by apply Hmax.
  - destruct pl as [|[p a] pl]; [done|]. simpl in *. destruct HF as [-> Hmax].
    pose proof Hok as [Ha Hb]. apply Forall_cons in Ha as [[????? ?] Ha].
    apply StronglySorted_inv in Hb as [_ Hb].
    unfold bind, ret. simpl. rewrite u32_small by (unfold U32; lia).
    rewrite Z.geb_leb. destruct (Z.leb_spec npages (vma_start a - USER_PN_LOW)).
    + eexists. split; [done|]. right.
      rewrite u32_small by (unfold U32; lia). rewrite s32_small by lia. split.
      * apply Hfree. split; [lia|split; [lia|]]. intros b [->|Hin']%elem_of_cons; [lia|].
        pose proof (proj1 (Forall_forall _ _) Hb b Hin') as Hab. unfold before in Hab. lia.
      * intros r' (?&?&Hd)%Hfree. specialize (Hmax r' ltac:(lia) Hd). lia.
    + eexists. split; [done|]. left. split; [done|].
      intros r' (?&?&Hd)%Hfree. specialize (Hmax r' ltac:(lia) Hd). lia.
Qed.

(** C39: In a well-formed map with at least one area [vmmap_find_range], searching from
    the top ([VMMAP_DIR_HILO]), returns the highest free range of the given length in
    user memory, and -1 exactly when there is none. *)
Theorem vmmap_find_range_highest s map pr pl npages :
  vmmap_wf s map pr pl → pl ≠ [] → 0 < npages < U32 →
  ∃ r, vmmap_find_range map npages VMMAP_DIR_HILO s = Ret r s ∧
    ((r = -1 ∧ ∀ r', ¬ free_range pl.*2 r' npages) ∨
     (free_range pl.*2 r npages ∧ ∀ r', free_range pl.*2 r' npages → r' <= r)).
Proof. apply find_range_cases. Qed.
End vmmap.
