(* ===== verification/VmmapChange.v ===== *)
(** * Properties of address spaces: operations that change a map

    Insertion, removal, mapping and cloning, against the promises of the memory
    system ([MmLaws]) and of the slab allocator. *)
From stdpp Require Import sorting.
From S2P Require Import Prelude Headers Vmmap VmmapProps.
Local Open Scope kernel_scope.

Section change.
Context `{HP : PageH, HM : MmanH} {S : Type} `{HO : MmOps S, HL : !MmLaws S, HQ : !MmPutLaws S, HS : SlabOps S}.
Implicit Types (map vma : positive) (s : vm S) (pl : list (positive * vmarea)).

(** ** Insertion *)

(** An area once it is in a map. *)
Definition placed map a : vmarea := set_vma_plink LIn (set_vma_vmmap (Some map) a).

(** [vmmap_insert] puts the area before the first one that starts at or after its
    end. *)
Lemma insert_before_eq e new pl1 pl2 :
  Forall (λ pa, vma_start pa.2 < e) pl1 →
  match head pl2 with Some pa => e <= vma_start pa.2 | None => True end →
  insert_before e new (pl1 ++ pl2) = pl1.*1 ++ new :: pl2.*1.
Proof.
  intros H1 H2. induction H1 as [|[p a] pl1 Hp _ IH]; simpl in *.
  - destruct pl2 as [|[p a] pl2]; simpl in *; [done|].
    by rewrite Z.geb_leb, (proj2 (Z.leb_le _ _)).
  - rewrite Z.geb_leb, (proj2 (Z.leb_gt _ _)) by lia. by rewrite IH.
Qed.

Lemma vmmap_insert_eq s map pr pl1 pl2 new n :
  in_map s map pr (pl1 ++ pl2) →
  vmareas s !! new = Some n → vma_vmmap n = None →
  vma_start n < vma_end n → USER_PN_LOW <= vma_start n → vma_end n <= USER_PN_HIGH →
  Forall (λ pa, vma_start pa.2 < vma_end n) pl1 →
  match head pl2 with Some pa => vma_end n <= vma_start pa.2 | None => True end →
  vmmap_insert map new s
    = Ret tt (set_area new (placed map n) (set_list map (pl1.*1 ++ new :: pl2.*1) pr s)).
Proof.
  intros Hin Hn Hnv Hse Hl Hh H1 H2. unfold vmmap_insert.
  rewrite (bind_Ret _ _ _ _ _ (vmm_areas_eq _ _ _ _ Hin)).
  rewrite (bind_Ret _ _ _ _ _ (vma_get_eq _ _ _ Hn)).
  rewrite (bind_Ret _ _ s tt s) by (apply kassert_true; by rewrite bool_decide_eq_true_2).
  rewrite (bind_Ret _ _ s tt s) by (apply kassert_true; by rewrite Z.ltb_lt).
  rewrite (bind_Ret _ _ s tt s).
  2: { apply kassert_true. by rewrite andb_true_iff, Z.leb_le, Z.geb_le. }
  rewrite (bind_Ret _ _ _ _ _ (vma_upd_eq _ _ _ _ Hn)).
  erewrite bind_Ret by (apply map_upd_eq; apply Hin).
  simpl. rewrite insert_before_eq by done.
  rewrite (vma_upd_eq _ _ (set_vma_vmmap (Some map) n)) by apply set_area_lookup.
  unfold set_area, set_list. simpl. by rewrite insert_insert_eq.
Qed.

(** Where a new area goes in a sorted list of areas it does not overlap. *)
Lemma sorted_split map pl n :
  areas_ok map pl.*2 → vma_start n < vma_end n →
  (∀ a, a ∈ pl.*2 → vma_end a <= vma_start n ∨ vma_end n <= vma_start a) →
  ∃ pl1 pl2, pl = pl1 ++ pl2 ∧ Forall (λ pa, vma_end pa.2 <= vma_start n) pl1 ∧
    Forall (λ pa, vma_end n <= vma_start pa.2) pl2.
Proof.
  intros Hok Hn. induction pl as [|[p a] pl IH]; intros Hd.
  { exists [], []. by repeat constructor. }
  simpl in *. apply (areas_ok_app _ [a] pl.*2) in Hok as (Ha & Hok & Hb).
  apply areas_ok_one in Ha as [????? ?].
  destruct (Hd a) as [Hlt|Hgt]; [set_solver| |].
  - destruct IH as (pl1 & pl2 & -> & Hp1 & Hp2); [done|intros; apply Hd; set_solver|].
    exists ((p, a) :: pl1), pl2. split; [done|]. split; [by constructor|done].
  - exists [], ((p, a) :: pl). split; [done|]. split; [constructor|]. constructor; [done|].
    apply Forall_forall. intros pa Hpa.
    assert (before a pa.2) as Hab.
    { apply Hb; [set_solver|]. apply list_elem_of_fmap. by exists pa. }
    unfold before in Hab. simpl in *. lia.
Qed.

Lemma areas_ok_insert map pl1 pl2 p n :
  areas_ok map (pl1 ++ pl2).*2 → area_ok map n →
  Forall (λ pa, vma_end pa.2 <= vma_start n) pl1 →
  Forall (λ pa, vma_end n <= vma_start pa.2) pl2 →
  areas_ok map (pl1 ++ (p, n) :: pl2).*2.
Proof.
  rewrite !fmap_app. csimpl. intros (H1 & H2 & H12)%areas_ok_app Hn Hp1 Hp2.
  apply areas_ok_app. split; [done|]. split.
  - apply (areas_ok_app _ [n] pl2.*2). split; [by apply areas_ok_one|]. split; [done|].
    intros a b ->%list_elem_of_singleton (pa & -> & Hb)%list_elem_of_fmap.
    by apply (proj1 (Forall_forall _ _) Hp2).
  - intros a b Ha [->|Hb]%elem_of_cons; [|by apply H12].
    apply list_elem_of_fmap in Ha as (pa & -> & Ha). by apply (proj1 (Forall_forall _ _) Hp1).
Qed.

(** Changing the heap at addresses outside a list of areas. *)
Definition heap_at (h : gmap positive vmarea) pl : Prop :=
  Forall (λ pa, h !! pa.1 = Some pa.2) pl.

Lemma heap_at_insert h pl new a :
  new ∉ pl.*1 → heap_at h pl → heap_at (<[new := a]> h) pl.
Proof.
  intros Hnew Ha. apply Forall_forall. intros [q b] Hq. simpl.
  rewrite lookup_insert_ne; [by apply (proj1 (Forall_forall _ _) Ha (q, b))|].
  intros ->. apply Hnew, list_elem_of_fmap. by exists (q, b).
Qed.

Lemma heap_at_delete h pl new :
  new ∉ pl.*1 → heap_at h pl → heap_at (delete new h) pl.
Proof.
  intros Hnew Ha. apply Forall_forall. intros [q b] Hq. simpl.
  rewrite lookup_delete_ne; [by apply (proj1 (Forall_forall _ _) Ha (q, b))|].
  intros ->. apply Hnew, list_elem_of_fmap. by exists (q, b).
Qed.

Lemma heap_at_fresh h pl new : heap_at h pl → h !! new = None → new ∉ pl.*1.
Proof.
  intros Ha Hn ([q b] & -> & Hq)%list_elem_of_fmap.
  pose proof (proj1 (Forall_forall _ _) Ha _ Hq). simpl in *. congruence.
Qed.

Lemma page_at_insert map pl1 pl2 p n vfn :
  areas_ok map (pl1 ++ (p, n) :: pl2).*2 →
  page_at (pl1 ++ (p, n) :: pl2).*2 vfn =
    if covers vfn n then Some (a_page vfn n) else page_at (pl1 ++ pl2).*2 vfn.
Proof.
  intros Hok. destruct (covers vfn n) eqn:Hc.
  - apply (page_at_in map); [done| |by apply covers_true].
    rewrite fmap_app. set_solver.
  - rewrite !fmap_app. csimpl. rewrite (page_at_app pl1.*2 (n :: pl2.*2)), (page_at_app pl1.*2 pl2.*2).
    assert (page_at (n :: pl2.*2) vfn = page_at pl2.*2 vfn) as ->; [|done].
    etrans; [apply (page_at_app [n] pl2.*2)|]. by rewrite page_at_one, Hc.
Qed.

Lemma vmmap_insert_wf s map pr pl new n :
  vmmap_wf s map pr pl → vmareas s !! new = Some n → vma_vmmap n = None →
  vma_start n < vma_end n → USER_PN_LOW <= vma_start n → vma_end n <= USER_PN_HIGH →
  0 <= vma_off n < U32 →
  (∀ a, a ∈ pl.*2 → vma_end a <= vma_start n ∨ vma_end n <= vma_start a) →
  ∃ pl1 pl2 s', pl = pl1 ++ pl2 ∧ vmmap_insert map new s = Ret tt s' ∧
    vmmap_wf s' map pr (pl1 ++ (new, placed map n) :: pl2) ∧
    s' = set_area new (placed map n) (set_list map (pl1.*1 ++ new :: pl2.*1) pr s).
Proof.
  intros Hwf Hn Hnv Hse Hl Hh Hoff Hd.
  destruct (sorted_split map pl n) as (pl1 & pl2 & -> & Hp1 & Hp2); [apply Hwf|done|done|].
  assert (new ∉ (pl1 ++ pl2).*1) as Hnew.
  { intros ([q b] & -> & Hq)%list_elem_of_fmap. simpl in *.
    rewrite (in_map_lookup _ _ _ _ _ _ (wf_in _ _ _ _ Hwf) Hq) in Hn. simplify_eq.
    pose proof (wf_area _ _ _ _ (q, n) Hwf Hq) as []. simpl in *. congruence. }
  eexists pl1, pl2, _. split; [done|]. split; [|split; [|done]].
  - apply vmmap_insert_eq; try done; [apply Hwf| |].
    + apply Forall_forall. intros pa Hpa. pose proof (proj1 (Forall_forall _ _) Hp1 pa Hpa).
      pose proof (wf_area _ _ _ _ pa Hwf ltac:(set_solver)) as []. simpl in *. lia.
    + destruct pl2; [done|]. simpl. by apply Forall_cons in Hp2 as [? _].
  - destruct Hwf as [[Hm Ha] Hok]. split; [split|].
    + simpl. rewrite lookup_insert_eq. by rewrite fmap_app.
    + assert (heap_at (vmareas (set_area new (placed map n) s)) (pl1 ++ pl2)) as Hh'
        by by apply heap_at_insert.
      apply Forall_app in Hh' as [Hh1 Hh2]. apply Forall_app. split; [done|].
      constructor; [by apply lookup_insert_eq|done].
    + apply areas_ok_insert; [done| |done|done]. by constructor.
Qed.

(** Inserting an area that overlaps none of the areas of a well-formed map
    keeps the map well-formed; the pages of the area are then mapped as it says and
    all others as before, and no other map or area changes. *)
Theorem vmmap_insert_maps s map pr pl new n :
  vmmap_wf s map pr pl → vmareas s !! new = Some n → vma_vmmap n = None →
  vma_start n < vma_end n → USER_PN_LOW <= vma_start n → vma_end n <= USER_PN_HIGH →
  0 <= vma_off n < U32 → free_range pl.*2 (vma_start n) (vma_end n - vma_start n) →
  returns (vmmap_insert map new) s (λ _ s', ∃ pl',
    vmmap_wf s' map pr pl' ∧ frame s s' map [new] ∧ mm s' = mm s ∧
    ∀ vfn, page_at pl'.*2 vfn =
      if covers vfn n then Some (a_page vfn n) else page_at pl.*2 vfn).
Proof.
  intros Hwf Hn Hnv Hse Hl Hh Hoff Hfree.
  destruct (vmmap_insert_wf s map pr pl new n) as (pl1 & pl2 & s' & -> & Hr & Hwf' & ->);
    try done.
  { intros a Ha. apply (free_range_disjoint map) in Hfree as (_ & _ & Hd); [|apply Hwf|lia].
    destruct (Hd a Ha); lia. }
  eexists _, _. split; [done|]. eexists. split; [done|]. split; [|split; [done|]].
  - split; simpl.
    + intros m Hm. by apply lookup_insert_ne.
    + intros q b Hq. rewrite lookup_insert_ne; [done|]. set_solver.
  - intros vfn. erewrite page_at_insert by apply Hwf'. done.
Qed.

(** ** Removal *)

Lemma plink_remove_eq s map l pr p a :
  vmmaps s !! map = Some (Vmmap l pr) → vmareas s !! p = Some a →
  plink_remove map p s =
    Ret tt (set_area p (set_vma_plink LNull a) (set_list map (filter (λ q, q ≠ p) l) pr s)).
Proof.
  intros Hm Ha. unfold plink_remove.
  rewrite (bind_Ret _ _ _ _ _ (map_upd_eq _ _ _ _ Hm)). by apply vma_upd_eq.
Qed.

Lemma olink_remove_spec s p a :
  vmareas s !! p = Some a → returns (olink_remove p) s (λ _ s',
    vmareas s' = <[p := set_vma_olink LNull a]> (vmareas s) ∧ vmmaps s' = vmmaps s ∧
    (mm_ok (mm s) → mm_ok (mm s')) ∧ ∀ x, owned (mm s') x = owned (mm s) x).
Proof.
  intros Ha. unfold olink_remove. apply returns_bind. exists a, s.
  split; [by apply vma_get_eq|]. destruct (vma_olink a).
  1, 2: by exists tt, (set_area p (set_vma_olink LNull a) s);
    (split; [rewrite (bind_Ret _ _ s tt s) by done; by apply vma_upd_eq|]).
  destruct (mmo_vmas_remove_spec (mm s) p) as ([] & t & Hr & Ho).
  exists tt, (set_area p (set_vma_olink LNull a) (set_mm t s)).
  split; [rewrite (bind_Ret _ _ _ _ _ (on_mm_eq _ _ _ _ Hr)); by apply vma_upd_eq|].
  do 2 (split; [done|]). split; [|done]. intros Hok. by eapply mm_ok_vmas_remove.
Qed.

(** Unlinking an area from its object if its link is set. *)
Lemma olink_if_spec s p a :
  vmareas s !! p = Some a →
  returns (if list_link_is_linked (vma_olink a) then olink_remove p else ret tt) s (λ _ s',
    vmareas s' = <[p := set_vma_olink LNull a]> (vmareas s) ∧ vmmaps s' = vmmaps s ∧
    (mm_ok (mm s) → mm_ok (mm s')) ∧ ∀ x, owned (mm s') x = owned (mm s) x).
Proof.
  intros Ha. destruct (list_link_is_linked (vma_olink a)) eqn:Hl; [by apply olink_remove_spec|].
  exists tt, s. split; [done|]. split; [|done]. rewrite insert_id; [done|].
  rewrite Ha. destruct a as [???????? []]; done.
Qed.

Section remove.
Context (lo n : Z) (Hn : 0 < n) (Hlo : 0 <= lo) (Hhi : lo + n < U32).

Lemma hi_u32 : u32 (lo + n) = lo + n.
Proof using All. apply u32_small. lia. Qed.

Ltac no_case H :=
  intros Ha Hc; unfold H; rewrite (bind_Ret _ _ _ _ _ (vma_get_eq _ _ _ Ha)), ?hi_u32;
  rewrite ?Z.gtb_ltb, ?Z.geb_leb;
  repeat match goal with
  | |- context [?x <? ?y] => destruct (Z.ltb_spec x y); simpl; try done
  | |- context [?x <=? ?y] => destruct (Z.leb_spec x y); simpl; try done
  end; exfalso; apply Hc; lia.

Lemma remove_case1_no s map p a :
  vmareas s !! p = Some a → ¬ (vma_start a < lo ∧ lo + n < vma_end a) →
  remove_case1 map lo n p s = Ret tt s.
Proof using All. no_case (@remove_case1). Qed.

Lemma remove_case2_no s p a :
  vmareas s !! p = Some a → ¬ (vma_start a < lo ∧ lo < vma_end a <= lo + n) →
  remove_case2 lo n p s = Ret tt s.
Proof using All. no_case (@remove_case2). Qed.

Lemma remove_case3_no s p a :
  vmareas s !! p = Some a → ¬ (lo <= vma_start a < lo + n ∧ lo + n < vma_end a) →
  remove_case3 lo n p s = Ret tt s.
Proof using All. no_case (@remove_case3). Qed.

Lemma remove_case4_no s map p a :
  vmareas s !! p = Some a → ¬ (lo <= vma_start a ∧ vma_end a <= lo + n) →
  remove_case4 map lo n p s = Ret tt s.
Proof using All. no_case (@remove_case4). Qed.

Ltac yes_case :=
  rewrite ?Z.gtb_ltb, ?Z.geb_leb, ?hi_u32;
  repeat first [rewrite (proj2 (Z.ltb_lt _ _)) by lia | rewrite (proj2 (Z.leb_le _ _)) by lia];
  cbn [andb].

Lemma remove_case2_yes s p a :
  vmareas s !! p = Some a → vma_start a < lo → lo < vma_end a <= lo + n →
  remove_case2 lo n p s = Ret tt (set_area p (set_vma_end lo a) s).
Proof using All.
  intros Ha ??. unfold remove_case2. rewrite (bind_Ret _ _ _ _ _ (vma_get_eq _ _ _ Ha)).
  yes_case. by apply vma_upd_eq.
Qed.

Lemma remove_case3_yes s p a :
  vmareas s !! p = Some a → lo <= vma_start a < lo + n → lo + n < vma_end a →
  remove_case3 lo n p s = Ret tt (set_area p
    (set_vma_start (lo + n) (set_vma_off (u32 (vma_off a + (lo + n) - vma_start a)) a)) s).
Proof using All.
  intros Ha ??. unfold remove_case3. rewrite (bind_Ret _ _ _ _ _ (vma_get_eq _ _ _ Ha)).
  yes_case. rewrite (bind_Ret _ _ _ _ _ (vma_upd_eq _ _ _ _ Ha)).
  rewrite vma_upd_set. by rewrite u32_sub_l.
Qed.

Lemma remove_case4_yes s map pr l1 l2 p a o :
  vmmaps s !! map = Some (Vmmap (l1 ++ p :: l2) pr) → NoDup (l1 ++ p :: l2) →
  vmareas s !! p = Some a → vma_plink a = LIn → vma_obj a = Some o → mm_ok (mm s) →
  0 < owned (mm s) o → lo <= vma_start a → vma_end a <= lo + n →
  returns (remove_case4 map lo n p) s (λ _ s',
    vmareas s' = delete p (vmareas s) ∧
    vmmaps s' = <[map := Vmmap (l1 ++ l2) pr]> (vmmaps s) ∧ mm_ok (mm s') ∧
    ∀ x, owned (mm s') x = owned (mm s) x - if decide (x = o) then 1 else 0).
Proof using All.
  intros Hm Hnd Ha Hpl Ho Hmok Hown ??. unfold remove_case4, returns.
  rewrite (bind_Ret _ _ _ _ _ (vma_get_eq _ _ _ Ha)). yes_case. rewrite Ho.
  rewrite (bind_Ret _ _ s o s) by done.
  destruct (mmo_put_spec _ _ Hmok Hown) as ([] & t & Hput & Hmt & Hot).
  rewrite (bind_Ret _ _ _ _ _ (on_mm_eq _ _ _ _ Hput)). rewrite Hpl. simpl.
  rewrite (bind_Ret _ _ _ _ _ (plink_remove_eq (set_mm t s) _ _ _ _ _ Hm Ha)).
  rewrite filter_ne_middle by done. rewrite (bind_Ret _ _ _ _ _ (vma_get_set _ _ _)).
  edestruct (olink_if_spec) as ([] & s' & Hol & Hal & Hml & Hmo & Hol').
  { apply set_area_lookup. }
  rewrite (bind_Ret _ _ _ _ _ Hol). eexists _, _. split; [reflexivity|]. simpl.
  rewrite Hal, Hml. simpl. split; [by rewrite !delete_insert_eq|]. split; [done|].
  split; [by apply Hmo|]. intros x. by rewrite Hol'.
Qed.

(** How the body of the loop changes the areas: an area becomes what is left of
    it.  Only an area that is split needs memory. *)
Definition splits a : Prop := vma_start a < lo ∧ lo + n < vma_end a.

Record cut_post s map pr (done rest : list (positive * vmarea)) p a s' : Prop := CutPost {
  cp_pieces : ∃ pieces, in_map s' map pr (done ++ pieces ++ rest) ∧ pieces.*2 = cut lo (lo + n) a ∧
    (∀ q, q ∈ pieces.*1 → q = p ∨ vmareas s !! q = None);
  cp_owned : ∀ x, owned (mm s') x =
    owned (mm s) x + obj_count x (cut lo (lo + n) a) - obj_count x [a];
  cp_ok : mm_ok (mm s');
  cp_frame : frame s s' map [p];
  cp_dom : ¬ splits a → dom (vmareas s') ⊆ dom (vmareas s)
}.

(** The upper half of an area that is split. *)
Definition upper_half a : vmarea :=
  set_vma_olink LSelf (set_vma_start (lo + n)
    (set_vma_off (u32 (vma_off a + (lo + n) - vma_start a)) a)).

Lemma cut_splits a : splits a → cut lo (lo + n) a = [set_vma_end lo a; upper_half a].
Proof using All.
  intros [??]. unfold cut, lower, upper.
  rewrite !(proj2 (Z.ltb_lt _ _)) by lia. simpl. unfold upper_half.
  rewrite Z.min_r, !Z.max_r by lia. do 5 f_equal. f_equal. lia.
Qed.

Lemma remove_case1_yes s map pr done rest p a o new :
  in_map s map pr (done ++ (p, a) :: rest) → area_ok map a →
  Forall (λ pa, vma_start pa.2 < vma_end a) done →
  match head rest with Some pa => vma_end a <= vma_start pa.2 | None => True end →
  splits a → vma_obj a = Some o → mm_ok (mm s) → live (mm s) o → vmarea_slab s = Some new →
  returns (remove_case1 map lo n p) s (λ _ s',
    vmareas s' = <[p := set_vma_end lo a]> (<[new := upper_half a]> (vmareas s)) ∧
    vmmaps s' = <[map := Vmmap (done.*1 ++ p :: new :: rest.*1) pr]> (vmmaps s) ∧ mm_ok (mm s') ∧
    ∀ x, owned (mm s') x = owned (mm s) x + if decide (x = o) then 1 else 0).
Proof using All.
  intros Hin Hok Hd Hr [Hs1 Hs2] Ho Hmok Hlive Hnew. destruct Hok as [????? ?].
  assert (vmareas s !! p = Some a) as Ha by (eapply in_map_lookup; [done|set_solver]).
  pose proof (vmarea_slab_fresh _ _ Hnew) as Hfresh.
  assert (new ≠ p) as Hne by congruence.
  unfold remove_case1, returns. rewrite (bind_Ret _ _ _ _ _ (vma_get_eq _ _ _ Ha)). yes_case.
  rewrite (bind_Ret _ _ _ _ _ (vmarea_alloc_eq _ _ Hnew)). rewrite (bind_Ret _ _ _ new _) by done.
  do 8 rewrite (bind_Ret _ _ _ _ _ (vma_upd_set _ _ _ _)).
  match goal with |- context [set_area new ?x s] => set (u := x) end.
  assert (in_map (set_area new u s) map pr ((done ++ [(p, a)]) ++ rest)) as Hin'.
  { rewrite <- app_assoc. destruct Hin as [Hm Hh]. split; [done|]. apply heap_at_insert; [|done].
    by eapply heap_at_fresh. }
  erewrite (bind_Ret (vmmap_insert map new)).
  2: { apply (vmmap_insert_eq _ _ pr (done ++ [(p, a)]) rest new u);
         [done|apply set_area_lookup|done|simpl; lia|simpl; lia|simpl; lia| |done].
       apply Forall_app. split; [by apply Hd|]. by repeat constructor. }
  rewrite Ho. rewrite (bind_Ret _ _ _ o _) by done.
  destruct (mmo_ref_spec _ _ Hlive) as ([] & t & Href & Hown & _).
  erewrite bind_Ret by (apply on_mm_eq; exact Href).
  erewrite vma_upd_eq by (simpl; rewrite !lookup_insert_ne by done; exact Ha).
  eexists _, _. split; [done|]. simpl. split; [|split; [|split; [by eapply mm_ok_ref|done]]].
  - rewrite insert_insert_eq. do 2 f_equal. unfold u, placed, upper_half, set_vma_plink, set_vma_olink.
    simpl.
    rewrite u32_sub_l. destruct a; simpl in *; congruence.
  - by rewrite fmap_app, <- app_assoc.
Qed.

(** Changing one area of a map in place. *)
Lemma in_map_set_one s map pr done rest p a a' :
  in_map s map pr (done ++ (p, a) :: rest) → NoDup (done ++ (p, a) :: rest).*1 →
  in_map (set_area p a' s) map pr (done ++ [(p, a')] ++ rest).
Proof.
  intros [Hm Hh] Hnd. rewrite fmap_app in Hnd, Hm. csimpl in *.
  apply NoDup_app in Hnd as (_ & Hd & [Hr _]%NoDup_cons).
  apply Forall_app in Hh as [Hh1 Hh2]. apply Forall_cons in Hh2 as [_ Hh2].
  split; [by rewrite fmap_app|]. apply Forall_app. split.
  - apply heap_at_insert; [|done]. intros Hp. apply (Hd p Hp). set_solver.
  - constructor; [apply set_area_lookup|]. by apply heap_at_insert.
Qed.

Lemma in_place_post s map pr done rest p a a' :
  in_map s map pr (done ++ (p, a) :: rest) → NoDup (done ++ (p, a) :: rest).*1 →
  cut lo (lo + n) a = [a'] → vma_obj a' = vma_obj a → mm_ok (mm s) →
  cut_post s map pr done rest p a (set_area p a' s).
Proof.
  intros Hin Hnd Hcut Hobj Hmok.
  assert (vmareas s !! p = Some a) as Ha by (eapply in_map_lookup; [done|set_solver]).
  split.
  - exists [(p, a')]. split; [by eapply in_map_set_one|]. split; [done|]. set_solver.
  - intros x. rewrite Hcut, !obj_count_one, Hobj. simpl. lia.
  - done.
  - split; [done|]. intros q b Hq. simpl. rewrite lookup_insert_ne; [done|set_solver].
  - intros _. simpl. rewrite dom_insert_lookup_L; [done|by eexists].
Qed.

Ltac compute_cut := unfold cut, lower, upper;
  repeat first [rewrite (proj2 (Z.ltb_lt _ _)) by lia | rewrite (proj2 (Z.ltb_ge _ _)) by lia];
  simpl.

Lemma split_post s map pr done rest p a o new :
  in_map s map pr (done ++ (p, a) :: rest) → NoDup (done ++ (p, a) :: rest).*1 →
  splits a → vma_obj a = Some o → vmarea_slab s = Some new →
  ∀ s', vmareas s' = <[p := set_vma_end lo a]> (<[new := upper_half a]> (vmareas s)) →
  vmmaps s' = <[map := Vmmap (done.*1 ++ p :: new :: rest.*1) pr]> (vmmaps s) →
  mm_ok (mm s') → (∀ x, owned (mm s') x = owned (mm s) x + if decide (x = o) then 1 else 0) →
  cut_post s map pr done rest p a s'.
Proof using All.
  intros Hin Hnd Hs Ho Hnew s' Ha' Hm' Hmok' Ho'.
  pose proof (vmarea_slab_fresh _ _ Hnew) as Hfresh. pose proof Hin as [_ Hh].
  assert (new ∉ (done ++ (p, a) :: rest).*1) as Hni by (by eapply heap_at_fresh).
  split.
  - exists [(p, set_vma_end lo a); (new, upper_half a)].
    split; [|split; [by rewrite cut_splits|]].
    2: { intros q [->|[->|[]%elem_of_nil]%elem_of_cons]%elem_of_cons; auto. }
    split; [rewrite Hm'; rewrite lookup_insert_eq; by rewrite !fmap_app|].
    rewrite fmap_app in Hnd, Hni. csimpl in *.
    apply NoDup_app in Hnd as (_ & Hd & [Hr _]%NoDup_cons).
    apply Forall_app in Hh as [Hh1 Hh2]. apply Forall_cons in Hh2 as [_ Hh2].
    rewrite Ha'. apply Forall_app. split; [|constructor; [|constructor]].
    + apply heap_at_insert; [intros Hp; apply (Hd p Hp); set_solver|].
      apply heap_at_insert; [set_solver|done].
    + apply lookup_insert_eq.
    + simpl. rewrite lookup_insert_ne by set_solver. apply lookup_insert_eq.
    + apply heap_at_insert; [done|]. apply heap_at_insert; [set_solver|done].
  - intros x. rewrite Ho', cut_splits by done.
    rewrite obj_count_cons, !obj_count_one. simpl.
    rewrite Ho. destruct (decide (x = o)), (decide (Some o = Some x)); naive_solver lia.
  - done.
  - split.
    + intros m Hm. rewrite Hm'. by apply lookup_insert_ne.
    + intros q b Hq Hb. rewrite Ha', !lookup_insert_ne; [done|congruence|set_solver].
  - done.
Qed.

Lemma removed_post s map pr done rest p a o :
  in_map s map pr (done ++ (p, a) :: rest) → NoDup (done ++ (p, a) :: rest).*1 →
  cut lo (lo + n) a = [] → vma_obj a = Some o →
  ∀ s', vmareas s' = delete p (vmareas s) →
  vmmaps s' = <[map := Vmmap (done.*1 ++ rest.*1) pr]> (vmmaps s) →
  mm_ok (mm s') → (∀ x, owned (mm s') x = owned (mm s) x - if decide (x = o) then 1 else 0) →
  cut_post s map pr done rest p a s'.
Proof.
  intros Hin Hnd Hcut Ho s' Ha' Hm' Hmok' Ho'. split.
  - exists []. split; [|split; [done|set_solver]].
    split; [rewrite Hm', lookup_insert_eq; by rewrite fmap_app|].
    destruct Hin as [_ Hh]. rewrite fmap_app in Hnd. csimpl in *.
    apply NoDup_app in Hnd as (_ & Hd & [Hr _]%NoDup_cons).
    apply Forall_app in Hh as [Hh1 Hh2]. apply Forall_cons in Hh2 as [_ Hh2].
    rewrite Ha'. apply Forall_app. split; apply heap_at_delete; try done.
    intros Hp. apply (Hd p Hp). set_solver.
  - intros x. rewrite Ho', Hcut, obj_count_one, Ho. change (obj_count x []) with 0.
    destruct (decide (x = o)), (decide (Some o = Some x)); naive_solver lia.
  - done.
  - split.
    + intros m Hm. rewrite Hm'. by apply lookup_insert_ne.
    + intros q b Hq Hb. rewrite Ha', lookup_delete_ne; [done|set_solver].
  - intros _. rewrite Ha', dom_delete_L. set_solver.
Qed.

Lemma can_alloc_dom s s' : dom (vmareas s') ⊆ dom (vmareas s) → can_alloc s → can_alloc s'.
Proof. intros Hd Hc s'' Hs''. apply Hc. set_solver. Qed.

(** One round of the loop, on the area [a] at [p]. *)
Section body.
Context s map (pr : option positive) (done rest : list (positive * vmarea)) (p : positive)
  (a : vmarea) (o : positive).
Context (Hwf : vmmap_wf s map pr (done ++ (p, a) :: rest)) (Ho : vma_obj a = Some o)
  (Hmok : mm_ok (mm s)) (Hown : 0 < owned (mm s) o).

Lemma body_lookup : vmareas s !! p = Some a.
Proof using All. eapply in_map_lookup; [apply Hwf|set_solver]. Qed.

Lemma body_ok : area_ok map a.
Proof using All. apply (wf_area _ _ _ _ (p, a) Hwf). set_solver. Qed.

(** The range lies inside the area. *)
Lemma remove_body_split :
  splits a → can_alloc s →
  returns (vmmap_remove_body map lo n p) s (λ _, cut_post s map pr done rest p a).
Proof using All.
  intros Hsp Hal. pose proof (wf_NoDup _ _ _ _ Hwf) as Hnd. pose proof body_ok as Hok.
  destruct Hwf as [Hin Hall]. rewrite fmap_app in Hall. csimpl in *.
  apply areas_ok_app in Hall as (Hd & Hr & Hdb).
  apply (areas_ok_app _ [a] rest.*2) in Hr as (_ & _ & Hrb).
  destruct (Hal s) as [new Hnew]; [done|].
  destruct (remove_case1_yes s map pr done rest p a o new) as ([] & s' & Hr & Ha' & Hm' & Hmok' & Ho');
    try done.
  { apply Forall_forall. intros pa Hpa%(list_elem_of_fmap_2 snd).
    pose proof (Hdb pa.2 a Hpa ltac:(set_solver)) as Hb.
    pose proof (proj1 (Forall_forall _ _) (proj1 Hd) _ Hpa) as [].
    destruct Hok. unfold before in Hb. simpl in *. lia. }
  { destruct rest as [|pa rest']; [done|]. apply Hrb; set_solver. }
  { by apply owned_live. }
  assert (vmareas s' !! p = Some (set_vma_end lo a)) as Hp' by (rewrite Ha'; apply lookup_insert_eq).
  eexists _, s'. split; [|by eapply split_post]. destruct Hsp.
  unfold vmmap_remove_body. rewrite (bind_Ret _ _ _ _ _ Hr).
  rewrite (bind_Ret _ _ s' tt s') by (eapply remove_case2_no; [done|simpl; lia]).
  rewrite (bind_Ret _ _ s' tt s') by (eapply remove_case3_no; [done|simpl; lia]).
  eapply remove_case4_no; [done|simpl; lia].
Qed.

(** It overlaps the end of the area. *)
Lemma remove_body_end :
  vma_start a < lo → lo < vma_end a <= lo + n →
  returns (vmmap_remove_body map lo n p) s (λ _, cut_post s map pr done rest p a).
Proof using All.
  intros H1 H2. pose proof body_lookup as Ha. unfold returns, vmmap_remove_body.
  rewrite (bind_Ret _ _ _ _ _ (remove_case1_no _ map _ _ Ha ltac:(lia))).
  rewrite (bind_Ret _ _ _ _ _ (remove_case2_yes _ _ _ Ha ltac:(lia) ltac:(lia))).
  pose proof (set_area_lookup s p (set_vma_end lo a)) as Ha'.
  rewrite (bind_Ret _ _ _ _ _ (remove_case3_no _ _ _ Ha' ltac:(simpl; lia))).
  rewrite (remove_case4_no _ _ _ _ Ha' ltac:(simpl; lia)).
  eexists _, _. split; [done|]. apply in_place_post; [apply Hwf|by eapply wf_NoDup| |done|done].
  compute_cut. by rewrite Z.min_r by lia.
Qed.

(** It overlaps the beginning of the area. *)
Lemma remove_body_begin :
  lo <= vma_start a < lo + n → lo + n < vma_end a →
  returns (vmmap_remove_body map lo n p) s (λ _, cut_post s map pr done rest p a).
Proof using All.
  intros H1 H2. pose proof body_lookup as Ha. unfold returns, vmmap_remove_body.
  rewrite (bind_Ret _ _ _ _ _ (remove_case1_no _ map _ _ Ha ltac:(lia))).
  rewrite (bind_Ret _ _ _ _ _ (remove_case2_no _ _ _ Ha ltac:(lia))).
  rewrite (bind_Ret _ _ _ _ _ (remove_case3_yes _ _ _ Ha ltac:(lia) ltac:(lia))).
  erewrite remove_case4_no by first [apply set_area_lookup | simpl; lia].
  eexists _, _. split; [done|]. apply in_place_post; [apply Hwf|by eapply wf_NoDup| |done|done].
  compute_cut. rewrite !Z.max_r by lia. clear. destruct a; unfold set_vma_start, set_vma_olink;
    simpl. do 2 f_equal. f_equal. lia.
Qed.

(** It contains the area. *)
Lemma remove_body_all :
  lo <= vma_start a → vma_end a <= lo + n →
  returns (vmmap_remove_body map lo n p) s (λ _, cut_post s map pr done rest p a).
Proof using All.
  intros H1 H2. pose proof body_lookup as Ha. pose proof body_ok as [].
  pose proof (wf_NoDup _ _ _ _ Hwf) as Hnd. destruct Hwf as [Hin _].
  unfold returns, vmmap_remove_body.
  rewrite (bind_Ret _ _ _ _ _ (remove_case1_no _ map _ _ Ha ltac:(lia))).
  rewrite (bind_Ret _ _ _ _ _ (remove_case2_no _ _ _ Ha ltac:(lia))).
  rewrite (bind_Ret _ _ _ _ _ (remove_case3_no _ _ _ Ha ltac:(lia))).
  eapply returns_mono.
  - apply (remove_case4_yes s map pr done.*1 rest.*1 p a o); try done.
    + rewrite (in_list _ _ _ _ Hin). by rewrite fmap_app.
    + by rewrite fmap_app in Hnd.
  - intros [] s' (Ha' & Hm' & Hmok' & Ho'). eapply removed_post; try done. by compute_cut.
Qed.

(** It does not overlap the area. *)
Lemma remove_body_none :
  vma_end a <= lo ∨ lo + n <= vma_start a →
  returns (vmmap_remove_body map lo n p) s (λ _, cut_post s map pr done rest p a).
Proof using All.
  intros H1. pose proof body_lookup as Ha. pose proof body_ok as Hok. pose proof Hok as [].
  unfold returns, vmmap_remove_body.
  rewrite (bind_Ret _ _ _ _ _ (remove_case1_no _ map _ _ Ha ltac:(lia))).
  rewrite (bind_Ret _ _ _ _ _ (remove_case2_no _ _ _ Ha ltac:(lia))).
  rewrite (bind_Ret _ _ _ _ _ (remove_case3_no _ _ _ Ha ltac:(lia))).
  rewrite (remove_case4_no _ map _ _ Ha ltac:(lia)).
  eexists _, _. split; [done|].
  assert (s = set_area p a s) as Hss.
  { destruct s. unfold set_area. simpl in *. by rewrite insert_id. }
  rewrite Hss at 2. apply in_place_post; [apply Hwf|by eapply wf_NoDup| |done|done].
  eapply cut_disjoint; [lia|done|lia].
Qed.

Lemma remove_body_spec :
  (splits a → can_alloc s) →
  returns (vmmap_remove_body map lo n p) s (λ _, cut_post s map pr done rest p a).
Proof using All.
  intros Hal. pose proof body_ok as [].
  destruct (Z.lt_ge_cases (vma_start a) lo), (Z.lt_ge_cases (lo + n) (vma_end a)).
  - by apply remove_body_split; [split|apply Hal; split].
  - destruct (Z.le_gt_cases (vma_end a) lo);
      [apply remove_body_none; lia|apply remove_body_end; lia].
  - destruct (Z.lt_ge_cases (vma_start a) (lo + n));
      [apply remove_body_begin; lia|apply remove_body_none; lia].
  - by apply remove_body_all.
Qed.
End body.

Lemma areas_ok_cut_one map al1 a al2 :
  areas_ok map (al1 ++ a :: al2) → areas_ok map (al1 ++ cut lo (lo + n) a ++ al2).
Proof using All.
  intros (H1 & H2 & H12)%areas_ok_app.
  apply (areas_ok_app _ [a] al2) in H2 as (Ha & H2 & Ha2).
  apply areas_ok_app. split; [done|]. split.
  - apply areas_ok_app. split; [|split; [done|]].
    + apply cut_ok; [lia|]. by apply areas_ok_one.
    + intros x y [_ ?]%elem_of_cut Hy.
      pose proof (Ha2 a y ltac:(set_solver) Hy) as Hb. unfold before in *. lia.
  - intros x y Hx [Hy|Hy]%elem_of_app; [|apply H12; set_solver].
    apply elem_of_cut in Hy as [? _].
    pose proof (H12 x a Hx ltac:(set_solver)) as Hb. unfold before in *. lia.
Qed.

Lemma cut_post_wf s map pr done rest p a s' :
  vmmap_wf s map pr (done ++ (p, a) :: rest) → cut_post s map pr done rest p a s' →
  ∃ pieces, vmmap_wf s' map pr ((done ++ pieces) ++ rest) ∧ pieces.*2 = cut lo (lo + n) a ∧
    (∀ q, q ∈ pieces.*1 → q = p ∨ vmareas s !! q = None).
Proof using All.
  intros [_ Hok] [(pieces & Hin & Hp & Hq) _ _ _ _]. exists pieces. split; [|done].
  split; [by rewrite <- app_assoc|]. rewrite !fmap_app, Hp in *. rewrite <- app_assoc.
  by apply areas_ok_cut_one.
Qed.

(** The whole loop, with [rest] still to be visited. *)
Lemma remove_loop_spec map pr rest : ∀ s done fuel,
  vmmap_wf s map pr (done ++ rest) → (length rest <= fuel)%nat →
  Forall (λ a, is_Some (vma_obj a)) rest.*2 →
  mm_ok (mm s) → (∀ o, obj_count o rest.*2 <= owned (mm s) o) →
  (Exists splits rest.*2 → can_alloc s) →
  returns (vmm_iterate fuel map (vmmap_remove_body map lo n) (head rest.*1)) s (λ _ s',
    ∃ pl', vmmap_wf s' map pr (done ++ pl') ∧ pl'.*2 = rest.*2 ≫= cut lo (lo + n) ∧
      (∀ x, owned (mm s') x =
        owned (mm s) x + obj_count x pl'.*2 - obj_count x rest.*2) ∧ mm_ok (mm s') ∧
      frame s s' map rest.*1 ∧
      (∀ q, q ∈ pl'.*1 → q ∈ rest.*1 ∨ vmareas s !! q = None)).
Proof using All.
  induction rest as [|[p a] rest IH]; intros s done fuel Hwf Hfuel Hobj Hmok Hown Hal.
  { exists tt, s. split; [by destruct fuel|]. exists []. split; [done|]. split; [done|].
    split; [intros; simpl; lia|]. do 2 (split; [done|]). intros q []%elem_of_nil. }
  destruct fuel as [|fuel]; [simpl in Hfuel; lia|]. simpl in Hfuel. csimpl in *.
  apply Forall_cons in Hobj as [[o Ho] Hobj].
  assert (0 < owned (mm s) o) as Hpos.
  { specialize (Hown o). rewrite obj_count_cons, decide_True in Hown by done.
    pose proof (obj_count_pos o rest.*2). lia. }
  destruct (remove_body_spec s map pr done rest p a o) as ([] & s1 & Hb & Hcp); try done.
  { intros Hs. apply Hal. by left. }
  pose proof (wf_NoDup _ _ _ _ Hwf) as Hnd. rewrite fmap_app in Hnd.
  apply NoDup_app in Hnd as (_ & Hnd & _).
  destruct (cut_post_wf s map pr done rest p a s1) as (pieces & Hwf1 & Hp & Hq); [done|done|].
  pose proof Hcp as [_ Hown1 Hmok1 Hfr1 Hdom1].
  destruct (IH s1 (done ++ pieces) fuel) as ([] & s2 & Hr & pl' & Hwf2 & Hpl' & Hown2 & Hmok2 & Hfr2 & Hq2);
    [done|lia|done|done| | |].
  { intros x. specialize (Hown x). rewrite obj_count_cons in Hown. rewrite Hown1, obj_count_one.
    pose proof (obj_count_pos x (cut lo (lo + n) a)). lia. }
  { intros Hex. apply (can_alloc_dom s).
    - apply Hdom1. intros Hs. apply Exists_exists in Hex as (b & Hin & Hsb).
      destruct Hwf as [_ Hok]. rewrite fmap_app in Hok. csimpl in *.
      apply areas_ok_app in Hok as (_ & Hok & _). apply (areas_ok_app _ [a]) in Hok as (_ & _ & Hb').
      pose proof (Hb' a b ltac:(set_solver) Hin) as Hab. destruct Hs, Hsb.
      unfold before in Hab. lia.
    - apply Hal. by right. }
  exists tt, s2. split.
  - simpl. rewrite (bind_Ret _ _ _ _ _ (map_get_eq _ _ _ _ (wf_in _ _ _ _ Hwf))). simpl.
    rewrite (bind_Ret _ _ _ _ _ Hb). rewrite fmap_app. csimpl. rewrite next_in_app; [done|].
    intros Hpd. apply (Hnd p Hpd). set_solver.
  - exists (pieces ++ pl'). rewrite app_assoc. split; [done|].
    rewrite fmap_app, Hp, Hpl'. split; [done|]. split.
    + intros x. rewrite Hown2, Hown1, obj_count_one, obj_count_cons, obj_count_app, Hpl'. lia.
    + split; [done|]. split; [by apply (frame_trans _ s1 _ _ [p])|].
      rewrite fmap_app. intros q [Hqp|Hqp]%elem_of_app; [destruct (Hq q Hqp); set_solver|].
      destruct (Hq2 q Hqp) as [|Hn1]; [set_solver|].
      destruct (vmareas s !! q) as [b|] eqn:Hb'; [|by right]. left.
      destruct (decide (q = p)) as [->|]; [set_solver|]. destruct Hfr1 as [_ Hfr1].
      rewrite (Hfr1 q b) in Hn1; [done|set_solver|done].
Qed.
End remove.

Lemma vmmap_remove_spec s map pr pl lo n :
  vmmap_wf s map pr pl → 0 < n → 0 <= lo → lo + n < U32 →
  Forall (λ a, is_Some (vma_obj a)) pl.*2 → mm_ok (mm s) →
  (∀ o, obj_count o pl.*2 <= owned (mm s) o) → can_alloc s →
  returns (vmmap_remove map lo n) s (λ r s', r = 0 ∧ ∃ pl',
    vmmap_wf s' map pr pl' ∧ pl'.*2 = pl.*2 ≫= cut lo (lo + n) ∧
    (∀ x, owned (mm s') x = owned (mm s) x + obj_count x pl'.*2 - obj_count x pl.*2) ∧
    mm_ok (mm s') ∧ frame s s' map pl.*1 ∧ (∀ q, q ∈ pl'.*1 → q ∈ pl.*1 ∨ vmareas s !! q = None)).
Proof.
  intros Hwf Hn Hlo Hhi Hobj Hmok Hown Hal. unfold vmmap_remove. apply returns_bind.
  eexists _, _. split; [by eapply map_get_eq, wf_in|]. simpl.
  destruct (remove_loop_spec lo n Hn Hlo Hhi map pr pl s [] (2 * length pl.*1))
    as ([] & s1 & Hr & pl' & Hwf1 & Hpl' & Hown1 & Hmok1 & Hfr & Hq); try done.
  { rewrite length_fmap. lia. }
  destruct (tlb_flush_all_spec (mm s1)) as ([] & t1 & Ht1 & Ho1 & _).
  destruct (pt_unmap_range_spec t1 (PN_TO_ADDR lo) (PN_TO_ADDR (u32 (lo + n))))
    as ([] & t2 & Ht2 & Ho2).
  exists 0, (set_mm t2 (set_mm t1 s1)). split.
  - rewrite (bind_Ret _ _ _ _ _ Hr), (bind_Ret _ _ _ _ _ (on_mm_eq _ _ _ _ Ht1)).
    by rewrite (bind_Ret _ _ _ _ _ (on_mm_eq _ (set_mm t1 s1) _ _ Ht2)).
  - split; [done|]. exists pl'. split; [by destruct Hwf1 as [[??]?]; split; [split|]|].
    split; [done|]. split; [intros x; simpl; rewrite Ho2, Ho1; apply Hown1|]. split; [|done].
    simpl. eapply mm_ok_pt_unmap_range; [|done]. by eapply mm_ok_tlb_flush_all.
Qed.

(** C8: Removing the pages [lopage, lopage + npages) from a well-formed map
    returns 0, keeps the map well-formed, unmaps exactly those pages and leaves
    every other page mapped to the same object page with the same protection,
    whichever way the areas overlap the range; the references to objects change by
    as much as the areas that hold them; and nothing outside the map changes. *)
Theorem vmmap_remove_unmaps s map pr pl lopage npages :
  vmmap_wf s map pr pl → 0 < npages → 0 <= lopage → lopage + npages < U32 →
  Forall (λ a, is_Some (vma_obj a)) pl.*2 → mm_ok (mm s) →
  (∀ o, obj_count o pl.*2 <= owned (mm s) o) → can_alloc s →
  returns (vmmap_remove map lopage npages) s (λ r s', r = 0 ∧ ∃ pl',
    vmmap_wf s' map pr pl' ∧
    (∀ vfn, page_at pl'.*2 vfn =
      if (lopage <=? vfn) && (vfn <? lopage + npages) then None else page_at pl.*2 vfn) ∧
    (∀ x, owned (mm s') x - obj_count x pl'.*2 = owned (mm s) x - obj_count x pl.*2) ∧
    mm_ok (mm s') ∧ frame s s' map pl.*1).
Proof.
  intros Hwf Hn Hlo Hhi Hobj Hmok Hown Hal.
  eapply returns_mono; [by eapply (vmmap_remove_spec s map pr pl lopage npages)|].
  intros r s' (-> & pl' & Hwf' & Hpl' & Ho & Hok' & Hfr & _). split; [done|].
  exists pl'. split; [done|]. split; [|split; [|done]].
  - intros vfn. rewrite Hpl'. eapply page_at_cut; [lia|apply Hwf].
  - intros x. rewrite Ho. lia.
Qed.

(** ** Mapping *)

(** Memory for objects does not run out. *)
Definition objs_available : Prop :=
  (∀ t r t', anon_create t = Ret r t' → is_Some r) ∧
  (∀ t r t', shadow_create t = Ret r t' → is_Some r).

(** The [mmap] operation of the file [f] gives the object [o] and a reference to it. *)
Definition mmap_gives (f o : positive) : Prop :=
  ∀ v t, returns (vn_mmap f v) t (λ '(_, r) t', r = Some o ∧ live t' o ∧
    rooted t' o ∧ (∀ x, live t x → live t' x) ∧
    ∀ x, owned t' x = owned t x + if decide (x = o) then 1 else 0).

(** What a mapping is of: a file, with the object that its [mmap] operation gives, or
    no file. *)
Definition from_ok (from : option (positive * positive)) : Prop :=
  match from with Some (f, o) => mmap_gives f o | None => True end.

(** The object below a mapping: that of the file, or a new one (as [New] says). *)
Definition from_obj (from : option (positive * positive)) (New : positive → Prop) (b : positive) : Prop :=
  match from with Some (_, o) => b = o | None => New b end.

(** The object [o] of a mapping of [b]: [b] itself, and if the mapping is private a
    (new) shadow of it, whose bottom is that of [b]. *)
Definition mapped_obj (t : S) (flags : Z) (b o : positive) : Prop :=
  if has flags MAP_PRIVATE
  then shadowed t o = Some b ∧
    ∃ b', bottom t o = Some b' ∧ if shadowed t b then bottom t b = Some b' else b' = b
  else o = b.

Lemma map_obj_spec from vma s :
  objs_available → from_ok from →
  returns (match fst <$> from with
           | Some f => ' (_, o) <- on_mm (vn_mmap f vma) ;; ret o
           | None => on_mm anon_create
           end) s (λ r s', ∃ o t, r = Some o ∧ s' = set_mm t s ∧ live t o ∧ rooted t o ∧
    from_obj from (λ x, ¬ live (mm s) x) o ∧ (∀ x, live (mm s) x → live t x) ∧
    ∀ x, owned t x = owned (mm s) x + if decide (x = o) then 1 else 0).
Proof.
  intros [Hanon _] Hf. destruct from as [[f o]|]; simpl.
  - destruct (Hf vma (mm s)) as ([z r] & t & Hr & -> & Hl & Hrt & Hk & Ho).
    exists (Some o), (set_mm t s). split; [|by exists o, t].
    by rewrite (bind_Ret _ _ _ _ _ (on_mm_eq _ _ _ _ Hr)).
  - destruct (anon_create_spec (mm s)) as (r & t & Hr & Hk & Hl & Ho).
    destruct (Hanon _ _ _ Hr) as [o ->].
    exists (Some o), (set_mm t s). split; [by apply on_mm_eq|]. exists o, t.
    destruct (Hl o eq_refl) as (Hno & Hlo & Hso).
    do 3 (split; [done|]). split; [unfold rooted; by rewrite Hso|]. do 2 (split; [done|]).
    intros x. rewrite Ho. destruct (decide (x = o)), (decide (Some o = Some x)); naive_solver lia.
Qed.

Lemma map_shadow_spec vma a s o :
  objs_available → live (mm s) o → rooted (mm s) o → vmareas s !! vma = Some a → vma_obj a = Some o →
  returns (a <- vma_get vma ;;
    if has (vma_flags a) MAP_PRIVATE then
      shadow_obj <- on_mm shadow_create ;;
      shadow_obj <- deref shadow_obj ;;
      on_mm (mmo_set_shadowed shadow_obj o) ;;;
      bottom_obj <- on_mm (mmobj_bottom_obj o) ;;
      on_mm (mmo_set_bottom_obj shadow_obj bottom_obj) ;;;
      on_mm (mmo_ref bottom_obj) ;;;
      vma_upd vma (set_vma_obj (Some shadow_obj))
    else ret tt) s (λ _ s', ∃ o',
      vmareas s' = <[vma := set_vma_obj (Some o') a]> (vmareas s) ∧ vmmaps s' = vmmaps s ∧
      mapped_obj (mm s') (vma_flags a) o o' ∧
      (has (vma_flags a) MAP_PRIVATE = true → ¬ live (mm s) o') ∧
      ∀ x, owned (mm s') x = owned (mm s) x + (if decide (x = o') then 1 else 0)
                             - if decide (x = o) then 1 else 0).
Proof.
  intros [_ Hsh] Hlive Hroot Ha Ho. unfold returns.
  rewrite (bind_Ret _ _ _ _ _ (vma_get_eq _ _ _ Ha)).
  destruct (has (vma_flags a) MAP_PRIVATE) eqn:Hp.
  2: { exists tt, s. split; [done|]. exists o. split; [|split; [done|split; [|split]]].
       - rewrite insert_id; [done|]. rewrite Ha. destruct a; simpl in *. by subst.
       - unfold mapped_obj. by rewrite Hp.
       - done.
       - intros x. lia. }
  destruct (shadow_create_spec (mm s)) as (r & t1 & Hr1 & Hl1 & Ho1 & Hn1 & Hk1).
  destruct (Hsh _ _ _ Hr1) as [sh ->]. destruct (Hn1 sh eq_refl) as (Hnsh & Hlsh & Hs1 & Hb1).
  destruct (mmo_set_shadowed_spec t1 sh o Hlsh (proj2 (Hl1 o) (or_introl Hlive)) Hs1) as ([] & t2 & Hr2 & Ho2 & Hl2 & Hs2 & Hr2' & Hb2).
  assert (o ≠ sh) as Hne by (by intros ->).
  assert (rooted t2 o) as Hroot2.
  { destruct (Hk1 o) as [Hso Hbo]; [congruence|]. unfold rooted in *. rewrite Hr2', Hso, Hb2, Hbo by done.
    destruct (shadowed (mm s) o); [|done]. destruct Hroot as (b & ? & ?). exists b. rewrite Hl2, Hl1. auto. }
  destruct (bottom_obj_rooted t2 o) as (b & Hr3 & Hlb & Hbo); [rewrite Hl2, Hl1; by left|done|].
  destruct (mmo_set_bottom_obj_spec t2 sh b) as ([] & t4 & Hr4 & Ho4 & Hl4 & Hb4 & Hbk4 & Hs4);
    [by apply Hl2|done|by rewrite Hb2|].
  destruct (mmo_ref_spec t4 b) as ([] & t5 & Hr5 & Ho5 & Hl5 & Hsb5); [by apply Hl4|].
  destruct (Hsb5 sh) as [Hs5 Hb5]. destruct (Hsb5 o) as [Hs5o Hb5o].
  exists tt, (set_area vma (set_vma_obj (Some sh) a) (set_mm t5 s)). split.
  - rewrite (bind_Ret _ _ _ _ _ (on_mm_eq _ _ _ _ Hr1)), (bind_Ret _ _ _ sh _) by done.
    rewrite (bind_Ret _ _ _ _ _ (on_mm_eq _ (set_mm t1 s) _ _ Hr2)).
    rewrite (bind_Ret _ _ _ _ _ (on_mm_eq _ (set_mm t2 s) _ _ Hr3)).
    rewrite (bind_Ret _ _ _ _ _ (on_mm_eq _ (set_mm t2 s) _ _ Hr4)).
    rewrite (bind_Ret _ _ _ _ _ (on_mm_eq _ (set_mm t4 s) _ _ Hr5)).
    by apply vma_upd_eq.
  - exists sh. split; [done|]. split; [done|]. split; [|split; [done|]].
    + unfold mapped_obj. rewrite Hp. simpl. rewrite Hs5, Hs4, Hs2, Hb5, Hb4. split; [done|].
      exists b. split; [done|]. by rewrite Hs5o, Hs4, Hb5o, Hbk4.
    + intros x. simpl. rewrite Ho5, Ho4, Ho2, Ho1.
      destruct (decide (x = sh)), (decide (Some sh = Some x)); naive_solver lia.
Qed.

Lemma map_set_obj_spec from vma a s :
  objs_available → from_ok from → vmareas s !! vma = Some a →
  returns (map_set_obj (fst <$> from) vma) s (λ _ s', ∃ b o,
    vmareas s' = <[vma := set_vma_obj (Some o) (set_vma_olink LIn a)]> (vmareas s) ∧
    vmmaps s' = vmmaps s ∧ from_obj from (λ x, ¬ live (mm s) x) b ∧ mapped_obj (mm s') (vma_flags a) b o ∧
    (has (vma_flags a) MAP_PRIVATE = true → ¬ live (mm s) o) ∧
    ∀ x, owned (mm s') x = owned (mm s) x + if decide (x = o) then 1 else 0).
Proof.
  intros Hav Hf Ha. unfold map_set_obj, returns.
  destruct (map_obj_spec from vma s)
    as (r & s1 & Hr & o & t1 & -> & -> & Hlive & Hroot & Hfrom & Hk1 & Ho1); [done|done|].
  rewrite (bind_Ret _ _ _ _ _ Hr).
  rewrite (bind_Ret _ _ _ o _) by done.
  destruct (mmo_vmas_insert_tail_spec t1 o vma Hlive) as ([] & t2 & Hr2 & Ho2 & Hl2 & Hsb2).
  assert (rooted t2 o) as Hroot2.
  { destruct (Hsb2 o) as [Hso Hbo]. unfold rooted in *. rewrite Hso, Hbo.
    destruct (shadowed t1 o); [|done]. destruct Hroot as (b & ? & ?). exists b. by rewrite Hl2. }
  rewrite (bind_Ret _ _ _ _ _ (on_mm_eq _ (set_mm t1 s) _ _ Hr2)).
  rewrite (bind_Ret _ _ _ _ _ (vma_upd_eq (set_mm t2 s) _ _ _ Ha)).
  rewrite (bind_Ret _ _ _ _ _ (vma_upd_set _ _ _ _)).
  destruct (map_shadow_spec vma (set_vma_obj (Some o) (set_vma_olink LIn a))
    (set_area vma (set_vma_obj (Some o) (set_vma_olink LIn a)) (set_mm t2 s)) o)
    as ([] & s3 & Hr3 & o' & Ha3 & Hm3 & Hs3 & Hn3 & Ho3); [done|by apply Hl2|done|apply set_area_lookup|done|].
  exists tt, s3. split; [exact Hr3|]. exists o, o'.
  split; [|split; [done|split; [done|split; [done|split]]]].
  - rewrite Ha3. simpl. by rewrite insert_insert_eq.
  - intros Hp Hlo. apply (Hn3 Hp). simpl. rewrite Hl2. by apply Hk1.
  - intros x. rewrite Ho3. simpl. rewrite Ho2, Ho1. lia.
Qed.

(** The object of an area plays no part in the order of the areas. *)
Lemma areas_ok_obj map al1 a al2 o l :
  areas_ok map (al1 ++ a :: al2) →
  areas_ok map (al1 ++ set_vma_obj o (set_vma_olink l a) :: al2).
Proof.
  intros [[Hf1 [[????? ?] Hf2]%Forall_cons]%Forall_app
          (Hc & Hca & [Hcb Hcc]%StronglySorted_inv)%StronglySorted_app]. split.
  - apply Forall_app. split; [done|]. constructor; [by constructor|done].
  - apply StronglySorted_app. split; [|split; [done|by constructor]].
    intros x1 x2 Hx1 [->|Hx2]%elem_of_cons; [apply (Hc x1 a); set_solver|].
    apply Hc; set_solver.
Qed.

(** The new area of a mapping. *)
Definition new_area (base npages prot flags off : Z) (new : positive) : vmarea :=
  Vmarea base (base + npages) (ADDR_TO_PN off) prot flags None
    (vma_obj (vma_uninit new)) LSelf LSelf.

Lemma map_new_vma_eq s new base npages prot flags off :
  vmarea_slab s = Some new → 0 <= base + npages < U32 →
  map_new_vma base npages prot flags off s
    = Ret new (set_area new (new_area base npages prot flags off new) s).
Proof.
  intros Hnew Hr. unfold map_new_vma.
  rewrite (bind_Ret _ _ _ _ _ (vmarea_alloc_eq _ _ Hnew)), (bind_Ret _ _ _ new _) by done.
  do 7 rewrite (bind_Ret _ _ _ _ _ (vma_upd_set _ _ _ _)).
  unfold ret, new_area, set_vma_prot. simpl. by rewrite u32_small.
Qed.

(** The end of [vmmap_map], once the range [base, base + npages) is free: its pages are
    mapped to those of [o], a mapping of the object [b]. *)
Definition map_post from (New : positive → Prop) s map pr pl (base npages prot flags off : Z) s' : Prop :=
  ∃ pl' b o, vmmap_wf s' map pr pl' ∧ from_obj from New b ∧ mapped_obj (mm s') flags b o ∧
    (has flags MAP_PRIVATE = true → New o) ∧
    (∀ vfn, page_at pl'.*2 vfn =
      if (base <=? vfn) && (vfn <? base + npages)
      then Some (Some o, u32 (u32 (vfn - base) + ADDR_TO_PN off), prot, flags)
      else page_at pl.*2 vfn) ∧
    Forall (λ a, is_Some (vma_obj a)) pl'.*2 ∧
    (∀ x, owned (mm s') x - obj_count x pl'.*2 = owned (mm s) x - obj_count x pl.*2) ∧
    frame s s' map pl.*1.

(** The result 0 and the new area, if the caller asks for it. *)
Definition map_result (new : bool) (base : Z) (r : Z * option positive) s' : Prop :=
  r.1 = 0 ∧ match r.2 with
  | Some p => new = true ∧ ∃ a, vmareas s' !! p = Some a ∧ vma_start a = base
  | None => new = false
  end.

(** An object that was not in use before the mapping, but for the areas that it
    replaces: nobody else has a reference to it, no other page is mapped to it, and if the
    range was free the object was not in use at all. *)
Definition new_obj s pl (base npages : Z) (o : positive) : Prop :=
  (free_range pl.*2 base npages → ¬ live (mm s) o) ∧ owned (mm s) o = obj_count o pl.*2 ∧
  ∀ vfn i prot fl, page_at pl.*2 vfn = Some (Some o, i, prot, fl) → base <= vfn < base + npages.

Lemma new_obj_free s pl base npages o :
  (∀ x, obj_count x pl.*2 <= owned (mm s) x) → ¬ live (mm s) o → new_obj s pl base npages o.
Proof.
  intros Hown Hno. specialize (Hown o). pose proof (obj_count_pos o pl.*2).
  assert (¬ 0 < owned (mm s) o) by (intros ?; by apply Hno, owned_live).
  split; [done|]. split; [lia|]. intros vfn i prot fl Hp%obj_count_page. lia.
Qed.

(** After the pages of the range were unmapped. *)
Lemma new_obj_removed s s1 pl pl1 base npages o :
  (∀ x, obj_count x pl.*2 <= owned (mm s) x) → ¬ free_range pl.*2 base npages →
  (∀ vfn, page_at pl1.*2 vfn =
    if (base <=? vfn) && (vfn <? base + npages) then None else page_at pl.*2 vfn) →
  (∀ x, owned (mm s1) x - obj_count x pl1.*2 = owned (mm s) x - obj_count x pl.*2) →
  ¬ live (mm s1) o → new_obj s pl base npages o.
Proof.
  intros Hown Hnf Hpage Ho Hno. specialize (Hown o). specialize (Ho o). pose proof (obj_count_pos o pl1.*2).
  assert (¬ 0 < owned (mm s1) o) by (intros ?; by apply Hno, owned_live).
  split; [done|]. split; [lia|]. intros vfn i prot fl Hp.
  specialize (Hpage vfn). rewrite Hp in Hpage.
  destruct (Z.leb_spec base vfn), (Z.ltb_spec vfn (base + npages)); [done|..];
    simpl in Hpage; apply obj_count_page in Hpage; lia.
Qed.

Lemma map_post_new from (New New' : positive → Prop) s map pr pl base npages prot flags off s' :
  (∀ o, New o → New' o) → map_post from New s map pr pl base npages prot flags off s' →
  map_post from New' s map pr pl base npages prot flags off s'.
Proof.
  intros HN (pl' & b & o & Hwf & Hb & Hmo & Ho & Hrest). exists pl', b, o. split; [done|].
  split; [destruct from as [[]|]; simpl in *; auto|]. split; [done|]. split; [by auto|done].
Qed.

Lemma map_tail_spec s map pr pl from base npages prot flags off (new : bool) :
  vmmap_wf s map pr pl → free_range pl.*2 base npages → 0 < npages →
  Forall (λ a, is_Some (vma_obj a)) pl.*2 →
  objs_available → from_ok from →
  is_Some (vmarea_slab s) → 0 <= off < U32 →
  returns (vma <- map_new_vma base npages prot flags off ;;
           vmmap_insert map vma ;;; map_set_obj (fst <$> from) vma ;;;
           ret (0, if new then Some vma else None)) s
    (λ r s', map_result new base r s' ∧ map_post from (λ x, ¬ live (mm s) x) s map pr pl base npages prot flags off s').
Proof.
  rename new into want_new. intros Hwf Hfree Hn Hobj Hav Hf [new Hnew] Hoff. pose proof user_pn_range as [[??]?].
  pose proof Hfree as (Hl & Hh & _). pose proof (vmarea_slab_fresh _ _ Hnew) as Hfresh.
  apply (free_range_disjoint map) in Hfree as (_ & _ & Hd); [|apply Hwf|done].
  pose proof (addr_to_pn_bound off Hoff) as [Ho1 Ho2].
  assert (2 ^ (32 - PAGE_SHIFT) < U32) as Hp.
  { pose proof page_shift_range. apply Z.pow_lt_mono_r; lia. }
  set (na := new_area base npages prot flags off new).
  assert (new ∉ pl.*1) as Hni by (eapply heap_at_fresh; [apply Hwf|done]).
  assert (vmmap_wf (set_area new na s) map pr pl) as Hwf1.
  { destruct Hwf as [[??]?]. split; [split; [done|]|done]. by apply heap_at_insert. }
  destruct (vmmap_insert_wf (set_area new na s) map pr pl new na)
    as (pl1 & pl2 & s2 & -> & Hins & [[Hm2 Hh2] Hok2] & Hs2);
    [done|apply set_area_lookup|done|simpl; lia|done|done|simpl; lia|done|].
  destruct (map_set_obj_spec from new (placed map na) s2)
    as ([] & s3 & Hr3 & ob & o & Ha3 & Hm3 & Hb3 & Hs3 & Hn3 & Ho3);
    [done|done|subst s2; apply set_area_lookup|].
  set (nb := set_vma_obj (Some o) (set_vma_olink LIn (placed map na))) in *.
  assert (areas_ok map (pl1 ++ (new, nb) :: pl2).*2) as Hok3.
  { rewrite fmap_app in *. csimpl in *. by apply areas_ok_obj. }
  eexists _, s3. split.
  { rewrite (bind_Ret _ _ _ _ _ (map_new_vma_eq s new base npages prot flags off Hnew ltac:(unfold U32; lia))).
    rewrite (bind_Ret _ _ _ _ _ Hins). by rewrite (bind_Ret _ _ _ _ _ Hr3). }
  rewrite fmap_app in Hni. split.
  { split; [done|]. destruct want_new; [|done]. split; [done|]. exists nb.
    split; [|done]. rewrite Ha3. apply lookup_insert_eq. }
  exists (pl1 ++ (new, nb) :: pl2), ob, o.
  split; [split; [|done]|split; [by subst s2|split; [done|split; [by subst s2|]]]].
  { split; [by rewrite Hm3, Hm2, !fmap_app|]. rewrite Ha3.
    apply Forall_app in Hh2 as [Hh2a [_ Hh2b]%Forall_cons]. apply Forall_app. split.
    - apply heap_at_insert; [set_solver|done].
    - constructor; [apply lookup_insert_eq|]. apply heap_at_insert; [set_solver|done]. }
  split; [|split; [|split]].
  - intros vfn. erewrite page_at_insert by done. unfold covers. rewrite Z.gtb_ltb. done.
  - rewrite !fmap_app in *. csimpl. apply Forall_app in Hobj as [??].
    apply Forall_app. split; [done|]. constructor; [by eexists|done].
  - intros x. rewrite Ho3, Hs2, !fmap_app. csimpl. rewrite !obj_count_app, obj_count_cons. simpl.
    destruct (decide (x = o)), (decide (Some o = Some x)); naive_solver lia.
  - split.
    + intros m Hm. rewrite Hm3, Hs2. by apply lookup_insert_ne.
    + intros q b Hq Hb. assert (q ≠ new) by congruence.
      rewrite Ha3, Hs2. simpl. by rewrite !lookup_insert_ne.
Qed.

(** Making room first: [map_post] after pages of the range were unmapped. *)
Lemma map_post_trans from New s s1 s2 map pr pl pl1 base npages prot flags off :
  (∀ vfn, page_at pl1.*2 vfn =
    if (base <=? vfn) && (vfn <? base + npages) then None else page_at pl.*2 vfn) →
  (∀ x, owned (mm s1) x - obj_count x pl1.*2 = owned (mm s) x - obj_count x pl.*2) →
  frame s s1 map pl.*1 → (∀ q, q ∈ pl1.*1 → q ∈ pl.*1 ∨ vmareas s !! q = None) →
  map_post from New s1 map pr pl1 base npages prot flags off s2 →
  map_post from New s map pr pl base npages prot flags off s2.
Proof.
  intros Hpage Hown [Hfm Hfa] Hq (pl' & b0 & o & Hwf & Hb0 & Hmo & Ho & Hp & Hob & Hown' & [Hfm' Hfa']).
  exists pl', b0, o. do 4 (split; [done|]). split; [|split; [done|split]].
  - intros vfn. rewrite Hp, Hpage. by destruct (_ && _).
  - intros x. by rewrite Hown', Hown.
  - split; [intros m Hm; by rewrite Hfm', Hfm|].
    intros q b Hnq Hb. apply Hfa'; [|by apply Hfa].
    intros [|]%Hq; [done|congruence].
Qed.

Lemma cut_objs lo hi al :
  Forall (λ a, is_Some (vma_obj a)) al → Forall (λ a, is_Some (vma_obj a)) (al ≫= cut lo hi).
Proof.
  intros Hal. apply Forall_forall. intros b (a & Hb & Ha)%list_elem_of_bind.
  pose proof (proj1 (Forall_forall _ _) Hal a Ha) as [o Ho]. exists o. revert Hb.
  unfold cut, lower, upper. destruct (_ <? _), (_ <? _); simpl;
    rewrite ?elem_of_cons, ?elem_of_nil; intros Hb; destruct_or? Hb; by subst.
Qed.

Section map_theorem.
Context s map (pr : option positive) pl (from : option (positive * positive)).
Context (npages prot flags off dir : Z).
Context (Hwf : vmmap_wf s map pr pl) (Hobj : Forall (λ a, is_Some (vma_obj a)) pl.*2)
  (Hmok : mm_ok (mm s)) (Hown : ∀ o, obj_count o pl.*2 <= owned (mm s) o)
  (Hslab : ∀ s' : vm S, is_Some (vmarea_slab s')) (Hav : objs_available)
  (Hf : from_ok from)
  (Hn : 0 < npages < U32) (Hoff : 0 <= off < U32) (Hal : PAGE_ALIGNED off = true)
  (Hfl : has MAP_SHARED flags || has MAP_PRIVATE flags = true).

Lemma vmmap_map_fixed lopage new :
  USER_PN_LOW <= lopage → lopage + npages <= USER_PN_HIGH →
  returns (vmmap_map map (fst <$> from) lopage npages prot flags off dir new) s
    (λ r s', map_result new lopage r s' ∧ map_post from (new_obj s pl lopage npages) s map pr pl lopage npages prot flags off s').
Proof using All.
  intros Hl Hh. pose proof user_pn_range as [[??]?].
  assert (u32 (lopage + npages) = lopage + npages) as Hu by (apply u32_small; unfold U32; lia).
  assert (0 =? lopage = false) as Hz by (apply Z.eqb_neq; lia).
  assert (lopage =? 0 = false) as Hz' by (apply Z.eqb_neq; lia).
  unfold vmmap_map, returns. rewrite Hz, Hz', Hu, Hfl, Hal, (proj2 (Z.ltb_lt 0 npages)) by lia.
  rewrite Z.geb_leb, !(proj2 (Z.leb_le _ _)) by done. do 5 rewrite (bind_Ret _ _ s tt s) by done.
  cbn [andb]. destruct (vmmap_is_range_empty_eq s map pr pl lopage npages) as (b & Hb & Hfree);
    [done|lia|done|done|]. apply returns_bind.
  destruct b; (apply returns_bind; eexists _, _; split; [exact Hb|]).
  - exists lopage, s. split; [done|]. rewrite u32_small by (unfold U32; lia).
    eapply returns_mono; [apply (map_tail_spec s map pr pl from); try done; [by apply Hfree|lia]|].
    intros r s' [Hr Hpost]. split; [done|]. eapply map_post_new; [|exact Hpost].
    intros o. by apply new_obj_free.
  - apply returns_bind.
    destruct (vmmap_remove_spec s map pr pl lopage npages) as (z & s1 & Hr & _ & pl1 & Hwf1 & Hpl1
      & Ho1 & _ & Hfr1 & Hq1); try done; [lia|lia|unfold U32; lia|by intros s' _|].
    exists z, s1. split; [done|]. exists lopage, s1. split; [done|].
    rewrite u32_small by (unfold U32; lia).
    assert (∀ vfn, page_at pl1.*2 vfn = if (lopage <=? vfn) && (vfn <? lopage + npages)
      then None else page_at pl.*2 vfn) as Hpage.
    { intros vfn. rewrite Hpl1. eapply page_at_cut; [lia|apply Hwf]. }
    eapply returns_mono; [apply (map_tail_spec s1 map pr pl1 from); try done|].
    + split; [done|split; [done|]]. intros vfn Hv. rewrite Hpage.
      by rewrite (proj2 (Z.leb_le _ _)), (proj2 (Z.ltb_lt _ _)) by lia.
    + lia.
    + rewrite Hpl1. by apply cut_objs.
    + assert (∀ x, owned (mm s1) x - obj_count x pl1.*2 = owned (mm s) x - obj_count x pl.*2) as Hbal
        by (intros x; rewrite Ho1; lia).
      intros r s2 [Hr2 Hpost]. split; [done|]. eapply map_post_new; [|by eapply map_post_trans].
      intros o. eapply new_obj_removed; try done. intros Hfr. by discriminate (proj2 Hfree Hfr).
Qed.

Lemma vmmap_map_search new :
  pl ≠ [] →
  returns (vmmap_map map (fst <$> from) 0 npages prot flags off dir new) s (λ r s',
    (r = (-1, None) ∧ s' = s ∧ ∀ r', ¬ free_range pl.*2 r' npages) ∨
    (∃ base, map_result new base r s' ∧ free_range pl.*2 base npages ∧
       (∀ r', free_range pl.*2 r' npages → r' <= base) ∧
       map_post from (new_obj s pl base npages) s map pr pl base npages prot flags off s')).
Proof using All.
  intros Hne. pose proof user_pn_range as [[??]?].
  unfold vmmap_map, returns. rewrite Hfl, Hal, (proj2 (Z.ltb_lt 0 npages)) by lia.
  do 5 rewrite (bind_Ret _ _ s tt s) by done. cbn [andb Z.eqb].
  destruct (find_range_cases s map pr pl npages dir) as (r & Hr & Hcases); [done|done|done|].
  rewrite (bind_Ret _ _ _ _ _ Hr). destruct Hcases as [[-> Hno]|[Hfr Hmax]].
  - eexists _, _. split; [done|]. by left.
  - pose proof Hfr as (?&?&_). rewrite (proj2 (Z.ltb_ge _ _)) by lia.
    rewrite u32_small by (unfold U32; lia).
    eapply returns_mono; [by eapply (map_tail_spec s map pr pl from); try done; lia|].
    intros z s' [Hz Hpost]. right. exists r. do 3 (split; [done|]).
    eapply map_post_new; [|exact Hpost]. intros o. by apply new_obj_free.
Qed.

(** C22: Mapping [npages] pages at a given user address, or at 0 with a search from
    the top of a map that is not empty: the call returns 0 and the new area, with every
    page of the range mapped to consecutive pages of one object from [off] on. That object
    is the one that the file's [mmap] gives, or without a file a new anonymous object; if
    the mapping is private, it is a new shadow object over it, with the same bottom
    object.  Every page outside the range is mapped as before, the map is well-formed and
    there is one reference per area.  At address 0 the range is the highest free one, and
    only if there is none the call returns -1 and changes nothing. *)
Theorem vmmap_map_maps lopage new :
  (lopage = 0 ∧ pl ≠ [] ∧ dir = VMMAP_DIR_HILO) ∨ (USER_PN_LOW <= lopage ∧ lopage + npages <= USER_PN_HIGH) →
  returns (vmmap_map map (fst <$> from) lopage npages prot flags off dir new) s (λ r s',
    (∃ base, map_result new base r s' ∧ map_post from (new_obj s pl base npages) s map pr pl base npages prot flags off s' ∧
      (if lopage =? 0 then free_range pl.*2 base npages ∧
         ∀ r', free_range pl.*2 r' npages → r' <= base
       else base = lopage)) ∨
    (lopage = 0 ∧ r = (-1, None) ∧ s' = s ∧ ∀ r', ¬ free_range pl.*2 r' npages)).
Proof using All.
  intros [(-> & Hne & _)|[Hl Hh]].
  - eapply returns_mono; [by apply vmmap_map_search|]. naive_solver.
  - eapply returns_mono; [by apply vmmap_map_fixed|]. intros r s' [Hr Hpost]. left.
    exists lopage. split; [done|]. split; [done|]. pose proof user_pn_range.
    by rewrite (proj2 (Z.eqb_neq _ _)) by lia.
Qed.
End map_theorem.
End change.
