(* ===== verification/VmmapCopy.v ===== *)
(** * Properties of address spaces: cloning, destroying, copying bytes *)
From stdpp Require Import sorting.
From S2P Require Import Prelude Headers Vmmap VmmapProps VmmapChange.
Local Open Scope kernel_scope.

Section copy.
Context `{HP : PageH, HM : MmanH} {S : Type} `{HO : MmOps S, HL : !MmLaws S, HQ : !MmPutLaws S, HS : SlabOps S}.
Implicit Types (map vma : positive) (s : vm S) (pl : list (positive * vmarea)).

(** ** Cloning *)

(** The copy of an area in a cloned map: the same pages, no object yet. *)
Definition clone_area (newmap : positive) (a : vmarea) : vmarea :=
  Vmarea (vma_start a) (vma_end a) (vma_off a) (vma_prot a) (vma_flags a)
    (Some newmap) None LIn LSelf.

(** Areas and maps other than [map] are as they were. *)
Definition extends s s' map : Prop :=
  (∀ m, m ≠ map → vmmaps s' !! m = vmmaps s !! m) ∧
  (∀ q b, vmareas s !! q = Some b → vmareas s' !! q = Some b) ∧ mm s' = mm s.

Lemma clone_body_eq s newmap l pr tmp a new :
  vmareas s !! tmp = Some a → vmmaps s !! newmap = Some (Vmmap l pr) →
  vmarea_slab s = Some new →
  vmmap_clone_body newmap tmp s
    = Ret tt (set_area new (clone_area newmap a) (set_list newmap (l ++ [new]) pr s)).
Proof.
  intros Ha Hm Hnew. pose proof (vmarea_slab_fresh _ _ Hnew) as Hfresh.
  assert (new ≠ tmp) as Hne by congruence. unfold vmmap_clone_body.
  rewrite (bind_Ret _ _ _ _ _ (vmarea_alloc_eq _ _ Hnew)), (bind_Ret _ _ _ new _) by done.
  rewrite (bind_Ret _ _ _ _ _ (vma_upd_set _ _ _ _)).
  rewrite (bind_Ret _ _ _ a _) by (apply vma_get_eq; simpl; by rewrite lookup_insert_ne).
  do 8 rewrite (bind_Ret _ _ _ _ _ (vma_upd_set _ _ _ _)).
  erewrite bind_Ret by (apply map_upd_eq; exact Hm). simpl.
  erewrite vma_upd_eq by (simpl; apply lookup_insert_eq).
  unfold set_area, set_list. simpl. by rewrite insert_insert_eq.
Qed.

Lemma clone_loop_spec (Hslab : ∀ s' : vm S, is_Some (vmarea_slab s')) map newmap pr pr' rest :
  newmap ≠ map → ∀ s done pl' fuel,
  in_map s map pr (done ++ rest) → NoDup (done ++ rest).*1 → in_map s newmap pr' pl' →
  (length rest <= fuel)%nat →
  returns (vmm_iterate fuel map (vmmap_clone_body newmap) (head rest.*1)) s (λ _ s',
    ∃ new, in_map s' newmap pr' (pl' ++ new) ∧ new.*2 = clone_area newmap <$> rest.*2 ∧
      Forall (λ p, vmareas s !! p = None) new.*1 ∧ extends s s' newmap).
Proof.
  intros Hne. induction rest as [|[p a] rest IH]; intros s done pl' fuel Hin Hnd Hin' Hfuel.
  { exists tt, s. split; [by destruct fuel|]. exists []. rewrite app_nil_r. by do 3 (split; [done|]). }
  destruct fuel as [|fuel]; [simpl in Hfuel; lia|]. simpl in Hfuel.
  destruct (Hslab s) as [new Hnew]. pose proof (vmarea_slab_fresh _ _ Hnew) as Hfresh.
  assert (vmareas s !! p = Some a) as Ha by (eapply in_map_lookup; [exact Hin|apply elem_of_middle]).
  set (s1 := set_area new (clone_area newmap a) (set_list newmap (pl'.*1 ++ [new]) pr' s)).
  assert (extends s s1 newmap) as Hex1.
  { split; [|split; [|done]].
    - intros m Hm. by apply lookup_insert_ne.
    - intros q b Hb. simpl. rewrite lookup_insert_ne; [done|congruence]. }
  destruct (IH s1 (done ++ [(p, a)]) (pl' ++ [(new, clone_area newmap a)]) fuel)
    as ([] & s2 & Hr & new' & Hin2 & Hn2 & Hf2 & Hm2 & Ha2 & Hmm2).
  { rewrite <- app_assoc. destruct Hin as [Hm Hh]. split.
    - simpl. by rewrite lookup_insert_ne.
    - apply heap_at_insert; [by eapply heap_at_fresh|done]. }
  { by rewrite <- app_assoc. }
  { destruct Hin' as [Hm Hh]. split; [simpl; by rewrite lookup_insert_eq, fmap_app|].
    apply Forall_app. split; [|constructor; [apply set_area_lookup|constructor]].
    apply heap_at_insert; [by eapply heap_at_fresh|done]. }
  { lia. }
  exists tt, s2. split.
  - simpl. rewrite (bind_Ret _ _ _ _ _ (map_get_eq _ _ _ _ Hin)). simpl.
    rewrite (bind_Ret _ _ _ _ _ (clone_body_eq s newmap _ pr' p a new Ha (in_list _ _ _ _ Hin') Hnew)).
    rewrite fmap_app in Hnd |- *. csimpl in *. rewrite next_in_app; [done|].
    apply NoDup_app in Hnd as (_ & Hd & _). intros Hp. apply (Hd p Hp), elem_of_cons. by left.
  - exists ((new, clone_area newmap a) :: new'). rewrite <- app_assoc in Hin2.
    split; [done|]. csimpl. split; [by rewrite Hn2|]. split.
    { constructor; [done|]. eapply Forall_impl; [exact Hf2|]. intros q. simpl.
      rewrite lookup_insert_None. naive_solver. }
    destruct Hex1 as (Hm1 & Ha1 & Hmm1).
    split; [intros m Hm; by rewrite Hm2, Hm1|]. split; [auto|by rewrite Hmm2].
Qed.

Lemma page_at_clone newmap al vfn :
  page_at (clone_area newmap <$> al) vfn =
    (λ '(_, pn, prot, flags), (None, pn, prot, flags)) <$> page_at al vfn.
Proof.
  unfold page_at. induction al as [|a al IH]; [done|]. csimpl.
  rewrite !filter_cons. unfold covers at 1 3. simpl.
  destruct (decide _); [done|apply IH].
Qed.

Lemma areas_ok_clone map newmap al :
  areas_ok map al → areas_ok newmap (clone_area newmap <$> al).
Proof.
  intros [Hok Hs]. split.
  - apply Forall_fmap. eapply Forall_impl; [exact Hok|]. intros a [????? ?]. by constructor.
  - induction Hs as [|a al Hs IH Hb]; csimpl; constructor.
    + apply IH. by apply Forall_cons in Hok as [_ ?].
    + apply Forall_fmap. exact Hb.
Qed.

(** The areas of the clone, one by one. *)
Lemma vmmap_clone_spec s map pr pl newmap :
  vmmap_wf s map pr pl → vmmap_slab s = Some newmap →
  (∀ s' : vm S, is_Some (vmarea_slab s')) →
  returns (vmmap_clone map) s (λ r s', r = newmap ∧ vmmaps s !! newmap = None ∧ ∃ pl',
    vmmap_wf s' newmap pr pl' ∧ vmmap_wf s' map pr pl ∧ extends s s' newmap ∧
    pl'.*2 = clone_area newmap <$> pl.*2 ∧ Forall (λ p, vmareas s !! p = None) pl'.*1).
Proof.
  intros Hwf Hnew Hslab. pose proof (vmmap_slab_fresh _ _ Hnew) as Hfresh.
  assert (newmap ≠ map) as Hne by (destruct Hwf as [[Hm _] _]; congruence).
  set (s0 := set_list newmap [] pr s).
  assert (in_map s0 map pr pl) as Hin0.
  { destruct Hwf as [[Hm Hh] _]. split; [simpl; by rewrite lookup_insert_ne|done]. }
  destruct (clone_loop_spec Hslab map newmap pr pr pl Hne s0 [] [] (length pl.*1))
    as ([] & s' & Hr & new & Hin' & Hn' & Hf' & Hm' & Ha' & Hmm').
  { done. }
  { by eapply wf_NoDup. }
  { split; [apply lookup_insert_eq|constructor]. }
  { by rewrite length_fmap. }
  exists newmap, s'. split.
  - unfold vmmap_clone, vmmap_create. unfold bind at 1 2. simpl. rewrite Hnew. simpl.
    erewrite bind_Ret by (apply map_upd_eq; simpl; apply lookup_insert_eq).
    erewrite bind_Ret; [|eapply (map_get_eq _ _ pr pl)]. simpl.
    2: { destruct Hwf as [[Hm Hh] _]. split; [simpl; by rewrite !lookup_insert_ne|done]. }
    erewrite bind_Ret by (apply map_upd_eq; simpl; apply lookup_insert_eq). simpl.
    unfold set_list. simpl. rewrite !insert_insert_eq. by rewrite (bind_Ret _ _ _ _ _ Hr).
  - split; [done|]. split; [done|]. exists new. simpl in Hin'.
    assert (extends s s' newmap) as Hex.
    { split; [|split; [exact Ha'|done]]. intros m Hm. rewrite Hm' by done. by apply lookup_insert_ne. }
    destruct Hwf as [[Hm Hh] Hok]. split; [|split; [|split; [done|]]].
    + split; [done|]. rewrite Hn'. by eapply areas_ok_clone.
    + destruct Hex as (Hm1 & Ha1 & _). split; [split|done]; [by rewrite Hm1|].
      eapply Forall_impl; [exact Hh|]. intros pa. apply Ha1.
    + done.
Qed.

(** [vmmap_clone] returns a new map with a copy of every area, without its
    object: page by page the clone has the same layout, page numbers, protection
    and flags as the original; it is well-formed, and the original and every other
    map and area are unchanged. *)
Theorem vmmap_clone_copies s map pr pl newmap :
  vmmap_wf s map pr pl → vmmap_slab s = Some newmap →
  (∀ s' : vm S, is_Some (vmarea_slab s')) →
  returns (vmmap_clone map) s (λ r s', r = newmap ∧ vmmaps s !! newmap = None ∧ ∃ pl',
    vmmap_wf s' newmap pr pl' ∧ vmmap_wf s' map pr pl ∧ extends s s' newmap ∧
    ∀ vfn, page_at pl'.*2 vfn =
      (λ '(_, pn, prot, flags), (None, pn, prot, flags)) <$> page_at pl.*2 vfn).
Proof.
  intros Hwf Hnew Hslab. eapply returns_mono; [by eapply vmmap_clone_spec|].
  intros r s' (-> & Hfresh & pl' & Hwf' & Hwf1 & Hex & Hpl & _). do 2 (split; [done|]). exists pl'.
  do 3 (split; [done|]). intros vfn. by rewrite Hpl, page_at_clone.
Qed.

(** ** Destroying *)

Lemma destroy_body_spec s map pr p a rest :
  in_map s map pr ((p, a) :: rest) → NoDup ((p, a) :: rest).*1 → vma_plink a = LIn →
  mm_ok (mm s) → (∀ o, vma_obj a = Some o → 0 < owned (mm s) o) →
  returns (vmmap_destroy_body map p) s (λ _ s',
    in_map s' map pr rest ∧ dom (vmareas s') = dom (vmareas s) ∧
    (∀ m, m ≠ map → vmmaps s' !! m = vmmaps s !! m) ∧
    (∀ q, q ≠ p → vmareas s' !! q = vmareas s !! q) ∧ mm_ok (mm s') ∧
    ∀ x, owned (mm s') x = owned (mm s) x - obj_count x [a]).
Proof.
  intros [Hm Hh] Hnd Hpl Hmok Hown. csimpl in *. apply Forall_cons in Hh as [Ha Hh]. simpl in Ha.
  unfold vmmap_destroy_body, returns. rewrite (bind_Ret _ _ _ _ _ (vma_get_eq _ _ _ Ha)).
  rewrite Hpl. simpl. rewrite (bind_Ret _ _ _ _ _ (plink_remove_eq _ _ _ _ _ _ Hm Ha)).
  rewrite (filter_ne_middle [] rest.*1 p Hnd). simpl.
  match goal with |- context [set_area p ?a' ?s0] => set (s1 := set_area p a' s0) end.
  assert (∃ t, match vma_obj a with Some o => on_mm (mmo_put o) | None => ret tt end s1
      = Ret tt (set_mm t s1) ∧ mm_ok t ∧ ∀ x, owned t x = owned (mm s) x - obj_count x [a])
    as (t & Hput & Htok & Ht).
  { destruct (vma_obj a) as [o|] eqn:Ho.
    - destruct (mmo_put_spec (mm s) o) as ([] & t & Hr & Htok & Hot); [done|by apply Hown|].
      exists t. split; [by apply on_mm_eq|]. split; [done|]. intros x. rewrite Hot, obj_count_one, Ho.
      destruct (decide (x = o)), (decide (Some o = Some x)); naive_solver lia.
    - exists (mm s). split; [by destruct s|]. split; [done|]. intros x. rewrite obj_count_one, Ho. simpl. lia. }
  rewrite (bind_Ret _ _ _ _ _ Hput).
  assert (vmareas (set_mm t s1) !! p = Some (set_vma_plink LNull a)) as Hp1
    by apply lookup_insert_eq.
  rewrite (bind_Ret _ _ _ _ _ (vma_get_eq _ _ _ Hp1)).
  destruct (olink_if_spec (set_mm t s1) p _ Hp1) as ([] & s2 & Hr & Ha2 & Hm2 & Hok2 & Ho2).
  exists tt, s2. split; [exact Hr|]. rewrite Ha2, Hm2. simpl. rewrite insert_insert_eq.
  apply NoDup_cons in Hnd as [Hp _]. split; [|split; [|split; [|split; [|split; [by apply Hok2|intros x; by rewrite Ho2]]]]].
  - split; [by rewrite Hm2; simpl; rewrite lookup_insert_eq|]. rewrite Ha2. simpl.
    rewrite insert_insert_eq. by apply heap_at_insert.
  - rewrite dom_insert_lookup_L; [done|by eexists].
  - intros m Hne. by apply lookup_insert_ne.
  - intros q Hne. by apply lookup_insert_ne.
Qed.

Lemma destroy_loop_spec map pr rest : ∀ s fuel,
  in_map s map pr rest → NoDup rest.*1 → Forall (λ a, vma_plink a = LIn) rest.*2 →
  mm_ok (mm s) → (∀ o, obj_count o rest.*2 <= owned (mm s) o) → (length rest <= fuel)%nat →
  returns (vmm_iterate fuel map (vmmap_destroy_body map) (head rest.*1)) s (λ _ s',
    dom (vmareas s') = dom (vmareas s) ∧
    (∀ m, m ≠ map → vmmaps s' !! m = vmmaps s !! m) ∧
    (∀ q, q ∉ rest.*1 → vmareas s' !! q = vmareas s !! q) ∧ mm_ok (mm s') ∧
    ∀ x, owned (mm s') x = owned (mm s) x - obj_count x rest.*2).
Proof.
  induction rest as [|[p a] rest IH]; intros s fuel Hin Hnd Hpl Hmok Hown Hfuel.
  { exists tt, s. split; [by destruct fuel|]. do 4 (split; [done|]).
    intros x. change (obj_count x [].*2) with 0. lia. }
  destruct fuel as [|fuel]; [simpl in Hfuel; lia|]. simpl in Hfuel. csimpl in *.
  apply Forall_cons in Hpl as [Hpa Hpl].
  destruct (destroy_body_spec s map pr p a rest) as ([] & s1 & Hb & Hin1 & Hd1 & Hm1 & Ha1 & Hok1 & Ho1);
    try done.
  { intros o Ho. specialize (Hown o). rewrite obj_count_cons, decide_True in Hown by done.
    pose proof (obj_count_pos o rest.*2). lia. }
  pose proof Hnd as [_ Hnd']%NoDup_cons.
  destruct (IH s1 fuel) as ([] & s2 & Hr & Hd2 & Hm2 & Ha2 & Hok2 & Ho2); try done; [|lia|].
  { intros x. specialize (Hown x). rewrite obj_count_cons in Hown. rewrite Ho1, obj_count_one. lia. }
  exists tt, s2. split; [|split; [|split; [|split; [|split; [done|]]]]].
  - simpl. rewrite (bind_Ret _ _ _ _ _ (map_get_eq _ _ _ _ Hin)). csimpl.
    rewrite (bind_Ret _ _ _ _ _ Hb). by rewrite decide_True.
  - congruence.
  - intros m Hne. by rewrite Hm2, Hm1.
  - intros q [Hne Hq]%not_elem_of_cons. by rewrite Ha2, Ha1.
  - intros x. rewrite Ho2, Ho1, obj_count_one, obj_count_cons. lia.
Qed.

Lemma vmmap_destroy_spec s map pr pl :
  vmmap_wf s map pr pl → mm_ok (mm s) → (∀ o, obj_count o pl.*2 <= owned (mm s) o) →
  returns (vmmap_destroy map) s (λ _ s',
    vmmaps s' !! map = None ∧ (∀ m, m ≠ map → vmmaps s' !! m = vmmaps s !! m) ∧
    (∀ x, owned (mm s') x = owned (mm s) x - obj_count x pl.*2) ∧
    (∀ q, q ∉ pl.*1 → vmareas s' !! q = vmareas s !! q) ∧ mm_ok (mm s') ∧
    dom (vmareas s') = dom (vmareas s)).
Proof.
  intros Hwf Hmok Hown. pose proof (wf_NoDup _ _ _ _ Hwf) as Hnd. destruct Hwf as [Hin [Hok _]].
  destruct (destroy_loop_spec map pr pl s (length pl.*1)) as ([] & s' & Hr & Hd & Hm & Ha & Hok' & Ho);
    try done.
  { eapply Forall_impl; [exact Hok|]. by intros a []. }
  { by rewrite length_fmap. }
  eexists tt, _. split.
  - unfold vmmap_destroy. rewrite (bind_Ret _ _ _ _ _ (map_get_eq _ _ _ _ Hin)). simpl.
    by rewrite (bind_Ret _ _ _ _ _ Hr).
  - simpl. split; [apply lookup_delete_eq|]. split; [|done].
    intros m Hne. by rewrite lookup_delete_ne, Hm.
Qed.

(** Destroying a well-formed map removes the map, gives back exactly one
    reference per area to its object and touches no other map; the areas
    themselves are never freed and stay allocated. *)
Theorem vmmap_destroy_releases s map pr pl :
  vmmap_wf s map pr pl → mm_ok (mm s) → (∀ o, obj_count o pl.*2 <= owned (mm s) o) →
  returns (vmmap_destroy map) s (λ _ s',
    vmmaps s' !! map = None ∧ (∀ m, m ≠ map → vmmaps s' !! m = vmmaps s !! m) ∧
    (∀ x, owned (mm s') x = owned (mm s) x - obj_count x pl.*2) ∧
    (∀ q, q ∉ pl.*1 → vmareas s' !! q = vmareas s !! q) ∧ mm_ok (mm s') ∧
    dom (vmareas s') = dom (vmareas s)).
Proof. apply vmmap_destroy_spec. Qed.
End copy.
