(* ===== verification/VmmapBytes.v ===== *)
(** * Properties of address spaces: reading and writing bytes

    [vmmap_read] and [vmmap_write] against the contents of object pages. *)
From S2P Require Import Prelude Headers Vmmap VmmapProps.
Local Open Scope kernel_scope.

(** What the memory system promises about pages.  A page of an object is a pair
    of an object and a page number in it; [content] is what reading it gives.
    [alias t x y]: a write to page [x] may show in page [y], as it does for a
    shadow object through which [x] is seen. *)
Class MmPages (S : Type) `{PageH, MmOps S} := {
  content : S → positive * Z → list Z;
  available : S → positive * Z → Prop;
  alias : S → positive * Z → positive * Z → Prop;
  (** the bytes of the page in a frame *)
  frame_of : S → positive → option (list Z);
  backs : S → positive → positive * Z → Prop;
  backs_bytes t p x : backs t p x → frame_of t p = Some (content t x);
  content_length t x : available t x → length (content t x) = Z.to_nat PAGE_SIZE;
  lookuppage_read_spec t o pn : available t (o, pn) →
    returns (mmo_lookuppage o pn false) t (λ r t', ∃ p, r = (0, Some p) ∧
      frame_of t' p = Some (content t (o, pn)) ∧
      (∀ x, available t x → available t' x ∧ content t' x = content t x) ∧
      ∀ x y, alias t' x y ↔ alias t x y);
  lookuppage_write_spec t o pn : available t (o, pn) →
    returns (mmo_lookuppage o pn true) t (λ r t', ∃ p, r = (0, Some p) ∧
      backs t' p (o, pn) ∧
      (∀ x, available t x → available t' x ∧ content t' x = content t x) ∧
      ∀ x y, alias t' x y ↔ alias t x y);
  pf_read_spec t p l off len : frame_of t p = Some l → returns (pf_read p off len) t (λ bs t',
    t' = t ∧ bs = take (Z.to_nat len) (drop (Z.to_nat off) l));
  pf_write_spec t p x off bs : backs t p x →
    (Z.to_nat off + length bs <= Z.to_nat PAGE_SIZE)%nat →
    returns (pf_write p off bs) t (λ _ t',
      content t' x = take (Z.to_nat off) (content t x) ++ bs ++
                     drop (Z.to_nat off + length bs) (content t x) ∧
      (∀ y, available t y → available t' y) ∧
      (∀ y, available t y → y ≠ x → ¬ alias t x y → content t' y = content t y) ∧
      backs t' p x ∧ ∀ y z, alias t' y z ↔ alias t y z);
  pframe_dirty_spec t p x : backs t p x → returns (pframe_dirty p) t (λ _ t',
    (∀ y, available t y → available t' y ∧ content t' y = content t y) ∧
    ∀ y z, alias t' y z ↔ alias t y z)
}.

(** The pages that could be had still can, with the same content. *)
Definition pages_kept {S} `{MmPages S} (t t' : S) : Prop :=
  ∀ x, available t x → available t' x ∧ content t' x = content t x.

Lemma pages_kept_refl {S} `{MmPages S} (t : S) : pages_kept t t.
Proof. by intros x Hx. Qed.
Lemma pages_kept_trans {S} `{MmPages S} (t1 t2 t3 : S) :
  pages_kept t1 t2 → pages_kept t2 t3 → pages_kept t1 t3.
Proof. intros Ha Hb x Hx. destruct (Ha x Hx) as [Hx2 <-]. by apply Hb. Qed.
#[export] Instance pages_kept_preorder {S} `{MmPages S} : PreOrder (pages_kept (S:=S)).
Proof. split; [intros t; apply pages_kept_refl|intros t1 t2 t3; apply pages_kept_trans]. Qed.

Section bytes.
Context `{HP : PageH, HM : MmanH} {S : Type} `{HO : !MmOps S, HG : !MmPages S}.
Implicit Types (map vma : positive) (s : vm S) (pl : list (positive * vmarea)).

(** The object page behind an address, and the byte there. *)
Definition obj_page (al : list vmarea) (addr : Z) : option (positive * Z) :=
  match page_at al (ADDR_TO_PN addr) with
  | Some (Some o, pn, _, _) => Some (o, pn)
  | _ => None
  end.
Definition byte_at (t : S) (al : list vmarea) (addr : Z) : option Z :=
  x ← obj_page al addr; content t x !! Z.to_nat (PAGE_OFFSET addr).

(** Every address of the range is mapped and its page can be had. *)
Definition mapped (t : S) (al : list vmarea) (lo n : Z) : Prop :=
  ∀ addr, lo <= addr < lo + n → ∃ x, obj_page al addr = Some x ∧ available t x.

(** ** Pages and addresses *)

Lemma page_offset_range a : 0 <= PAGE_OFFSET a < PAGE_SIZE.
Proof. rewrite page_offset_eq. apply Z.mod_pos_bound. pose proof page_size_pos. lia. Qed.

Lemma same_page a i :
  0 <= i < PAGE_SIZE - PAGE_OFFSET a →
  ADDR_TO_PN (a + i) = ADDR_TO_PN a ∧ PAGE_OFFSET (a + i) = PAGE_OFFSET a + i.
Proof.
  intros Hi. pose proof page_size_pos. pose proof (page_offset_range a) as Hr.
  rewrite !addr_to_pn_eq, !page_offset_eq in *.
  assert (a + i = PAGE_SIZE * (a / PAGE_SIZE) + (a mod PAGE_SIZE + i)) as Hai.
  { rewrite (Z.div_mod a PAGE_SIZE) at 1 by lia. lia. }
  split; symmetry; [eapply Z.div_unique|eapply Z.mod_unique]; try exact Hai; lia.
Qed.

Lemma obj_page_same al a i :
  0 <= i < PAGE_SIZE - PAGE_OFFSET a → obj_page al (a + i) = obj_page al a.
Proof. intros Hi. unfold obj_page. by rewrite (proj1 (same_page a i Hi)). Qed.

(** The lookup of the loops finds the object page behind the address. *)
Lemma lookup_obj_page s map pr pl addr x :
  in_map s map pr pl → obj_page pl.*2 addr = Some x →
  ∃ p a, vmmap_lookup map (ADDR_TO_PN addr) s = Ret (Some p) s ∧ vmareas s !! p = Some a ∧
    vma_obj a = Some x.1 ∧
    u32 (u32 (ADDR_TO_PN addr - vma_start a) + vma_off a) = x.2.
Proof.
  intros Hin Hx. unfold obj_page in Hx.
  pose proof (lookup_page_at s map pr pl (ADDR_TO_PN addr) Hin) as Hl.
  destruct (page_at pl.*2 (ADDR_TO_PN addr)) as [pg|]; [|done].
  destruct Hl as (p & a & Hl & Ha & _ & _ & ->). unfold a_page in Hx.
  exists p, a. split; [done|]. split; [done|]. destruct (vma_obj a); [|done]. by simplify_eq.
Qed.

(** ** Reading *)

Section read.
Context map (pr : option positive) pl (vaddr count : Z).
Context (Hv : 0 <= vaddr) (Hc : 0 <= count) (Hend : vaddr + count < U32).

Lemma read_loop_spec fuel : ∀ s done,
  in_map s map pr pl → 0 <= done <= count → count - done <= Z.of_nat fuel →
  mapped (mm s) pl.*2 (vaddr + done) (count - done) →
  returns (vmmap_read_loop fuel map count (vaddr + count) (vaddr + done) done) s (λ bs s',
    Z.of_nat (length bs) = count - done ∧
    (∀ i : nat, Z.of_nat i < count - done →
      bs !! i = byte_at (mm s) pl.*2 (vaddr + done + Z.of_nat i)) ∧
    vmareas s' = vmareas s ∧ vmmaps s' = vmmaps s ∧ pages_kept (mm s) (mm s')).
Proof using All.
  induction fuel as [|fuel IH]; intros s done Hin Hd Hfuel Hmap; simpl; rewrite Z.gtb_ltb.
  { rewrite (proj2 (Z.ltb_ge _ _)) by lia. exists [], s. split; [done|].
    simpl. split; [lia|]. split; [|done]. intros i Hi. lia. }
  destruct (Z.ltb_spec (vaddr + done) (vaddr + count)).
  2: { exists [], s. split; [done|]. simpl. split; [lia|]. split; [|done]. intros i Hi. lia. }
  destruct (Hmap (vaddr + done)) as ([o pn] & Hx & Hav); [lia|].
  destruct (lookup_obj_page s map pr pl (vaddr + done) (o, pn)) as (p & a & Hl & Ha & Ho & Hpn);
    [done|done|]. simpl in Ho, Hpn. unfold returns.
  rewrite (bind_Ret _ _ _ _ _ Hl), (bind_Ret _ _ _ p _) by done.
  rewrite (bind_Ret _ _ _ _ _ (vma_get_eq _ _ _ Ha)). rewrite Ho, Hpn.
  rewrite (bind_Ret _ _ _ o _) by done.
  destruct (lookuppage_read_spec (mm s) o pn Hav)
    as (r & t & Hr & pf & -> & Hfb & Hct & Halt).
  rewrite (bind_Ret _ _ _ _ _ (on_mm_eq _ _ _ _ Hr)), (bind_Ret _ _ _ pf _) by done.
  set (off := PAGE_OFFSET (vaddr + done)).
  pose proof (page_offset_range (vaddr + done)) as Hoff. fold off in Hoff.
  pose proof page_size_pos as Hps. rewrite (u32_small (count - done)) by lia.
  set (k := Z.min (count - done) (PAGE_SIZE - off)).
  destruct (pf_read_spec t pf _ off k Hfb) as (bs & ? & Hrd & -> & Hbs).
  rewrite (bind_Ret _ _ _ _ _ (on_mm_eq _ (set_mm t s) _ _ Hrd)).
  change (set_mm t (set_mm t s)) with (set_mm t s).
  rewrite !u32_small by lia.
  destruct (IH (set_mm t s) (done + k)) as (bs' & s' & Hr' & Hlen & Hbytes & Has & Hms & Hcs).
  { by destruct Hin. }
  { lia. }
  { lia. }
  { intros addr Haddr. destruct (Hmap addr) as (x & Hxa & Hxv); [lia|]. exists x. split; [done|]. by apply Hct. }
  rewrite <- Z.add_assoc. rewrite (bind_Ret _ _ _ _ _ Hr').
  assert (length bs = Z.to_nat k) as Hbl.
  { rewrite Hbs, length_take, length_drop, content_length by done. lia. }
  eexists _, _. split; [done|]. split; [rewrite length_app; lia|].
  split; [|simpl in *; rewrite Has, Hms; do 2 (split; [done|]); by eapply pages_kept_trans].
  intros i Hi. destruct (decide (i < Z.to_nat k)%nat) as [Hik|Hik].
  - rewrite lookup_app_l by lia. rewrite Hbs, lookup_take_lt, lookup_drop by lia.
    unfold byte_at. rewrite obj_page_same by lia. rewrite Hx. simpl.
    rewrite (proj2 (same_page (vaddr + done) (Z.of_nat i) ltac:(lia))). f_equal. lia.
  - rewrite lookup_app_r by lia. rewrite Hbytes by lia.
    replace (vaddr + (done + k) + Z.of_nat (i - length bs)) with (vaddr + done + Z.of_nat i) by lia.
    destruct (Hmap (vaddr + done + Z.of_nat i)) as (x & Hxa & Hxv); [lia|].
    unfold byte_at. rewrite Hxa. simpl. by rewrite (proj2 (Hct x Hxv)).
Qed.
End read.

Lemma vmmap_read_spec s map pr pl vaddr count :
  in_map s map pr pl → 0 <= vaddr → 0 <= count → vaddr + count < U32 →
  mapped (mm s) pl.*2 vaddr count →
  returns (vmmap_read map vaddr count) s (λ r s', r.1 = 0 ∧
    Z.of_nat (length r.2) = count ∧
    (∀ i : nat, Z.of_nat i < count → r.2 !! i = byte_at (mm s) pl.*2 (vaddr + Z.of_nat i)) ∧
    vmareas s' = vmareas s ∧ vmmaps s' = vmmaps s ∧ pages_kept (mm s) (mm s')).
Proof.
  intros Hin Hv Hc Hend Hmap.
  destruct (read_loop_spec map pr pl vaddr count Hv Hc Hend (Z.to_nat count) s 0)
    as (bs & s' & Hr & Hlen & Hb & Hs); try done; try lia.
  { intros addr Ha. apply Hmap. lia. }
  unfold vmmap_read, returns. rewrite u32_small by lia.
  rewrite Z.add_0_r in Hr. rewrite (bind_Ret _ _ _ _ _ Hr).
  eexists _, _. split; [done|]. simpl. split; [done|]. split; [lia|]. split; [|done].
  intros i Hi. rewrite Hb by lia. f_equal. lia.
Qed.

(** [vmmap_read] of a range of mapped addresses returns 0 and copies exactly
    the bytes of the address space in order, across page and area boundaries; it
    terminates within one round per byte and changes no map, area or content. *)
Theorem vmmap_read_bytes s map pr pl vaddr count :
  vmmap_wf s map pr pl → 0 <= vaddr → 0 <= count → vaddr + count < U32 →
  mapped (mm s) pl.*2 vaddr count →
  returns (vmmap_read map vaddr count) s (λ r s', r.1 = 0 ∧
    Z.of_nat (length r.2) = count ∧
    (∀ i : nat, Z.of_nat i < count → r.2 !! i = byte_at (mm s) pl.*2 (vaddr + Z.of_nat i)) ∧
    vmareas s' = vmareas s ∧ vmmaps s' = vmmaps s ∧ pages_kept (mm s) (mm s')).
Proof.
  intros [Hin _] Hv Hc Hend Hmap.
  eapply returns_mono; [by apply (vmmap_read_spec s map pr pl)|]. naive_solver.
Qed.

(** ** Writing *)

(** A write to the page of [addr] does not show at [addr']. *)
Definition apart (t : S) (al : list vmarea) (addr addr' : Z) : Prop :=
  ∀ x y, obj_page al addr = Some x → obj_page al addr' = Some y → y ≠ x ∧ ¬ alias t x y.

(** [addr] is on a page of its own, as far as writes to the range go. *)
Definition unaliased (t : S) (al : list vmarea) (lo n addr : Z) : Prop :=
  ∀ addr', lo <= addr' < lo + n → ADDR_TO_PN addr' ≠ ADDR_TO_PN addr → apart t al addr' addr.

(** No write to the range shows in page [y] of an object. *)
Definition unwritten (t : S) (al : list vmarea) (lo n : Z) (y : positive * Z) : Prop :=
  ∀ addr x, lo <= addr < lo + n → obj_page al addr = Some x → y ≠ x ∧ ¬ alias t x y.

Lemma same_page_diff a b :
  ADDR_TO_PN a = ADDR_TO_PN b → b - a = PAGE_OFFSET b - PAGE_OFFSET a.
Proof.
  rewrite !addr_to_pn_eq, !page_offset_eq. intros Hp. pose proof page_size_pos.
  rewrite (Z.div_mod a PAGE_SIZE), (Z.div_mod b PAGE_SIZE) at 1 by lia. rewrite Hp. lia.
Qed.

Lemma splice_lookup (l bs : list Z) (off i : nat) :
  (off + length bs <= length l)%nat →
  (take off l ++ bs ++ drop (off + length bs) l) !! i =
    if decide (off <= i < off + length bs)%nat then bs !! (i - off)%nat else l !! i.
Proof.
  intros Hl. assert (length (take off l) = off) as Ht by (rewrite length_take; lia).
  destruct (decide (i < off)%nat).
  - rewrite lookup_app_l, lookup_take_lt by lia. by rewrite decide_False by lia.
  - rewrite lookup_app_r, Ht by lia. destruct (decide (i < off + length bs)%nat).
    + rewrite lookup_app_l by lia. by rewrite decide_True by lia.
    + rewrite lookup_app_r by lia. rewrite decide_False by lia. rewrite lookup_drop. f_equal. lia.
Qed.

(** The page behind an address, if there is one, can be had. *)
Definition avail_at (t : S) (al : list vmarea) (addr : Z) : Prop :=
  ∀ x, obj_page al addr = Some x → available t x.

Lemma mapped_avail t al lo n addr : mapped t al lo n → lo <= addr < lo + n → avail_at t al addr.
Proof. intros Hm Ha x Hx. destruct (Hm addr Ha) as (y & Hy & Hav). congruence. Qed.

(** What a write of [bs] at [cur], within its page, does to the bytes. *)
Lemma write_chunk t t' al cur x bs addr :
  obj_page al cur = Some x → available t x → avail_at t al addr →
  (Z.to_nat (PAGE_OFFSET cur) + length bs <= Z.to_nat PAGE_SIZE)%nat →
  content t' x = take (Z.to_nat (PAGE_OFFSET cur)) (content t x) ++ bs ++
    drop (Z.to_nat (PAGE_OFFSET cur) + length bs) (content t x) →
  (∀ y, available t y → y ≠ x → ¬ alias t x y → content t' y = content t y) →
  (ADDR_TO_PN cur = ADDR_TO_PN addr ∨ apart t al cur addr) →
  byte_at t' al addr =
    if (cur <=? addr) && (addr <? cur + Z.of_nat (length bs))
    then bs !! Z.to_nat (addr - cur) else byte_at t al addr.
Proof.
  intros Hx Hxv Hav Hlen Hc Hother Hap. pose proof (page_offset_range cur).
  pose proof (page_offset_range addr).
  destruct (decide (ADDR_TO_PN cur = ADDR_TO_PN addr)) as [Heq|Hne].
  - pose proof (same_page_diff _ _ Heq) as Hdiff.
    assert (obj_page al addr = Some x) as Hx' by (unfold obj_page in *; by rewrite <- Heq).
    unfold byte_at. rewrite Hx'. simpl. rewrite Hc, splice_lookup by (rewrite content_length by done; lia).
    destruct (decide _) as [Hd|Hd].
    + rewrite (proj2 (Z.leb_le _ _)), (proj2 (Z.ltb_lt _ _)) by lia. simpl. f_equal. lia.
    + destruct (Z.leb_spec cur addr), (Z.ltb_spec addr (cur + Z.of_nat (length bs))); simpl; try done.
      lia.
  - destruct Hap as [|Hap]; [done|].
    assert ((cur <=? addr) && (addr <? cur + Z.of_nat (length bs)) = false) as ->.
    { destruct (Z.leb_spec cur addr), (Z.ltb_spec addr (cur + Z.of_nat (length bs))); simpl; try done.
      destruct Hne. replace addr with (cur + (addr - cur)) by lia.
      by rewrite (proj1 (same_page cur (addr - cur) ltac:(lia))). }
    unfold byte_at. destruct (obj_page al addr) as [y|] eqn:Hy; [|done]. simpl.
    destruct (Hap x y Hx Hy). rewrite Hother; [done|by apply Hav|done|done].
Qed.

(** Looking a page up, storing into its frame and marking it dirty. *)
Lemma write_frame_spec t o pn off bs :
  available t (o, pn) → (Z.to_nat off + length bs <= Z.to_nat PAGE_SIZE)%nat →
  ∃ pf z t1 t2 t3, mmo_lookuppage o pn true t = Ret (0, Some pf) t1 ∧ pf_write pf off bs t1 = Ret tt t2 ∧
    pframe_dirty pf t2 = Ret z t3 ∧ (∀ y, available t y → available t3 y) ∧
    (∀ y z, alias t3 y z ↔ alias t y z) ∧
    content t3 (o, pn) = take (Z.to_nat off) (content t (o, pn)) ++ bs ++
      drop (Z.to_nat off + length bs) (content t (o, pn)) ∧
    ∀ y, available t y → y ≠ (o, pn) → ¬ alias t (o, pn) y → content t3 y = content t y.
Proof.
  intros Hav Hlen. destruct (lookuppage_write_spec t o pn Hav) as (r & t1 & Hr & pf & -> & Hbk & Hct & Halt).
  destruct (pf_write_spec t1 pf (o, pn) off bs Hbk Hlen) as ([] & t2 & Hw & Hc1 & Hav1 & Hoth & Hbk1 & Hal1).
  destruct (pframe_dirty_spec t2 pf (o, pn) Hbk1) as (z & t3 & Hdt & Hc2 & Hal2).
  assert (∀ y, available t y → available t1 y ∧ available t2 y) as Hav'.
  { intros y Hy. destruct (Hct y Hy) as [Hyt _]. split; [done|]. by apply Hav1. }
  exists pf, z, t1, t2, t3. do 3 (split; [done|]). split; [intros y Hy; by apply Hc2, Hav'|].
  split; [intros y z'; by rewrite Hal2, Hal1, Halt|]. split.
  - rewrite (proj2 (Hc2 _ (proj2 (Hav' _ Hav)))), Hc1. by rewrite (proj2 (Hct _ Hav)).
  - intros y Hy Hne Hna. destruct (Hav' y Hy) as [??].
    rewrite (proj2 (Hc2 y ltac:(done))), Hoth; [by apply Hct|done|done|by rewrite Halt].
Qed.

Section write.
Context map (pr : option positive) pl (vaddr : Z) (buf : list Z).
Let count := Z.of_nat (length buf).
Context (Hv : 0 <= vaddr) (Hend : vaddr + count < U32).

(** What the loop promises. *)
Definition written s done (s' : vm S) : Prop :=
  vmareas s' = vmareas s ∧ vmmaps s' = vmmaps s ∧ (∀ x, available (mm s) x → available (mm s') x) ∧
  (∀ y, available (mm s) y → unwritten (mm s) pl.*2 (vaddr + done) (count - done) y →
    content (mm s') y = content (mm s) y) ∧
  ∀ addr, avail_at (mm s) pl.*2 addr → unaliased (mm s) pl.*2 (vaddr + done) (count - done) addr →
    byte_at (mm s') pl.*2 addr =
      if (vaddr + done <=? addr) && (addr <? vaddr + count)
      then buf !! Z.to_nat (addr - vaddr) else byte_at (mm s) pl.*2 addr.

Lemma write_nothing s done :
  vaddr + count <= vaddr + done → returns (ret tt) s (λ _, written s done).
Proof using All.
  intros Hle. exists tt, s. split; [done|]. do 4 (split; [done|]). intros addr _ _.
  by destruct (Z.leb_spec (vaddr + done) addr), (Z.ltb_spec addr (vaddr + count)); try lia.
Qed.

(** A turn stores the next [k] bytes, which end with the buffer or the page. *)
Lemma write_turn t t' done k x addr :
  let cur := vaddr + done in
  0 <= done → 0 <= k <= count - done → k <= PAGE_SIZE - PAGE_OFFSET cur →
  obj_page pl.*2 cur = Some x → available t x →
  content t' x = take (Z.to_nat (PAGE_OFFSET cur)) (content t x) ++ buf_slice buf done k ++
    drop (Z.to_nat (PAGE_OFFSET cur) + length (buf_slice buf done k)) (content t x) →
  (∀ y, available t y → y ≠ x → ¬ alias t x y → content t' y = content t y) →
  avail_at t pl.*2 addr → 0 < count - done → unaliased t pl.*2 cur (count - done) addr →
  byte_at t' pl.*2 addr =
    if (cur <=? addr) && (addr <? cur + k)
    then buf !! Z.to_nat (addr - vaddr) else byte_at t pl.*2 addr.
Proof using All.
  intros cur Hd Hk Hpg Hx Hxv Hc Hoth Hava Hpos Haddr.
  assert (length (buf_slice buf done k) = Z.to_nat k) as Hsl.
  { unfold buf_slice. rewrite length_take, length_drop. lia. }
  pose proof (page_offset_range cur). erewrite (write_chunk t t' _ cur x (buf_slice buf done k)); try done.
  - rewrite Hsl, Z2Nat.id by lia. destruct ((cur <=? addr) && (addr <? cur + k)) eqn:Hb; [|done].
    zbool. unfold buf_slice. rewrite lookup_take_lt, lookup_drop by lia. f_equal. lia.
  - lia.
  - destruct (decide (ADDR_TO_PN cur = ADDR_TO_PN addr)); [by left|right]. apply Haddr; [lia|done].
Qed.

Lemma write_loop_spec fuel : ∀ s done,
  in_map s map pr pl → 0 <= done <= count → count - done <= Z.of_nat fuel →
  mapped (mm s) pl.*2 (vaddr + done) (count - done) →
  (∀ addr, vaddr + done <= addr < vaddr + count →
    unaliased (mm s) pl.*2 (vaddr + done) (count - done) addr) →
  returns (vmmap_write_loop fuel map buf count (vaddr + count) (vaddr + done) done) s (λ _, written s done).
Proof using All.
  induction fuel as [|fuel IH]; intros s done Hin Hd Hfuel Hmap Hun; simpl; rewrite Z.gtb_ltb.
  { rewrite (proj2 (Z.ltb_ge _ _)) by lia. apply write_nothing. lia. }
  destruct (Z.ltb_spec (vaddr + done) (vaddr + count)); [|apply write_nothing; lia].
  destruct (Hmap (vaddr + done)) as ([o pn] & Hx & Hav); [lia|].
  destruct (lookup_obj_page s map pr pl (vaddr + done) (o, pn)) as (p & a & Hl & Ha & Ho & Hpn);
    [done|done|]. simpl in Ho, Hpn. unfold returns.
  rewrite (bind_Ret _ _ _ _ _ Hl), (bind_Ret _ _ _ p _) by done.
  rewrite (bind_Ret _ _ _ _ _ (vma_get_eq _ _ _ Ha)). rewrite Ho, Hpn.
  rewrite (bind_Ret _ _ _ o _) by done.
  set (cur := vaddr + done) in *. set (off := PAGE_OFFSET cur).
  pose proof (page_offset_range cur) as Hoff. fold off in Hoff.
  pose proof page_size_pos as Hps. rewrite (u32_small (count - done)) by lia.
  set (k := Z.min (count - done) (PAGE_SIZE - off)).
  assert (length (buf_slice buf done k) = Z.to_nat k) as Hsl.
  { unfold buf_slice. rewrite length_take, length_drop. lia. }
  destruct (write_frame_spec (mm s) o pn off (buf_slice buf done k) Hav ltac:(lia))
    as (pf & z & t & t1 & t2 & Hr & Hw & Hdt & Hav' & Hal & Hc & Hoth).
  rewrite (bind_Ret _ _ _ _ _ (on_mm_eq _ _ _ _ Hr)), (bind_Ret _ _ _ pf _) by done.
  rewrite (bind_Ret _ _ _ _ _ (on_mm_eq _ (set_mm t s) _ _ Hw)).
  rewrite (bind_Ret _ _ _ _ _ (on_mm_eq _ (set_mm t1 s) _ _ Hdt)).
  rewrite !u32_small by lia.
  destruct (IH (set_mm t2 s) (done + k)) as ([] & s' & Hr' & Has & Hms & Hcs & Hunw & Hbytes).
  { by destruct Hin. }
  { lia. }
  { lia. }
  { intros addr Haddr. destruct (Hmap addr) as (x & Hxa & Hxv); [lia|]. exists x. split; [done|]. by apply Hav'. }
  { intros addr Haddr addr' Haddr' Hpn' x y Hx' Hy'. simpl. rewrite Hal.
    apply (Hun addr ltac:(lia) addr'); [lia|done|done|done]. }
  exists tt, s'. split; [unfold cur; rewrite <- Z.add_assoc; exact Hr'|].
  split; [done|]. split; [done|]. split; [intros x Hxv; by apply Hcs, Hav'|]. split.
  { intros y Hyv Hy. rewrite Hunw; [|by apply Hav'|intros addr x Ha'; simpl; rewrite Hal; apply (Hy addr x); lia].
    destruct (Hy cur (o, pn) ltac:(lia) Hx) as [Hne Hna]. by apply Hoth. }
  intros addr Hava Haddr. rewrite Hbytes.
  - simpl. rewrite (write_turn (mm s) t2 done k (o, pn) addr) by (done || (fold cur; fold off; lia)). subst cur.
    destruct (Z.leb_spec (vaddr + (done + k)) addr), (Z.ltb_spec addr (vaddr + count)),
      (Z.leb_spec (vaddr + done) addr), (Z.ltb_spec addr (vaddr + done + k)); simpl; try done; lia.
  - intros x Hx'. by apply Hav', Hava.
  - intros addr' Haddr' Hpn' x y Hx' Hy'. simpl. rewrite Hal. apply (Haddr addr'); [lia|done|done|done].
Qed.
End write.

(** A write of [buf] at [vaddr], then a read of as many bytes. *)
Lemma vmmap_write_spec s map pr pl vaddr buf :
  let n := Z.of_nat (length buf) in
  in_map s map pr pl → 0 <= vaddr → vaddr + n < U32 → mapped (mm s) pl.*2 vaddr n →
  (∀ addr, vaddr <= addr < vaddr + n → unaliased (mm s) pl.*2 vaddr n addr) →
  returns (vmmap_write map vaddr buf n) s (λ r s', r = 0 ∧
    vmareas s' = vmareas s ∧ vmmaps s' = vmmaps s ∧ (∀ x, available (mm s) x → available (mm s') x) ∧
    (∀ y, available (mm s) y → unwritten (mm s) pl.*2 vaddr n y → content (mm s') y = content (mm s) y) ∧
    ∀ addr, avail_at (mm s) pl.*2 addr → unaliased (mm s) pl.*2 vaddr n addr →
      byte_at (mm s') pl.*2 addr =
        if (vaddr <=? addr) && (addr <? vaddr + n)
        then buf !! Z.to_nat (addr - vaddr) else byte_at (mm s) pl.*2 addr).
Proof.
  intros n Hin Hv Hend Hmap Hun.
  destruct (write_loop_spec map pr pl vaddr buf Hv Hend (Z.to_nat n) s 0)
    as ([] & s' & Hr & Hs);
    [done|lia|lia|by rewrite Z.add_0_r, Z.sub_0_r|by rewrite Z.add_0_r, Z.sub_0_r|].
  unfold written in Hs. rewrite Z.add_0_r in Hr, Hs. rewrite Z.sub_0_r in Hs.
  exists 0, s'. split; [|done]. unfold vmmap_write. rewrite u32_small by lia.
  by rewrite (bind_Ret _ _ _ _ _ Hr).
Qed.

(** What a read gives in the state after the write. *)
Lemma read_after_write s s' map pr pl vaddr buf :
  let n := Z.of_nat (length buf) in
  in_map s map pr pl → 0 <= vaddr → vaddr + n < U32 → mapped (mm s) pl.*2 vaddr n →
  (∀ addr, vaddr <= addr < vaddr + n → unaliased (mm s) pl.*2 vaddr n addr) →
  vmareas s' = vmareas s → vmmaps s' = vmmaps s → (∀ x, available (mm s) x → available (mm s') x) →
  (∀ addr, avail_at (mm s) pl.*2 addr → unaliased (mm s) pl.*2 vaddr n addr →
    byte_at (mm s') pl.*2 addr =
      if (vaddr <=? addr) && (addr <? vaddr + n)
      then buf !! Z.to_nat (addr - vaddr) else byte_at (mm s) pl.*2 addr) →
  returns (vmmap_read map vaddr n) s' (λ r _, r = (0, buf)).
Proof.
  intros n Hin Hv Hend Hmap Hun Has Hms Hav Hb.
  assert (in_map s' map pr pl) as Hin'.
  { destruct Hin. split; [by rewrite Hms|by rewrite Has]. }
  eapply returns_mono; [apply (vmmap_read_spec s' map pr pl vaddr n); try done; [lia|]|].
  { intros addr Ha. destruct (Hmap addr Ha) as (x & Hx & Hxv). exists x. split; [done|]. by apply Hav. }
  intros [z bs] s2 (Hz & Hlen & Hbs & _). simpl in *. subst z. f_equal.
  apply list_eq_same_length with (length buf); [done|lia|].
  intros i x y Hi Hx Hy. rewrite Hbs in Hx by lia. rewrite Hb in Hx by (by (eapply mapped_avail; [done|lia]) || (apply Hun; lia)).
  rewrite (proj2 (Z.leb_le _ _)), (proj2 (Z.ltb_lt _ _)) in Hx by lia. simpl in Hx.
  replace (Z.to_nat (vaddr + Z.of_nat i - vaddr)) with i in Hx by lia. congruence.
Qed.

(** C30: Writing a buffer to a range of mapped pages that do not alias one another
    returns 0 and terminates; reading the range back then gives the buffer, and
    every byte outside the range, unless it aliases a page of the range, is as
    before. *)
Theorem vmmap_write_read s map pr pl vaddr buf :
  vmmap_wf s map pr pl → 0 <= vaddr → vaddr + (Z.of_nat (length buf)) < U32 →
  mapped (mm s) pl.*2 vaddr (Z.of_nat (length buf)) →
  (∀ addr, vaddr <= addr < vaddr + (Z.of_nat (length buf)) → unaliased (mm s) pl.*2 vaddr (Z.of_nat (length buf)) addr) →
  returns (vmmap_write map vaddr buf (Z.of_nat (length buf))) s (λ r s', r = 0 ∧
    returns (vmmap_read map vaddr (Z.of_nat (length buf))) s' (λ r' _, r' = (0, buf)) ∧
    ∀ addr, ¬ (vaddr <= addr < vaddr + (Z.of_nat (length buf))) → avail_at (mm s) pl.*2 addr →
      unaliased (mm s) pl.*2 vaddr (Z.of_nat (length buf)) addr →
      byte_at (mm s') pl.*2 addr = byte_at (mm s) pl.*2 addr).
Proof.
  intros [Hin _] Hv Hend Hmap Hun.
  eapply returns_mono; [by apply (vmmap_write_spec s map pr pl)|].
  intros r s' (-> & Has & Hms & Hav & _ & Hb). split; [done|]. split.
  - by eapply (read_after_write s s').
  - intros addr Hout Hava Ha. rewrite Hb by done.
    by destruct (Z.leb_spec vaddr addr), (Z.ltb_spec addr (vaddr + (Z.of_nat (length buf)))); try lia.
Qed.
End bytes.
