(* ===== verification/VmmapInfo.v ===== *)
(** * The mappings of an address space as text: vmmap_mapping_info

    The debugging routine of vm/vmmap.c that prints the areas of a map into a buffer.
    It runs on the address spaces and the buffer its caller gives it. *)
From Stdlib Require Import String.
From S2P Require Import Prelude Headers Text Vmmap.
Local Open Scope kernel_scope.

(** How printf shows a pointer, which C leaves to the implementation. *)
Class PointerText := { fmt_p : Z → list Z }.
Definition addr_of (o : option positive) : Z := from_option Z.pos 0 o.

Section info.
Context `{PageH, MmanH, PointerText} {S : Type} `{MmOps S, SlabOps S}.
Implicit Types (map vma : positive).

Definition info_state : Type := vm S * list Z.
Definition on_vm {A} (m : M (vm S) A) : M info_state A := zoom fst (λ v s, (v, s.2)) m.
Definition on_buf {A} (m : M (list Z) A) : M info_state A := zoom snd (λ b s, (s.1, b)) m.

Definition info_header : list Z :=
  pad_left 21 (bytes_of "VADDR RANGE") ++ bytes_of " " ++ pad_left 5 (bytes_of "PROT") ++ bytes_of " " ++
  pad_left 7 (bytes_of "FLAGS") ++ bytes_of " " ++ pad_left 8 (bytes_of "MMOBJ") ++ bytes_of " " ++
  pad_left 10 (bytes_of "OFFSET") ++ bytes_of " " ++ pad_left 12 (bytes_of "VFN RANGE") ++ [10].

Definition info_line (a : vmarea) : list Z :=
  hex 8 (Z.shiftl (vma_start a) PAGE_SHIFT) ++ bytes_of "-" ++ hex 8 (Z.shiftl (vma_end a) PAGE_SHIFT) ++
  bytes_of "  " ++
  (if has (vma_prot a) PROT_READ then bytes_of "r" else bytes_of "-") ++
  (if has (vma_prot a) PROT_WRITE then bytes_of "w" else bytes_of "-") ++
  (if has (vma_prot a) PROT_EXEC then bytes_of "x" else bytes_of "-") ++
  bytes_of "  " ++
  pad_left 7 (if has (vma_flags a) MAP_SHARED then bytes_of " SHARED" else bytes_of "PRIVATE") ++
  bytes_of " 0x" ++ fmt_p (addr_of (vma_obj a)) ++ bytes_of " " ++ hex 5 (vma_off a) ++ bytes_of " " ++
  hex 5 (vma_start a) ++ bytes_of "-" ++ hex 5 (vma_end a) ++ [10].

(** The loop over the list: [size] is what is left before the text of length [len] that
    was printed last, at [buf + pos].  The result is [size] and how far [buf] has moved. *)
Fixpoint info_lines (l : list positive) (size pos len : Z) : M info_state (Z * Z) :=
  match l with
  | [] => ret (size, pos)
  | vma :: l =>
      let size := size - len in
      let pos := pos + len in
      if size <=? 0 then ret (size, pos)
      else
        a <- on_vm (vma_get vma) ;;
        len <- on_buf (snprintf pos (u32 size) (info_line a)) ;;
        info_lines l size pos len
  end.

(** [buf] is not null; the buffer in the state has [osize] bytes. *)
Definition vmmap_mapping_info map (osize : Z) : M info_state Z :=
  kassert (0 <? osize) ;;;
  let size := s32 osize in
  len <- on_buf (snprintf 0 (u32 size) info_header) ;;
  m <- on_vm (map_get map) ;;
  ' (size, pos) <- info_lines (vmm_list m) size 0 len ;;
  (if size <=? 0 then on_buf (store (pos + (osize - 1)) [0]) ;;; ret (u32 (osize - osize))
   else ret (u32 (osize - size))).

(** ** What is printed *)

(** The lines of the areas with addresses [l]. *)
Definition lines_of (v : vm S) (l : list positive) : option (list (list Z)) :=
  mapM (λ p, info_line <$> vmareas v !! p) l.

Lemma on_buf_run {A} (m : M (list Z) A) (v : vm S) b a b' :
  m b = Ret a b' → on_buf m (v, b) = Ret a (v, b').
Proof. intros Hm. unfold on_buf, zoom. simpl. by rewrite Hm. Qed.

(** The loop, from a point where [text] and then [last] have been printed. *)
Lemma info_lines_run v b l ls text last :
  (length text < length b)%nat → Z.of_nat (length b) < 2 ^ 31 → lines_of v l = Some ls →
  let all := text ++ last ++ concat ls in
  let kept := removelast (last :: ls) in
  ∃ size pos b', info_lines l (Z.of_nat (length b) - Z.of_nat (length text)) (Z.of_nat (length text))
      (Z.of_nat (length last)) (v, printed (text ++ last) b) = Ret (size, pos) (v, b') ∧
    pos = Z.of_nat (length b) - size ∧
    if decide (length (text ++ concat kept) < length b)%nat
    then size = Z.of_nat (length b) - Z.of_nat (length (text ++ concat kept)) ∧ b' = printed all b
    else size <= 0 ∧ length b' = length b.
Proof.
  intros Ht Hb. revert ls text last Ht. induction l as [|p l IH]; intros ls text last Ht Hls.
  - injection Hls as <-. simpl. eexists _, _, _. split; [reflexivity|]. split; [lia|].
    rewrite !app_nil_r, decide_True by lia. done.
  - unfold lines_of in Hls. simpl in Hls.
    apply bind_Some in Hls as (line & Hline & (ls' & Hls' & [= <-])%bind_Some).
    apply fmap_Some in Hline as (a & Ha & ->). simpl.
    destruct (_ <=? 0) eqn:Hsz.
    + eexists _, _, _. split; [reflexivity|]. split; [lia|].
      rewrite decide_False. { split; [lia|]. apply printed_length. destruct b; simpl in *; [lia|done]. }
      rewrite length_app. destruct (removelast (info_line a :: ls')); simpl; rewrite ?length_app; lia.
    + rewrite (bind_Ret _ _ _ a (v, printed (text ++ last) b)).
      2: { unfold on_vm, zoom, vma_get. simpl. by rewrite Ha. }
      assert (length (text ++ last) < length b)%nat as Ht' by (rewrite length_app; lia).
      erewrite bind_Ret.
      2: { apply on_buf_run. rewrite u32_small by (unfold U32; lia).
           rewrite <- (printed_app (text ++ last) (info_line a) b Ht').
           rewrite length_app. f_equal; lia. }
      destruct (IH ls' (text ++ last) (info_line a) Ht' Hls') as (size & pos & b' & Hr & Hpos & Hres).
      exists size, pos, b'. rewrite <- Hr. split.
      { rewrite length_app. f_equal; lia. }
      split; [done|]. rewrite <- !(assoc_L (++)) in Hres. exact Hres.
Qed.

(** C40: [vmmap_mapping_info] prints the header and a line for every area in their
    order, cut to the buffer and with a zero at its end, as long as all but the last
    line fit; it returns their length without the last line.  If they do not fit, it
    stores a zero past the end of the buffer. *)
Theorem vmmap_mapping_info_prints v map m ls b :
  vmmaps v !! map = Some m → lines_of v (vmm_list m) = Some ls →
  0 < Z.of_nat (length b) < 2 ^ 31 →
  let kept := removelast (info_header :: ls) in
  vmmap_mapping_info map (Z.of_nat (length b)) (v, b) =
  if decide (length (concat kept) < length b)%nat
  then Ret (Z.of_nat (length (concat kept))) (v, printed (concat (info_header :: ls)) b)
  else Panic.
Proof.
  intros Hm Hls Hb kept. unfold vmmap_mapping_info.
  rewrite (bind_Ret _ _ _ _ _ (kassert_true _ (v, b) (proj2 (Z.ltb_lt _ _) (proj1 Hb)))).
  rewrite s32_small, u32_small by (unfold U32; lia).
  assert (b ≠ []) as Hne by (destruct b; simpl in *; [lia|done]).
  rewrite (bind_Ret _ _ _ _ _ (on_buf_run _ v _ _ _ (snprintf_first info_header b Hne))).
  rewrite (bind_Ret _ _ _ m (v, printed info_header b)).
  2: { unfold on_vm, zoom, map_get. simpl. by rewrite Hm. }
  destruct (info_lines_run v b (vmm_list m) ls [] info_header) as (size & pos & b' & Hr & -> & Hres);
    [simpl; lia|lia|done|].
  simpl in Hr. rewrite Z.sub_0_r in Hr. rewrite (bind_Ret _ _ _ _ _ Hr). simpl. fold kept in Hres.
  change ([] ++ ?x) with x in Hres.
  destruct (decide _) as [Hfit|Hfit]; destruct Hres as [Hsz Hb'].
  - rewrite (proj2 (Z.leb_gt size 0)) by lia. subst b'. unfold ret. f_equal. rewrite u32_small; unfold U32; lia.
  - rewrite (proj2 (Z.leb_le size 0)) by lia. unfold bind at 1, on_buf, zoom. simpl.
    by rewrite store_overruns by (simpl; lia).
Qed.
End info.
