(* ===== verification/VmmapEx.v ===== *)
(** * Address spaces at work

    A small memory system that keeps the promises of [MmOps], and the theorems on
    address spaces applied to concrete maps over it. *)
From stdpp Require Import sorting.
From S2P Require Import Prelude Headers Vmmap VmmapProps VmmapChange VmmapCopy VmmapBytes.
Local Open Scope kernel_scope.

#[local] Existing Instance page_ex.
#[local] Existing Instance mman_ex.

(** Words of kernel memory, saved values of [eax], and references to open files. *)
Record exkm := ExKm {
  x_words : gmap Z Z;
  x_regs : gmap Z (Z * list Z);
  x_files : gmap positive Z;
  x_vns : gmap positive Z
}.

(** The entries of page tables, the pin counts of frames, the kernel memory in use,
    the error number and [eax] of the current thread, and the contents of kernel memory. *)
Record expt := ExPt {
  x_entries : gmap (option positive * Z) (Z * Z * Z);
  x_pins : gmap positive nat;
  x_bufs : gset buf;
  x_errno : Z;
  x_eax : Z;
  x_km : exkm
}.

(** Reference counts, shadow objects, page contents, the object page each frame
    holds, and page tables. *)
Record exmm := ExMm {
  x_refs : gmap positive Z;
  x_shadowed : gmap positive positive;
  x_bottom : gmap positive positive;
  x_pages : gmap (positive * Z) (list Z);
  x_frames : gmap positive (positive * Z);
  x_pt : expt
}.

Definition x_owned (t : exmm) (o : positive) : Z := default 0 (x_refs t !! o).
Definition x_add (o : positive) (d : Z) (t : exmm) : exmm :=
  ExMm (<[o := x_owned t o + d]> (x_refs t)) (x_shadowed t) (x_bottom t) (x_pages t) (x_frames t) (x_pt t).
Definition x_content (t : exmm) (x : positive * Z) : list Z :=
  take 4096 (default [] (x_pages t !! x) ++ replicate 4096 0).
Definition x_frame (t : exmm) (p : positive) : list Z :=
  match x_frames t !! p with Some x => x_content t x | None => [] end.

Definition x_write (p : positive) (off : Z) (bs : list Z) (t : exmm) : exmm :=
  match x_frames t !! p with
  | Some x =>
      let l := x_content t x in
      ExMm (x_refs t) (x_shadowed t) (x_bottom t)
        (<[x := take (Z.to_nat off) l ++ bs ++ drop (Z.to_nat off + length bs) l]> (x_pages t))
        (x_frames t) (x_pt t)
  | None => t
  end.

(** The allocators give the first address after all those in use. *)
Definition x_fresh {V} (m : gmap positive V) : positive := fresh (dom m).

#[local] Instance ex_ops : MmOps exmm := {|
  mmo_ref o := modify (x_add o 1);
  mmo_put o := modify (x_add o (-1));
  mmo_lookuppage o pn w := λ t,
    Ret (0, Some 1%positive) (ExMm (x_refs t) (x_shadowed t) (x_bottom t) (x_pages t)
      (<[1%positive := (o, pn)]> (x_frames t)) (x_pt t));
  mmo_vmas_insert_tail o v := ret tt;
  mmo_vmas_remove v := ret tt;
  anon_create := λ t, let r := x_fresh (x_refs t) in
    Ret (Some r) (x_add r 1 (ExMm (x_refs t) (delete r (x_shadowed t))
      (x_bottom t) (x_pages t) (x_frames t) (x_pt t)));
  shadow_create := λ t, let r := x_fresh (x_refs t) in
    Ret (Some r) (x_add r 1 (ExMm (x_refs t) (delete r (x_shadowed t)) (delete r (x_bottom t))
      (x_pages t) (x_frames t) (x_pt t)));
  mmo_set_shadowed sh o := modify (λ t, x_add o (-1)
    (ExMm (x_refs t) (<[sh := o]> (x_shadowed t)) (x_bottom t) (x_pages t) (x_frames t) (x_pt t)));
  mmo_set_bottom_obj sh o := modify (λ t, x_add o (-1)
    (ExMm (x_refs t) (x_shadowed t) (<[sh := o]> (x_bottom t)) (x_pages t) (x_frames t) (x_pt t)));
  mmobj_bottom_obj o := get (λ t, match x_shadowed t !! o with
    | Some _ => default o (x_bottom t !! o) | None => o end);
  (** The object of a file has its number and is no shadow object. *)
  vn_mmap f v := λ t, Ret (0, Some f) (x_add f 1 (ExMm (x_refs t) (delete f (x_shadowed t))
    (x_bottom t) (x_pages t) (x_frames t) (x_pt t)));
  pf_read p off len := get (λ t, take (Z.to_nat len) (drop (Z.to_nat off) (x_frame t p)));
  pf_write p off bs := modify (x_write p off bs);
  pframe_dirty p := ret 0;
  tlb_flush_all := ret tt;
  pt_unmap_range lo hi := ret tt
|}.

Lemma x_add_owned o d t x :
  x_owned (x_add o d t) x = x_owned t x + if decide (x = o) then d else 0.
Proof.
  unfold x_add, x_owned at 1. simpl. rewrite lookup_insert.
  destruct (decide (o = x)), (decide (x = o)); try congruence; simpl; subst; unfold x_owned; lia.
Qed.

Lemma x_add_Some o t x :
  x_owned (x_add o 1 t) x = x_owned t x + if decide (Some o = Some x) then 1 else 0.
Proof.
  rewrite x_add_owned. destruct (decide (x = o)), (decide (Some o = Some x)); naive_solver.
Qed.

Lemma x_add_neg o t x :
  x_owned (x_add o (-1) t) x = x_owned t x - if decide (x = o) then 1 else 0.
Proof. rewrite x_add_owned. destruct (decide (x = o)); lia. Qed.

Lemma x_add_live o d t x : is_Some (x_refs (x_add o d t) !! x) ↔ is_Some (x_refs t !! x) ∨ Some o = Some x.
Proof. simpl. rewrite lookup_insert. case_decide; [subst; split; [by right|by eexists]|naive_solver]. Qed.

Lemma x_add_same o d t x :
  is_Some (x_refs t !! o) → is_Some (x_refs (x_add o d t) !! x) ↔ is_Some (x_refs t !! x).
Proof. intros Ho. rewrite x_add_live. naive_solver. Qed.

#[local] Instance ex_laws : MmLaws exmm.
Proof.
  refine {| owned := x_owned; live t o := is_Some (x_refs t !! o);
    shadowed t o := x_shadowed t !! o; bottom t o := x_bottom t !! o |}.
  - intros t o Hpos. unfold x_owned in Hpos. destruct (x_refs t !! o); [by eexists|done].
  - intros t o Hl. eexists _, _. split; [reflexivity|]. split; [intros; apply x_add_owned|].
    split; [intros; by apply x_add_same|done].
  - intros t o v _. by eexists _, _.
  - intros t v. by eexists _, _.
  - intros t. eexists _, _. split; [reflexivity|]. split; [intros; rewrite x_add_live; by left|].
    split; [|intros x; by rewrite x_add_Some].
    intros x [= <-]. simpl. rewrite lookup_insert_eq, lookup_delete_eq.
    split; [intros Hr; apply elem_of_dom in Hr; by apply (is_fresh (dom (x_refs t)))|].
    split; [by eexists|done].
  - intros t. eexists _, _. split; [reflexivity|]. split; [intros; by rewrite x_add_live|].
    split; [intros x; by rewrite x_add_Some|]. split.
    + intros x [= <-]. simpl. rewrite !lookup_delete_eq, lookup_insert_eq.
      split; [intros Hr; apply elem_of_dom in Hr; by apply (is_fresh (dom (x_refs t)))|].
      split; [by eexists|done].
    + intros x Hx. simpl. by rewrite !lookup_delete_ne by congruence.
  - intros t sh o _ Hl _. eexists _, _. split; [reflexivity|].
    split; [intros; by rewrite x_add_neg|]. split; [intros; by rewrite x_add_same|].
    split; [apply lookup_insert_eq|]. split; [|done]. intros x Hx. by apply lookup_insert_ne.
  - intros t sh o _ Hl _. eexists _, _. split; [reflexivity|].
    split; [intros; by rewrite x_add_neg|]. split; [intros; by rewrite x_add_same|].
    split; [apply lookup_insert_eq|]. split; [|done]. intros x Hx. by apply lookup_insert_ne.
  - intros t o b Hl Hb. simpl. unfold get. destruct (x_shadowed t !! o); [by rewrite Hb|by rewrite Hb].
  - intros t. by eexists _, _.
  - intros t lo hi. by eexists _, _.
Defined.

#[local] Instance ex_put_laws : MmPutLaws exmm.
Proof.
  refine {| mm_ok t := True |}; try done.
  intros t o _ _. eexists _, _. split; [reflexivity|]. split; [done|]. intros; apply x_add_neg.
Defined.

Lemma x_content_length t x : length (x_content t x) = 4096%nat.
Proof. unfold x_content. rewrite length_take, length_app, length_replicate. lia. Qed.

Lemma x_content_exact t x l :
  x_pages t !! x = Some l → length l = 4096%nat → x_content t x = l.
Proof.
  intros Hx Hl. unfold x_content. rewrite Hx. simpl. rewrite take_app_le by lia.
  apply take_ge. lia.
Qed.

Lemma x_write_spec t p x off bs :
  x_frames t !! p = Some x → (Z.to_nat off + length bs <= 4096)%nat →
  x_content (x_write p off bs t) x = take (Z.to_nat off) (x_content t x) ++ bs ++
    drop (Z.to_nat off + length bs) (x_content t x) ∧
  ∀ y, y ≠ x → x_content (x_write p off bs t) y = x_content t y.
Proof.
  intros Hp Hl. unfold x_write. rewrite Hp. split.
  - apply x_content_exact; [apply lookup_insert_eq|].
    rewrite !length_app, length_take, length_drop, x_content_length. lia.
  - intros y Hy. unfold x_content at 1. simpl. by rewrite lookup_insert_ne.
Qed.

#[local] Instance ex_pages : MmPages exmm.
Proof.
  refine {| content := x_content; available := λ _ _, True; alias := λ _ _ _, False;
    frame_of t p := x_content t <$> x_frames t !! p; backs t p x := x_frames t !! p = Some x |}.
  - intros t p x Hp. by rewrite Hp.
  - intros t x _. apply x_content_length.
  - intros t o pn _. eexists _, _. split; [reflexivity|]. exists 1%positive.
    split; [done|]. split; [simpl; by rewrite lookup_insert_eq|done].
  - intros t o pn _. eexists _, _. split; [reflexivity|]. exists 1%positive.
    split; [done|]. split; [apply lookup_insert_eq|done].
  - intros t p l off len Hl. eexists _, _. split; [reflexivity|]. split; [done|].
    unfold x_frame. destruct (x_frames t !! p); simpl in Hl; by simplify_eq.
  - intros t p x off bs Hp Hl. eexists _, _. split; [reflexivity|].
    destruct (x_write_spec t p x off bs) as [Hc Hy]; [done|exact Hl|].
    split; [exact Hc|]. split; [done|]. split; [intros y _ ? _; by apply Hy|].
    split; [|done]. simpl. unfold x_write. by rewrite Hp.
  - intros t p x _. by eexists _, _.
Defined.


#[local] Instance ex_slab : SlabOps exmm.
Proof.
  refine {| vmarea_slab s := Some (x_fresh (vmareas s)); vmmap_slab s := Some (x_fresh (vmmaps s));
    vma_uninit p := Vmarea 7 7 7 7 7 None None LNull LNull |};
  intros s p [= <-]; apply not_elem_of_dom, is_fresh.
Defined.

(** Map 1 of process 9: pages 2000-2009 of object 5 from its page 20 on, and pages
    3000-3004 of object 6. *)
Definition ex_area (st en off : Z) (o : positive) : vmarea :=
  Vmarea st en off 3 1 (Some 1%positive) (Some o) LIn LIn.
Definition ex_pl : list (positive * vmarea) :=
  [(1%positive, ex_area 2000 2010 20 5); (2%positive, ex_area 3000 3005 0 6)].
Definition ex_vm : vm exmm :=
  Vm (list_to_map ex_pl) {[1%positive := Vmmap [1%positive; 2%positive] (Some 9%positive)]}
     (ExMm {[5%positive := 1; 6%positive := 1]} ∅ ∅ {[(5%positive, 20) := [10; 11; 12]]} ∅ (ExPt ∅ ∅ ∅ 0 0 (ExKm ∅ ∅ ∅ ∅))).

Lemma ex_vm_wf : vmmap_wf ex_vm 1 (Some 9%positive) ex_pl.
Proof.
  split; [split; [reflexivity|repeat constructor]|split].
  - repeat constructor; vm_compute; congruence.
  - repeat constructor; vm_compute; congruence.
Qed.

Lemma ex_vm_objs : Forall (λ a, is_Some (vma_obj a)) ex_pl.*2.
Proof. repeat constructor; by eexists. Qed.

Lemma ex_vm_ok : mm_ok (mm ex_vm).
Proof. done. Qed.

Lemma ex_vm_owned o : obj_count o ex_pl.*2 <= owned (mm ex_vm) o.
Proof.
  destruct (decide (o = 5%positive)) as [->|H5]; [by vm_compute|].
  destruct (decide (o = 6%positive)) as [->|H6]; [by vm_compute|].
  unfold ex_pl. csimpl. rewrite !obj_count_cons. change (obj_count o []) with 0. simpl.
  rewrite !decide_False by congruence. unfold x_owned. simpl.
  by rewrite lookup_insert_ne, lookup_singleton_ne by done.
Qed.

Lemma ex_slab_some (s : vm exmm) : is_Some (vmarea_slab s).
Proof. by eexists. Qed.

Lemma ex_objs_available : @objs_available exmm ex_ops.
Proof. split; intros t r t' [= <- <-]; by eexists. Qed.

(** ** The theorems at work *)

Lemma vmmap_lookup_correct_witness :
  ∃ r, vmmap_lookup 1 3002 ex_vm = Ret r ex_vm ∧ r = Some 2%positive.
Proof.
  destruct (vmmap_lookup_correct ex_vm 1 (Some 9%positive) ex_pl 3002 ex_vm_wf) as (r & Hr & Hiff).
  exists r. split; [exact Hr|]. apply Hiff. exists (ex_area 3000 3005 0 6).
  split; [right; left|]; simpl; lia.
Defined.

Lemma vmmap_is_range_empty_correct_witness :
  ∃ b : bool, vmmap_is_range_empty 1 2005 10 ex_vm = Ret b ex_vm ∧ b = false.
Proof.
  destruct (vmmap_is_range_empty_correct ex_vm 1 (Some 9%positive) ex_pl 2005 10 ex_vm_wf)
    as (b & Hb & Hiff); [lia|by vm_compute|by vm_compute|].
  exists b. split; [exact Hb|]. destruct b; [|done].
  pose proof (proj1 Hiff eq_refl 2005 ltac:(lia)) as Hp. vm_compute in Hp. discriminate.
Defined.

Lemma vmmap_find_range_highest_witness :
  ∃ r, vmmap_find_range 1 10 VMMAP_DIR_HILO ex_vm = Ret r ex_vm ∧ r = 786422.
Proof.
  destruct (vmmap_find_range_highest ex_vm 1 (Some 9%positive) ex_pl 10 ex_vm_wf)
    as (r & Hr & _); [done|by vm_compute|].
  exists r. split; [exact Hr|]. vm_compute in Hr. congruence.
Defined.

Definition ex_new : vmarea := Vmarea 2500 2510 0 3 1 None (Some 5%positive) LSelf LSelf.
Definition ex_vm3 : vm exmm := set_area 3 ex_new ex_vm.

Lemma ex_vm3_wf : vmmap_wf ex_vm3 1 (Some 9%positive) ex_pl.
Proof. split; [split; [reflexivity|repeat constructor]|apply ex_vm_wf]. Qed.

Lemma vmmap_insert_maps_witness :
  returns (vmmap_insert 1 3) ex_vm3 (λ _ s', ∃ pl', vmmap_wf s' 1 (Some 9%positive) pl' ∧
    page_at pl'.*2 2505 = Some (Some 5%positive, 5, 3, 1)).
Proof.
  eapply returns_mono.
  - apply (vmmap_insert_maps ex_vm3 1 (Some 9%positive) ex_pl 3 ex_new);
      [apply ex_vm3_wf|reflexivity|reflexivity|by vm_compute|by vm_compute|by vm_compute
      |by vm_compute|].
    split; [by vm_compute|]. split; [by vm_compute|]. intros vfn Hv. simpl in Hv.
    apply page_at_None. intros a [->|[->|[]%elem_of_nil]%elem_of_cons]%elem_of_cons; simpl; lia.
  - intros [] s' (pl' & Hwf & _ & _ & Hp). exists pl'. split; [done|]. by rewrite Hp.
Defined.

Lemma vmmap_remove_unmaps_witness :
  returns (vmmap_remove 1 2003 4) ex_vm (λ r s', r = 0 ∧ ∃ pl', vmmap_wf s' 1 (Some 9%positive) pl' ∧
    page_at pl'.*2 2004 = None ∧ page_at pl'.*2 2008 = Some (Some 5%positive, 28, 3, 1)).
Proof.
  eapply returns_mono.
  - apply (vmmap_remove_unmaps ex_vm 1 (Some 9%positive) ex_pl 2003 4);
      [apply ex_vm_wf|lia|lia|by vm_compute|apply ex_vm_objs|done|apply ex_vm_owned
      |intros s' _; apply ex_slab_some].
  - intros r s' (Hr & pl' & Hwf & Hp & _). split; [done|]. exists pl'. split; [done|]. by rewrite !Hp.
Defined.

Lemma ex_mmap_gives f : mmap_gives f f.
Proof.
  intros v t. eexists _, _. split; [reflexivity|]. split; [done|]. simpl.
  split; [rewrite lookup_insert_eq; by eexists|].
  split; [unfold rooted; simpl; by rewrite lookup_delete_eq|].
  split; [intros x Hx; rewrite lookup_insert; by case_decide; [eexists|]|].
  intros x. apply (x_add_owned f 1 (ExMm (x_refs t) (delete f (x_shadowed t))
    (x_bottom t) (x_pages t) (x_frames t) (x_pt t))).
Qed.

(** A private mapping of file 6 over part of the mapping of object 5. *)
Lemma vmmap_map_maps_witness :
  returns (vmmap_map 1 (Some 6%positive) 2005 100 PROT_READ MAP_PRIVATE 4096 VMMAP_DIR_HILO true) ex_vm
    (λ r s', r.1 = 0 ∧ ∃ pl' o, vmmap_wf s' 1 (Some 9%positive) pl' ∧
      page_at pl'.*2 2010 = Some (Some o, 6, PROT_READ, MAP_PRIVATE) ∧
      shadowed (mm s') o = Some 6%positive ∧ new_obj ex_vm ex_pl 2005 100 o).
Proof.
  eapply returns_mono.
  - apply (vmmap_map_maps ex_vm 1 (Some 9%positive) ex_pl (Some (6%positive, 6%positive)) 100 PROT_READ
      MAP_PRIVATE 4096 VMMAP_DIR_HILO ex_vm_wf ex_vm_objs ex_vm_ok ex_vm_owned ex_slab_some
      ex_objs_available (ex_mmap_gives 6));
      [by vm_compute|by vm_compute|reflexivity|reflexivity|].
    right. by vm_compute.
  - intros r s' [(base & [Hr _] & (pl' & b & o & Hwf & -> & [Ho _] & Hn & Hp & _) & ->)|[? _]]; [|done].
    split; [done|]. exists pl', o. split; [done|]. split; [by rewrite Hp|].
    split; [exact Ho|by apply Hn].
Defined.

Lemma vmmap_clone_copies_witness :
  returns (vmmap_clone 1) ex_vm (λ r s', ∃ pl', vmmap_wf s' r (Some 9%positive) pl' ∧
    page_at pl'.*2 2004 = Some (None, 24, 3, 1)).
Proof.
  eapply returns_mono.
  - apply (vmmap_clone_copies ex_vm 1 (Some 9%positive) ex_pl (x_fresh (vmmaps ex_vm)));
      [apply ex_vm_wf|reflexivity|apply ex_slab_some].
  - intros r s' (-> & _ & pl' & Hwf & _ & _ & Hp). exists pl'. split; [done|]. by rewrite Hp.
Defined.

Lemma vmmap_destroy_releases_witness :
  returns (vmmap_destroy 1) ex_vm (λ _ s', vmmaps s' !! 1%positive = None ∧
    owned (mm s') 5 = 0 ∧ is_Some (vmareas s' !! 1%positive)).
Proof.
  eapply returns_mono.
  - apply (vmmap_destroy_releases ex_vm 1 (Some 9%positive) ex_pl); [apply ex_vm_wf|done|apply ex_vm_owned].
  - intros [] s' (Hm & _ & Ho & _ & _ & Hd). split; [done|]. split; [by rewrite Ho|].
    apply elem_of_dom. rewrite Hd. by vm_compute.
Defined.

(** Addresses around the end of page 2000. *)
Lemma ex_obj_page addr :
  2000 * 4096 <= addr < 2010 * 4096 → obj_page ex_pl.*2 addr = Some (5%positive, addr / 4096 - 1980).
Proof.
  intros Ha. unfold obj_page.
  assert (2000 <= addr / 4096 < 2010) as Hd.
  { split; [apply Z.div_le_lower_bound|apply Z.div_lt_upper_bound]; lia. }
  erewrite (page_at_in 1 _ (ex_area 2000 2010 20 5)); [| apply ex_vm_wf | |].
  - simpl. do 2 f_equal. rewrite u32_add_l, u32_small by (unfold U32; lia). lia.
  - apply elem_of_cons. by left.
  - exact Hd.
Qed.

Lemma ex_mapped lo n :
  2000 * 4096 <= lo → lo + n <= 2010 * 4096 → mapped (mm ex_vm) ex_pl.*2 lo n.
Proof. intros Hl Hh addr Ha. eexists. split; [apply ex_obj_page; lia|done]. Qed.

Lemma vmmap_read_bytes_witness :
  returns (vmmap_read 1 (2000 * 4096 + 1) 5000) ex_vm (λ r _, r.1 = 0 ∧ r.2 !! 1%nat = Some 12).
Proof.
  eapply returns_mono.
  - apply (vmmap_read_bytes ex_vm 1 (Some 9%positive) ex_pl (2000 * 4096 + 1) 5000 ex_vm_wf);
      [lia|lia|unfold U32; lia|apply ex_mapped; lia].
  - intros r s' (Hr & _ & Hb & _). split; [done|]. rewrite Hb by lia. by vm_compute.
Defined.

Lemma vmmap_write_read_witness :
  returns (vmmap_write 1 (2001 * 4096 - 2) [1; 2; 3; 4; 5] 5) ex_vm (λ r s', r = 0 ∧
    returns (vmmap_read 1 (2001 * 4096 - 2) 5) s' (λ r' _, r' = (0, [1; 2; 3; 4; 5]))).
Proof.
  eapply returns_mono.
  - apply (vmmap_write_read ex_vm 1 (Some 9%positive) ex_pl (2001 * 4096 - 2) [1; 2; 3; 4; 5] ex_vm_wf);
      [lia|unfold U32; simpl; lia|apply ex_mapped; simpl; lia|].
    simpl. intros addr Ha addr' Ha' Hne x y. rewrite !ex_obj_page by lia. intros [= <-] [= <-].
    split; [|by intros []]. simpl in Hne. intros [= Heq]. apply Hne. lia.
  - by intros r s' (Hr & Hrd & _).
Defined.
