(* ===== verification/VmCalls.v ===== *)
(** * Calls on the address space of the current process: vm/brk.c, vm/mmap.c,
      vm/pagefault.c and api/access.c

    The memory of a process as its system calls and page faults change it, on top
    of vmmap.c.  Open files, page tables and process exit are the interface
    [VmCallOps]. *)
From S2P Require Import Prelude Headers Vmmap.
Local Open Scope kernel_scope.

(** vm/pagefault.h and mm/pagetable.h *)
Class FaultH := {
  FAULT_WRITE : Z; FAULT_EXEC : Z;
  PD_PRESENT : Z; PD_WRITE : Z; PD_USER : Z;
  PT_PRESENT : Z; PT_WRITE : Z; PT_USER : Z
}.
Definition fault_ex : FaultH :=
  {| FAULT_WRITE := 2; FAULT_EXEC := 16; PD_PRESENT := 1; PD_WRITE := 2; PD_USER := 4;
     PT_PRESENT := 1; PT_WRITE := 2; PT_USER := 4 |}.

(** The address spaces and the fields of [curproc] that the calls use. *)
Record vmproc (S : Type) := Vmproc {
  vms : vm S;
  p_vmmap : option positive;
  p_pagedir : option positive;
  p_start_brk : Z;
  p_brk : Z
}.
Arguments Vmproc {S} vms p_vmmap p_pagedir p_start_brk p_brk.
Arguments vms {S} _.
Arguments p_vmmap {S} _.
Arguments p_pagedir {S} _.
Arguments p_start_brk {S} _.
Arguments p_brk {S} _.

Class VmCallOps (S : Type) := {
  fget : Z → M S (option positive);
  fput : positive → M S unit;
  f_vnode : S → positive → option positive;
  f_mode : S → positive → Z;
  (** [do_exit] of proc.c: it does not return. *)
  do_exit : Z → M S unit;
  pf_addr : S → positive → option Z;
  pframe_pin : positive → M S unit;
  pframe_unpin : positive → M S unit;
  pt_virt_to_phys : Z → M S Z;
  (** [pt_map(pagedir, vaddr, paddr, pdflags, ptflags)] *)
  pt_map : option positive → Z → Z → Z → Z → M S Z;
  tlb_flush : Z → M S unit;
  kmalloc : Z → M S (option positive);
  (** [kfree] takes [NULL] too. *)
  kfree : option positive → M S unit;
  (** The pointers that happen to be in the memory [kmalloc] returns. *)
  kmalloc_ptrs : S → positive → nat → option positive;
  (** [curthr->kt_errno] and [curthr->kt_errno = e] *)
  kt_errno : S → Z;
  set_errno : Z → M S unit
}.

(** api/syscall.h: the layout of an array of [argstr_t] in memory. *)
Class ArgH := {
  sizeof_argstr : Z;
  sizeof_ptr : Z;
  (** [as_str] and [as_len] of an entry of the array *)
  argstr_at : list Z → nat → Z * Z
}.
(** Two words of 4 bytes, the least significant byte first. *)
Definition word_at (l : list Z) (i : nat) : Z :=
  foldr (λ b acc, b + 256 * acc) 0 (take 4 (drop i l)).
Definition arg_ex : ArgH :=
  {| sizeof_argstr := 8; sizeof_ptr := 4;
     argstr_at l i := (word_at l (8 * i), word_at l (8 * i + 4)) |}.

Section calls.
Context `{HE : ErrnoH, HP : PageH, HM : MmanH, HF : FcntlH, HU : FaultH, HA : ArgH}.
Context {S : Type} `{HO : !MmOps S, HS : !SlabOps S, HC : !VmCallOps S}.
Local Abbreviation V := (vmproc S).

Definition on_vm {A} (m : M (vm S) A) : M V A :=
  zoom vms (λ x s, Vmproc x (p_vmmap s) (p_pagedir s) (p_start_brk s) (p_brk s)) m.
Definition on_sys {A} (m : M S A) : M V A := on_vm (on_mm m).
Definition sys (s : V) : S := mm (vms s).
Definition cur_map : M V positive := λ s, deref (p_vmmap s) s.
Definition set_brk (v : Z) : M V unit :=
  modify (λ s, Vmproc (vms s) (p_vmmap s) (p_pagedir s) (p_start_brk s) v).

(** ** api/access.c *)

Definition addr_perm (vaddr perm : Z) : M V bool :=
  map <- cur_map ;;
  vma <- on_vm (vmmap_lookup map (ADDR_TO_PN vaddr)) ;;
  match vma with
  | None => ret false
  | Some vma => a <- on_vm (vma_get vma) ;; ret (Z.land (vma_prot a) perm =? perm)
  end.

(** [for (pn = start_pn; pn <= end_pn; ++pn)], [n] turns from [pn] on. *)
Fixpoint range_perm_loop (n : nat) (pn perm : Z) : M V bool :=
  match n with
  | O => ret true
  | Datatypes.S n =>
      b <- addr_perm (PN_TO_ADDR pn) perm ;;
      if (b : bool) then range_perm_loop n (pn + 1) perm else ret false
  end.

Definition range_perm (avaddr len perm : Z) : M V bool :=
  let start_pn := ADDR_TO_PN avaddr in
  let end_pn := ADDR_TO_PN (u32 (avaddr + len)) in
  range_perm_loop (Z.to_nat (end_pn - start_pn + 1)) start_pn perm.

(** The result and the bytes stored at [kaddr]. *)
Definition copy_from_user (uaddr nbytes : Z) : M V (Z * list Z) :=
  b <- range_perm uaddr nbytes PROT_READ ;;
  if negb b then ret (- EFAULT, [])
  else map <- cur_map ;; on_vm (vmmap_read map uaddr nbytes).

Definition copy_to_user (uaddr : Z) (kbuf : list Z) (nbytes : Z) : M V Z :=
  b <- range_perm uaddr nbytes PROT_WRITE ;;
  if negb b then ret (- EFAULT)
  else map <- cur_map ;; on_vm (vmmap_write map uaddr kbuf nbytes).

(** An [argstr_t]: address and length.  The result is the kernel memory and the bytes
    in it. *)
Definition user_strdup (as_str as_len : Z) : M V (option (positive * list Z)) :=
  kstr <- on_sys (kmalloc (u32 (as_len + 1))) ;;
  match kstr with
  | None => on_sys (set_errno ENOMEM) ;;; ret None
  | Some kstr =>
      ' (r, bytes) <- copy_from_user as_str (u32 (as_len + 1)) ;;
      if r <? 0 then on_sys (set_errno (- r)) ;;; on_sys (kfree (Some kstr)) ;;; ret None
      else ret (Some (kstr, bytes))
  end.

(** The array [kvec]: a pointer and the bytes it points to for each entry.  Looking
    past its end is looking at memory that is not the array's. *)
Local Abbreviation kvec_t := (list (option (positive * list Z))).

(** [for (i = 0; kvec[i] != NULL; i++) kfree(kvec[i])] *)
Fixpoint vecdup_free (kvec : kvec_t) : M V unit :=
  match kvec with
  | [] => panic
  | None :: _ => ret tt
  | Some (p, _) :: rest => on_sys (kfree (Some p)) ;;; vecdup_free rest
  end.

(** The code at the label [fail]. *)
Definition vecdup_fail (r : Z) (temp : option positive) (kvec : option (positive * kvec_t))
    : M V (option (positive * kvec_t)) :=
  match kvec with
  | Some (p, arr) => vecdup_free arr ;;; on_sys (kfree (Some p))
  | None => ret tt
  end ;;;
  on_sys (kfree temp) ;;;
  on_sys (set_errno (- r)) ;;;
  ret None.

(** The loop over the strings, [n] of them from entry [i] on: [inl ret] on
    [goto fail], with the array as it is then. *)
Fixpoint vecdup_strs (n i : nat) (temp : list Z) (kvec : kvec_t) : M V ((Z + unit) * kvec_t) :=
  match n with
  | O => ret (inr tt, kvec)
  | Datatypes.S n =>
      let '(as_str, as_len) := argstr_at temp i in
      k <- user_strdup as_str as_len ;;
      let kvec := <[i := k]> kvec in
      if bool_decide (k = None) then
        e <- get (λ s, kt_errno (sys s)) ;; ret (inl (- e), kvec)
      else vecdup_strs n (Datatypes.S i) temp kvec
  end.

(** An [argvec_t]: address and length. *)
Definition user_vecdup (av_vec av_len : Z) : M V (option (positive * kvec_t)) :=
  let n := u32 (av_len + 1) in
  temp <- on_sys (kmalloc (u32 (n * sizeof_argstr))) ;;
  match temp with
  | None => vecdup_fail (- ENOMEM) None None
  | Some temp =>
      kvec <- on_sys (kmalloc (u32 (n * sizeof_ptr))) ;;
      match kvec with
      | None => vecdup_fail (- ENOMEM) (Some temp) None
      | Some kvec =>
          arr <- get (λ s, (λ i, (λ p, (p, [])) <$> kmalloc_ptrs (sys s) kvec i) <$>
                             seq 0 (Z.to_nat n)) ;;
          ' (r, bytes) <- copy_from_user av_vec (u32 (n * sizeof_argstr)) ;;
          if r <? 0 then vecdup_fail r (Some temp) (Some (kvec, arr))
          else
            ' (r, arr) <- vecdup_strs (Z.to_nat av_len) 0 bytes arr ;;
            match r with
            | inl r => vecdup_fail r (Some temp) (Some (kvec, arr))
            | inr _ =>
                on_sys (kfree (Some temp)) ;;;
                ret (Some (kvec, <[Z.to_nat av_len := None]> arr))
            end
      end
  end.

(** ** vm/brk.c *)

Definition validate_brk_addr (addr : Z) : M V Z :=
  start <- get p_start_brk ;;
  if (addr <? start) || (addr >? USER_MEM_HIGH) then ret (- ENOMEM) else ret 0.

Definition expand_brk (vma : positive) (prev_end cur_end npages : Z) : M V Z :=
  map <- cur_map ;;
  e <- on_vm (vmmap_is_range_empty map prev_end npages) ;;
  if negb e then ret (- ENOMEM)
  else on_vm (vma_upd vma (set_vma_end cur_end)) ;;; ret 0.

(** The result and what is stored in [*ret]. *)
Definition do_brk (addr : Z) : M V (Z * option Z) :=
  if addr =? 0 then b <- get p_brk ;; ret (0, Some b)
  else
    err <- validate_brk_addr addr ;;
    if err <? 0 then ret (err, None)
    else
      map <- cur_map ;;
      start <- get p_start_brk ;;
      vma <- on_vm (vmmap_lookup map (ADDR_TO_PN start)) ;;
      vma <- deref vma ;;
      a <- on_vm (vma_get vma) ;;
      let prev_end := vma_end a in
      let cur_end := ADDR_TO_PN (PAGE_ALIGN_UP addr) in
      let num_pages := u32 (cur_end - prev_end) in
      err <- (if prev_end <? cur_end then expand_brk vma prev_end cur_end num_pages
              else if prev_end >? cur_end then
                _ <- on_vm (vmmap_remove map cur_end (u32 (- num_pages))) ;; ret 0
              else ret 0) ;;
      if err <? 0 then ret (err, None)
      else set_brk addr ;;; ret (0, Some addr).

(** ** vm/mmap.c *)

Definition validate_mmap_args (addr len prot flags off : Z) : Z :=
  if negb (PAGE_ALIGNED off) then - EINVAL
  else if len =? 0 then - EINVAL
  else if has flags MAP_FIXED && (addr =? 0) then - EINVAL
  else if negb (addr =? 0) && negb (PAGE_ALIGNED addr) then - EINVAL
  else if u32 (addr + len) >? USER_MEM_HIGH then - EINVAL
  else if negb (has flags MAP_PRIVATE) && negb (has flags MAP_SHARED) then - EINVAL
  else 0.

(** The result and what is stored in [*file] and [*vn]. *)
Definition handle_file_related_tasks (fd flags prot : Z)
    : M V (Z * option positive * option positive) :=
  if negb (has flags MAP_ANON) then
    file <- (if fd =? -1 then ret None else on_sys (fget fd)) ;;
    match file with
    | None => ret (- EBADF, None, None)
    | Some f =>
        vn <- get (λ s, f_vnode (sys s) f) ;;
        mode <- get (λ s, f_mode (sys s) f) ;;
        if negb (has mode FMODE_WRITE) && has prot PROT_WRITE && negb (has flags MAP_PRIVATE)
        then on_sys (fput f) ;;; ret (- EACCES, Some f, vn)
        else ret (0, Some f, vn)
    end
  else ret (0, None, None).

(** [do_mmap] after the call of [vmmap_map], which returned [err] and set [new]. *)
Definition mmap_finish (file : option positive) (err : Z) (new : option positive)
    : M V (Z * option Z) :=
  if (err <? 0) && bool_decide (file = None) then ret (err, None)
  else
    match file with Some f => on_sys (fput f) | None => ret tt end ;;;
    new <- deref new ;;
    a <- on_vm (vma_get new) ;;
    on_sys tlb_flush_all ;;;
    pd <- get p_pagedir ;;
    kassert (bool_decide (pd ≠ None)) ;;;
    ret (0, Some (PN_TO_ADDR (vma_start a))).

(** The result and what is stored in [*ret].  The results of the two checks are
    not used. *)
Definition do_mmap (addr len prot flags fd off : Z) : M V (Z * option Z) :=
  let err := validate_mmap_args addr len prot flags off in
  let lopage := if addr =? 0 then 0 else ADDR_TO_PN addr in
  ' (err, file, vn) <- handle_file_related_tasks fd flags prot ;;
  let npages := len / PAGE_SIZE + (if len mod PAGE_SIZE =? 0 then 0 else 1) in
  map <- cur_map ;;
  ' (err, new) <- on_vm (vmmap_map map vn lopage npages prot flags off VMMAP_DIR_HILO true) ;;
  mmap_finish file err new.

Definition validate_munmap_args (addr len : Z) : Z :=
  if negb (PAGE_ALIGNED addr) then - EINVAL
  else if u32 (addr + len) >? USER_MEM_HIGH then - EINVAL
  else if u32 (addr + len) <? USER_MEM_LOW then - EINVAL
  else 0.

Definition do_munmap (addr len : Z) : M V Z :=
  let err := validate_munmap_args addr len in
  if err <? 0 then ret err
  else
    let num_pages :=
      if len mod PAGE_SIZE =? 0 then len / PAGE_SIZE else len / PAGE_SIZE + 1 in
    map <- cur_map ;;
    _ <- on_vm (vmmap_remove map (ADDR_TO_PN addr) num_pages) ;;
    on_sys tlb_flush_all ;;;
    ret 0.

(** ** vm/pagefault.c *)

(** The test of the protection against the cause of the fault. *)
Definition fault_forbidden (cause prot : Z) : bool :=
  (has cause FAULT_WRITE && negb (has prot PROT_WRITE)) ||
  (negb (has cause FAULT_WRITE || has cause FAULT_EXEC) && negb (has prot PROT_READ)) ||
  (has cause FAULT_EXEC && negb (has prot PROT_EXEC)).

Definition pframe_lookup (o : option positive) (pagenum : Z) (forwrite : bool)
    : M V (Z * option positive) :=
  o <- deref o ;; on_sys (mmo_lookuppage o pagenum forwrite).

Definition handle_pagefault (vaddr cause : Z) : M V unit :=
  map <- cur_map ;;
  vma <- on_vm (vmmap_lookup map (ADDR_TO_PN vaddr)) ;;
  (if bool_decide (vma = None) then on_sys (do_exit EFAULT) else ret tt) ;;;
  vma <- deref vma ;;
  a <- on_vm (vma_get vma) ;;
  (if fault_forbidden cause (vma_prot a) then on_sys (do_exit EFAULT) else ret tt) ;;;
  let access_is_write := has cause FAULT_WRITE in
  a <- on_vm (vma_get vma) ;;
  ' (r, pf) <- pframe_lookup (vma_obj a)
                 (u32 (u32 (ADDR_TO_PN vaddr - vma_start a) + vma_off a)) access_is_write ;;
  (if r <? 0 then on_sys (do_exit EFAULT) else ret tt) ;;;
  pf <- deref pf ;;
  pa <- get (λ s, pf_addr (sys s) pf) ;;
  addr <- deref pa ;;
  (if access_is_write then
     on_sys (pframe_pin pf) ;;;
     _ <- on_sys (pframe_dirty pf) ;;
     on_sys (pframe_unpin pf)
   else ret tt) ;;;
  paddr <- on_sys (pt_virt_to_phys addr) ;;
  pd <- get p_pagedir ;;
  _ <- on_sys (pt_map pd (PAGE_ALIGN_DOWN vaddr) paddr
         (Z.lor (Z.lor PD_PRESENT PD_USER) (if access_is_write then PD_WRITE else 0))
         (Z.lor (Z.lor PT_PRESENT PT_USER) (if access_is_write then PT_WRITE else 0))) ;;
  on_sys (tlb_flush (PAGE_ALIGN_DOWN vaddr)).
End calls.
