(* ===== verification/VmCallsProps.v ===== *)
(** * Properties of the calls on an address space

    Permission checks and copies between user and kernel memory, unmapping, moving
    the break, and page faults, against the page-by-page view of the address space. *)
From S2P Require Import Prelude Headers Vmmap VmmapProps VmmapChange VmmapBytes VmCalls.
Local Open Scope kernel_scope.

Section props.
Context `{HE : ErrnoH, HP : PageH, HM : MmanH, HF : FcntlH, HU : FaultH, HA : ArgH}.
Context {S : Type} `{HO : !MmOps S, HS : !SlabOps S, HC : !VmCallOps S}.
Implicit Types (s : vmproc S) (pl : list (positive * vmarea)).

Definition with_vms (x : vm S) s : vmproc S :=
  Vmproc x (p_vmmap s) (p_pagedir s) (p_start_brk s) (p_brk s).

Lemma on_vm_eq {A} (m : M (vm S) A) s a x :
  m (vms s) = Ret a x → on_vm m s = Ret a (with_vms x s).
Proof. unfold on_vm, zoom. by intros ->. Qed.

Lemma on_vm_same {A} (m : M (vm S) A) s a : m (vms s) = Ret a (vms s) → on_vm m s = Ret a s.
Proof. intros Hm. erewrite on_vm_eq by done. by destruct s. Qed.

Lemma cur_map_eq s map : p_vmmap s = Some map → cur_map s = Ret map s.
Proof. unfold cur_map. by intros ->. Qed.

(** ** Permissions *)

(** The page is mapped with at least the protection [perm]. *)
Definition allowed (al : list vmarea) (pn perm : Z) : Prop :=
  ∃ o i prot fl, page_at al pn = Some (o, i, prot, fl) ∧ Z.land prot perm = perm.

Lemma addr_perm_eq s map pr pl vaddr perm :
  in_map (vms s) map pr pl → p_vmmap s = Some map →
  ∃ b : bool, addr_perm vaddr perm s = Ret b s ∧
    (b = true ↔ allowed pl.*2 (ADDR_TO_PN vaddr) perm).
Proof.
  intros Hin Hm. unfold addr_perm. rewrite (bind_Ret _ _ _ _ _ (cur_map_eq s map Hm)).
  pose proof (lookup_page_at _ _ _ _ (ADDR_TO_PN vaddr) Hin) as Hl. unfold allowed.
  destruct (page_at pl.*2 (ADDR_TO_PN vaddr)) as [pg|].
  - destruct Hl as (p & a & Hl & Ha & _ & _ & ->).
    rewrite (bind_Ret _ _ _ _ _ (on_vm_same _ _ _ Hl)).
    rewrite (bind_Ret _ _ _ a s) by (apply on_vm_same; by apply vma_get_eq).
    eexists. split; [done|]. rewrite Z.eqb_eq. unfold a_page. naive_solver.
  - rewrite (bind_Ret _ _ _ _ _ (on_vm_same _ _ _ Hl)).
    exists false. split; [done|]. naive_solver.
Qed.

Lemma range_perm_loop_eq s map pr pl perm n : ∀ pn,
  in_map (vms s) map pr pl → p_vmmap s = Some map →
  0 <= pn → pn + Z.of_nat n <= 2 ^ (32 - PAGE_SHIFT) →
  ∃ b : bool, range_perm_loop n pn perm s = Ret b s ∧
    (b = true ↔ ∀ i, pn <= i < pn + Z.of_nat n → allowed pl.*2 i perm).
Proof.
  induction n as [|n IH]; intros pn Hin Hm Hpn Hn.
  - exists true. split; [done|]. split; [intros _ i Hi; lia|done].
  - destruct (addr_perm_eq s map pr pl (PN_TO_ADDR pn) perm Hin Hm) as (b & Hb & Hbi).
    rewrite pn_addr_pn in Hbi by lia. simpl. rewrite (bind_Ret _ _ _ _ _ Hb).
    destruct b.
    + destruct (IH (pn + 1) Hin Hm) as (b' & Hb' & Hbi'); [lia|lia|].
      exists b'. split; [done|]. rewrite Hbi'. split.
      * intros Hall i Hi. destruct (decide (i = pn)) as [->|]; [by apply Hbi|apply Hall; lia].
      * intros Hall i Hi. apply Hall. lia.
    + exists false. split; [done|]. split; [done|]. intros Hall. apply Hbi, Hall. lia.
Qed.

(** What [range_perm] checks: the pages from that of the first address to that of the
    address after the last, computed with 32-bit overflow. *)
Definition range_allowed (al : list vmarea) (avaddr len perm : Z) : Prop :=
  ∀ pn, ADDR_TO_PN avaddr <= pn <= ADDR_TO_PN (u32 (avaddr + len)) → allowed al pn perm.

Lemma range_perm_eq s map pr pl avaddr len perm :
  in_map (vms s) map pr pl → p_vmmap s = Some map → 0 <= avaddr < U32 →
  ∃ b : bool, range_perm avaddr len perm s = Ret b s ∧
    (b = true ↔ range_allowed pl.*2 avaddr len perm).
Proof.
  intros Hin Hm Ha. unfold range_perm, range_allowed.
  pose proof (addr_to_pn_bound avaddr Ha) as Hs.
  pose proof (addr_to_pn_bound (u32 (avaddr + len)) (u32_range _)) as Hend.
  set (a := ADDR_TO_PN avaddr) in *. set (e := ADDR_TO_PN (u32 (avaddr + len))) in *.
  destruct (Z.le_gt_cases a e).
  - destruct (range_perm_loop_eq s map pr pl perm (Z.to_nat (e - a + 1)) a Hin Hm)
      as (b & Hb & Hbi); [lia|lia|].
    exists b. split; [done|]. rewrite Hbi. split; intros Hall i Hi; apply Hall; lia.
  - replace (Z.to_nat (e - a + 1)) with O by lia. exists true. split; [done|].
    split; [intros _ i Hi; lia|done].
Qed.

(** ** Copies from user memory *)

Lemma copy_from_user_denied s map pr pl uaddr n :
  in_map (vms s) map pr pl → p_vmmap s = Some map → 0 <= uaddr < U32 →
  ¬ range_allowed pl.*2 uaddr n PROT_READ → copy_from_user uaddr n s = Ret (- EFAULT, []) s.
Proof.
  intros Hin Hm Hu Hno.
  destruct (range_perm_eq s map pr pl uaddr n PROT_READ) as (b & Hb & Hiff); try done.
  unfold copy_from_user. rewrite (bind_Ret _ _ _ _ _ Hb). destruct b; [|done].
  destruct Hno. by apply Hiff.
Qed.

Lemma copy_from_user_granted s map pr pl uaddr n :
  in_map (vms s) map pr pl → p_vmmap s = Some map → 0 <= uaddr < U32 →
  range_allowed pl.*2 uaddr n PROT_READ →
  copy_from_user uaddr n s = on_vm (vmmap_read map uaddr n) s.
Proof.
  intros Hin Hm Hu Hyes.
  destruct (range_perm_eq s map pr pl uaddr n PROT_READ) as (b & Hb & Hiff); try done.
  unfold copy_from_user. rewrite (bind_Ret _ _ _ _ _ Hb). rewrite (proj2 Hiff Hyes). simpl.
  by rewrite (bind_Ret _ _ _ _ _ (cur_map_eq s map Hm)).
Qed.

(** The pages of the object pages of a range can be had. *)
Definition pages_available `{!MmPages S} (t : S) (al : list vmarea) : Prop :=
  ∀ pn o i prot fl, page_at al pn = Some (o, i, prot, fl) → ∃ x, o = Some x ∧ available t (x, i).

Lemma range_allowed_mapped `{!MmPages S} (t : S) al uaddr n perm :
  pages_available t al → 0 <= n → 0 <= uaddr → uaddr + n < U32 →
  range_allowed al uaddr n perm → mapped t al uaddr n.
Proof.
  intros Hav Hn Hu Hend Hr addr Ha. unfold range_allowed in Hr.
  rewrite (u32_small (uaddr + n)) in Hr by lia.
  destruct (Hr (ADDR_TO_PN addr)) as (o & i & prot & fl & Hp & _).
  { split; apply addr_to_pn_mono; lia. }
  destruct (Hav _ _ _ _ _ Hp) as (x & -> & Hx). exists (x, i). split; [|done].
  unfold obj_page. by rewrite Hp.
Qed.

(** The bytes of user memory from [uaddr] on. *)
Definition user_bytes `{!MmPages S} (t : S) (al : list vmarea) (uaddr n : Z) (bs : list Z) : Prop :=
  Z.of_nat (length bs) = n ∧
  ∀ i : nat, Z.of_nat i < n → bs !! i = byte_at t al (uaddr + Z.of_nat i).

Lemma copy_from_user_spec `{!MmPages S} s map pr pl uaddr n :
  in_map (vms s) map pr pl → p_vmmap s = Some map → pages_available (sys s) pl.*2 →
  0 <= uaddr → 0 <= n → uaddr + n < U32 → range_allowed pl.*2 uaddr n PROT_READ →
  returns (copy_from_user uaddr n) s (λ r s', ∃ x, r.1 = 0 ∧ user_bytes (sys s) pl.*2 uaddr n r.2 ∧
    s' = with_vms x s ∧ vmareas x = vmareas (vms s) ∧ vmmaps x = vmmaps (vms s) ∧
    pages_kept (sys s) (mm x)).
Proof.
  intros Hin Hm Hav Hu Hn Hend Hr. unfold returns.
  rewrite (copy_from_user_granted s map pr pl); [|done|done|lia|done].
  destruct (vmmap_read_spec (vms s) map pr pl uaddr n) as (r & x & Hrd & Hz & Hl & Hb & Hrest); try done.
  { by eapply range_allowed_mapped. }
  exists r, (with_vms x s). split; [by apply on_vm_eq|]. by exists x.
Qed.

(** C14: With the current process in a well-formed address space, [copy_from_user] of a
    range [uaddr, uaddr + n] that does not wrap around the top of the address space
    returns [-EFAULT] and changes nothing if some page from that of [uaddr] to that of
    [uaddr + n], the address after the last byte included, is not mapped readable;
    otherwise it returns 0 with exactly the [n] bytes from [uaddr] on, and no map, area
    or page content changes.  (A range that wraps is not checked, see
    [copy_wraps_unchecked].) *)
Theorem copy_from_user_checks `{!MmPages S} s map pr pl uaddr n :
  vmmap_wf (vms s) map pr pl → p_vmmap s = Some map → pages_available (sys s) pl.*2 →
  0 <= uaddr → 0 <= n → uaddr + n < U32 →
  let readable := ∀ pn, ADDR_TO_PN uaddr <= pn <= ADDR_TO_PN (uaddr + n) →
                    allowed pl.*2 pn PROT_READ in
  returns (copy_from_user uaddr n) s (λ r s',
    (r = (- EFAULT, []) ∧ s' = s ∧ ¬ readable) ∨
    (r.1 = 0 ∧ readable ∧ Z.of_nat (length r.2) = n ∧
     (∀ i : nat, Z.of_nat i < n → r.2 !! i = byte_at (sys s) pl.*2 (uaddr + Z.of_nat i)) ∧
     vmareas (vms s') = vmareas (vms s) ∧ vmmaps (vms s') = vmmaps (vms s) ∧
     pages_kept (sys s) (sys s'))).
Proof.
  intros [Hin _] Hm Hav Hu Hn Hend readable.
  assert (range_allowed pl.*2 uaddr n PROT_READ ↔ readable) as Hra.
  { unfold range_allowed, readable. by rewrite u32_small by lia. }
  destruct (range_perm_eq s map pr pl uaddr n PROT_READ) as (b & _ & Hiff); [done|done|lia|].
  unfold returns. destruct b.
  - assert (readable) as Hr by (by apply Hra, Hiff).
    destruct (copy_from_user_spec s map pr pl uaddr n)
      as (r & s' & Hrd & x & Hz & [Hl Hb] & -> & Hx); try done; [by apply Hra|].
    exists r, (with_vms x s). split; [done|]. right. split; [done|]. naive_solver.
  - rewrite (copy_from_user_denied s map pr pl); [|done|done|lia|by rewrite <- Hiff].
    eexists _, _. split; [done|]. left. do 2 (split; [done|]). by rewrite <- Hra, <- Hiff.
Qed.

(** When the end of the range wraps around the 32-bit address space to a page
    below the first, [copy_from_user] and [copy_to_user] check no page at all and
    report success: they return 0 without copying a byte, whatever is mapped. *)
Theorem copy_wraps_unchecked s map pr pl uaddr n kbuf :
  in_map (vms s) map pr pl → p_vmmap s = Some map → 0 <= uaddr < U32 →
  U32 <= uaddr + n < 2 * U32 → ADDR_TO_PN (uaddr + n - U32) < ADDR_TO_PN uaddr →
  copy_from_user uaddr n s = Ret (0, []) s ∧ copy_to_user uaddr kbuf n s = Ret 0 s.
Proof.
  intros Hin Hm Hu Hend Hpn.
  assert (u32 (uaddr + n) = uaddr + n - U32) as Hw.
  { unfold u32. rewrite <- (Z_mod_plus_full _ (-1)). rewrite Z.mod_small by lia. lia. }
  assert (uaddr + n - U32 < uaddr) as Hlt.
  { destruct (Z.lt_ge_cases (uaddr + n - U32) uaddr) as [|Hge]; [done|].
    pose proof (addr_to_pn_mono _ _ Hge). lia. }
  assert (∀ perm, range_perm uaddr n perm s = Ret true s) as Hp.
  { intros perm. unfold range_perm. rewrite Hw.
    by replace (Z.to_nat (_ - _ + 1)) with O by lia. }
  unfold copy_from_user, copy_to_user. rewrite !(bind_Ret _ _ _ _ _ (Hp _)). simpl.
  rewrite !(bind_Ret _ _ _ _ _ (cur_map_eq s map Hm)).
  split; apply on_vm_same; unfold vmmap_read, vmmap_write; rewrite Hw;
    destruct (Z.to_nat n); simpl; rewrite Z.gtb_ltb;
    by rewrite (proj2 (Z.ltb_ge _ _)) by lia.
Qed.
End props.
