(* ===== verification/VmCallsMap.v ===== *)
(** * Properties of the calls that change an address space: mmap, munmap and brk *)
From S2P Require Import Prelude Headers Vmmap VmmapProps VmmapChange VmmapBytes VmCalls VmCallsProps.
Local Open Scope kernel_scope.

Section map_calls.
Context `{HE : ErrnoH, HP : PageH, HM : MmanH, HF : FcntlH, HU : FaultH}.
Context {S : Type} `{HO : !MmOps S, HL : !MmLaws S, HQ : !MmPutLaws S, HS : !SlabOps S, HC : !VmCallOps S}.
Implicit Types (s : vmproc S) (pl : list (positive * vmarea)).

(** The process is in the address space [map], which holds the areas [pl]: every
    area has an object and a reference to it. *)
Record vmproc_wf s map pr pl : Prop := VmprocWf {
  vw_wf : vmmap_wf (vms s) map pr pl;
  vw_cur : p_vmmap s = Some map;
  vw_objs : Forall (λ a, is_Some (vma_obj a)) pl.*2;
  vw_ok : mm_ok (sys s);
  vw_owned : ∀ o, obj_count o pl.*2 <= owned (sys s) o
}.

(** The page numbers of [len] bytes from a page boundary on. *)
Definition pages_of (len : Z) : Z :=
  if len mod PAGE_SIZE =? 0 then len / PAGE_SIZE else len / PAGE_SIZE + 1.

Lemma pages_of_pos len : 0 < len → 0 < pages_of len.
Proof.
  intros Hl. pose proof page_size_pos. unfold pages_of.
  pose proof (Z.div_mod len PAGE_SIZE page_size_nz). 
  pose proof (Z.div_pos len PAGE_SIZE (Z.lt_le_incl _ _ Hl) page_size_gt).
  destruct (Z.eqb_spec (len mod PAGE_SIZE) 0) as [Hz|]; [|lia].
  destruct (Z.eq_dec (len / PAGE_SIZE) 0) as [Hk|]; [|lia]. rewrite Hz, Hk in *. lia.
Qed.

(** A page is among them exactly if it starts within the bytes. *)
Lemma pages_of_spec addr len pn :
  addr mod PAGE_SIZE = 0 →
  ADDR_TO_PN addr <= pn < ADDR_TO_PN addr + pages_of len ↔
  addr <= pn * PAGE_SIZE < addr + len.
Proof.
  intros Ha. pose proof page_size_pos. rewrite addr_to_pn_eq. unfold pages_of.
  pose proof (Z.div_mod addr PAGE_SIZE page_size_nz) as Hd. rewrite Ha, Z.add_0_r in Hd.
  pose proof (Z.div_mod len PAGE_SIZE page_size_nz) as Hl.
  pose proof (Z.mod_pos_bound len PAGE_SIZE page_size_gt).
  set (q := addr / PAGE_SIZE) in *. set (k := len / PAGE_SIZE) in *.
  destruct (Z.eqb_spec (len mod PAGE_SIZE) 0) as [Hz|Hz]; split; intros; split; nia.
Qed.

Lemma pages_of_bound addr len :
  0 <= addr < U32 → 0 <= len < U32 → ADDR_TO_PN addr + pages_of len < U32.
Proof.
  intros Ha Hl. pose proof page_size_pos. pose proof (addr_to_pn_bound addr Ha).
  pose proof page_shift_range as Hs. pose proof page_size_div as Hd.
  assert (2 ^ (32 - PAGE_SHIFT) <= 2 ^ 31) by (apply Z.pow_le_mono_r; lia).
  assert (pages_of len <= 2 ^ (32 - PAGE_SHIFT)); [|unfold U32 in *; lia].
  unfold pages_of. pose proof (Z.div_mod len PAGE_SIZE page_size_nz).
  pose proof (Z.mod_pos_bound len PAGE_SIZE page_size_gt).
  destruct (Z.eqb_spec (len mod PAGE_SIZE) 0); nia.
Qed.

Lemma on_sys_eq {A} (m : M S A) s a t :
  m (sys s) = Ret a t → on_sys m s = Ret a (with_vms (set_mm t (vms s)) s).
Proof. intros Hm. unfold on_sys. by apply on_vm_eq, on_mm_eq. Qed.

(** [vmmap_remove] on the map of the process. *)
Lemma cur_remove_spec s map pr pl lo n :
  vmproc_wf s map pr pl → can_alloc (vms s) → 0 < n → 0 <= lo → lo + n < U32 →
  returns (on_vm (vmmap_remove map lo n)) s (λ r s', ∃ x pl', s' = with_vms x s ∧
    vmproc_wf s' map pr pl' ∧
    ∀ pn, page_at pl'.*2 pn = if (lo <=? pn) && (pn <? lo + n) then None else page_at pl.*2 pn).
Proof.
  intros [Hwf Hm Hobj Hmok Hown] Hal Hn Hlo Hhi.
  destruct (vmmap_remove_spec (vms s) map pr pl lo n) as (r & x & Hr & _ & pl' & Hwf' & Hpl' & Ho & Hmok' & _);
    try done.
  exists r, (with_vms x s). split; [by apply on_vm_eq|]. exists x, pl'. split; [done|].
  split; [split; try done|].
  - rewrite Hpl'. by apply cut_objs.
  - intros o. unfold sys. simpl. rewrite Ho. specialize (Hown o). unfold sys in Hown. lia.
  - intros pn. rewrite Hpl'. eapply page_at_cut; [lia|apply Hwf].
Qed.

Lemma validate_munmap_args_cases addr len :
  let ok := addr mod PAGE_SIZE = 0 ∧ USER_MEM_LOW <= u32 (addr + len) <= USER_MEM_HIGH in
  (validate_munmap_args addr len = 0 ∧ ok) ∨ (validate_munmap_args addr len = - EINVAL ∧ ¬ ok).
Proof.
  unfold validate_munmap_args. rewrite page_aligned_eq, Z.gtb_ltb.
  destruct (Z.eqb_spec (addr mod PAGE_SIZE) 0); simpl; [|right; naive_solver].
  destruct (Z.ltb_spec USER_MEM_HIGH (u32 (addr + len))); [right; split; [done|lia]|].
  destruct (Z.ltb_spec (u32 (addr + len)) USER_MEM_LOW); [right; split; [done|lia]|].
  left. split; [done|lia].
Qed.

(** C34: [munmap] of a positive number of bytes returns [-EINVAL] and changes
    nothing if the address is not page-aligned or the end of the range, in 32-bit
    arithmetic, is not an address of user memory; otherwise it returns 0, exactly
    the pages that start within the range are unmapped, every other page is mapped
    as before, the address space stays well-formed with a reference for every area,
    and the break does not move. *)
Theorem do_munmap_unmaps s map pr pl addr len :
  vmproc_wf s map pr pl → can_alloc (vms s) → 0 <= addr < U32 → 0 < len < U32 →
  let ok := addr mod PAGE_SIZE = 0 ∧ USER_MEM_LOW <= u32 (addr + len) <= USER_MEM_HIGH in
  returns (do_munmap addr len) s (λ r s',
    (r = - EINVAL ∧ s' = s ∧ ¬ ok) ∨
    (r = 0 ∧ ok ∧ p_brk s' = p_brk s ∧ ∃ pl', vmproc_wf s' map pr pl' ∧
     ∀ pn, page_at pl'.*2 pn =
       if (addr <=? pn * PAGE_SIZE) && (pn * PAGE_SIZE <? addr + len) then None
       else page_at pl.*2 pn)).
Proof.
  intros Hwf Hal Ha Hl ok. errno_bounds. pose proof (pages_of_pos len ltac:(lia)) as Hn.
  destruct (validate_munmap_args_cases addr len) as [[Hv Hok]|[Hv Hok]];
    unfold do_munmap, returns; rewrite Hv.
  2: { rewrite (proj2 (Z.ltb_lt _ _)) by lia. eexists _, _. split; [done|]. by left. }
  change (0 <? 0) with false. cbn iota. fold (pages_of len).
  rewrite (bind_Ret _ _ _ _ _ (cur_map_eq s map (vw_cur _ _ _ _ Hwf))).
  pose proof (addr_to_pn_bound addr Ha). pose proof (pages_of_bound addr len).
  destruct (cur_remove_spec s map pr pl (ADDR_TO_PN addr) (pages_of len))
    as (r & s1 & Hr & x & pl' & -> & Hwf' & Hp); try done; [lia|lia|].
  rewrite (bind_Ret _ _ _ _ _ Hr).
  destruct (tlb_flush_all_spec (sys (with_vms x s))) as ([] & t & Ht & Hot & _).
  rewrite (bind_Ret _ _ _ _ _ (on_sys_eq _ _ _ _ Ht)).
  eexists _, _. split; [done|]. right. do 3 (split; [done|]). exists pl'. split.
  - destruct Hwf' as [[[??]?] ? ? ? Ho]. split; [by split; [split|]|done|done|by eapply mm_ok_tlb_flush_all|].
    intros o. unfold sys. simpl. rewrite Hot. apply Ho.
  - intros pn. rewrite Hp. destruct Hok as [Hoff _].
    pose proof (pages_of_spec addr len pn Hoff) as Hiff.
    destruct (Z.leb_spec (ADDR_TO_PN addr) pn), (Z.ltb_spec pn (ADDR_TO_PN addr + pages_of len)),
      (Z.leb_spec addr (pn * PAGE_SIZE)), (Z.ltb_spec (pn * PAGE_SIZE) (addr + len)); simpl; try done;
      exfalso; lia.
Qed.

(** ** The break *)

Lemma user_high_top : USER_MEM_HIGH + PAGE_SIZE <= U32.
Proof.
  pose proof page_size_pos. pose proof user_mem_range as [_ Hh]. rewrite page_size_div in *.
  pose proof (Z.div_mod USER_MEM_HIGH PAGE_SIZE page_size_nz) as Hd.
  rewrite user_mem_high_aligned, Z.add_0_r in Hd.
  assert (USER_MEM_HIGH / PAGE_SIZE < 2 ^ (32 - PAGE_SHIFT)) as Hq
    by (apply (Z.mul_lt_mono_pos_r PAGE_SIZE); lia).
  apply Z.le_succ_l, (Z.mul_le_mono_nonneg_r _ _ PAGE_SIZE) in Hq; lia.
Qed.

Lemma align_up_pages addr :
  0 <= addr <= USER_MEM_HIGH → ADDR_TO_PN (PAGE_ALIGN_UP addr) = pages_of addr.
Proof.
  intros Ha. pose proof page_size_pos. pose proof user_high_top.
  rewrite page_align_up_eq, page_align_down_eq, u32_small, addr_to_pn_eq by lia.
  unfold pages_of. pose proof (Z.div_mod addr PAGE_SIZE page_size_nz) as Hd.
  pose proof (Z.mod_pos_bound addr PAGE_SIZE page_size_gt).
  set (x := addr + (PAGE_SIZE - 1)) in *.
  rewrite (Zmod_eq x PAGE_SIZE) by lia. replace (x - (x - _)) with (x / PAGE_SIZE * PAGE_SIZE) by lia.
  rewrite Z.div_mul by lia. unfold x. destruct (Z.eqb_spec (addr mod PAGE_SIZE) 0) as [Hz|Hz].
  - symmetry. apply (Z.div_unique _ _ _ (PAGE_SIZE - 1)); lia.
  - symmetry. apply (Z.div_unique _ _ _ (addr mod PAGE_SIZE - 1)); lia.
Qed.

Lemma pages_of_user addr : 0 <= addr <= USER_MEM_HIGH → 0 <= pages_of addr <= USER_PN_HIGH.
Proof.
  intros Ha. rewrite <- align_up_pages by done. unfold USER_PN_HIGH. pose proof page_size_pos.
  pose proof user_high_top. rewrite page_align_up_eq, page_align_down_eq, u32_small by lia.
  pose proof (Z.mod_pos_bound (addr + (PAGE_SIZE - 1)) PAGE_SIZE page_size_gt).
  assert (0 <= addr + (PAGE_SIZE - 1)) as Hx0 by lia. pose proof (Z.mod_le _ _ Hx0 page_size_gt).
  split; [rewrite addr_to_pn_eq; apply Z.div_pos; lia|].
  rewrite !addr_to_pn_eq.
  pose proof (Z.div_mod USER_MEM_HIGH PAGE_SIZE page_size_nz) as Hh.
  rewrite user_mem_high_aligned in Hh.
  assert ((addr + (PAGE_SIZE - 1)) / PAGE_SIZE < USER_MEM_HIGH / PAGE_SIZE + 1) as Hlt
    by (apply Z.div_lt_upper_bound; lia).
  apply Z.lt_succ_r, (Z.mul_le_mono_nonneg_l _ _ PAGE_SIZE) in Hlt; [|lia].
  pose proof (Z.div_mod (addr + (PAGE_SIZE - 1)) PAGE_SIZE page_size_nz).
  apply Z.div_le_mono; lia.
Qed.

(** An area that grows over free pages. *)
Lemma areas_ok_grow map pl1 p a pl2 e :
  areas_ok map (pl1 ++ (p, a) :: pl2).*2 → vma_end a < e → e <= USER_PN_HIGH →
  (∀ pn, vma_end a <= pn < e → page_at (pl1 ++ (p, a) :: pl2).*2 pn = None) →
  areas_ok map (pl1 ++ (p, set_vma_end e a) :: pl2).*2 ∧
  ∀ pn, page_at (pl1 ++ (p, set_vma_end e a) :: pl2).*2 pn =
    if (vma_end a <=? pn) && (pn <? e) then Some (a_page pn a)
    else page_at (pl1 ++ (p, a) :: pl2).*2 pn.
Proof.
  intros Hok He Hh Hfree. pose proof Hok as Hok'. rewrite fmap_app in Hok'. csimpl in Hok'.
  apply areas_ok_app in Hok' as (Hok1 & Hok2 & Hb1).
  apply (areas_ok_app _ [a] pl2.*2) in Hok2 as (Ha & Hok2 & Hb2).
  apply areas_ok_one in Ha. assert (areas_ok map (pl1 ++ pl2).*2) as Hok12.
  { rewrite fmap_app. apply areas_ok_app. split; [done|]. split; [done|].
    intros x y Hx Hy. apply Hb1; [done|]. apply elem_of_cons. by right. }
  assert (areas_ok map (pl1 ++ (p, set_vma_end e a) :: pl2).*2) as Hokn.
  { apply areas_ok_insert; [done| | |].
    - destruct Ha. constructor; simpl; try done; lia.
    - apply Forall_forall. intros [q b] Hq. apply (Hb1 b a); [by apply (list_elem_of_fmap_2 snd _ (q, b))|].
      apply elem_of_cons. by left.
    - apply Forall_forall. intros [q b] Hq. simpl.
      assert (b ∈ pl2.*2) as Hbin by (by apply (list_elem_of_fmap_2 snd _ (q, b))).
      assert (before a b) as Hab by (apply Hb2; [apply elem_of_cons; by left|done]).
      pose proof (proj1 (Forall_forall _ _) (proj1 Hok2) b Hbin) as Hbok.
      destruct (Z.le_gt_cases e (vma_start b)) as [|Hlt]; [done|].
      specialize (Hfree (vma_start b)). unfold before in Hab.
      rewrite (page_at_in map _ b) in Hfree; [|done| |].
      + by ospecialize (Hfree _); [lia|].
      + rewrite fmap_app. csimpl. set_solver.
      + pose proof (ok_len _ _ Hbok). lia. }
  split; [done|]. intros pn. rewrite !(page_at_insert map) by done. unfold covers. simpl.
  rewrite !Z.gtb_ltb. pose proof (ok_len _ _ Ha).
  destruct (Z.leb_spec (vma_start a) pn), (Z.ltb_spec pn e), (Z.leb_spec (vma_end a) pn),
    (Z.ltb_spec pn (vma_end a)); simpl; try done; lia.
Qed.

Lemma start_area s map pr pl p a pn :
  vmmap_wf (vms s) map pr pl → (p, a) ∈ pl → vma_start a <= pn < vma_end a →
  on_vm (vmmap_lookup map pn) s = Ret (Some p) s ∧ on_vm (vma_get p) s = Ret a s.
Proof.
  intros Hwf Hin Hc. pose proof (lookup_page_at (vms s) map pr pl pn (wf_in _ _ _ _ Hwf)) as Hl.
  assert (a ∈ pl.*2) as Ha by (by apply (list_elem_of_fmap_2 snd _ (p, a))).
  rewrite (page_at_in map _ a) in Hl; [|apply Hwf|done|done].
  destruct Hl as (q & b & Hl & _ & Hb & Hcb & _). apply covers_true in Hcb.
  assert (b = a) as ->.
  { eapply (areas_ok_unique map pl.*2); [apply Hwf|by apply (list_elem_of_fmap_2 snd _ (q, b))|done..]. }
  assert (q = p) as -> by (by eapply (wf_area_addr (vms s))).
  split; apply on_vm_same; [done|]. apply vma_get_eq. eapply in_map_lookup; [apply Hwf|done].
Qed.

(** Every page from the end of the area to page [e] is free. *)
Definition room pl (a : vmarea) (e : Z) : Prop := ∀ pn, vma_end a <= pn < e → page_at pl.*2 pn = None.

(** The pages once the end of the area has moved to page [e]. *)
Definition moved_end pl (a : vmarea) (e : Z) pl' : Prop := ∀ pn,
  page_at pl'.*2 pn =
    if (vma_end a <=? pn) && (pn <? e) then Some (a_page pn a)
    else if (e <=? pn) && (pn <? vma_end a) then None else page_at pl.*2 pn.

Lemma expand_brk_spec s map pr pl p a e :
  vmproc_wf s map pr pl → (p, a) ∈ pl →
  vma_end a < e <= USER_PN_HIGH →
  returns (expand_brk p (vma_end a) e (e - vma_end a)) s (λ r s',
    (r = - ENOMEM ∧ s' = s ∧ ¬ room pl a e) ∨
    (r = 0 ∧ room pl a e ∧ ∃ x pl', s' = with_vms x s ∧ vmproc_wf s' map pr pl' ∧ moved_end pl a e pl')).
Proof.
  intros Hwf Hin He. destruct Hwf as [Hw Hm Hobj Hmok Hown]. pose proof (wf_area _ _ _ _ _ Hw Hin) as Hok.
  simpl in Hok. pose proof (ok_len _ _ Hok). pose proof (ok_low _ _ Hok).
  destruct (vmmap_is_range_empty_eq (vms s) map pr pl (vma_end a) (e - vma_end a)) as (b & Hb & Hbi);
    [done|lia|lia|lia|].
  replace (vma_end a + (e - vma_end a)) with e in Hbi by lia.
  assert (b = true ↔ room pl a e) as Hroom.
  { rewrite Hbi. unfold free_range, room. replace (vma_end a + (e - vma_end a)) with e by lia.
    split; [naive_solver|]. intros. split; [lia|]. by split; [lia|]. }
  unfold expand_brk, returns. rewrite (bind_Ret _ _ _ _ _ (cur_map_eq s map Hm)).
  rewrite (bind_Ret _ _ _ _ _ (on_vm_same _ _ _ Hb)). destruct b.
  2: { eexists _, _. split; [done|]. left. do 2 (split; [done|]). by rewrite <- Hroom. }
  pose proof (proj1 Hroom eq_refl) as Hr. simpl.
  assert (vmareas (vms s) !! p = Some a) as Hpa by (eapply in_map_lookup; [apply Hw|done]).
  rewrite (bind_Ret _ _ _ _ _ (on_vm_eq _ _ _ _ (vma_upd_eq _ _ _ _ Hpa))).
  eexists _, _. split; [done|]. right. do 2 (split; [done|]).
  pose proof (wf_NoDup _ _ _ _ Hw) as Hnd.
  apply list_elem_of_split in Hin as (pl1 & pl2 & ->).
  destruct (areas_ok_grow map pl1 p a pl2 e) as [Hokn Hpn]; [apply Hw|lia|lia|exact Hr|].
  eexists _, (pl1 ++ (p, set_vma_end e a) :: pl2). split; [done|]. split; [split|].
  - destruct Hw as [[Hl Ha] _]. split; [|done]. rewrite fmap_app in Hl, Hnd. csimpl in Hl. csimpl in Hnd.
    apply NoDup_app in Hnd as (_ & Hd & [Hnp _]%NoDup_cons).
    apply Forall_app in Ha as [Ha1 [_ Ha2]%Forall_cons].
    split; [by rewrite fmap_app|]. apply Forall_app. split; [|constructor].
    + apply heap_at_insert; [|done]. intros Hp1. apply (Hd p Hp1). apply elem_of_cons. by left.
    + apply set_area_lookup.
    + by apply heap_at_insert.
  - done.
  - rewrite fmap_app in *. csimpl in *. apply Forall_app in Hobj as [? [? ?]%Forall_cons].
    apply Forall_app. split; [done|]. by constructor.
  - done.
  - intros o. specialize (Hown o). rewrite fmap_app in *. csimpl in *.
    by rewrite obj_count_app, obj_count_cons in *.
  - intros pn. rewrite Hpn. destruct ((vma_end a <=? pn) && (pn <? e)); [done|].
    by destruct (Z.leb_spec e pn), (Z.ltb_spec pn (vma_end a)); try lia.
Qed.

Lemma set_brk_wf s map pr pl v :
  vmproc_wf s map pr pl →
  vmproc_wf (Vmproc (vms s) (p_vmmap s) (p_pagedir s) (p_start_brk s) v) map pr pl.
Proof. by intros [?????]. Qed.

(** What [do_brk] does to the area at the start of the heap, before it sets the
    break. *)
Lemma move_brk_spec s map pr pl p a e :
  vmproc_wf s map pr pl → can_alloc (vms s) → (p, a) ∈ pl → 0 <= e <= USER_PN_HIGH →
  returns (if vma_end a <? e then expand_brk p (vma_end a) e (u32 (e - vma_end a))
           else if vma_end a >? e then
             _ <- on_vm (vmmap_remove map e (u32 (- u32 (e - vma_end a)))) ;; ret 0
           else ret 0) s (λ r s',
    (r = - ENOMEM ∧ s' = s ∧ ¬ room pl a e) ∨
    (r = 0 ∧ room pl a e ∧ ∃ x pl', s' = with_vms x s ∧ vmproc_wf s' map pr pl' ∧
      moved_end pl a e pl')).
Proof.
  intros Hwf Hal Hin He. pose proof (wf_area _ _ _ _ _ (vw_wf _ _ _ _ Hwf) Hin) as Hok.
  destruct Hok as [Hlow Hlen Hhigh _ _ _]. simpl in *. pose proof user_pn_range as [[??]?].
  rewrite Z.gtb_ltb. destruct (Z.ltb_spec (vma_end a) e).
  { rewrite u32_small by (unfold U32; lia). apply expand_brk_spec; [done|done|lia]. }
  assert (room pl a e) as Hroom by (intros pn; lia).
  destruct (Z.ltb_spec e (vma_end a)) as [Hlt|Hge].
  - assert (u32 (- u32 (e - vma_end a)) = vma_end a - e) as ->.
    { unfold u32. rewrite <- Z.sub_0_l, Zminus_mod_idemp_r.
      replace (0 - (e - vma_end a)) with (vma_end a - e) by lia. apply u32_small. unfold U32. lia. }
    destruct (cur_remove_spec s map pr pl e (vma_end a - e))
      as (r & s' & Hr & x & pl' & -> & Hwf' & Hp); try done; [lia|lia|unfold U32; lia|].
    unfold returns. rewrite (bind_Ret _ _ _ _ _ Hr). eexists _, _. split; [done|]. right.
    do 2 (split; [done|]). exists x, pl'. do 2 (split; [done|]). intros pn. rewrite Hp.
    replace (e + (vma_end a - e)) with (vma_end a) by lia.
    by destruct (Z.leb_spec (vma_end a) pn), (Z.ltb_spec pn e); try lia.
  - eexists _, _. split; [done|]. right. do 2 (split; [done|]). exists (vms s), pl.
    split; [by destruct s|]. split; [done|]. intros pn.
    by destruct (Z.leb_spec (vma_end a) pn), (Z.ltb_spec pn e), (Z.leb_spec e pn),
      (Z.ltb_spec pn (vma_end a)); try lia.
Qed.

Lemma validate_brk_addr_eq s addr :
  validate_brk_addr addr s =
    Ret (if (addr <? p_start_brk s) || (addr >? USER_MEM_HIGH) then - ENOMEM else 0) s.
Proof. unfold validate_brk_addr. kstep. by destruct (_ || _). Qed.

(** C35: With an area over the start of the heap: [brk] of 0 returns the break;
    [brk] of an address below the start of the heap or above user memory, or one
    whose area would have to grow over a mapped page, returns [-ENOMEM] and changes
    nothing; any other address becomes the break and the end of that area moves to
    the page boundary at or above it, the pages in between mapped to the pages of
    the area's object that follow, or unmapped, and all others as before. *)
Theorem do_brk_moves s map pr pl addr p a :
  vmproc_wf s map pr pl → can_alloc (vms s) → 0 <= addr → (p, a) ∈ pl →
  vma_start a <= ADDR_TO_PN (p_start_brk s) < vma_end a →
  let e := pages_of addr in
  let ok := p_start_brk s <= addr <= USER_MEM_HIGH ∧ room pl a e in
  returns (do_brk addr) s (λ r s',
    (addr = 0 ∧ r = (0, Some (p_brk s)) ∧ s' = s) ∨
    (addr ≠ 0 ∧ r = (- ENOMEM, None) ∧ s' = s ∧ ¬ ok) ∨
    (addr ≠ 0 ∧ r = (0, Some addr) ∧ ok ∧ p_brk s' = addr ∧ p_start_brk s' = p_start_brk s ∧
     ∃ pl', vmproc_wf s' map pr pl' ∧ moved_end pl a e pl')).
Proof.
  intros Hwf Hal Ha Hin Hc e ok. errno_bounds. unfold do_brk, returns.
  destruct (Z.eqb_spec addr 0) as [Hz|Hz].
  { kstep. eexists _, _. split; [done|]. by left. }
  rewrite (bind_Ret _ _ _ _ _ (validate_brk_addr_eq s addr)), Z.gtb_ltb.
  destruct ((addr <? p_start_brk s) || (USER_MEM_HIGH <? addr)) eqn:Hv.
  { rewrite (proj2 (Z.ltb_lt _ _)) by lia. eexists _, _. split; [done|]. right. left.
    do 3 (split; [done|]). apply orb_true_iff in Hv. unfold ok.
    rewrite !Z.ltb_lt in Hv. lia. }
  zbool. change (0 <? 0) with false. cbn iota.
  rewrite (bind_Ret _ _ _ _ _ (cur_map_eq s map (vw_cur _ _ _ _ Hwf))). kstep.
  destruct (start_area s map pr pl p a _ (vw_wf _ _ _ _ Hwf) Hin Hc) as [Hl Hg].
  rewrite (bind_Ret _ _ _ _ _ Hl), (bind_Ret _ _ _ p s) by done.
  rewrite (bind_Ret _ _ _ _ _ Hg). rewrite align_up_pages by lia. fold e.
  destruct (move_brk_spec s map pr pl p a e) as (r & s' & Hr & Hcases); try done.
  { apply pages_of_user. lia. }
  rewrite (bind_Ret _ _ _ _ _ Hr). destruct Hcases as [(-> & -> & Hno)|(-> & Hroom & x & pl' & -> & Hwf' & Hp)].
  - rewrite (proj2 (Z.ltb_lt _ _)) by lia. eexists _, _. split; [done|]. right. left.
    do 3 (split; [done|]). by intros [_ ?].
  - eexists _, _. split; [reflexivity|]. right. right. do 2 (split; [done|]). split; [done|].
    do 2 (split; [done|]). exists pl'. split; [exact (set_brk_wf _ _ _ _ addr Hwf')|done].
Qed.

(** ** New mappings *)

(** No file: the caller asks for an anonymous mapping, or passes -1 for the file. *)
Lemma no_file fd flags prot s :
  has flags MAP_ANON = true ∨ fd = -1 →
  ∃ err, handle_file_related_tasks fd flags prot s = Ret (err, None, None) s.
Proof.
  unfold handle_file_related_tasks. intros Hno. destruct (has flags MAP_ANON); simpl; [by eexists|].
  destruct Hno as [| ->]; [done|]. by eexists.
Qed.

(** [mmap] computes [-EINVAL] for a length of 0, an offset that is not
    page-aligned and a mapping neither shared nor private, but does not look at the
    result: with no file, these calls stop the kernel at an assertion of
    [vmmap_map]. *)
Theorem do_mmap_bad_args_panic s map addr len prot flags fd off :
  p_vmmap s = Some map → has flags MAP_ANON = true ∨ fd = -1 →
  len = 0 ∨ PAGE_ALIGNED off = false ∨
    (has flags MAP_SHARED = false ∧ has flags MAP_PRIVATE = false) →
  validate_mmap_args addr len prot flags off = - EINVAL ∧
  do_mmap addr len prot flags fd off s = Panic.
Proof.
  intros Hm Hno Hbad. destruct (no_file fd flags prot s Hno) as [err Hf]. split.
  - unfold validate_mmap_args.
    destruct Hbad as [-> | [-> | [-> ->]]]; simpl; by repeat case_match.
  - unfold do_mmap. rewrite (bind_Ret _ _ _ _ _ Hf), (bind_Ret _ _ _ _ _ (cur_map_eq s map Hm)).
    set (lopage := if addr =? 0 then 0 else ADDR_TO_PN addr).
    set (npages := len / PAGE_SIZE + _).
    assert (0 <? npages = false ∨ has MAP_SHARED flags || has MAP_PRIVATE flags = false ∨
      PAGE_ALIGNED off = false) as Hk.
    { destruct Hbad as [-> | [? | [Hs Hp]]]; [left|by right; right|right; left].
      - unfold npages. by rewrite Z.div_0_l, Z.mod_0_l by apply page_size_nz.
      - unfold has in *. by rewrite !(Z.land_comm _ flags), Hs, Hp. }
    assert (vmmap_map map None lopage npages prot flags off VMMAP_DIR_HILO true (vms s) = Panic) as Hp.
    { unfold vmmap_map, bind, kassert, panic, ret.
      destruct Hk as [-> | [-> | ->]]; simpl; by repeat (case_match; simpl). }
    unfold on_vm, zoom, bind. by rewrite Hp.
Qed.

Lemma map_post_mm (New : positive → Prop) (x x' : vm S) map pr pl base n prot flags off t :
  owned t = owned (mm x') → shadowed t = shadowed (mm x') → bottom t = bottom (mm x') →
  map_post None New x map pr pl base n prot flags off x' →
  map_post None New x map pr pl base n prot flags off (set_mm t x').
Proof.
  intros Ho Hs Hb (pl' & b & o & [[??]?] & Hbo & Hmo & Hno & Hp & Hob & Hown & Hfr). exists pl', b, o.
  split; [by split; [split|]|]. split; [done|].
  split; [unfold mapped_obj in *; simpl; by rewrite Hs, Hb|]. do 3 (split; [done|]). split; [|done]. intros y. simpl. by rewrite Ho.
Qed.

Lemma mmap_finish_spec (New : positive → Prop) s (x : vm S) map pr pl base n prot flags off r :
  map_post None New (vms s) map pr pl base n prot flags off x → map_result true base r x →
  is_Some (p_pagedir s) →
  returns (mmap_finish None r.1 r.2) (with_vms x s) (λ r' s',
    r' = (0, Some (PN_TO_ADDR base)) ∧
    map_post None New (vms s) map pr pl base n prot flags off (vms s')).
Proof.
  destruct r as [z new]. intros Hpost [Hz Hnew] [pd Hpd]. simpl in *. subst z.
  destruct new as [new|]; [|done]. destruct Hnew as (_ & a & Ha & Hs).
  unfold mmap_finish, returns. simpl. kstep. kstep.
  rewrite (bind_Ret _ _ _ a (with_vms x s)) by (apply on_vm_same; by apply vma_get_eq).
  destruct (tlb_flush_all_spec (sys (with_vms x s))) as ([] & t & Ht & Ho & Hsh & Hb).
  rewrite (bind_Ret _ _ _ _ _ (on_sys_eq _ _ _ _ Ht)). kstep. simpl. rewrite Hpd.
  rewrite (bind_Ret _ _ _ tt _) by done. eexists _, _. split; [done|]. rewrite Hs.
  split; [done|]. by apply map_post_mm.
Qed.

Lemma fixed_range addr len :
  addr mod PAGE_SIZE = 0 → USER_MEM_LOW <= addr → addr + len <= USER_MEM_HIGH → 0 < len →
  USER_PN_LOW <= ADDR_TO_PN addr ∧ ADDR_TO_PN addr + pages_of len <= USER_PN_HIGH.
Proof.
  intros Ha Hl Hh Hlen. split; [by apply addr_to_pn_mono|].
  pose proof (pages_of_pos len Hlen). pose proof page_size_pos.
  destruct (proj1 (pages_of_spec addr len (ADDR_TO_PN addr + pages_of len - 1) Ha)) as [_ Hlt];
    [lia|].
  unfold USER_PN_HIGH. rewrite (addr_to_pn_eq USER_MEM_HIGH).
  pose proof (Z.div_mod USER_MEM_HIGH PAGE_SIZE page_size_nz) as Hd.
  rewrite user_mem_high_aligned, Z.add_0_r in Hd. nia.
Qed.

(** C23: Anonymous [mmap] ([MAP_ANON]) of a positive length, page-aligned offset and
    address and a sharing mode, at a range of user memory or at 0 in an address
    space that is not empty: it returns 0 and the address of a range whose pages
    are mapped, with the given protection, to one object that was not in use before
    (a new shadow object over a new anonymous one if the mapping is private), every
    other page mapped as before; at 0 the range is the highest free one and only
    without one the call returns -1 and changes nothing. *)
Theorem do_mmap_maps s map pr pl addr len prot flags fd off :
  vmproc_wf s map pr pl → (∀ s' : vm S, is_Some (vmarea_slab s')) → objs_available →
  is_Some (p_pagedir s) → has flags MAP_ANON = true →
  0 < len < U32 → 0 <= off < U32 → PAGE_ALIGNED off = true →
  has flags MAP_SHARED || has flags MAP_PRIVATE = true →
  (addr = 0 ∧ pl ≠ []) ∨
    (addr mod PAGE_SIZE = 0 ∧ USER_MEM_LOW <= addr ∧ addr + len <= USER_MEM_HIGH) →
  let n := pages_of len in
  returns (do_mmap addr len prot flags fd off) s (λ r s',
    (∃ base, r = (0, Some (PN_TO_ADDR base)) ∧
       map_post None (new_obj (vms s) pl base n) (vms s) map pr pl base n prot flags off (vms s') ∧
       if addr =? 0 then free_range pl.*2 base n ∧ ∀ r', free_range pl.*2 r' n → r' <= base
       else base = ADDR_TO_PN addr) ∨
    (addr = 0 ∧ r = (-1, None) ∧ s' = s ∧ ∀ r', ¬ free_range pl.*2 r' n)).
Proof.
  intros [Hwf Hm Hobj Hmok Hown] Hslab Hav Hpd Hno Hl Hoff Hal Hfl Haddr n.
  destruct (no_file fd flags prot s (or_introl Hno)) as [err Hf]. unfold do_mmap, returns.
  rewrite (bind_Ret _ _ _ _ _ Hf), (bind_Ret _ _ _ _ _ (cur_map_eq s map Hm)).
  assert (len / PAGE_SIZE + (if len mod PAGE_SIZE =? 0 then 0 else 1) = n) as ->.
  { unfold n, pages_of. destruct (_ =? _); lia. }
  pose proof (pages_of_pos len ltac:(lia)) as Hn. fold n in Hn.
  assert (n < U32) as Hn'.
  { pose proof (pages_of_bound 0 len ltac:(unfold U32; lia) ltac:(lia)).
    pose proof (addr_to_pn_bound 0 ltac:(unfold U32; lia)). lia. }
  assert (has MAP_SHARED flags || has MAP_PRIVATE flags = true) as Hfl'.
  { unfold has in *. by rewrite !(Z.land_comm _ flags). }
  destruct Haddr as [[-> Hne]|(Hal' & Hlo & Hhi)].
  - change (0 =? 0) with true. cbn iota.
    destruct (vmmap_map_search (vms s) map pr pl None n prot flags off VMMAP_DIR_HILO Hwf Hobj Hmok Hown
      Hslab Hav I ltac:(lia) Hoff Hal Hfl' true Hne) as (r & x & Hr & Hcases).
    rewrite (bind_Ret _ _ _ _ _ (on_vm_eq _ _ _ _ Hr)).
    destruct Hcases as [(-> & -> & Hfull)|(base & Hres & Hfree & Hmax & Hpost)].
    + eexists _, _. split; [done|]. right. do 2 (split; [done|]). split; [by destruct s|done].
    + destruct (mmap_finish_spec (new_obj (vms s) pl base n) s x map pr pl base n prot flags off r) as (r' & s' & Hr' & -> & Hp');
        try done. destruct r. eexists _, _. split; [exact Hr'|]. left. by exists base.
  - destruct (fixed_range addr len) as [Hlo' Hhi']; try done; [lia|]. fold n in Hhi'.
    pose proof user_mem_range as [[??]?]. pose proof page_size_pos.
    rewrite (proj2 (Z.eqb_neq addr 0)) by lia.
    destruct (vmmap_map_fixed (vms s) map pr pl None n prot flags off VMMAP_DIR_HILO Hwf Hobj Hmok Hown
      Hslab Hav I ltac:(lia) Hoff Hal Hfl' (ADDR_TO_PN addr) true Hlo' Hhi') as (r & x & Hr & Hres & Hpost).
    rewrite (bind_Ret _ _ _ _ _ (on_vm_eq _ _ _ _ Hr)).
    destruct (mmap_finish_spec (new_obj (vms s) pl (ADDR_TO_PN addr) n) s x map pr pl (ADDR_TO_PN addr) n prot flags off r)
      as (r' & s' & Hr' & -> & Hp'); try done.
    destruct r. eexists _, _. split; [exact Hr'|]. left. by exists (ADDR_TO_PN addr).
Qed.
End map_calls.
