(* ===== verification/VmCallsFault.v ===== *)
(** * Properties of page faults: vm/pagefault.c

    The handler against the interface of page frames and page tables; FaultMem has the
    theorem for the page cache. *)
From S2P Require Import Prelude Headers Vmmap VmmapProps VmmapChange.
From S2P Require Import VmmapBytes VmCalls VmCallsProps VmCallsMap.
Local Open Scope kernel_scope.

Section fault.
Context `{HE : ErrnoH, HP : PageH, HM : MmanH, HF : FcntlH, HU : FaultH}.
Context {S : Type} `{HO : !MmOps S, HG : !MmPages S, HS : !SlabOps S, HC : !VmCallOps S}.
Implicit Types (s : vmproc S) (pl : list (positive * vmarea)).

(** Frames and pages stay as they are. *)
Record same_frames (t t' : S) : Prop := SameFrames {
  sf_addr p : pf_addr t' p = pf_addr t p;
  sf_bytes p : frame_of t' p = frame_of t p;
  sf_backs p x : backs t p x → backs t' p x;
  sf_kept : pages_kept t t'
}.

(** What page frames and page tables promise: [pt_entry t pd vaddr] is what the page
    directory [pd] maps the page at [vaddr] to, with the flags of the directory and
    of the table, and [pt_room t] says that there is memory for a page table.  Frames
    are pinned, dirtied and unpinned only while they back a page. *)
Class FaultLaws := {
  pins : S → positive → Z;
  pt_entry : S → option positive → Z → option (Z * Z * Z);
  pt_room : S → Prop;
  phys : Z → Z;
  lookuppage_addr t o pn w p t' : available t (o, pn) →
    mmo_lookuppage o pn w t = Ret (0, Some p) t' → is_Some (pf_addr t' p);
  pframe_pin_spec t p x : backs t p x → returns (pframe_pin p) t (λ _ t',
    same_frames t t' ∧ 0 < pins t' p);
  pframe_dirty_same t p x : backs t p x → returns (pframe_dirty p) t (λ _ t',
    same_frames t t' ∧ pins t' p = pins t p);
  pframe_unpin_spec t p x : backs t p x → 0 < pins t p →
    returns (pframe_unpin p) t (λ _ t', same_frames t t');
  virt_to_phys_spec t a : pt_virt_to_phys a t = Ret (phys a) t;
  pt_map_spec t pd v pa f g : pt_room t → returns (pt_map pd v pa f g) t (λ r t', r = 0 ∧
    same_frames t t' ∧ pt_entry t' pd v = Some (pa, f, g) ∧
    ∀ pd' v', (pd', v') ≠ (pd, v) → pt_entry t' pd' v' = pt_entry t pd' v');
  tlb_flush_spec t v : returns (tlb_flush v) t (λ _ t',
    same_frames t t' ∧ pt_entry t' = pt_entry t)
}.
Context {HV : FaultLaws}.

Lemma same_frames_refl t : same_frames t t.
Proof. by split; [..|apply pages_kept_refl]. Qed.
Lemma same_frames_trans t1 t2 t3 : same_frames t1 t2 → same_frames t2 t3 → same_frames t1 t3.
Proof.
  intros [Ha1 Hb1 Hk1 H1] [Ha2 Hb2 Hk2 H2]. split; [intros p; congruence..|by eauto|].
  by eapply pages_kept_trans.
Qed.

(** The access that faulted is one the protection permits. *)
Definition access_ok (cause prot : Z) : Prop :=
  (has cause FAULT_WRITE = true → has prot PROT_WRITE = true) ∧
  (has cause FAULT_WRITE = false → has cause FAULT_EXEC = false → has prot PROT_READ = true) ∧
  (has cause FAULT_EXEC = true → has prot PROT_EXEC = true).

Lemma fault_forbidden_spec cause prot : fault_forbidden cause prot = false ↔ access_ok cause prot.
Proof.
  unfold fault_forbidden, access_ok.
  destruct (has cause FAULT_WRITE), (has cause FAULT_EXEC), (has prot PROT_WRITE),
    (has prot PROT_READ), (has prot PROT_EXEC); simpl; intuition discriminate.
Qed.

(** C24: A fault at an address that is not mapped, or on an access that the
    protection of its page does not permit, makes [handle_pagefault] call
    [do_exit(EFAULT)] before anything else changes. *)
Theorem handle_pagefault_kills s map pr pl vaddr cause :
  vmmap_wf (vms s) map pr pl → p_vmmap s = Some map →
  (∀ o i prot fl, page_at pl.*2 (ADDR_TO_PN vaddr) = Some (o, i, prot, fl) →
    ¬ access_ok cause prot) →
  ∃ k, handle_pagefault vaddr cause s = bind (on_sys (do_exit EFAULT)) k s.
Proof.
  intros [Hin _] Hm Hbad. unfold handle_pagefault.
  rewrite (bind_Ret _ _ _ _ _ (cur_map_eq s map Hm)).
  pose proof (lookup_page_at (vms s) map pr pl (ADDR_TO_PN vaddr) Hin) as Hl.
  destruct (page_at pl.*2 (ADDR_TO_PN vaddr)) as [pg|].
  - destruct Hl as (p & a & Hl & Ha & _ & _ & ->).
    rewrite (bind_Ret _ _ _ _ _ (on_vm_same _ _ _ Hl)). simpl. kstep. kstep.
    rewrite (bind_Ret _ _ _ a s) by (apply on_vm_same; by apply vma_get_eq).
    destruct (fault_forbidden cause (vma_prot a)) eqn:Hf; [by eexists|].
    apply fault_forbidden_spec in Hf. by destruct (Hbad _ _ _ _ eq_refl).
  - rewrite (bind_Ret _ _ _ _ _ (on_vm_same _ _ _ Hl)). simpl. by eexists.
Qed.

(** Looking up the page of the faulting address. *)
Lemma fault_lookup_spec s o pn w :
  available (sys s) (o, pn) →
  returns (pframe_lookup (Some o) pn w) s (λ r s', ∃ t pf addr, r = (0, Some pf) ∧
    s' = with_vms (set_mm t (vms s)) s ∧ pf_addr t pf = Some addr ∧
    frame_of t pf = Some (content (sys s) (o, pn)) ∧ (w = true → backs t pf (o, pn)) ∧
    pages_kept (sys s) t).
Proof.
  intros Hav. unfold pframe_lookup, returns. rewrite (bind_Ret _ _ _ o s) by done. destruct w.
  - destruct (lookuppage_write_spec (sys s) o pn Hav) as (r & t & Hr & pf & -> & Hb & Hc & _).
    destruct (lookuppage_addr _ _ _ _ _ _ Hav Hr) as [addr Ha].
    exists (0, Some pf), (with_vms (set_mm t (vms s)) s).
    split; [by apply on_sys_eq|]. exists t, pf, addr.
    split_and!; try done. rewrite (backs_bytes t pf (o, pn)) by done. f_equal. by apply Hc.
  - destruct (lookuppage_read_spec (sys s) o pn Hav) as (r & t & Hr & pf & -> & Hb & Hc & _).
    destruct (lookuppage_addr _ _ _ _ _ _ Hav Hr) as [addr Ha].
    exists (0, Some pf), (with_vms (set_mm t (vms s)) s).
    split; [by apply on_sys_eq|]. by exists t, pf, addr.
Qed.

(** Dirtying the frame on a write. *)
Lemma fault_dirty_spec s pf (w : bool) x :
  (w = true → backs (sys s) pf x) →
  returns (if w then
     on_sys (pframe_pin pf) ;;; _ <- on_sys (pframe_dirty pf) ;; on_sys (pframe_unpin pf)
   else ret tt) s (λ _ s', ∃ t, s' = with_vms (set_mm t (vms s)) s ∧ same_frames (sys s) t).
Proof.
  intros Hp. destruct w.
  2: { exists tt, s. split; [done|]. exists (sys s). split; [by destruct s as [[] ????]|].
       apply same_frames_refl. }
  specialize (Hp eq_refl).
  destruct (pframe_pin_spec (sys s) pf x Hp) as ([] & t1 & Hr1 & Hs1 & Hp1).
  assert (backs t1 pf x) as Hb1 by (by eapply sf_backs).
  destruct (pframe_dirty_same t1 pf x Hb1) as (z & t2 & Hr2 & Hs2 & Hp2).
  assert (backs t2 pf x) as Hb2 by (by eapply sf_backs).
  assert (0 < pins t2 pf) as Hp3 by lia.
  destruct (pframe_unpin_spec t2 pf x Hb2 Hp3) as ([] & t3 & Hr3 & Hs3).
  unfold returns. rewrite (bind_Ret _ _ _ _ _ (on_sys_eq _ _ _ _ Hr1)).
  rewrite (bind_Ret _ _ _ z (with_vms (set_mm t2 (vms s)) s)) by (by erewrite on_sys_eq).
  exists tt, (with_vms (set_mm t3 (vms s)) s). split; [by erewrite on_sys_eq|].
  exists t3. split; [done|]. eauto using same_frames_trans.
Qed.

(** The flags of the page directory and the page table for a fault. *)
Definition pd_flags (w : bool) : Z :=
  Z.lor (Z.lor PD_PRESENT PD_USER) (if w then PD_WRITE else 0).
Definition pt_flags (w : bool) : Z :=
  Z.lor (Z.lor PT_PRESENT PT_USER) (if w then PT_WRITE else 0).

(** A fault on an access that the protection of its page permits maps the page. *)
Lemma pagefault_maps s map pr pl vaddr cause o i prot fl :
  vmmap_wf (vms s) map pr pl → p_vmmap s = Some map →
  page_at pl.*2 (ADDR_TO_PN vaddr) = Some (Some o, i, prot, fl) → access_ok cause prot →
  available (sys s) (o, i) → (∀ t, pt_room t) →
  let w := has cause FAULT_WRITE in
  returns (handle_pagefault vaddr cause) s (λ _ s', ∃ pf addr,
    pt_entry (sys s') (p_pagedir s) (PAGE_ALIGN_DOWN vaddr) =
      Some (phys addr, pd_flags w, pt_flags w) ∧
    pf_addr (sys s') pf = Some addr ∧ frame_of (sys s') pf = Some (content (sys s) (o, i)) ∧
    (w = true → backs (sys s') pf (o, i)) ∧ pages_kept (sys s) (sys s') ∧
    vmareas (vms s') = vmareas (vms s) ∧ vmmaps (vms s') = vmmaps (vms s)).
Proof.
  intros [Hin _] Hm Hpg Hacc Hav Hroom w. unfold handle_pagefault, returns.
  rewrite (bind_Ret _ _ _ _ _ (cur_map_eq s map Hm)).
  pose proof (lookup_page_at (vms s) map pr pl (ADDR_TO_PN vaddr) Hin) as Hl. rewrite Hpg in Hl.
  destruct Hl as (p & a & Hl & Ha & _ & _ & [= Hobj Hi Hprot Hfl]).
  rewrite (bind_Ret _ _ _ _ _ (on_vm_same _ _ _ Hl)). simpl. kstep. kstep.
  rewrite (bind_Ret _ _ _ a s) by (apply on_vm_same; by apply vma_get_eq).
  rewrite <- Hprot, (proj2 (fault_forbidden_spec cause prot) Hacc). kstep.
  rewrite (bind_Ret _ _ _ a s) by (apply on_vm_same; by apply vma_get_eq).
  rewrite <- Hobj, <- Hi.
  destruct (fault_lookup_spec s o i w Hav)
    as (r & s1 & Hr & t1 & pf & addr & -> & -> & Hpa & Hfb & Hbk & Hct).
  rewrite (bind_Ret _ _ _ _ _ Hr). simpl. do 3 kstep. unfold sys at 1. simpl. rewrite Hpa. kstep.
  destruct (fault_dirty_spec (with_vms (set_mm t1 (vms s)) s) pf w (o, i) Hbk)
    as ([] & s2 & Hr2 & t2 & -> & Hs2).
  rewrite (bind_Ret _ _ _ _ _ Hr2).
  rewrite (bind_Ret _ _ _ _ _ (on_sys_eq _ _ _ _ (virt_to_phys_spec _ addr))). kstep. simpl.
  destruct (pt_map_spec t2 (p_pagedir s) (PAGE_ALIGN_DOWN vaddr) (phys addr) (pd_flags w) (pt_flags w)
    (Hroom t2)) as (z & t3 & Hr3 & _ & Hs3 & He3 & _).
  rewrite (bind_Ret _ _ _ z (with_vms (set_mm t3 (vms s)) s)) by (by erewrite on_sys_eq).
  destruct (tlb_flush_spec t3 (PAGE_ALIGN_DOWN vaddr)) as ([] & t4 & Hr4 & Hs4 & He4).
  exists tt, (with_vms (set_mm t4 (vms s)) s). split; [by erewrite on_sys_eq|].
  destruct (same_frames_trans _ _ _ Hs2 (same_frames_trans _ _ _ Hs3 Hs4)) as [Hf1 Hf2 Hf3 Hf4].
  exists pf, addr. unfold sys in *. simpl in *. rewrite He4, Hf1, Hf2.
  split_and!; try done; [by auto|]. by eapply pages_kept_trans.
Qed.
End fault.
