(* ===== verification/VmCallsEx.v ===== *)
(** * Calls on an address space at work

    The memory system of [VmmapEx] with page tables, and the theorems on copies,
    mmap, munmap, brk and page faults applied to a concrete process. *)
From S2P Require Import Prelude Headers Vmmap VmmapProps VmmapChange VmmapBytes.
From S2P Require Import VmmapEx VmCalls VmCallsProps VmCallsMap VmCallsFault.
Local Open Scope kernel_scope.

#[local] Existing Instance errno_ex.
#[local] Existing Instance page_ex.
#[local] Existing Instance mman_ex.
#[local] Existing Instance fcntl_ex.
#[local] Existing Instance fault_ex.
#[local] Existing Instance arg_ex.
#[local] Existing Instance ex_ops.
#[local] Existing Instance ex_laws.
#[local] Existing Instance ex_put_laws.
#[local] Existing Instance ex_pages.
#[local] Existing Instance ex_slab.

Definition x_set_pt (f : expt → expt) (t : exmm) : exmm :=
  ExMm (x_refs t) (x_shadowed t) (x_bottom t) (x_pages t) (x_frames t) (f (x_pt t)).
Definition x_pins_of (t : exmm) (p : positive) : nat := default O (x_pins (x_pt t) !! p).
Definition x_pin (p : positive) (f : nat → nat) (t : exmm) : exmm :=
  x_set_pt (λ x, ExPt (x_entries x) (<[p := f (x_pins_of t p)]> (x_pins x)) (x_bufs x)
                    (x_errno x) (x_eax x) (x_km x)) t.
Definition x_bufs_of (t : exmm) : gset buf := x_bufs (x_pt t).
Definition x_set_bufs (b : gset buf) : exmm → exmm :=
  x_set_pt (λ x, ExPt (x_entries x) (x_pins x) b (x_errno x) (x_eax x) (x_km x)).
Definition x_alloc (k : allocator) : M exmm (option positive) := λ t,
  let p := fresh (set_map snd (x_bufs_of t) : gset positive) in
  Ret (Some p) (x_set_bufs ({[(k, p)]} ∪ x_bufs_of t) t).
(** Freeing what is not in use stops the kernel. *)
Definition x_free (k : allocator) (p : option positive) : M exmm unit := λ t,
  match p with
  | Some p => if decide ((k, p) ∈ x_bufs_of t) then Ret tt (x_set_bufs (x_bufs_of t ∖ {[(k, p)]}) t)
              else Panic
  | None => Ret tt t
  end.

#[local] Instance ex_calls : VmCallOps exmm := {|
  fget fd := ret None;
  fput f := ret tt;
  f_vnode t f := None;
  f_mode t f := 0;
  do_exit e := panic;
  pf_addr t p := Some (Zpos p * 4096);
  pframe_pin p := modify (x_pin p Datatypes.S);
  pframe_unpin p := modify (x_pin p pred);
  pt_virt_to_phys a := ret (a + 65536);
  pt_map pd v pa f g := λ t,
    Ret 0 (x_set_pt (λ x, ExPt (<[(pd, v) := (pa, f, g)]> (x_entries x)) (x_pins x) (x_bufs x)
                              (x_errno x) (x_eax x) (x_km x)) t);
  tlb_flush v := ret tt;
  kmalloc n := x_alloc Kmalloced;
  kfree := x_free Kmalloced;
  kmalloc_ptrs t p i := None;
  kt_errno t := x_errno (x_pt t);
  set_errno e := modify (x_set_pt (λ x, ExPt (x_entries x) (x_pins x) (x_bufs x) e (x_eax x) (x_km x)))
|}.

(** Process in map 1 of [ex_vm]; its heap starts in the area of object 6. *)
Definition ex_proc : vmproc exmm :=
  Vmproc ex_vm (Some 1%positive) (Some 7%positive) (3001 * 4096) (3004 * 4096 + 5).

Lemma ex_proc_wf : vmproc_wf ex_proc 1 (Some 9%positive) ex_pl.
Proof. split; [apply ex_vm_wf|done|apply ex_vm_objs|done|apply ex_vm_owned]. Qed.

Lemma ex_can_alloc (s : vm exmm) : can_alloc s.
Proof. intros s' _. apply ex_slab_some. Qed.

Lemma ex_pages_available t : pages_available t ex_pl.*2.
Proof.
  intros pn o i prot fl Hp. unfold page_at in Hp. destruct (head _) as [a|] eqn:Ha; [|done].
  assert (a ∈ ex_pl.*2) as Hin.
  { apply head_Some_elem_of, list_elem_of_filter in Ha. by destruct Ha. }
  pose proof (proj1 (Forall_forall _ _) ex_vm_objs a Hin) as [x Hx]. exists x. split; [|done].
  unfold a_page in Hp. simpl in Hp. congruence.
Qed.

Lemma copy_from_user_checks_witness :
  returns (copy_from_user (2000 * 4096 + 1) 2) ex_proc (λ r _, r = (0, [11; 12])).
Proof.
  eapply returns_mono.
  - apply (copy_from_user_checks ex_proc 1 (Some 9%positive) ex_pl (2000 * 4096 + 1) 2
      ex_vm_wf eq_refl (ex_pages_available _)); [lia|lia|unfold U32; lia].
  - intros [z bs] s' [(_ & _ & Hno)|(Hz & _ & Hlen & Hb & _)].
    + destruct Hno. intros pn Hpn. change (2000 <= pn <= 2000) in Hpn.
      assert (pn = 2000) as -> by lia.
      by eexists _, _, _, _.
    + simpl in *. subst z. destruct bs as [|x [|y [|]]]; simpl in Hlen; try lia.
      pose proof (Hb 0%nat ltac:(lia)) as H0. pose proof (Hb 1%nat ltac:(lia)) as H1.
      vm_compute in H0, H1. by simplify_eq.
Defined.

Lemma copy_wraps_unchecked_witness :
  copy_from_user 4294963201 8191 ex_proc = Ret (0, []) ex_proc ∧
  copy_to_user 4294963201 [] 8191 ex_proc = Ret 0 ex_proc.
Proof.
  apply (copy_wraps_unchecked ex_proc 1 (Some 9%positive) ex_pl 4294963201 8191 []);
    [apply ex_vm_wf|reflexivity|unfold U32; lia|unfold U32; lia|by vm_compute].
Defined.

Lemma do_munmap_unmaps_witness :
  returns (do_munmap (2003 * 4096) 4097) ex_proc (λ r s', r = 0 ∧ ∃ pl',
    vmproc_wf s' 1 (Some 9%positive) pl' ∧ page_at pl'.*2 2004 = None ∧
    page_at pl'.*2 2005 = Some (Some 5%positive, 25, 3, 1)).
Proof.
  eapply returns_mono.
  - apply (do_munmap_unmaps ex_proc 1 (Some 9%positive) ex_pl (2003 * 4096) 4097 ex_proc_wf);
      [apply ex_can_alloc|unfold U32; lia|unfold U32; lia].
  - intros r s' [(_ & _ & Hno)|(Hr & _ & _ & pl' & Hwf & Hp)].
    + destruct Hno. by vm_compute.
    + split; [done|]. exists pl'. split; [done|]. by rewrite !Hp.
Defined.

Lemma do_brk_moves_witness :
  returns (do_brk (3006 * 4096 + 1)) ex_proc (λ r s', r = (0, Some (3006 * 4096 + 1)) ∧
    p_brk s' = 3006 * 4096 + 1 ∧ ∃ pl', vmproc_wf s' 1 (Some 9%positive) pl' ∧
    page_at pl'.*2 3006 = Some (Some 6%positive, 6, 3, 1) ∧ page_at pl'.*2 3007 = None).
Proof.
  eapply returns_mono.
  - apply (do_brk_moves ex_proc 1 (Some 9%positive) ex_pl (3006 * 4096 + 1) 2 (ex_area 3000 3005 0 6)
      ex_proc_wf); [apply ex_can_alloc|lia|right; left|by vm_compute].
  - intros r s' [[? _]|[(_ & _ & _ & Hno)|(_ & Hr & _ & Hb & _ & pl' & Hwf & Hp)]]; [lia| |].
    + destruct Hno. split; [by vm_compute|]. intros pn Hpn. apply page_at_None.
      change (pages_of (3006 * 4096 + 1)) with 3007 in Hpn. simpl in Hpn.
      intros a [->|[->|[]%elem_of_nil]%elem_of_cons]%elem_of_cons; simpl; lia.
    + split; [done|]. split; [done|]. exists pl'. split; [done|]. by rewrite !Hp.
Defined.

Lemma do_mmap_bad_args_panic_witness :
  validate_mmap_args 0 0 PROT_READ (MAP_PRIVATE + MAP_ANON) 0 = - EINVAL ∧
  do_mmap 0 0 PROT_READ (MAP_PRIVATE + MAP_ANON) (-1) 0 ex_proc = Panic.
Proof.
  apply (do_mmap_bad_args_panic ex_proc 1 0 0 PROT_READ (MAP_PRIVATE + MAP_ANON) (-1) 0 eq_refl);
    [by right|by left].
Defined.

Lemma do_mmap_maps_witness :
  let flags := Z.lor MAP_PRIVATE MAP_ANON in
  returns (do_mmap (2500 * 4096) 5000 PROT_READ flags (-1) 0) ex_proc (λ r s',
    r = (0, Some (2500 * 4096)) ∧
    map_post None (new_obj ex_vm ex_pl 2500 2) ex_vm 1 (Some 9%positive) ex_pl 2500 2 PROT_READ flags 0
      (vms s')).
Proof.
  intros flags. eapply returns_mono.
  - apply (do_mmap_maps ex_proc 1 (Some 9%positive) ex_pl (2500 * 4096) 5000 PROT_READ flags
      (-1) 0 ex_proc_wf ex_slab_some ex_objs_available);
      [by eexists|by vm_compute|unfold U32; lia|unfold U32; lia|reflexivity|reflexivity|].
    right. by vm_compute.
  - intros r s' [(base & -> & Hpost & Hb)|[? _]]; [|lia].
    change (base = 2500) in Hb. subst base. by split.
Defined.

Lemma handle_pagefault_kills_witness :
  ∃ k, handle_pagefault (2004 * 4096) FAULT_EXEC ex_proc = bind (on_sys (do_exit EFAULT)) k ex_proc.
Proof.
  apply (handle_pagefault_kills ex_proc 1 (Some 9%positive) ex_pl (2004 * 4096) FAULT_EXEC
    ex_vm_wf eq_refl).
  intros o i prot fl Hp. vm_compute in Hp. simplify_eq. intros (_ & _ & He).
  discriminate (He eq_refl).
Defined.
