(* ===== verification/Syscall.v ===== *)
(** * System calls: api/syscall.c

    The [sys_*] functions, the dispatch on the call number and the trap handler,
    over the address space of the current process: copies to and from user memory,
    [do_brk], [do_mmap] and [do_munmap] are those of [VmCalls].  The other calls the
    functions make are the interface [SysOps]. *)
From S2P Require Import Prelude Headers Vmmap VmCalls.
Local Open Scope kernel_scope.

(** ** api/syscall.h, errno.h, mm/mman.h *)

Class SyscallH := {
  SYS_waitpid : Z; SYS_exit : Z; SYS_thr_exit : Z; SYS_thr_yield : Z; SYS_fork : Z;
  SYS_getpid : Z; SYS_sync : Z; SYS_mmap : Z; SYS_munmap : Z; SYS_open : Z;
  SYS_close : Z; SYS_read : Z; SYS_write : Z; SYS_dup : Z; SYS_dup2 : Z; SYS_mkdir : Z;
  SYS_rmdir : Z; SYS_unlink : Z; SYS_link : Z; SYS_rename : Z; SYS_chdir : Z;
  SYS_getdents : Z; SYS_brk : Z; SYS_lseek : Z; SYS_halt : Z; SYS_set_errno : Z;
  SYS_errno : Z; SYS_execve : Z; SYS_stat : Z; SYS_pipe : Z; SYS_uname : Z;
  SYS_debug : Z; SYS_kshell : Z;
  (** The labels of a [switch] are distinct. *)
  syscall_nodup : NoDup [SYS_waitpid; SYS_exit; SYS_thr_exit; SYS_thr_yield; SYS_fork;
    SYS_getpid; SYS_sync; SYS_mmap; SYS_munmap; SYS_open; SYS_close; SYS_read; SYS_write;
    SYS_dup; SYS_dup2; SYS_mkdir; SYS_rmdir; SYS_unlink; SYS_link; SYS_rename; SYS_chdir;
    SYS_getdents; SYS_brk; SYS_lseek; SYS_halt; SYS_set_errno; SYS_errno; SYS_execve;
    SYS_stat; SYS_pipe; SYS_uname; SYS_debug; SYS_kshell];
  ENODEV : Z;
  MAP_FAILED : Z;
  (** The sizes of the argument structures and their fields. *)
  sizeof_read_args : Z; sizeof_write_args : Z; sizeof_getdents_args : Z;
  sizeof_dup2_args : Z; sizeof_mkdir_args : Z; sizeof_link_args : Z;
  sizeof_rename_args : Z; sizeof_lseek_args : Z; sizeof_open_args : Z;
  sizeof_munmap_args : Z; sizeof_mmap_args : Z; sizeof_waitpid_args : Z;
  sizeof_stat_args : Z; sizeof_execve_args : Z; sizeof_int : Z; sizeof_stat : Z;
  read_args : list Z → Z * Z;               (* fd, nbytes *)
  write_args : list Z → Z * Z;              (* fd, nbytes *)
  getdents_args : list Z → Z * Z * Z;       (* fd, dirp, count *)
  dup2_args : list Z → Z * Z;               (* ofd, nfd *)
  mkdir_args : list Z → Z * Z;              (* path *)
  link_args : list Z → (Z * Z) * (Z * Z);   (* to, from *)
  rename_args : list Z → (Z * Z) * (Z * Z); (* oldname, newname *)
  lseek_args : list Z → Z * Z * Z;          (* fd, offset, whence *)
  open_args : list Z → (Z * Z) * Z;         (* filename, flags *)
  munmap_args : list Z → Z * Z;             (* addr, len *)
  mmap_args : list Z → Z * Z * Z * Z * Z * Z;
  waitpid_args : list Z → Z * Z * Z;        (* wpa_pid, wpa_options, wpa_status *)
  stat_args : list Z → (Z * Z) * Z;         (* path, buf *)
  execve_args : list Z → (Z * Z) * (Z * Z) * (Z * Z);
  argstr : list Z → Z * Z;
  (** An [int] in memory. *)
  int_bytes : Z → list Z;
  (** The fields of [struct utsname], as offsets, and the strings stored in them. *)
  uts_sysname : Z; uts_release : Z; uts_version : Z; uts_nodename : Z; uts_machine : Z;
  version_str : list Z
}.

(** ** What syscall.c calls *)

Class SysOps (S : Type) := {
  page_alloc : M S (option positive);
  (** [page_free] is also called with [NULL]. *)
  page_free : option positive → M S unit;
  (** What is in memory that was just allocated, or on the stack. *)
  page_bytes : S → positive → list Z;
  kmalloc_bytes : S → positive → list Z;
  stack_bytes : S → list Z;
  (** [arg->buf] and [arg->nbytes], read through the user's pointer. *)
  load_read_buf : Z → M (vmproc S) Z;
  load_write_buf : Z → M (vmproc S) Z;
  load_write_nbytes : Z → M (vmproc S) Z;
  (** fs/vfs_syscall.c and fs/open.c *)
  do_read : Z → Z → M (vmproc S) (Z * list Z);
  do_write : Z → list Z → Z → M (vmproc S) Z;
  do_getdent : Z → M (vmproc S) (Z * list Z);
  do_close : Z → M (vmproc S) Z;
  do_dup : Z → M (vmproc S) Z;
  do_dup2 : Z → Z → M (vmproc S) Z;
  do_mkdir : list Z → M (vmproc S) Z;
  do_rmdir : list Z → M (vmproc S) Z;
  do_unlink : list Z → M (vmproc S) Z;
  do_link : list Z → list Z → M (vmproc S) Z;
  do_rename : list Z → list Z → M (vmproc S) Z;
  do_chdir : list Z → M (vmproc S) Z;
  do_lseek : Z → Z → Z → M (vmproc S) Z;
  do_open : list Z → Z → M (vmproc S) Z;
  do_stat : list Z → M (vmproc S) (Z * list Z);
  do_pipe : M (vmproc S) (Z * Z * Z);
  (** proc/ and api/exec.c *)
  do_waitpid : Z → Z → M (vmproc S) (Z * Z);
  do_fork : positive → M (vmproc S) Z;
  do_execve : list Z → option (list (option (positive * list Z))) →
    option (list (option (positive * list Z))) → positive → M (vmproc S) Z;
  kthread_exit : Z → M (vmproc S) unit;
  (** [sched_make_runnable(curthr)] and [sched_switch()] *)
  make_curthr_runnable : M (vmproc S) unit;
  sched_switch : M (vmproc S) unit;
  proc_kill_all : M (vmproc S) unit;
  pframe_clean_all : M (vmproc S) unit;
  kt_cancelled : S → bool;
  kt_retval : S → Z;
  p_pid : S → Z;
  (** test/kshell: [kshell_cmds] bounds the commands of a session. *)
  kshell_create : Z → M (vmproc S) (option positive);
  kshell_execute_next : positive → M (vmproc S) Z;
  kshell_destroy : positive → M (vmproc S) unit;
  kshell_cmds : nat;
  (** The saved registers. *)
  r_eax : positive → S → Z;
  r_edx : positive → S → Z;
  set_r_eax : positive → Z → M S unit
}.

Section syscall.
Context `{HE : ErrnoH, HP : PageH, HM : MmanH, HF : FcntlH, HU : FaultH, HA : ArgH, HN : SyscallH}.
Context {S : Type} `{HO : !MmOps S, HS : !SlabOps S, HC : !VmCallOps S, HY : !SysOps S}.
Local Abbreviation V := (vmproc S).
Implicit Types (arg : Z).

Definition errno_ (e : Z) : M V unit := on_sys (set_errno e).

(** Memory that held [old] after [bytes] were stored at its start. *)
Definition filled (bytes old : list Z) : list Z := bytes ++ drop (length bytes) old.

(** [copy_from_user(&kern_args, arg, size)]: the result and what is in [kern_args]
    then. *)
Definition copy_args arg (size : Z) : M V (Z * list Z) :=
  old <- get (λ s, stack_bytes (sys s)) ;;
  ' (r, bytes) <- copy_from_user arg size ;;
  ret (r, filled bytes old).

(** Storing bytes at the start of the page [buf]: more bytes than the page has go
    over what is behind it, and [NULL] is no page. *)
Definition fill_page (buf : option positive) (bytes : list Z) : M V (list Z) :=
  old <- get (λ s, match buf with Some p => page_bytes (sys s) p | None => [] end) ;;
  match bytes with
  | [] => ret old
  | _ => _ <- deref buf ;;
         kassert (Z.of_nat (length bytes) <=? PAGE_SIZE) ;;;
         ret (filled bytes old)
  end.

(** The string in a copy of user memory. *)
Fixpoint c_string (bytes : list Z) : list Z :=
  match bytes with
  | [] => []
  | b :: r => if b =? 0 then [] else b :: c_string r
  end.

Definition handle_error (err : Z) (buf : option positive) : M V Z :=
  on_sys (page_free buf) ;;; errno_ (- err) ;;; ret (-1).

Definition sys_read arg : M V Z :=
  ' (_, kern_args) <- copy_args arg sizeof_read_args ;;
  let '(fd, nbytes) := read_args kern_args in
  temp_buf <- on_sys page_alloc ;;
  ' (num_bytes_read, bytes) <- do_read fd nbytes ;;
  buf <- fill_page temp_buf bytes ;;
  if num_bytes_read <? 0 then handle_error num_bytes_read temp_buf
  else
    ubuf <- load_read_buf arg ;;
    _ <- copy_to_user ubuf buf num_bytes_read ;;
    on_sys (page_free temp_buf) ;;;
    ret num_bytes_read.

Definition sys_write arg : M V Z :=
  ' (_, kern_args) <- copy_args arg sizeof_write_args ;;
  let '(fd, nbytes) := write_args kern_args in
  temp_buf <- on_sys page_alloc ;;
  ubuf <- load_write_buf arg ;;
  unbytes <- load_write_nbytes arg ;;
  ' (_, bytes) <- copy_from_user ubuf unbytes ;;
  buf <- fill_page temp_buf bytes ;;
  num_bytes_write <- do_write fd buf nbytes ;;
  if num_bytes_write <? 0 then handle_error num_bytes_write temp_buf
  else
    on_sys (page_free temp_buf) ;;;
    ret num_bytes_write.

(** The loop of [sys_getdents]: [inl] the error of [do_getdent], or [inr] the number
    of bytes copied.  [cur] is what is in [dir_buf]. *)
Fixpoint getdents_loop (fuel : nat) (fd dirp count : Z) (dir_buf : option positive)
    (cur : list Z) (num_bytes_read : Z) : M V (Z + Z) :=
  if num_bytes_read <? count then
    match fuel with
    | O => out_of_fuel
    | Datatypes.S fuel =>
        ' (temp_bytes_read, ent) <- do_getdent fd ;;
        match ent with [] => ret tt | _ => _ <- deref dir_buf ;; ret tt end ;;;
        let cur := filled ent cur in
        if temp_bytes_read =? 0 then ret (inr num_bytes_read)
        else if temp_bytes_read <? 0 then ret (inl temp_bytes_read)
        else
          _ <- copy_to_user (u32 (dirp + num_bytes_read)) cur sizeof_dirent ;;
          getdents_loop fuel fd dirp count dir_buf cur (u32 (num_bytes_read + sizeof_dirent))
    end
  else ret (inr num_bytes_read).

Definition sys_getdents arg : M V Z :=
  ' (_, kern_args) <- copy_args arg sizeof_getdents_args ;;
  let '(fd, dirp, count) := getdents_args kern_args in
  dir_buf <- on_sys (kmalloc sizeof_dirent) ;;
  cur <- get (λ s, match dir_buf with Some p => kmalloc_bytes (sys s) p | None => [] end) ;;
  r <- getdents_loop (Z.to_nat count) fd dirp count dir_buf cur 0 ;;
  match r with
  | inl err => on_sys (kfree dir_buf) ;;; handle_error err None
  | inr num_bytes_read => on_sys (kfree dir_buf) ;;; ret (s32 num_bytes_read)
  end.

(** [if (err < 0) { curthr->kt_errno = -err; return -1; } else return err;] *)
Definition errno_result (err : Z) : M V Z :=
  if err <? 0 then errno_ (- err) ;;; ret (-1) else ret err.

Definition sys_close (fd : Z) : M V Z := err <- do_close fd ;; errno_result err.
Definition sys_dup (fd : Z) : M V Z := err <- do_dup fd ;; errno_result err.

Definition sys_dup2 arg : M V Z :=
  ' (err, kern_args) <- copy_args arg sizeof_dup2_args ;;
  if err <? 0 then errno_ (- err) ;;; ret (-1)
  else let '(ofd, nfd) := dup2_args kern_args in
       err <- do_dup2 ofd nfd ;; errno_result err.

Definition sys_mkdir arg : M V Z :=
  ' (err, kern_args) <- copy_args arg sizeof_mkdir_args ;;
  if err <? 0 then errno_ (- err) ;;; ret (-1)
  else
    let '(str, len) := mkdir_args kern_args in
    path <- user_strdup str len ;;
    match path with
    | None => errno_ EINVAL ;;; ret (-1)
    | Some (p, bytes) =>
        err <- do_mkdir (c_string bytes) ;; on_sys (kfree (Some p)) ;;; errno_result err
    end.

Definition sys_rmdir arg : M V Z :=
  ' (err, kern_args) <- copy_args arg sizeof_argstr ;;
  if err <? 0 then errno_ (- err) ;;; ret (-1)
  else
    let '(str, len) := argstr kern_args in
    path <- user_strdup str len ;;
    match path with
    | None => errno_ EINVAL ;;; ret (-1)
    | Some (p, bytes) =>
        err <- do_rmdir (c_string bytes) ;; on_sys (kfree (Some p)) ;;; errno_result err
    end.

Definition sys_unlink arg : M V Z :=
  ' (err, kern_args) <- copy_args arg sizeof_argstr ;;
  if err <? 0 then errno_ (- err) ;;; ret (-1)
  else
    let '(str, len) := argstr kern_args in
    path <- user_strdup str len ;;
    match path with
    | None => errno_ EINVAL ;;; ret (-1)
    | Some (p, bytes) =>
        err <- do_unlink (c_string bytes) ;; on_sys (kfree (Some p)) ;;; errno_result err
    end.

Definition sys_link arg : M V Z :=
  ' (err, kern_args) <- copy_args arg sizeof_link_args ;;
  if err <? 0 then errno_ (- err) ;;; ret (-1)
  else
    let '((to_str, to_len), (from_str, from_len)) := link_args kern_args in
    to <- user_strdup to_str to_len ;;
    match to with
    | None => errno_ EINVAL ;;; ret (-1)
    | Some (pt, bto) =>
        from <- user_strdup from_str from_len ;;
        match from with
        | None => errno_ EINVAL ;;; on_sys (kfree (Some pt)) ;;; ret (-1)
        | Some (pf, bfrom) =>
            err <- do_link (c_string bfrom) (c_string bto) ;;
            on_sys (kfree (Some pt)) ;;; on_sys (kfree (Some pf)) ;;; errno_result err
        end
    end.

Definition sys_rename arg : M V Z :=
  ' (err, kern_args) <- copy_args arg sizeof_rename_args ;;
  if err <? 0 then errno_ (- err) ;;; ret (-1)
  else
    let '((old_str, old_len), (new_str, new_len)) := rename_args kern_args in
    oldname <- user_strdup old_str old_len ;;
    match oldname with
    | None => errno_ EINVAL ;;; ret (-1)
    | Some (po, bold) =>
        newname <- user_strdup new_str new_len ;;
        match newname with
        | None => errno_ EINVAL ;;; on_sys (kfree (Some po)) ;;; ret (-1)
        | Some (pn, bnew) =>
            err <- do_rename (c_string bold) (c_string bnew) ;;
            on_sys (kfree (Some pn)) ;;; on_sys (kfree (Some po)) ;;; errno_result err
        end
    end.

Definition sys_chdir arg : M V Z :=
  ' (err, kern_args) <- copy_args arg sizeof_argstr ;;
  if err <? 0 then errno_ (- err) ;;; ret (-1)
  else
    let '(str, len) := argstr kern_args in
    path <- user_strdup str len ;;
    match path with
    | None => errno_ EINVAL ;;; ret (-1)
    | Some (p, bytes) =>
        err <- do_chdir (c_string bytes) ;; on_sys (kfree (Some p)) ;;; errno_result err
    end.

Definition sys_lseek arg : M V Z :=
  ' (err, kargs) <- copy_args arg sizeof_lseek_args ;;
  if err <? 0 then errno_ (- err) ;;; ret (-1)
  else let '(fd, offset, whence) := lseek_args kargs in
       err <- do_lseek fd offset whence ;; errno_result err.

Definition sys_open arg : M V Z :=
  ' (err, kern_args) <- copy_args arg sizeof_open_args ;;
  if err <? 0 then errno_ (- err) ;;; ret (-1)
  else
    let '((str, len), flags) := open_args kern_args in
    path <- user_strdup str len ;;
    match path with
    | None => errno_ EINVAL ;;; ret (-1)
    | Some (p, bytes) =>
        err <- do_open (c_string bytes) flags ;; on_sys (kfree (Some p)) ;;; errno_result err
    end.

Definition sys_munmap arg : M V Z :=
  ' (err, kargs) <- copy_args arg sizeof_munmap_args ;;
  if negb (err =? 0) then errno_ EFAULT ;;; ret (-1)
  else
    let '(addr, len) := munmap_args kargs in
    err <- do_munmap addr len ;;
    if err <? 0 then errno_ (- err) ;;; ret (-1) else ret 0.

(** [ret] holds what is on the stack unless [do_mmap] stores the address there. *)
Definition sys_mmap arg : M V Z :=
  ' (err, kargs) <- copy_args arg sizeof_mmap_args ;;
  if err <? 0 then errno_ EFAULT ;;; ret MAP_FAILED
  else
    let '(addr, len, prot, flags, fd, off) := mmap_args kargs in
    ' (err, r) <- do_mmap addr len prot flags fd off ;;
    if err <? 0 then errno_ (- err) ;;; ret MAP_FAILED
    else deref r.

Definition sys_waitpid arg : M V Z :=
  ' (err, kargs) <- copy_args arg sizeof_waitpid_args ;;
  if err <? 0 then errno_ EFAULT ;;; ret (-1)
  else
    let '(wpa_pid, wpa_options, wpa_status) := waitpid_args kargs in
    ' (p, s) <- do_waitpid wpa_pid wpa_options ;;
    if p <? 0 then errno_ (- p) ;;; ret (-1)
    else if wpa_status =? 0 then ret p
    else
      err <- copy_to_user wpa_status (int_bytes s) sizeof_int ;;
      if err <? 0 then errno_ EFAULT ;;; ret (-1) else ret p.

Definition sys_brk (addr : Z) : M V Z :=
  ' (err, r) <- do_brk addr ;;
  if err =? 0 then deref r else errno_ (- err) ;;; ret (-1).

Definition sys_sync : M V unit := pframe_clean_all.
Definition sys_halt : M V unit := proc_kill_all.

Definition sys_stat arg : M V Z :=
  ' (err, kern_args) <- copy_args arg sizeof_stat_args ;;
  if err <? 0 then errno_ EFAULT ;;; ret (-1)
  else
    let '((str, len), ubuf) := stat_args kern_args in
    path <- user_strdup str len ;;
    match path with
    | None => errno_ EINVAL ;;; ret (-1)
    | Some (p, bytes) =>
        ' (r, buf) <- do_stat (c_string bytes) ;;
        r <- (if r =? 0 then copy_to_user ubuf buf sizeof_stat else ret r) ;;
        if negb (r =? 0) then on_sys (kfree (Some p)) ;;; errno_ (- r) ;;; ret (-1)
        else on_sys (kfree (Some p)) ;;; ret 0
    end.

Definition sys_pipe arg : M V Z :=
  ' (r, fd0, fd1) <- do_pipe ;;
  r <- (if r =? 0 then copy_to_user arg (int_bytes fd0 ++ int_bytes fd1) (2 * sizeof_int)
        else ret r) ;;
  if negb (r =? 0) then errno_ (- r) ;;; ret (-1) else ret 0.

(** "Weenix" and "1.2" with their terminating zero. *)
Definition sysname_str : list Z := [87; 101; 101; 110; 105; 120; 0].
Definition release_str : list Z := [49; 46; 50; 0].

(** The copies of [sys_uname] one after the other, up to the first that fails. *)
Fixpoint uname_copies (l : list (Z * list Z)) : M V Z :=
  match l with
  | [] => ret 0
  | (addr, str) :: l =>
      r <- copy_to_user addr str (Z.of_nat (length str)) ;;
      if negb (r =? 0) then errno_ (- r) ;;; ret (-1) else uname_copies l
  end.

Definition sys_uname arg : M V Z :=
  uname_copies [(u32 (arg + uts_sysname), sysname_str); (u32 (arg + uts_release), release_str);
    (u32 (arg + uts_version), version_str); (u32 (arg + uts_nodename), [0]);
    (u32 (arg + uts_machine), [0])].

Definition sys_fork (regs : positive) : M V Z :=
  r <- do_fork regs ;; if r <? 0 then errno_ (- r) ;;; ret (-1) else ret r.

(** A vector of strings: the pointers up to the first [NULL]. *)
Definition free_vector (vect : positive) (arr : list (option (positive * list Z))) : M V unit :=
  vecdup_free arr ;;; on_sys (kfree (Some vect)).

(** [argv] and [envp]: copied if there is a vector, [inl] on [goto cleanup]. *)
Definition execve_vec (av : Z * Z)
    : M V (unit + option (positive * list (option (positive * list Z)))) :=
  if negb (av.1 =? 0) then
    v <- user_vecdup av.1 av.2 ;;
    match v with None => ret (inl tt) | Some v => ret (inr (Some v)) end
  else ret (inr None).

(** The code at the label [cleanup]. *)
Definition execve_cleanup (filename : option positive)
    (argv envp : option (positive * list (option (positive * list Z)))) : M V Z :=
  match filename with Some p => on_sys (kfree (Some p)) | None => ret tt end ;;;
  match argv with Some (p, arr) => free_vector p arr | None => ret tt end ;;;
  match envp with Some (p, arr) => free_vector p arr | None => ret tt end ;;;
  e <- get (λ s, kt_errno (sys s)) ;;
  if negb (e =? 0) then ret (-1) else ret 0.

Definition sys_execve arg (regs : positive) : M V Z :=
  ' (err, kern_args) <- copy_args arg sizeof_execve_args ;;
  if err <? 0 then errno_ (- err) ;;; execve_cleanup None None None
  else
    let '((str, len), argv, envp) := execve_args kern_args in
    filename <- user_strdup str len ;;
    match filename with
    | None => execve_cleanup None None None
    | Some (pf, bytes) =>
        kern_argv <- execve_vec argv ;;
        match kern_argv with
        | inl _ => execve_cleanup (Some pf) None None
        | inr kern_argv =>
            kern_envp <- execve_vec envp ;;
            match kern_envp with
            | inl _ => execve_cleanup (Some pf) kern_argv None
            | inr kern_envp =>
                err <- do_execve (c_string bytes) (snd <$> kern_argv) (snd <$> kern_envp) regs ;;
                errno_ (- err) ;;;
                execve_cleanup (Some pf) kern_argv kern_envp
            end
        end
    end.

Definition sys_debug arg : M V Z :=
  ' (err, kern_args) <- copy_args arg sizeof_argstr ;;
  if err <? 0 then errno_ (- err) ;;; ret (-1)
  else
    let '(str, len) := argstr kern_args in
    message <- user_strdup str len ;;
    on_sys (kfree (fst <$> message)) ;;;
    ret 0.

(** [while ((err = kshell_execute_next(ksh)) > 0);] *)
Fixpoint kshell_loop (fuel : nat) (ksh : positive) : M V Z :=
  err <- kshell_execute_next ksh ;;
  if err >? 0 then
    match fuel with O => out_of_fuel | Datatypes.S fuel => kshell_loop fuel ksh end
  else ret err.

Definition sys_kshell (ttyid : Z) : M V Z :=
  ksh <- kshell_create ttyid ;;
  match ksh with
  | None => errno_ ENODEV ;;; ret (-1)
  | Some ksh =>
      err <- kshell_loop kshell_cmds ksh ;;
      kshell_destroy ksh ;;;
      if err <? 0 then errno_ (- err) ;;; ret (-1) else ret 0
  end.

Definition syscall_dispatch (sysnum args : Z) (regs : positive) : M V Z :=
  if sysnum =? SYS_waitpid then sys_waitpid args
  else if sysnum =? SYS_exit then on_sys (do_exit (s32 args)) ;;; panic
  else if sysnum =? SYS_thr_exit then kthread_exit args ;;; panic
  else if sysnum =? SYS_thr_yield then make_curthr_runnable ;;; sched_switch ;;; ret 0
  else if sysnum =? SYS_fork then sys_fork regs
  else if sysnum =? SYS_getpid then get (λ s, p_pid (sys s))
  else if sysnum =? SYS_sync then sys_sync ;;; ret 0
  else if sysnum =? SYS_mmap then r <- sys_mmap args ;; ret (s32 r)
  else if sysnum =? SYS_munmap then sys_munmap args
  else if sysnum =? SYS_open then sys_open args
  else if sysnum =? SYS_close then sys_close (s32 args)
  else if sysnum =? SYS_read then sys_read args
  else if sysnum =? SYS_write then sys_write args
  else if sysnum =? SYS_dup then sys_dup (s32 args)
  else if sysnum =? SYS_dup2 then sys_dup2 args
  else if sysnum =? SYS_mkdir then sys_mkdir args
  else if sysnum =? SYS_rmdir then sys_rmdir args
  else if sysnum =? SYS_unlink then sys_unlink args
  else if sysnum =? SYS_link then sys_link args
  else if sysnum =? SYS_rename then sys_rename args
  else if sysnum =? SYS_chdir then sys_chdir args
  else if sysnum =? SYS_getdents then sys_getdents args
  else if sysnum =? SYS_brk then r <- sys_brk args ;; ret (s32 r)
  else if sysnum =? SYS_lseek then sys_lseek args
  else if sysnum =? SYS_halt then sys_halt ;;; ret (-1)
  else if sysnum =? SYS_set_errno then errno_ (s32 args) ;;; ret 0
  else if sysnum =? SYS_errno then get (λ s, kt_errno (sys s))
  else if sysnum =? SYS_execve then sys_execve args regs
  else if sysnum =? SYS_stat then sys_stat args
  else if sysnum =? SYS_pipe then sys_pipe args
  else if sysnum =? SYS_uname then sys_uname args
  else if sysnum =? SYS_debug then sys_debug args
  else if sysnum =? SYS_kshell then sys_kshell (s32 args)
  else errno_ ENOSYS ;;; ret (-1).

(** A cancelled thread exits with the value it was cancelled with. *)
Definition exit_if_cancelled : M V unit :=
  c <- get (λ s, kt_cancelled (sys s)) ;;
  if (c : bool) then v <- get (λ s, kt_retval (sys s)) ;; kthread_exit v else ret tt.

Definition syscall_handler (regs : positive) : M V unit :=
  sysnum <- get (λ s, r_eax regs (sys s)) ;;
  args <- get (λ s, r_edx regs (sys s)) ;;
  exit_if_cancelled ;;;
  r <- syscall_dispatch (u32 sysnum) (u32 args) regs ;;
  exit_if_cancelled ;;;
  on_sys (set_r_eax regs r).
End syscall.
