(* ===== verification/SyscallBufs.v ===== *)
(** * System calls free the kernel memory they allocate

    An inventory of the memory that the running system call has allocated and not
    yet freed, each piece with the allocator it comes from, followed through the
    [sys_*] functions.  Only memory of the inventory may be freed, and only by the
    function of its own allocator. *)
From S2P Require Import Prelude Headers Vmmap VmCalls Syscall.
Local Open Scope kernel_scope.

(** The memory system, the file system and the other calls leave the inventory
    alone, also across a context switch; allocators add to it, and [kfree] and
    [page_free] remove from it what is in it. *)
Definition quiet {T A : Type} (bufs : T → gset buf) (m : M T A) : Prop :=
  ∀ B, keeps (λ _ t, bufs t = B) (λ t, bufs t = B) m.

(** [owns bufs B m Q]: started with the inventory [B], [m] returns with a result and
    an inventory that satisfy [Q]. *)
Definition owns {T A : Type} (bufs : T → gset buf) (B : gset buf) (m : M T A)
    (Q : A → gset buf → Prop) : Prop :=
  ∀ s, bufs s = B → rwp True (λ _ _, True) (λ _ s s', bufs s' = bufs s)
                      (λ a s', Q a (bufs s')) (m s).

(** The inventory is what it was. *)
Definition kept {A : Type} (B : gset buf) (_ : A) (B' : gset buf) : Prop := B' = B.

Section owns.
Context {T : Type} (bufs : T → gset buf).

Lemma owns_bind {A A'} B (m : M T A) (f : A → M T A') Q Q' :
  owns bufs B m Q → (∀ a B', Q a B' → owns bufs B' (f a) Q') → owns bufs B (bind m f) Q'.
Proof.
  intros Hm Hf s Hs. apply rwp_bind. eapply rwp_mono; [by apply Hm|].
  intros a s' Hs'. exact (Hf a (bufs s') Hs' s' eq_refl).
Qed.

Lemma owns_quiet {A} B (m : M T A) : quiet bufs m → owns bufs B m (kept B).
Proof.
  intros Hm s Hs. pose proof (Hm B s Hs) as Hr. revert Hr. generalize (m s) as r. fix IH 1.
  intros [a s'| | |w s' k]; simpl; [done|done|done|]. intros [Hw Hk]. split; [done|].
  intros s'' Hs''. apply IH, Hk. congruence.
Qed.

Lemma owns_ret {A : Type} B (a : A) (Q : A → gset buf → Prop) : Q a B → owns bufs B (ret a) Q.
Proof. intros HQ s Hs. simpl. by rewrite Hs. Qed.

Lemma quiet_bind {A A'} (m : M T A) (f : A → M T A') :
  quiet bufs m → (∀ a, quiet bufs (f a)) → quiet bufs (bind m f).
Proof. intros Hm Hf B. apply keeps_bind; [apply Hm|]. intros a. apply Hf. Qed.
Lemma quiet_ret {A} (a : A) : quiet bufs (ret a).
Proof. intros B. apply keeps_ret. Qed.
Lemma quiet_get {A} (f : T → A) : quiet bufs (get f).
Proof. intros B. apply keeps_get. Qed.
Lemma quiet_deref {A} (o : option A) : quiet bufs (deref o).
Proof. intros B. apply keeps_deref. Qed.
Lemma quiet_kassert b : quiet bufs (kassert b).
Proof. intros B. apply keeps_kassert. Qed.
Lemma quiet_panic {A} : quiet (A:=A) bufs panic.
Proof. intros B. apply keeps_panic. Qed.
Lemma quiet_out_of_fuel {A} : quiet (A:=A) bufs out_of_fuel.
Proof. intros B. apply keeps_out_of_fuel. Qed.
Lemma quiet_modify f : (∀ s, bufs (f s) = bufs s) → quiet bufs (modify f).
Proof. intros Hf B. apply keeps_modify. intros s <-. apply Hf. Qed.
End owns.

Lemma quiet_zoom {S T A} bufs (g : T → S) (st : S → T → T) (m : M S A) :
  (∀ s t, g (st s t) = s) → quiet bufs m → quiet (λ t, bufs (g t)) (zoom g st m).
Proof. intros Hg Hm B. eapply keeps_zoom; [..|apply (Hm B)]; simpl; intros; by rewrite ?Hg. Qed.

Lemma owns_zoom {S T A} bufs (g : T → S) (st : S → T → T) B (m : M S A) Q :
  (∀ s t, g (st s t) = s) → owns bufs B m Q → owns (λ t, bufs (g t)) B (zoom g st m) Q.
Proof.
  intros Hg Hm t Ht. unfold zoom. pose proof (Hm (g t) Ht) as Hr. clear Ht. revert Hr.
  generalize (m (g t)) as r. intros r. revert r t. fix IH 1.
  intros [a s'| | |w s' k] t; simpl; [by rewrite Hg|done|done|].
  intros [_ Hk]. split; [done|]. intros t' Ht'. apply IH, Hk. rewrite Ht'. by rewrite Hg.
Qed.

Create HintDb quiet.
#[export] Hint Resolve quiet_ret quiet_get quiet_deref quiet_kassert quiet_panic
  quiet_out_of_fuel : quiet.

(** Walks through code that leaves the inventory alone. *)
Ltac quiet_step :=
  first
    [ solve [eauto with quiet]
    | apply quiet_bind; [|intros ?]
    | match goal with |- quiet _ (match ?x with _ => _ end) => destruct x end ].
Ltac quiet := repeat quiet_step.

(** What the callees promise about the inventory.  Nothing is known of freeing memory
    that is not in use, or that the other allocator gave: a second free, or a free by
    the wrong function, leaves a call without a specification.  Freeing [NULL] frees
    nothing ([sys_getdents] passes it to [page_free] on its error path). *)
Class BufLaws {S : Type} `{MmOps S, !VmCallOps S, !SysOps S} (bufs : S → gset buf) := {
  kmalloc_owns B n : owns bufs B (kmalloc n) (λ r B',
    match r with
    | None => B' = B
    | Some p => (Kmalloced, p) ∉ B ∧ B' = {[(Kmalloced, p)]} ∪ B
    end);
  kfree_owns B p : (Kmalloced, p) ∈ B →
    owns bufs B (kfree (Some p)) (λ _ B', B' = B ∖ {[(Kmalloced, p)]});
  kfree_null B : owns bufs B (kfree None) (kept B);
  page_alloc_owns B : owns bufs B page_alloc (λ r B',
    match r with
    | None => B' = B
    | Some p => (Paged, p) ∉ B ∧ B' = {[(Paged, p)]} ∪ B
    end);
  page_free_owns B p : (Paged, p) ∈ B →
    owns bufs B (page_free (Some p)) (λ _ B', B' = B ∖ {[(Paged, p)]});
  page_free_null B : owns bufs B (page_free None) (kept B);
  set_errno_quiet e : quiet bufs (set_errno e);
  set_r_eax_quiet r v : quiet bufs (set_r_eax r v);
  fget_quiet fd : quiet bufs (fget fd);
  fput_quiet f : quiet bufs (fput f);
  ref_quiet o : quiet bufs (mmo_ref o);
  put_quiet o : quiet bufs (mmo_put o);
  lookuppage_quiet o pn w : quiet bufs (mmo_lookuppage o pn w);
  vmas_insert_quiet o v : quiet bufs (mmo_vmas_insert_tail o v);
  vmas_remove_quiet v : quiet bufs (mmo_vmas_remove v);
  anon_create_quiet : quiet bufs anon_create;
  shadow_create_quiet : quiet bufs shadow_create;
  set_shadowed_quiet o p : quiet bufs (mmo_set_shadowed o p);
  set_bottom_quiet o p : quiet bufs (mmo_set_bottom_obj o p);
  bottom_quiet o : quiet bufs (mmobj_bottom_obj o);
  vn_mmap_quiet f v : quiet bufs (vn_mmap f v);
  pf_read_quiet p off n : quiet bufs (pf_read p off n);
  pf_write_quiet p off bs : quiet bufs (pf_write p off bs);
  dirty_quiet p : quiet bufs (pframe_dirty p);
  tlb_flush_all_quiet : quiet bufs tlb_flush_all;
  unmap_quiet lo hi : quiet bufs (pt_unmap_range lo hi);
  do_exit_quiet e : quiet bufs (VmCalls.do_exit e);
  load_read_buf_quiet a : quiet (λ s, bufs (sys s)) (load_read_buf a);
  load_write_buf_quiet a : quiet (λ s, bufs (sys s)) (load_write_buf a);
  load_write_nbytes_quiet a : quiet (λ s, bufs (sys s)) (load_write_nbytes a);
  do_read_quiet fd n : quiet (λ s, bufs (sys s)) (do_read fd n);
  do_write_quiet fd b n : quiet (λ s, bufs (sys s)) (do_write fd b n);
  do_getdent_quiet fd : quiet (λ s, bufs (sys s)) (do_getdent fd);
  do_close_quiet fd : quiet (λ s, bufs (sys s)) (do_close fd);
  do_dup_quiet fd : quiet (λ s, bufs (sys s)) (do_dup fd);
  do_dup2_quiet a b : quiet (λ s, bufs (sys s)) (do_dup2 a b);
  do_mkdir_quiet p : quiet (λ s, bufs (sys s)) (do_mkdir p);
  do_rmdir_quiet p : quiet (λ s, bufs (sys s)) (do_rmdir p);
  do_unlink_quiet p : quiet (λ s, bufs (sys s)) (do_unlink p);
  do_link_quiet p q : quiet (λ s, bufs (sys s)) (do_link p q);
  do_rename_quiet p q : quiet (λ s, bufs (sys s)) (do_rename p q);
  do_chdir_quiet p : quiet (λ s, bufs (sys s)) (do_chdir p);
  do_lseek_quiet a b c : quiet (λ s, bufs (sys s)) (do_lseek a b c);
  do_open_quiet p f : quiet (λ s, bufs (sys s)) (do_open p f);
  do_stat_quiet p : quiet (λ s, bufs (sys s)) (do_stat p);
  do_pipe_quiet : quiet (λ s, bufs (sys s)) do_pipe;
  do_waitpid_quiet p o : quiet (λ s, bufs (sys s)) (do_waitpid p o);
  do_fork_quiet r : quiet (λ s, bufs (sys s)) (do_fork r);
  kthread_exit_quiet v : quiet (λ s, bufs (sys s)) (kthread_exit v);
  runnable_quiet : quiet (λ s, bufs (sys s)) make_curthr_runnable;
  switch_quiet : quiet (λ s, bufs (sys s)) sched_switch;
  kill_all_quiet : quiet (λ s, bufs (sys s)) proc_kill_all;
  clean_all_quiet : quiet (λ s, bufs (sys s)) pframe_clean_all;
  kshell_create_quiet t : quiet (λ s, bufs (sys s)) (kshell_create t);
  kshell_next_quiet k : quiet (λ s, bufs (sys s)) (kshell_execute_next k);
  kshell_destroy_quiet k : quiet (λ s, bufs (sys s)) (kshell_destroy k)
}.
#[export] Hint Resolve set_errno_quiet set_r_eax_quiet fget_quiet fput_quiet ref_quiet put_quiet
  lookuppage_quiet vmas_insert_quiet vmas_remove_quiet anon_create_quiet shadow_create_quiet
  set_shadowed_quiet set_bottom_quiet bottom_quiet vn_mmap_quiet pf_read_quiet pf_write_quiet
  dirty_quiet tlb_flush_all_quiet unmap_quiet do_exit_quiet load_read_buf_quiet
  load_write_buf_quiet load_write_nbytes_quiet do_read_quiet do_write_quiet do_getdent_quiet
  do_close_quiet do_dup_quiet do_dup2_quiet do_mkdir_quiet do_rmdir_quiet do_unlink_quiet
  do_link_quiet do_rename_quiet do_chdir_quiet do_lseek_quiet do_open_quiet do_stat_quiet
  do_pipe_quiet do_waitpid_quiet do_fork_quiet kthread_exit_quiet runnable_quiet switch_quiet
  kill_all_quiet clean_all_quiet kshell_create_quiet kshell_next_quiet kshell_destroy_quiet : quiet.

Section calls.
Context `{HE : ErrnoH, HP : PageH, HM : MmanH, HF : FcntlH, HU : FaultH, HA : ArgH, HN : SyscallH}.
Context {S : Type} `{HO : !MmOps S, HS : !SlabOps S, HC : !VmCallOps S, HY : !SysOps S}.
Context (bufs : S → gset buf) `{HB : !BufLaws bufs}.
Local Abbreviation vbufs := (λ x : vm S, bufs (mm x)).
Local Abbreviation kbufs := (λ s : vmproc S, bufs (sys s)).

Lemma quiet_on_mm {A} (m : M S A) : quiet bufs m → quiet vbufs (on_mm m).
Proof. by apply quiet_zoom. Qed.
Lemma quiet_on_vm {A} (m : M (vm S) A) : quiet vbufs m → quiet kbufs (on_vm m).
Proof. by apply (quiet_zoom vbufs vms). Qed.
Lemma quiet_on_sys {A} (m : M S A) : quiet bufs m → quiet kbufs (on_sys m).
Proof. intros Hm. by apply quiet_on_vm, quiet_on_mm. Qed.
Lemma owns_on_sys {A} B (m : M S A) Q : owns bufs B m Q → owns kbufs B (on_sys m) Q.
Proof.
  intros Hm. apply (owns_zoom vbufs vms); [done|]. by apply (owns_zoom bufs mm).
Qed.
Lemma quiet_read {T A : Type} (b : T → gset buf) (f : T → option A) : quiet b (λ s, deref (f s) s).
Proof. intros B s Hs. by destruct (f s). Qed.

Local Hint Resolve quiet_on_mm quiet_on_vm quiet_on_sys : quiet.
Local Hint Extern 1 (quiet _ (vma_get _)) => apply quiet_read : quiet.
Local Hint Extern 1 (quiet _ (map_get _)) => apply quiet_read : quiet.
Local Hint Extern 1 (quiet _ (vmm_areas _)) => apply quiet_read : quiet.
Local Hint Extern 1 (quiet _ cur_map) => apply quiet_read : quiet.
Local Hint Extern 1 (quiet _ (vma_upd _ _)) => by apply quiet_modify : quiet.
Local Hint Extern 1 (quiet _ (map_upd _ _)) => by apply quiet_modify : quiet.
Local Hint Extern 1 (quiet _ (set_brk _)) => by apply quiet_modify : quiet.

(** ** vmmap.c *)

Lemma vmarea_alloc_quiet : quiet vbufs vmarea_alloc.
Proof. intros B s Hs. unfold vmarea_alloc. by destruct (vmarea_slab s). Qed.
Local Hint Resolve vmarea_alloc_quiet : quiet.

Lemma vmmap_insert_quiet map v : quiet vbufs (vmmap_insert map v).
Proof. unfold vmmap_insert. quiet. Qed.
Lemma vmmap_lookup_quiet map v : quiet vbufs (vmmap_lookup map v).
Proof. unfold vmmap_lookup. quiet. Qed.
Lemma is_range_empty_quiet map lo n : quiet vbufs (vmmap_is_range_empty map lo n).
Proof. unfold vmmap_is_range_empty. quiet. Qed.
Lemma find_range_quiet map n dir : quiet vbufs (vmmap_find_range map n dir).
Proof. unfold vmmap_find_range. quiet. Qed.
Local Hint Resolve vmmap_insert_quiet vmmap_lookup_quiet is_range_empty_quiet find_range_quiet : quiet.

Lemma remove_body_quiet map lo n p : quiet vbufs (vmmap_remove_body map lo n p).
Proof.
  unfold vmmap_remove_body, remove_case1, remove_case2, remove_case3, remove_case4,
    plink_remove, olink_remove, vmarea_free. quiet; by apply quiet_modify.
Qed.

Lemma iterate_quiet fuel map body : ∀ cur,
  (∀ p, quiet vbufs (body p)) → quiet vbufs (vmm_iterate fuel map body cur).
Proof.
  induction fuel as [|fuel IH]; intros [cur|] Hb; simpl; quiet; auto.
Qed.

Lemma vmmap_remove_quiet map lo n : quiet vbufs (vmmap_remove map lo n).
Proof.
  unfold vmmap_remove. quiet. apply iterate_quiet. intros p. apply remove_body_quiet.
Qed.
Local Hint Resolve vmmap_remove_quiet : quiet.

Lemma vmmap_map_quiet map f lo n pr fl off d b : quiet vbufs (vmmap_map map f lo n pr fl off d b).
Proof. unfold vmmap_map, map_new_vma, map_set_obj. quiet. Qed.

Lemma read_loop_quiet fuel map n e : ∀ cur d, quiet vbufs (vmmap_read_loop fuel map n e cur d).
Proof. induction fuel as [|fuel IH]; intros cur d; simpl; quiet. Qed.
Lemma write_loop_quiet fuel map b n e : ∀ cur d, quiet vbufs (vmmap_write_loop fuel map b n e cur d).
Proof. induction fuel as [|fuel IH]; intros cur d; simpl; quiet. Qed.
Local Hint Resolve vmmap_map_quiet read_loop_quiet write_loop_quiet : quiet.

(** ** access.c, brk.c and mmap.c *)

Lemma range_perm_loop_quiet k p : ∀ pn, quiet kbufs (range_perm_loop k pn p).
Proof. induction k as [|k IH]; intros pn; simpl; unfold addr_perm; quiet. Qed.
Lemma range_perm_quiet a n p : quiet kbufs (range_perm a n p).
Proof. apply range_perm_loop_quiet. Qed.
Local Hint Resolve range_perm_quiet : quiet.

Lemma copy_from_user_quiet a n : quiet kbufs (copy_from_user a n).
Proof. unfold copy_from_user, vmmap_read. quiet; apply quiet_on_vm; quiet. Qed.
Lemma copy_to_user_quiet a b n : quiet kbufs (copy_to_user a b n).
Proof. unfold copy_to_user, vmmap_write. quiet; apply quiet_on_vm; quiet. Qed.
Lemma do_brk_quiet a : quiet kbufs (do_brk a).
Proof. unfold do_brk, validate_brk_addr, expand_brk. quiet. Qed.
Lemma do_munmap_quiet a n : quiet kbufs (do_munmap a n).
Proof. unfold do_munmap. quiet. Qed.
Lemma do_mmap_quiet a n p f fd off : quiet kbufs (do_mmap a n p f fd off).
Proof. unfold do_mmap, handle_file_related_tasks, mmap_finish. quiet. Qed.
Local Hint Resolve copy_from_user_quiet copy_to_user_quiet do_brk_quiet do_munmap_quiet
  do_mmap_quiet : quiet.

(** ** syscall.c *)

Lemma errno_quiet e : quiet kbufs (errno_ e).
Proof. unfold errno_. quiet. Qed.
Lemma copy_args_quiet a n : quiet kbufs (copy_args a n).
Proof. unfold copy_args. quiet. Qed.
Lemma fill_page_quiet b l : quiet kbufs (fill_page b l).
Proof. unfold fill_page. quiet. Qed.
Local Hint Resolve errno_quiet copy_args_quiet fill_page_quiet : quiet.
Lemma errno_result_quiet e : quiet kbufs (errno_result e).
Proof. unfold errno_result. quiet. Qed.
Local Hint Resolve errno_result_quiet : quiet.

(** Steps over code that leaves the inventory alone. *)
Ltac owns_quiet := eapply owns_bind; [apply owns_quiet; solve [quiet]|intros ? ? ->].

(** A buffer that is the caller's to free. *)
Definition one_more (b : buf) (B B' : gset buf) : Prop := b ∉ B ∧ B' = {[b]} ∪ B.

Lemma one_more_free b B B' : one_more b B B' → B' ∖ {[b]} = B ∧ b ∈ B'.
Proof. intros [? ->]. set_solver. Qed.

Lemma owns_kfree p B B' :
  one_more (Kmalloced, p) B B' → owns kbufs B' (on_sys (kfree (Some p))) (kept B).
Proof.
  intros Hp. apply owns_on_sys. destruct (one_more_free _ _ _ Hp) as [<- Hin]. by apply kfree_owns.
Qed.

(** The string copied by [user_strdup], if any. *)
Definition str_owned (B : gset buf) (r : option (positive * list Z)) (B' : gset buf) : Prop :=
  match r with None => B' = B | Some (p, _) => one_more (Kmalloced, p) B B' end.

Lemma user_strdup_owns B a n : owns kbufs B (user_strdup a n) (str_owned B).
Proof.
  unfold user_strdup. eapply owns_bind; [apply owns_on_sys, kmalloc_owns|].
  intros [p|] B' HB'; [|subst; owns_quiet; by apply owns_ret].
  owns_quiet. destruct a0 as [r bytes]. destruct (r <? 0).
  - owns_quiet. eapply owns_bind; [by apply (owns_kfree p B)|]. intros ? ? ->. by apply owns_ret.
  - by apply owns_ret.
Qed.

(** The rest of a call once its result is known: the copy is freed. *)
Lemma free_after {A} p B B' (m : M (vmproc S) A) (f : A → M (vmproc S) Z) :
  one_more (Kmalloced, p) B B' → quiet kbufs m → (∀ a, quiet kbufs (f a)) →
  owns kbufs B' (err <- m ;; on_sys (kfree (Some p)) ;;; f err) (kept B).
Proof.
  intros Hp Hm Hf. eapply owns_bind; [by apply owns_quiet|]. intros a ? ->.
  eapply owns_bind; [by apply (owns_kfree p B)|]. intros ? ? ->. by apply owns_quiet.
Qed.

(** The arguments are copied and checked. *)
Ltac owns_args :=
  owns_quiet;
  match goal with a : (Z * list Z)%type |- _ => destruct a as [? ?] end;
  match goal with |- owns _ _ (if ?b then _ else _) _ => destruct b end;
  [apply owns_quiet; solve [quiet]|];
  repeat match goal with |- owns _ _ (match ?x with _ => _ end) _ => destruct x end.
(** A string is copied from user memory; without one the call fails. *)
Ltac owns_str :=
  eapply owns_bind; [apply user_strdup_owns|];
  intros [[? ?]|] ? ?; [|simpl in *; subst].
(** A call with a path. *)
Ltac owns_path := owns_args; owns_str; [by apply free_after; solve [quiet]|apply owns_quiet; solve [quiet]].

Lemma sys_mkdir_owns B a : owns kbufs B (sys_mkdir a) (kept B).
Proof. unfold sys_mkdir. owns_path. Qed.
Lemma sys_rmdir_owns B a : owns kbufs B (sys_rmdir a) (kept B).
Proof. unfold sys_rmdir. owns_path. Qed.
Lemma sys_unlink_owns B a : owns kbufs B (sys_unlink a) (kept B).
Proof. unfold sys_unlink. owns_path. Qed.
Lemma sys_chdir_owns B a : owns kbufs B (sys_chdir a) (kept B).
Proof. unfold sys_chdir. owns_path. Qed.
Lemma sys_open_owns B a : owns kbufs B (sys_open a) (kept B).
Proof. unfold sys_open. owns_path. Qed.

(** Two strings, freed in either order. *)
Lemma free_two p q B B1 B2 (m : M (vmproc S) Z) (x y : positive) :
  one_more (Kmalloced, p) B B1 → one_more (Kmalloced, q) B1 B2 →
  (x = p ∧ y = q) ∨ (x = q ∧ y = p) → quiet kbufs m →
  owns kbufs B2 (err <- m ;; on_sys (kfree (Some x)) ;;; on_sys (kfree (Some y)) ;;;
                 errno_result err) (kept B).
Proof.
  intros [Hp ->] [Hq ->] Hxy Hm. eapply owns_bind; [by apply owns_quiet|]. intros a ? ->.
  eapply owns_bind; [apply owns_on_sys, kfree_owns; destruct Hxy as [[-> ->]|[-> ->]]; set_solver|].
  intros ? ? ->.
  eapply owns_bind; [apply owns_on_sys, kfree_owns; destruct Hxy as [[-> ->]|[-> ->]]; set_solver|].
  intros ? ? ->.
  eassert (_ ∖ _ ∖ _ = B) as ->; [|apply owns_quiet; quiet].
  destruct Hxy as [[-> ->]|[-> ->]]; set_solver.
Qed.

Ltac owns_two :=
  owns_args; owns_str; [owns_str|apply owns_quiet; solve [quiet]].

Lemma sys_link_owns B a : owns kbufs B (sys_link a) (kept B).
Proof.
  unfold sys_link. owns_two.
  - eapply free_two; [done|done|by auto|quiet].
  - owns_quiet. eapply owns_bind; [by apply (owns_kfree p B)|]. intros ? ? ->. by apply owns_ret.
Qed.

Lemma sys_rename_owns B a : owns kbufs B (sys_rename a) (kept B).
Proof.
  unfold sys_rename. owns_two.
  - eapply free_two; [done|done|by auto|quiet].
  - owns_quiet. eapply owns_bind; [by apply (owns_kfree p B)|]. intros ? ? ->. by apply owns_ret.
Qed.

Lemma sys_stat_owns B a : owns kbufs B (sys_stat a) (kept B).
Proof.
  unfold sys_stat. owns_args. owns_str; [|apply owns_quiet; quiet].
  owns_quiet. destruct a0 as [r buf]. owns_quiet. destruct (negb _);
    (eapply owns_bind; [by apply (owns_kfree p B)|]); intros ? ? ->; apply owns_quiet; quiet.
Qed.

(** Memory of an allocator that may be [NULL]. *)
Definition opt_owned (k : allocator) (B : gset buf) (r : option positive) (B' : gset buf) : Prop :=
  match r with None => B' = B | Some p => one_more (k, p) B B' end.

Lemma owns_kfree_opt r B B' : opt_owned Kmalloced B r B' → owns kbufs B' (on_sys (kfree r)) (kept B).
Proof.
  destruct r as [p|]; [apply owns_kfree|]. intros ->. apply owns_on_sys, kfree_null.
Qed.

Lemma owns_page_free r B B' : opt_owned Paged B r B' → owns kbufs B' (on_sys (page_free r)) (kept B).
Proof.
  destruct r as [p|]; intros Hp; apply owns_on_sys.
  - destruct (one_more_free _ _ _ Hp) as [<- Hin]. by apply page_free_owns.
  - rewrite Hp. apply page_free_null.
Qed.

Lemma handle_error_owns e r B B' : opt_owned Paged B r B' → owns kbufs B' (handle_error e r) (kept B).
Proof.
  intros Hp. eapply owns_bind; [by apply owns_page_free|]. intros ? ? ->. apply owns_quiet. quiet.
Qed.

Lemma sys_debug_owns B a : owns kbufs B (sys_debug a) (kept B).
Proof.
  unfold sys_debug. owns_args. owns_str.
  - eapply owns_bind; [by apply (owns_kfree p B)|]. intros ? ? ->. by apply owns_ret.
  - eapply owns_bind; [by apply (owns_kfree_opt None B)|]. intros ? ? ->. by apply owns_ret.
Qed.

Lemma sys_read_owns B a : owns kbufs B (sys_read a) (kept B).
Proof.
  unfold sys_read. owns_quiet. destruct a0 as [z kern], (read_args kern) as [fd n].
  eapply owns_bind; [apply owns_on_sys, page_alloc_owns|]. intros buf B' HB'.
  owns_quiet. destruct a0 as [num bytes]. owns_quiet. destruct (num <? 0).
  - by apply handle_error_owns.
  - do 2 owns_quiet. eapply owns_bind; [by apply owns_page_free|]. intros ? ? ->. by apply owns_ret.
Qed.

Lemma sys_write_owns B a : owns kbufs B (sys_write a) (kept B).
Proof.
  unfold sys_write. owns_quiet. destruct a0 as [z kern], (write_args kern) as [fd n].
  eapply owns_bind; [apply owns_on_sys, page_alloc_owns|]. intros buf B' HB'.
  do 3 owns_quiet. destruct a2 as [r bytes]. do 2 owns_quiet. destruct (_ <? 0).
  - by apply handle_error_owns.
  - eapply owns_bind; [by apply owns_page_free|]. intros ? ? ->. by apply owns_ret.
Qed.

Lemma getdents_loop_quiet fuel fd dirp n b : ∀ cur d, quiet kbufs (getdents_loop fuel fd dirp n b cur d).
Proof. induction fuel as [|fuel IH]; intros cur d; simpl; quiet. Qed.
Local Hint Resolve getdents_loop_quiet : quiet.

Lemma sys_getdents_owns B a : owns kbufs B (sys_getdents a) (kept B).
Proof.
  unfold sys_getdents. owns_quiet. destruct a0 as [z kern], (getdents_args kern) as [[fd dirp] n].
  eapply owns_bind; [apply owns_on_sys, kmalloc_owns|]. intros buf B' HB'.
  do 2 owns_quiet. destruct a1 as [e|num];
    (eapply owns_bind; [by apply owns_kfree_opt|]); intros ? ? ->.
  - by apply handle_error_owns.
  - by apply owns_ret.
Qed.

Lemma uname_copies_quiet l : quiet kbufs (uname_copies l).
Proof. induction l as [|[a str] l IH]; simpl; quiet. Qed.
Lemma kshell_loop_quiet fuel k : quiet kbufs (kshell_loop fuel k).
Proof. induction fuel as [|fuel IH]; simpl; quiet. Qed.
Local Hint Resolve uname_copies_quiet kshell_loop_quiet : quiet.

Lemma owns_if {A} B (b : bool) (m n : M (vmproc S) A) Q :
  owns kbufs B m Q → owns kbufs B n Q → owns kbufs B (if b then m else n) Q.
Proof. by destruct b. Qed.

Lemma syscall_dispatch_owns B sysnum args regs :
  sysnum ≠ SYS_execve → owns kbufs B (syscall_dispatch sysnum args regs) (kept B).
Proof using All.
  intros Hne. unfold syscall_dispatch. rewrite (proj2 (Z.eqb_neq _ _) Hne).
  repeat match goal with
  | |- owns _ _ (if _ then _ else _) _ => apply owns_if
  | |- owns _ _ (sys_mkdir _) _ => apply sys_mkdir_owns
  | |- owns _ _ (sys_rmdir _) _ => apply sys_rmdir_owns
  | |- owns _ _ (sys_unlink _) _ => apply sys_unlink_owns
  | |- owns _ _ (sys_chdir _) _ => apply sys_chdir_owns
  | |- owns _ _ (sys_open _) _ => apply sys_open_owns
  | |- owns _ _ (sys_link _) _ => apply sys_link_owns
  | |- owns _ _ (sys_rename _) _ => apply sys_rename_owns
  | |- owns _ _ (sys_stat _) _ => apply sys_stat_owns
  | |- owns _ _ (sys_debug _) _ => apply sys_debug_owns
  | |- owns _ _ (sys_read _) _ => apply sys_read_owns
  | |- owns _ _ (sys_write _) _ => apply sys_write_owns
  | |- owns _ _ (sys_getdents _) _ => apply sys_getdents_owns
  | |- owns _ _ _ _ => apply owns_quiet
  end;
  unfold sys_waitpid, sys_fork, sys_sync, sys_mmap, sys_munmap, sys_close, sys_dup, sys_dup2,
    sys_brk, sys_lseek, sys_halt, sys_pipe, sys_uname, sys_kshell; quiet.
Qed.
(** C5: Whatever the call number and the arguments, a system call other than [execve]
    that returns, with a result or with an error, has given back all the kernel memory
    it allocated and nothing else: each piece once, to the allocator it came from.
    A call that does not return (the process dies on a fault in user memory that
    [sys_read] and [sys_write] load from, or the kernel stops) is not covered. *)
Theorem syscall_dispatch_frees B sysnum args regs :
  sysnum ≠ SYS_execve → owns kbufs B (syscall_dispatch sysnum args regs) (kept B).
Proof using All. apply syscall_dispatch_owns. Qed.
End calls.
