(* ===== verification/Mount.v ===== *)
(** * Mounting: the rest of api/syscall.c and fs/vfs_syscall.c

    The calls that a kernel configured with [__MOUNTING__] has on top of those of
    Syscall: [sys_mount] and [sys_umount] with the functions they call, which say that
    they are not implemented and fail. *)
From S2P Require Import Prelude Headers Vmmap VmCalls Syscall SyscallBufs.
Local Open Scope kernel_scope.

Class MountH := {
  SYS_mount : Z; SYS_umount : Z;
  sizeof_mount_args : Z;
  (** [spec], [dir] and [fstype] *)
  mount_args : list Z → (Z * Z) * (Z * Z) * (Z * Z)
}.

Section mount.
Context `{HE : ErrnoH, HP : PageH, HM : MmanH, HF : FcntlH, HU : FaultH, HA : ArgH, HN : SyscallH, HK : MountH}.
Context {S : Type} `{HO : !MmOps S, HS : !SlabOps S, HC : !VmCallOps S, HY : !SysOps S}.
(** [NOT_YET_IMPLEMENTED(msg)] *)
Context (not_yet_implemented : M (vmproc S) unit).
Local Abbreviation V := (vmproc S).
Implicit Types (arg : Z).

Definition do_mount (source : option (list Z)) (target type : list Z) : M V Z :=
  not_yet_implemented ;;; ret (- EINVAL).
Definition do_umount (target : list Z) : M V Z :=
  not_yet_implemented ;;; ret (- EINVAL).

(** A string that was copied, or [NULL]. *)
Definition str_ptr (str : option (positive * list Z)) : option positive := fst <$> str.
Definition str_val (str : option (positive * list Z)) : option (list Z) := (λ x, c_string x.2) <$> str.

(** [if (ret) { curthr->kt_errno = -ret; return -1; } return 0;] *)
Definition zero_result (r : Z) : M V Z :=
  if negb (r =? 0) then errno_ (- r) ;;; ret (-1) else ret 0.

Definition sys_mount arg : M V Z :=
  ' (err, kern_args) <- copy_args arg sizeof_mount_args ;;
  if err <? 0 then errno_ EFAULT ;;; ret (-1)
  else
    let '((spec, spec_len), (dir, dir_len), (fstype, fstype_len)) := mount_args kern_args in
    source <- user_strdup spec spec_len ;;
    target <- user_strdup dir dir_len ;;
    match target with
    | None => on_sys (kfree (str_ptr source)) ;;; errno_ EINVAL ;;; ret (-1)
    | Some (pt, btarget) =>
        type <- user_strdup fstype fstype_len ;;
        match type with
        | None =>
            on_sys (kfree (str_ptr source)) ;;; on_sys (kfree (Some pt)) ;;;
            errno_ EINVAL ;;; ret (-1)
        | Some (py, btype) =>
            r <- do_mount (str_val source) (c_string btarget) (c_string btype) ;;
            on_sys (kfree (str_ptr source)) ;;; on_sys (kfree (Some pt)) ;;;
            on_sys (kfree (Some py)) ;;; zero_result r
        end
    end.

Definition sys_umount arg : M V Z :=
  ' (err, kstr) <- copy_args arg sizeof_argstr ;;
  if err <? 0 then errno_ EFAULT ;;; ret (-1)
  else
    let '(str, len) := argstr kstr in
    target <- user_strdup str len ;;
    match target with
    | None => errno_ EINVAL ;;; ret (-1)
    | Some (p, bytes) =>
        r <- do_umount (c_string bytes) ;; on_sys (kfree (Some p)) ;;; zero_result r
    end.

(** The [switch] of [syscall_dispatch] with the two cases. *)
Definition mount_dispatch (sysnum args : Z) (regs : positive) : M V Z :=
  if sysnum =? SYS_mount then sys_mount args
  else if sysnum =? SYS_umount then sys_umount args
  else syscall_dispatch sysnum args regs.

(** ** What they allocate is freed *)

Context (bufs : S → gset buf) `{HB : !BufLaws bufs}.
Local Abbreviation kbufs := (λ s : vmproc S, bufs (sys s)).

(** The pointers of an optional buffer. *)
Definition bufs_of (r : option positive) : gset buf :=
  match r with Some p => {[(Kmalloced, p)]} | None => ∅ end.

Lemma kfree_any r B : bufs_of r ⊆ B → owns kbufs B (on_sys (kfree r)) (λ _ B', B' = B ∖ bufs_of r).
Proof using HB.
  destruct r as [p|]; intros Hr; apply (owns_on_sys bufs); [apply kfree_owns; set_solver|].
  intros s Hs. eapply rwp_mono; [by apply (kfree_null B)|]. intros [] s' Hk. unfold kept in Hk. set_solver.
Qed.

Lemma strdup_any B a n : owns kbufs B (user_strdup a n) (λ r B',
  bufs_of (str_ptr r) ## B ∧ B' = bufs_of (str_ptr r) ∪ B).
Proof using HB.
  intros s Hs. eapply rwp_mono; [by apply (user_strdup_owns bufs B)|]. intros [[p l]|] s' Hr; simpl in *.
  - destruct Hr. set_solver.
  - set_solver.
Qed.

Lemma zero_result_quiet r : quiet kbufs (zero_result r).
Proof using HB. unfold zero_result. quiet. all: by apply errno_quiet. Qed.

Lemma fail_quiet e : quiet kbufs (errno_ e ;;; ret (-1)).
Proof using HB. quiet. by apply errno_quiet. Qed.

(** Freeing buffers and ending the call. *)
Fixpoint free_bufs (l : list (option positive)) (m : M V Z) : M V Z :=
  match l with [] => m | r :: l => on_sys (kfree r) ;;; free_bufs l m end.

(** Each buffer is in use when its turn comes. *)
Fixpoint all_owned (l : list (option positive)) (B : gset buf) : Prop :=
  match l with [] => True | r :: l => bufs_of r ⊆ B ∧ all_owned l (B ∖ bufs_of r) end.

Lemma free_bufs_owns l m : ∀ B B0, quiet kbufs m → all_owned l B → B ∖ ⋃ (bufs_of <$> l) = B0 →
  owns kbufs B (free_bufs l m) (kept B0).
Proof using HB.
  induction l as [|r l IH]; intros B B0 Hm Hl HB0; simpl.
  - intros s Hs. eapply rwp_mono; [by apply (owns_quiet kbufs B)|]. intros a s' Hk. unfold kept in *. set_solver.
  - eapply owns_bind; [by apply kfree_any, Hl|]. intros [] B' ->. apply IH; [done|apply Hl|]. set_solver.
Qed.

Context (Hnyi : quiet kbufs not_yet_implemented).

Ltac mount_args :=
  eapply owns_bind; [apply owns_quiet; by apply copy_args_quiet|]; intros [err kern] ? ->;
  destruct (err <? 0); [apply owns_quiet; by apply fail_quiet|].

Lemma sys_mount_owns B a : owns kbufs B (sys_mount a) (kept B).
Proof using All.
  unfold sys_mount. mount_args. destruct (mount_args kern) as [[[spec n1] [dir n2]] [fstype n3]].
  eapply owns_bind; [apply strdup_any|]. intros source B1 [Hd1 ->].
  eapply owns_bind; [apply strdup_any|]. intros [[pt bt]|] B2 [Hd2 ->]; simpl in *.
  2: { apply (free_bufs_owns [str_ptr source]); [by apply fail_quiet|..]; simpl; set_solver. }
  eapply owns_bind; [apply strdup_any|]. intros [[py bty]|] B3 [Hd3 ->]; simpl in *.
  2: { apply (free_bufs_owns [str_ptr source; Some pt]); [by apply fail_quiet|..]; simpl; set_solver. }
  eapply owns_bind; [apply owns_quiet; unfold do_mount; quiet; exact Hnyi|]. intros r ? ->.
  apply (free_bufs_owns [str_ptr source; Some pt; Some py]); [apply zero_result_quiet|..]; simpl; set_solver.
Qed.

Lemma sys_umount_owns B a : owns kbufs B (sys_umount a) (kept B).
Proof using All.
  unfold sys_umount. mount_args. destruct (argstr kern) as [str n].
  eapply owns_bind; [apply strdup_any|]. intros [[p l]|] B1 [Hd1 ->]; simpl in *.
  - eapply owns_bind; [apply owns_quiet; unfold do_umount; quiet; exact Hnyi|]. intros r ? ->.
    apply (free_bufs_owns [Some p]); [apply zero_result_quiet|..]; simpl; set_solver.
  - rewrite (left_id_L ∅ (∪)). apply owns_quiet, fail_quiet.
Qed.

(** Mounting and unmounting free all the kernel memory they allocate, however they
    end, and so does every other call but [execve] of a kernel that has them. *)
Theorem mount_dispatch_frees B sysnum args regs :
  sysnum ≠ SYS_execve → owns kbufs B (mount_dispatch sysnum args regs) (kept B).
Proof using All.
  intros Hne. unfold mount_dispatch. destruct (sysnum =? SYS_mount); [apply sys_mount_owns|].
  destruct (sysnum =? SYS_umount); [apply sys_umount_owns|]. by apply (syscall_dispatch_owns bufs).
Qed.

(** ** They fail *)

(** Whatever happens, a result that [m] returns satisfies [Q]. *)
Definition results {A} (m : M V A) (Q : A → Prop) : Prop :=
  ∀ s, rwp True (λ _ _, True) (λ _ _ _, True) (λ a _, Q a) (m s).

Lemma results_any {A} (m : M V A) : results m (λ _, True).
Proof using.
  intros s. generalize (m s) as r. fix IH 1. intros [a s'| | |w s' k]; [exact I|exact I|exact I|].
  split; [exact I|]. intros s'' _. apply IH.
Qed.

Lemma results_bind {A B} (m : M V A) (f : A → M V B) Q Q' :
  results m Q → (∀ a, Q a → results (f a) Q') → results (bind m f) Q'.
Proof using.
  intros Hm Hf s. apply rwp_bind. eapply rwp_mono; [apply Hm|]. intros a s' Ha. by apply (Hf a Ha).
Qed.

Lemma results_then {A B} (m : M V A) (f : A → M V B) Q : (∀ a, results (f a) Q) → results (bind m f) Q.
Proof using. intros Hf. eapply results_bind; [apply results_any|]. auto. Qed.

Lemma results_ret {A} (a : A) (Q : A → Prop) : Q a → results (ret a) Q.
Proof using. by intros HQ s. Qed.

Lemma zero_result_fails r : r ≠ 0 → results (zero_result r) (λ z, z = -1).
Proof using.
  intros Hr. unfold zero_result. rewrite (proj2 (Z.eqb_neq _ _) Hr). simpl.
  apply results_then. intros []. by apply results_ret.
Qed.

(** As the functions behind them are not implemented, both calls return -1. *)
Theorem mount_fails a : results (sys_mount a) (λ z, z = -1) ∧ results (sys_umount a) (λ z, z = -1).
Proof using.
  errno_bounds.
  assert (results (not_yet_implemented ;;; ret (- EINVAL)) (λ r, r ≠ 0)) as Hstub
    by (apply results_then; intros []; apply results_ret; lia).
  assert (∀ e, results (errno_ e ;;; ret (-1)) (λ z, z = -1)) as Hfail
    by (intros e; apply results_then; intros []; by apply results_ret).
  split; apply results_then; intros [err kern]; (destruct (err <? 0); [apply Hfail|]).
  - destruct (mount_args kern) as [[[spec n1] [dir n2]] [fstype n3]]. apply results_then. intros source.
    apply results_then. intros [[pt bt]|]; [|by apply results_then].
    apply results_then. intros [[py bty]|]; [|apply results_then; intros []; by apply results_then].
    eapply results_bind; [exact Hstub|]. intros r Hr. do 3 (apply results_then; intros []).
    by apply zero_result_fails.
  - destruct (argstr kern) as [str n]. apply results_then. intros [[p l]|]; [|apply Hfail].
    eapply results_bind; [exact Hstub|]. intros r Hr. apply results_then. intros []. by apply zero_result_fails.
Qed.
End mount.
