(* ===== verification/SyscallProps.v ===== *)
(** * Properties of system calls: arguments, errors and results *)
From S2P Require Import Prelude Headers Vmmap VmmapProps VmmapChange.
From S2P Require Import VmmapBytes VmCalls VmCallsProps VmCallsMap Syscall.
Local Open Scope kernel_scope.

Section props.
Context `{HE : ErrnoH, HP : PageH, HM : MmanH, HF : FcntlH, HU : FaultH, HA : ArgH, HN : SyscallH}.
Context {S : Type} `{HO : !MmOps S, HS : !SlabOps S, HC : !VmCallOps S, HY : !SysOps S}.
Local Abbreviation V := (vmproc S).
Implicit Types (s : V) (pl : list (positive * vmarea)).

Definition with_sys (t : S) s : V := with_vms (set_mm t (vms s)) s.

(** What the rest of the kernel promises about the thread's error number and saved
    registers. *)
Class ErrnoLaws := {
  set_errno_spec t e : returns (set_errno e) t (λ _ t',
    kt_errno t' = e ∧ kt_cancelled t' = kt_cancelled t);
  set_r_eax_spec t r v : returns (set_r_eax r v) t (λ _ t',
    r_eax r t' = v ∧ kt_errno t' = kt_errno t)
}.
Context {HR : ErrnoLaws}.

(** ** The dispatch table *)

Definition dispatch_table : list (Z * (Z → positive → M V Z)) :=
  [(SYS_waitpid, λ args _, sys_waitpid args);
   (SYS_exit, λ args _, on_sys (VmCalls.do_exit (s32 args)) ;;; panic);
   (SYS_thr_exit, λ args _, kthread_exit args ;;; panic);
   (SYS_thr_yield, λ _ _, make_curthr_runnable ;;; sched_switch ;;; ret 0);
   (SYS_fork, λ _ regs, sys_fork regs);
   (SYS_getpid, λ _ _, get (λ s, p_pid (sys s)));
   (SYS_sync, λ _ _, sys_sync ;;; ret 0);
   (SYS_mmap, λ args _, r <- sys_mmap args ;; ret (s32 r));
   (SYS_munmap, λ args _, sys_munmap args);
   (SYS_open, λ args _, sys_open args);
   (SYS_close, λ args _, sys_close (s32 args));
   (SYS_read, λ args _, sys_read args);
   (SYS_write, λ args _, sys_write args);
   (SYS_dup, λ args _, sys_dup (s32 args));
   (SYS_dup2, λ args _, sys_dup2 args);
   (SYS_mkdir, λ args _, sys_mkdir args);
   (SYS_rmdir, λ args _, sys_rmdir args);
   (SYS_unlink, λ args _, sys_unlink args);
   (SYS_link, λ args _, sys_link args);
   (SYS_rename, λ args _, sys_rename args);
   (SYS_chdir, λ args _, sys_chdir args);
   (SYS_getdents, λ args _, sys_getdents args);
   (SYS_brk, λ args _, r <- sys_brk args ;; ret (s32 r));
   (SYS_lseek, λ args _, sys_lseek args);
   (SYS_halt, λ _ _, sys_halt ;;; ret (-1));
   (SYS_set_errno, λ args _, errno_ (s32 args) ;;; ret 0);
   (SYS_errno, λ _ _, get (λ s, kt_errno (sys s)));
   (SYS_execve, λ args regs, sys_execve args regs);
   (SYS_stat, λ args _, sys_stat args);
   (SYS_pipe, λ args _, sys_pipe args);
   (SYS_uname, λ args _, sys_uname args);
   (SYS_debug, λ args _, sys_debug args);
   (SYS_kshell, λ args _, sys_kshell (s32 args))].

(** What a table says about a call number. *)
Fixpoint table_call (l : list (Z * (Z → positive → M V Z))) (n args : Z) (regs : positive) : M V Z :=
  match l with
  | [] => errno_ ENOSYS ;;; ret (-1)
  | (k, f) :: l => if n =? k then f args regs else table_call l n args regs
  end.

Lemma dispatch_is_table n args regs :
  syscall_dispatch n args regs = table_call dispatch_table n args regs.
Proof. reflexivity. Qed.

Lemma table_call_in l k f args regs :
  NoDup l.*1 → (k, f) ∈ l → table_call l k args regs = f args regs.
Proof.
  induction l as [|[k' f'] l IH]; intros Hnd Hin; [by apply elem_of_nil in Hin|].
  csimpl in Hnd. apply NoDup_cons in Hnd as [Hni Hnd]. simpl.
  apply elem_of_cons in Hin as [[= -> ->]|Hin]; [by rewrite Z.eqb_refl|].
  rewrite (proj2 (Z.eqb_neq k k')); [by apply IH|]. intros ->. apply Hni.
  by apply (list_elem_of_fmap_2 fst _ (k', f)).
Qed.

Lemma table_call_out l k args regs :
  k ∉ l.*1 → table_call l k args regs = (errno_ ENOSYS ;;; ret (-1)).
Proof.
  induction l as [|[k' f'] l IH]; [done|]. csimpl. intros [Hne Hni]%not_elem_of_cons. simpl.
  rewrite (proj2 (Z.eqb_neq k k') Hne). by apply IH.
Qed.

Lemma dispatch_call k f args regs :
  (k, f) ∈ dispatch_table → syscall_dispatch k args regs = f args regs.
Proof. intros Hin. rewrite dispatch_is_table. apply table_call_in; [apply syscall_nodup|done]. Qed.

Lemma dispatch_nth i k f args regs :
  dispatch_table !! i = Some (k, f) → syscall_dispatch k args regs = f args regs.
Proof. intros Hi. apply dispatch_call. by eapply list_elem_of_lookup_2. Qed.

Lemma errno_eq s e : ∃ t, errno_ e s = Ret tt (with_sys t s) ∧ set_errno e (sys s) = Ret tt t ∧
  kt_errno t = e ∧ kt_cancelled t = kt_cancelled (sys s).
Proof.
  destruct (set_errno_spec (sys s) e) as ([] & t & Ht & He & Hc). exists t.
  split; [by apply on_sys_eq|done].
Qed.

(** A thread that is not cancelled and traps with a number that is no system
    call gets -1 in [eax] and [ENOSYS] as its error number. *)
Theorem unknown_syscall s regs :
  kt_cancelled (sys s) = false → u32 (r_eax regs (sys s)) ∉ dispatch_table.*1 →
  returns (syscall_handler regs) s (λ _ s',
    r_eax regs (sys s') = -1 ∧ kt_errno (sys s') = ENOSYS).
Proof using All.
  intros Hc Hn. unfold syscall_handler, exit_if_cancelled, returns. do 2 kstep.
  rewrite (bind_Ret _ _ _ tt s) by (unfold bind; simpl; by rewrite Hc).
  rewrite dispatch_is_table, table_call_out by done.
  destruct (errno_eq s ENOSYS) as (t & He & _ & Ht & Hct).
  rewrite (bind_Ret _ _ _ (-1) (with_sys t s)) by (by rewrite (bind_Ret _ _ _ _ _ He)).
  rewrite (bind_Ret _ _ _ tt (with_sys t s))
    by (unfold bind; simpl; unfold sys at 1; simpl; by rewrite Hct, Hc).
  destruct (set_r_eax_spec t regs (-1)) as ([] & t' & Ht' & Ha & Hk).
  exists tt, (with_sys t' (with_sys t s)). split; [by apply on_sys_eq|].
  unfold sys. simpl. split; [done|]. by rewrite Hk.
Qed.

(** ** Arguments that cannot be read *)

(** The calls that check the copy of their arguments, with the size of those, and
    what they return if the copy fails. *)
Definition checked_calls : list (Z * Z * Z) :=
  [(SYS_dup2, sizeof_dup2_args, -1); (SYS_mkdir, sizeof_mkdir_args, -1);
   (SYS_rmdir, sizeof_argstr, -1); (SYS_unlink, sizeof_argstr, -1);
   (SYS_link, sizeof_link_args, -1); (SYS_rename, sizeof_rename_args, -1);
   (SYS_chdir, sizeof_argstr, -1); (SYS_lseek, sizeof_lseek_args, -1);
   (SYS_open, sizeof_open_args, -1); (SYS_munmap, sizeof_munmap_args, -1);
   (SYS_mmap, sizeof_mmap_args, s32 MAP_FAILED); (SYS_waitpid, sizeof_waitpid_args, -1);
   (SYS_stat, sizeof_stat_args, -1); (SYS_debug, sizeof_argstr, -1)].

Lemma copy_args_denied s map pr pl a n :
  in_map (vms s) map pr pl → p_vmmap s = Some map → 0 <= a < U32 →
  ¬ range_allowed pl.*2 a n PROT_READ →
  ∃ junk, copy_args a n s = Ret (- EFAULT, junk) s.
Proof.
  intros Hin Hm Ha Hno. unfold copy_args. kstep.
  rewrite (bind_Ret _ _ _ _ _ (copy_from_user_denied s map pr pl a n Hin Hm Ha Hno)). by eexists.
Qed.

(** A function that fails with [EFAULT] at once if it cannot copy its arguments. *)
Definition checks_args (f : Z → M V Z) (size r : Z) : Prop :=
  ∀ s s' args junk, copy_args args size s = Ret (- EFAULT, junk) s →
    errno_ EFAULT s = Ret tt s' → f args s = Ret r s'.

Lemma checks_args_lt size r (f : list Z → M V Z) :
  checks_args (λ args, ' (err, kern) <- copy_args args size ;;
    if err <? 0 then errno_ (- err) ;;; ret r else f kern) size r.
Proof.
  intros s s' args junk Hj He. errno_bounds. rewrite (bind_Ret _ _ _ _ _ Hj).
  rewrite (proj2 (Z.ltb_lt _ _)), Z.opp_involutive by lia. by rewrite (bind_Ret _ _ _ _ _ He).
Qed.

Lemma checks_args_efault size r (f : list Z → M V Z) (b : Z → bool) :
  b (- EFAULT) = true →
  checks_args (λ args, ' (err, kern) <- copy_args args size ;;
    if b err then errno_ EFAULT ;;; ret r else f kern) size r.
Proof.
  intros Hb s s' args junk Hj He. rewrite (bind_Ret _ _ _ _ _ Hj), Hb.
  by rewrite (bind_Ret _ _ _ _ _ He).
Qed.

Lemma efault_neg : - EFAULT <? 0 = true.
Proof. errno_bounds. apply Z.ltb_lt. lia. Qed.

(** Which position of the table holds which of the checked calls. *)
Definition checked_at : list (nat * Z * Z) :=
  [(14%nat, sizeof_dup2_args, -1); (15%nat, sizeof_mkdir_args, -1); (16%nat, sizeof_argstr, -1);
   (17%nat, sizeof_argstr, -1); (18%nat, sizeof_link_args, -1); (19%nat, sizeof_rename_args, -1);
   (20%nat, sizeof_argstr, -1); (23%nat, sizeof_lseek_args, -1); (9%nat, sizeof_open_args, -1);
   (8%nat, sizeof_munmap_args, -1); (7%nat, sizeof_mmap_args, s32 MAP_FAILED);
   (0%nat, sizeof_waitpid_args, -1); (28%nat, sizeof_stat_args, -1); (31%nat, sizeof_argstr, -1)].

Lemma checked_at_checks regs : Forall (λ e : nat * Z * Z,
  match dispatch_table !! e.1.1 with
  | Some (_, f) => checks_args (λ args, f args regs) e.1.2 e.2
  | None => False
  end) checked_at.
Proof.
  unfold checked_at. repeat apply Forall_cons_2; [..|by apply Forall_nil].
  all: cbn [dispatch_table lookup list_lookup fst snd].
  1-9, 14: apply checks_args_lt.
  1: { apply (checks_args_efault _ _ _ (λ e, negb (e =? 0))). errno_bounds.
       apply negb_true_iff, Z.eqb_neq. lia. }
  2-3: apply (checks_args_efault _ _ _ (λ e, e <? 0)), efault_neg.
  intros s s' args junk Hj He.
  rewrite (bind_Ret _ _ _ MAP_FAILED s'); [done|].
  by eapply (checks_args_efault _ _ _ (λ e, e <? 0) efault_neg).
Qed.

(** If some page of the argument structure, up to the page of the address after
    it, is not mapped readable, every system call that takes a structure returns -1
    ([MAP_FAILED] for [mmap]) with the error number [EFAULT] and does nothing else,
    except [read], [write], [getdents] and [execve]. *)
Theorem unreadable_args_fail s map pr pl k size r args regs :
  (k, size, r) ∈ checked_calls → vmmap_wf (vms s) map pr pl → p_vmmap s = Some map →
  0 <= args < U32 → ¬ range_allowed pl.*2 args size PROT_READ →
  ∃ t, set_errno EFAULT (sys s) = Ret tt t ∧ kt_errno t = EFAULT ∧
    syscall_dispatch k args regs s = Ret r (with_sys t s).
Proof using All.
  intros Hk [Hin _] Hm Ha Hno.
  destruct (copy_args_denied s map pr pl args size Hin Hm Ha Hno) as [junk Hj].
  destruct (errno_eq s EFAULT) as (t & He & Ht & Hke & _). exists t. do 2 (split; [done|]).
  apply list_elem_of_lookup_1 in Hk as [j Hk].
  assert (∃ i f, dispatch_table !! i = Some (k, f) ∧ checked_at !! j = Some (i, size, r))
    as (i & f & Hi & Hc).
  { unfold checked_calls in Hk. do 14 (destruct j as [|j]; [injection Hk as <- <- <-;
      eexists _, _; split; [|reflexivity]; reflexivity|]). discriminate. }
  pose proof (proj1 (Forall_lookup _ _) (checked_at_checks regs) j _ Hc) as Hf. simpl in Hf.
  rewrite Hi in Hf. rewrite (dispatch_nth i k f) by done. by eapply Hf.
Qed.
End props.
