(* ===== verification/SyscallPaths.v ===== *)
(** * Properties of system calls: strings and buffers from user memory *)
From S2P Require Import Prelude Headers Vmmap VmmapProps VmmapChange VmmapBytes.
From S2P Require Import VmCalls VmCallsProps VmCallsMap Syscall SyscallProps.
Local Open Scope kernel_scope.

Section paths.
Context `{HE : ErrnoH, HP : PageH, HM : MmanH, HF : FcntlH, HU : FaultH, HA : ArgH, HN : SyscallH}.
Context {S : Type} `{HO : !MmOps S, HS : !SlabOps S, HC : !VmCallOps S, HY : !SysOps S}.
Context `{HG : !MmPages S}.
Local Abbreviation V := (vmproc S).
Implicit Types (s : V) (pl : list (positive * vmarea)).

(** Allocating kernel memory leaves the pages of memory objects alone. *)
Class AllocLaws := {
  kmalloc_pages t n : returns (kmalloc n) t (λ _ t', pages_kept t t');
  page_alloc_pages t : returns page_alloc t (λ _ t', pages_kept t t')
}.
Context {HK : AllocLaws} {HR : ErrnoLaws}.

(** The address space and the contents of pages are those of [s]. *)
Record same_user s s' : Prop := SameUser {
  su_areas : vmareas (vms s') = vmareas (vms s);
  su_maps : vmmaps (vms s') = vmmaps (vms s);
  su_map : p_vmmap s' = p_vmmap s;
  su_pages : pages_kept (sys s) (sys s')
}.

Lemma same_user_refl s : same_user s s.
Proof. by split; [..|apply pages_kept_refl]. Qed.
Lemma same_user_trans s1 s2 s3 : same_user s1 s2 → same_user s2 s3 → same_user s1 s3.
Proof. intros [??? H1] [??? H2]. split; [congruence..|]. by eapply pages_kept_trans. Qed.

(** User memory as [vmmap_read] sees it: the current map and its areas. *)
Record user_space s (map : positive) pr pl : Prop := UserSpace {
  us_map : in_map (vms s) map pr pl;
  us_cur : p_vmmap s = Some map;
  us_av : pages_available (sys s) pl.*2
}.

Lemma user_space_same s s' map pr pl :
  same_user s s' → user_space s map pr pl → user_space s' map pr pl.
Proof.
  intros [Ha Hm Hc Hk] [[Hl Hf] Hp Hpa]. split; [split; [by rewrite Hm|by rewrite Ha]|congruence|].
  intros pn o i prot fl Hpg. destruct (Hpa _ _ _ _ _ Hpg) as (x & Hx & Hav').
  exists x. split; [done|]. by apply Hk.
Qed.

(** Ranges that user code may read. *)
Definition readable pl (a n : Z) : Prop :=
  0 <= a ∧ 0 <= n ∧ a + n < U32 ∧ range_allowed pl.*2 a n PROT_READ.

Lemma user_bytes_same s s' map pr pl a n bs :
  same_user s s' → user_space s map pr pl → readable pl a n →
  user_bytes (sys s') pl.*2 a n bs → user_bytes (sys s) pl.*2 a n bs.
Proof.
  intros Hs Hus (? & ? & ? & Hr) [Hl Hb]. split; [done|]. intros i Hi. rewrite Hb by done.
  destruct (range_allowed_mapped (sys s) pl.*2 a n PROT_READ (us_av _ _ _ _ Hus) ltac:(done) ltac:(done)
    ltac:(done) Hr (a + Z.of_nat i)) as (x & Hx & Hav); [lia|].
  unfold byte_at. rewrite Hx. simpl. by rewrite (proj2 (su_pages _ _ Hs x Hav)).
Qed.

Lemma user_bytes_unique (t : S) al a n bs bs' :
  user_bytes t al a n bs → user_bytes t al a n bs' → bs = bs'.
Proof.
  intros [Hl Hb] [Hl' Hb']. apply list_eq_same_length with (length bs); [lia|lia|].
  intros i x y Hi Hx Hy. rewrite Hb in Hx by lia. rewrite Hb' in Hy by lia. congruence.
Qed.

Lemma copy_in_spec s map pr pl a n :
  user_space s map pr pl → readable pl a n →
  returns (copy_from_user a n) s (λ r s', r.1 = 0 ∧ user_bytes (sys s) pl.*2 a n r.2 ∧ same_user s s').
Proof.
  intros [Hin Hm Hav] (Ha & Hn & Hend & Hr).
  eapply returns_mono; [by apply (copy_from_user_spec s map pr pl)|].
  intros r s' (x & Hz & Hb & -> & ? & ? & ?). by split_and!.
Qed.

Lemma copy_args_spec s map pr pl a n bytes :
  user_space s map pr pl → readable pl a n → user_bytes (sys s) pl.*2 a n bytes →
  returns (copy_args a n) s (λ r s',
    r = (0, filled bytes (stack_bytes (sys s))) ∧ same_user s s').
Proof.
  intros Hus Hr Hb. unfold copy_args, returns. kstep.
  destruct (copy_in_spec s map pr pl a n Hus Hr) as ([z bs] & s' & Hc & Hz & Hb' & Hs).
  simpl in *. subst z. rewrite (bind_Ret _ _ _ _ _ Hc). eexists _, s'. split; [done|].
  by rewrite (user_bytes_unique _ _ _ _ _ _ Hb Hb').
Qed.

Lemma on_sys_alloc {A} (m : M S A) s :
  (∀ t, returns m t (λ _ t', pages_kept t t')) →
  returns (on_sys m) s (λ r s', same_user s s' ∧ ∃ t, m (sys s) = Ret r t).
Proof.
  intros Hm. destruct (Hm (sys s)) as (r & t & Hr & Hk). exists r, (with_sys t s).
  split; [by apply on_sys_eq|]. split; [by split|by exists t].
Qed.

(** [user_strdup] of a readable string: the copy is in the memory that [kmalloc] gave,
    and without memory there is none. *)
Lemma user_strdup_spec s map pr pl a n :
  user_space s map pr pl → readable pl a (n + 1) → 0 <= n →
  ∃ r t1, kmalloc (n + 1) (sys s) = Ret r t1 ∧ same_user s (with_sys t1 s) ∧
    match r with
    | None => ∃ t2, user_strdup a n s = Ret None (with_sys t2 s)
    | Some p => returns (user_strdup a n) s (λ r' s', ∃ bs, r' = Some (p, bs) ∧
        user_bytes (sys s) pl.*2 a (n + 1) bs ∧ same_user s s')
    end.
Proof.
  intros Hus Hr Hn. pose proof Hr as (? & ? & ? & _). unfold user_strdup, returns.
  rewrite (u32_small (n + 1)) by lia.
  destruct (kmalloc_pages (sys s) (n + 1)) as (r & t1 & Hk & Hpk).
  assert (same_user s (with_sys t1 s)) as Hs1 by (by split).
  exists r, t1. split; [done|]. split; [done|].
  rewrite !(bind_Ret _ _ _ _ _ (on_sys_eq _ _ _ _ Hk)). destruct r as [p|].
  - destruct (copy_in_spec (with_sys t1 s) map pr pl a (n + 1)) as ([z bs] & s2 & Hc & Hz & Hb & Hs2);
      [by eapply user_space_same|done|]. simpl in *. subst z. rewrite (bind_Ret _ _ _ _ _ Hc).
    eexists _, s2. split; [done|]. exists bs. split; [done|].
    split; [by eapply user_bytes_same|by eapply same_user_trans].
  - destruct (errno_eq (with_sys t1 s) ENOMEM) as (t2 & He & _). rewrite (bind_Ret _ _ _ _ _ He).
    by exists t2.
Qed.

(** ** Calls with a path *)

(** Number, size of the arguments, where the path is in them, and what is called. *)
Definition path_calls : list (Z * Z * (list Z → Z * Z) * (list Z → list Z → M V Z)) :=
  [(SYS_mkdir, sizeof_mkdir_args, mkdir_args, λ _ path, do_mkdir path);
   (SYS_rmdir, sizeof_argstr, argstr, λ _ path, do_rmdir path);
   (SYS_unlink, sizeof_argstr, argstr, λ _ path, do_unlink path);
   (SYS_chdir, sizeof_argstr, argstr, λ _ path, do_chdir path);
   (SYS_open, sizeof_open_args, λ kern, (open_args kern).1,
     λ kern path, do_open path (open_args kern).2)].

(** What such a call does once it has the arguments. *)
Definition path_call_rest (dec : list Z → Z * Z) (f : list Z → list Z → M V Z) (kern : list Z)
    : M V Z :=
  path <- user_strdup (dec kern).1 (dec kern).2 ;;
  match path with
  | None => errno_ EINVAL ;;; ret (-1)
  | Some (p, bytes) =>
      err <- f kern (c_string bytes) ;; on_sys (kfree (Some p)) ;;; errno_result err
  end.

Lemma path_call_eq k size dec f args regs s kern s1 :
  (k, size, dec, f) ∈ path_calls → copy_args args size s = Ret (0, kern) s1 →
  syscall_dispatch k args regs s = path_call_rest dec f kern s1.
Proof.
  intros Hk Hc. apply list_elem_of_lookup_1 in Hk as [j Hk].
  destruct j as [|[|[|[|[|j]]]]]; [..|discriminate]; injection Hk as <- <- <- <-.
  - rewrite (dispatch_nth 15 _ _ args regs eq_refl). unfold sys_mkdir, path_call_rest.
    rewrite (bind_Ret _ _ _ _ _ Hc). simpl. by destruct (mkdir_args kern).
  - rewrite (dispatch_nth 16 _ _ args regs eq_refl). unfold sys_rmdir, path_call_rest.
    rewrite (bind_Ret _ _ _ _ _ Hc). simpl. by destruct (argstr kern).
  - rewrite (dispatch_nth 17 _ _ args regs eq_refl). unfold sys_unlink, path_call_rest.
    rewrite (bind_Ret _ _ _ _ _ Hc). simpl. by destruct (argstr kern).
  - rewrite (dispatch_nth 20 _ _ args regs eq_refl). unfold sys_chdir, path_call_rest.
    rewrite (bind_Ret _ _ _ _ _ Hc). simpl. by destruct (argstr kern).
  - rewrite (dispatch_nth 9 _ _ args regs eq_refl). unfold sys_open, path_call_rest.
    rewrite (bind_Ret _ _ _ _ _ Hc). simpl. by destruct (open_args kern) as [[??]?].
Qed.

(** The end of such a call: the copy at [p] has been freed, [t] being the memory after
    that; a result that is not negative is returned, and a negative one becomes -1 with
    the error number set to its opposite. *)
Definition call_ends (err : Z) (t : S) s (r : res V Z) : Prop :=
  (0 <= err → r = Ret err (with_sys t s)) ∧
  (err < 0 → ∃ t', r = Ret (-1) (with_sys t' s) ∧ set_errno (- err) t = Ret tt t' ∧ kt_errno t' = - err).

Lemma free_and_end p err s t :
  kfree (Some p) (sys s) = Ret tt t →
  call_ends err t s ((on_sys (kfree (Some p)) ;;; errno_result err) s).
Proof using HR.
  intros Hk. rewrite (bind_Ret _ _ _ _ _ (on_sys_eq _ _ _ _ Hk)). unfold errno_result.
  destruct (errno_eq (with_sys t s) (- err)) as (t' & He & Hset & Hno & _).
  split; intros Herr.
  - by rewrite (proj2 (Z.ltb_ge _ _)) by lia.
  - rewrite (proj2 (Z.ltb_lt _ _)) by lia. exists t'. rewrite (bind_Ret _ _ _ _ _ He). by split_and!.
Qed.


(** ** The page buffer of [write] *)

(** [write] of more bytes than a page has, from readable memory, copies them all
    to a buffer of one page: the copy runs over the end of the buffer before
    [do_write] is called. *)
Theorem sys_write_overruns_page s map pr pl arg bytes ubuf n :
  user_space s map pr pl → readable pl arg sizeof_write_args →
  user_bytes (sys s) pl.*2 arg sizeof_write_args bytes →
  (∀ s', same_user s s' → load_write_buf arg s' = Ret ubuf s') →
  (∀ s', same_user s s' → load_write_nbytes arg s' = Ret n s') →
  readable pl ubuf n → PAGE_SIZE < n → sys_write arg s = Panic.
Proof using All.
  intros Hus Hr Hb Hload Hloadn Hr' Hn. unfold sys_write.
  destruct (copy_args_spec s map pr pl arg _ bytes Hus Hr Hb) as (r & s1 & Hc & -> & Hs1).
  rewrite (bind_Ret _ _ _ _ _ Hc). destruct (write_args _) as [fd nb].
  destruct (on_sys_alloc page_alloc s1 page_alloc_pages) as (buf & s2 & Hp & Hs2 & _).
  pose proof (same_user_trans _ _ _ Hs1 Hs2) as Hs.
  rewrite (bind_Ret _ _ _ _ _ Hp), (bind_Ret _ _ _ _ _ (Hload s2 Hs)).
  rewrite (bind_Ret _ _ _ _ _ (Hloadn s2 Hs)).
  destruct (copy_in_spec s2 map pr pl ubuf n) as ([z bs] & s3 & Hc3 & _ & [Hl _] & _);
    [by eapply user_space_same|done|]. simpl in Hl.
  rewrite (bind_Ret _ _ _ _ _ Hc3). pose proof page_size_pos.
  assert (fill_page buf bs s3 = Panic) as Hf; [|unfold bind at 1; by rewrite Hf].
  unfold fill_page. kstep. destruct bs as [|b bs]; [simpl in Hl; lia|].
  destruct buf as [p|]; [|done]. kstep. rewrite Hl.
  by rewrite (proj2 (Z.leb_gt _ _)) by lia.
Qed.
End paths.
