(* ===== verification/SyscallEx.v ===== *)
(** * System calls at work

    The process of [VmCallsEx] with the other calls a trap can make, and the
    theorems on system calls applied to it. *)
From S2P Require Import Prelude Headers Vmmap VmmapProps VmmapChange VmmapBytes VmmapEx VmCalls.
From S2P Require Import VmCallsProps VmCallsMap VmCallsEx Syscall SyscallBufs SyscallProps SyscallPaths.
Local Open Scope kernel_scope.

#[local] Existing Instance errno_ex.
#[local] Existing Instance page_ex.
#[local] Existing Instance mman_ex.
#[local] Existing Instance fcntl_ex.
#[local] Existing Instance fault_ex.
#[local] Existing Instance arg_ex.
#[local] Existing Instance ex_ops.
#[local] Existing Instance ex_laws.
#[local] Existing Instance ex_put_laws.
#[local] Existing Instance ex_pages.
#[local] Existing Instance ex_slab.
#[local] Existing Instance ex_calls.

(** Structures are words of 4 bytes, in the order of their fields. *)
#[local] Instance syscall_ex : SyscallH.
Proof.
  refine (let w l i := word_at l (Z.to_nat i) in
  {| SYS_waitpid := 1; SYS_exit := 2; SYS_thr_exit := 3; SYS_thr_yield := 4; SYS_fork := 5;
     SYS_getpid := 6; SYS_sync := 7; SYS_mmap := 8; SYS_munmap := 9; SYS_open := 10;
     SYS_close := 11; SYS_read := 12; SYS_write := 13; SYS_dup := 14; SYS_dup2 := 15;
     SYS_mkdir := 16; SYS_rmdir := 17; SYS_unlink := 18; SYS_link := 19; SYS_rename := 20;
     SYS_chdir := 21; SYS_getdents := 22; SYS_brk := 23; SYS_lseek := 24; SYS_halt := 25;
     SYS_set_errno := 26; SYS_errno := 27; SYS_execve := 28; SYS_stat := 29; SYS_pipe := 30;
     SYS_uname := 31; SYS_debug := 32; SYS_kshell := 33;
     ENODEV := 19; MAP_FAILED := 4294967295;
     sizeof_read_args := 12; sizeof_write_args := 12; sizeof_getdents_args := 12;
     sizeof_dup2_args := 8; sizeof_mkdir_args := 8; sizeof_link_args := 16;
     sizeof_rename_args := 16; sizeof_lseek_args := 12; sizeof_open_args := 12;
     sizeof_munmap_args := 8; sizeof_mmap_args := 24; sizeof_waitpid_args := 12;
     sizeof_stat_args := 12; sizeof_execve_args := 24; sizeof_int := 4; sizeof_stat := 48;
     read_args l := (w l 0, w l 8); write_args l := (w l 0, w l 8);
     getdents_args l := (w l 0, w l 4, w l 8); dup2_args l := (w l 0, w l 4);
     mkdir_args l := (w l 0, w l 4); link_args l := ((w l 0, w l 4), (w l 8, w l 12));
     rename_args l := ((w l 0, w l 4), (w l 8, w l 12)); lseek_args l := (w l 0, w l 4, w l 8);
     open_args l := ((w l 0, w l 4), w l 8); munmap_args l := (w l 0, w l 4);
     mmap_args l := (w l 0, w l 4, w l 8, w l 12, w l 16, w l 20);
     waitpid_args l := (w l 0, w l 4, w l 8); stat_args l := ((w l 0, w l 4), w l 8);
     execve_args l := ((w l 0, w l 4), (w l 8, w l 12), (w l 16, w l 20));
     argstr l := (w l 0, w l 4);
     int_bytes z := [z mod 256; z / 256 mod 256; z / 65536 mod 256; z / 16777216 mod 256];
     uts_sysname := 0; uts_release := 65; uts_version := 130; uts_nodename := 195;
     uts_machine := 260; version_str := [35; 49; 0] |}).
  apply (bool_decide_unpack _). by vm_compute.
Defined.

(** The file system calls fail; the user's memory is read through the area of
    object 5. *)
#[local] Instance ex_sys : SysOps exmm := {|
  page_alloc := x_alloc Paged;
  page_free := x_free Paged;
  page_bytes t p := replicate 4096 0;
  kmalloc_bytes t p := [];
  stack_bytes t := [];
  load_read_buf a := ret (2001 * 4096);
  load_write_buf a := ret (2001 * 4096);
  load_write_nbytes a := ret 5000;
  do_read fd n := ret (- EBADF, []);
  do_write fd b n := ret (- EBADF);
  do_getdent fd := ret (- EBADF, []);
  do_close fd := ret (- EBADF);
  do_dup fd := ret (- EBADF);
  do_dup2 a b := ret (- EBADF);
  do_mkdir p := ret (if decide (p = []) then - EINVAL else 0);
  do_rmdir p := ret (- ENOENT);
  do_unlink p := ret (- ENOENT);
  do_link p q := ret (- ENOENT);
  do_rename p q := ret (- ENOENT);
  do_chdir p := ret (- ENOENT);
  do_lseek a b c := ret (- EBADF);
  do_open p f := ret (- ENOENT);
  do_stat p := ret (- ENOENT, []);
  do_pipe := ret (- EMFILE, 0, 0);
  do_waitpid p o := ret (- ECHILD, 0);
  do_fork r := ret (- ENOMEM);
  do_execve f a e r := ret (- ENOENT);
  kthread_exit v := panic;
  make_curthr_runnable := ret tt;
  sched_switch := ret tt;
  proc_kill_all := ret tt;
  pframe_clean_all := ret tt;
  kt_cancelled t := false;
  kt_retval t := 0;
  p_pid t := 1;
  kshell_create t := ret None;
  kshell_execute_next k := ret 0;
  kshell_destroy k := ret tt;
  kshell_cmds := 10;
  r_eax r t := x_eax (x_pt t);
  r_edx r t := 0;
  set_r_eax r v :=
    modify (x_set_pt (λ x, ExPt (x_entries x) (x_pins x) (x_bufs x) (x_errno x) v (x_km x)))
|}.

Lemma x_alloc_owns k B : owns x_bufs_of B (x_alloc k) (λ r B',
  match r with None => B' = B | Some p => (k, p) ∉ B ∧ B' = {[(k, p)]} ∪ B end).
Proof.
  intros t <-. simpl. split; [|done]. intros Hin.
  apply (is_fresh (set_map snd (x_bufs_of t) : gset positive)), elem_of_map. eexists (k, _). split; [|exact Hin]. done.
Qed.
Lemma x_free_owns k B p : (k, p) ∈ B →
  owns x_bufs_of B (x_free k (Some p)) (λ _ B', B' = B ∖ {[(k, p)]}).
Proof. intros Hp t <-. unfold x_free. by rewrite decide_True. Qed.
Lemma x_free_null k B : owns x_bufs_of B (x_free k None) (kept B).
Proof. by intros t <-. Qed.

#[local] Instance ex_buf_laws : BufLaws x_bufs_of.
Proof.
  constructor; intros;
    first [apply x_alloc_owns | by apply x_free_owns | apply x_free_null
          | apply quiet_ret | apply quiet_panic | by apply quiet_modify
          | by intros B t <- | idtac].
  intros B t <-. simpl. unfold x_write. by destruct (x_frames t !! p).
Defined.

#[local] Instance ex_errno_laws : ErrnoLaws.
Proof. split; intros; eexists _, _; split; reflexivity || done. Defined.

#[local] Instance ex_alloc_laws : AllocLaws.
Proof. split; intros; by eexists _, _. Defined.

(** The arguments of [mkdir] are on page 2002 and its path "a" on page 2003. *)
Definition ex_user : vmproc exmm :=
  Vmproc (set_mm (ExMm {[5%positive := 1; 6%positive := 1]} ∅ ∅
      {[(5%positive, 22) := [0; 48; 125; 0; 1; 0; 0; 0]; (5%positive, 23) := [97; 0]]} ∅
      (ExPt ∅ ∅ ∅ 0 99 (ExKm ∅ ∅ ∅ ∅))) ex_vm)
    (Some 1%positive) (Some 7%positive) (3001 * 4096) (3004 * 4096 + 5).

Lemma ex_user_wf : vmmap_wf (vms ex_user) 1 (Some 9%positive) ex_pl.
Proof. destruct ex_vm_wf as [[??]?]. by split; [split|]. Qed.

Lemma ex_user_space : user_space ex_user 1 (Some 9%positive) ex_pl.
Proof. split; [apply ex_user_wf|done|apply ex_pages_available]. Qed.

(** Ranges within the readable pages 2000 to 2009. *)
Lemma ex_readable a n :
  2000 * 4096 <= a → 0 <= n → a + n < 2010 * 4096 → readable ex_pl a n.
Proof.
  intros Ha Hn Hend. split; [lia|]. split; [lia|]. split; [unfold U32; lia|].
  intros pn Hpn. rewrite u32_small in Hpn by (unfold U32; lia).
  change (a / 4096 <= pn <= (a + n) / 4096) in Hpn.
  assert (2000 <= pn < 2010) as Hr.
  { pose proof (Z.div_le_lower_bound a 4096 2000). pose proof (Z.div_lt_upper_bound (a + n) 4096 2010).
    lia. }
  eexists _, _, _, _. split; [|shelve].
  apply (page_at_in 1 _ (ex_area 2000 2010 20 5)); [apply ex_vm_wf|left|done].
  Unshelve. reflexivity.
Qed.

Lemma ex_mkdir_bytes : user_bytes (sys ex_user) ex_pl.*2 (2002 * 4096) 8 [0; 48; 125; 0; 1; 0; 0; 0].
Proof. split; [done|]. intros i Hi. do 8 (destruct i as [|i]; [by vm_compute|]). lia. Qed.

Lemma syscall_dispatch_frees_witness :
  owns (λ s : vmproc exmm, x_bufs_of (sys s)) ∅ (syscall_dispatch SYS_mkdir (2002 * 4096) 1) (kept ∅).
Proof. by apply (syscall_dispatch_frees x_bufs_of ∅ SYS_mkdir (2002 * 4096) 1). Defined.

Lemma unknown_syscall_witness :
  returns (syscall_handler 1) ex_user (λ _ s',
    r_eax 1 (sys s') = -1 ∧ kt_errno (sys s') = ENOSYS).
Proof.
  apply (unknown_syscall ex_user 1); [reflexivity|].
  intros Hin. apply (bool_decide_pack _) in Hin. by vm_compute in Hin.
Defined.

Lemma unreadable_args_fail_witness :
  ∃ t, kt_errno t = EFAULT ∧
    syscall_dispatch SYS_open (2010 * 4096 - 4) 1 ex_user = Ret (-1) (with_sys t ex_user).
Proof.
  destruct (unreadable_args_fail ex_user 1 (Some 9%positive) ex_pl SYS_open sizeof_open_args (-1)
    (2010 * 4096 - 4) 1) as (t & _ & He & Hd).
  - unfold checked_calls. rewrite !elem_of_cons. tauto.
  - apply ex_user_wf.
  - reflexivity.
  - unfold U32. lia.
  - intros Hr. destruct (Hr 2010) as (o & i & prot & fl & Hp & _); [by vm_compute|].
    vm_compute in Hp. discriminate.
  - by exists t.
Defined.


Lemma sys_write_overruns_page_witness : sys_write (2002 * 4096) ex_user = Panic.
Proof.
  apply (sys_write_overruns_page ex_user 1 (Some 9%positive) ex_pl (2002 * 4096)
    [0; 48; 125; 0; 1; 0; 0; 0; 0; 0; 0; 0] (2001 * 4096) 5000).
  - apply ex_user_space.
  - apply ex_readable; by vm_compute.
  - split; [done|]. intros i Hi. do 12 (destruct i as [|i]; [by vm_compute|]).
    change (Z.of_nat (12 + i) < 12) in Hi. lia.
  - done.
  - done.
  - apply ex_readable; by vm_compute.
  - by vm_compute.
Defined.
