(* ===== verification/Pframe.v ===== *)
(** * Page frames and memory objects: mm/pframe.c, vm/anon.c and vm/shadow.c

    Page frames and memory objects live in heaps of their own and refer to each
    other: a frame to its object, an object to its resident frames and, for a shadow
    object, to the object below it and the one at the bottom.  The functions of an
    object are chosen by its [mmo_ops]; putting an object and freeing a frame call
    each other, as do looking up and filling a page.  The objects of files, the
    allocators, wait queues and page tables are interfaces. *)
From S2P Require Import Prelude Headers Vmmap.
Local Open Scope kernel_scope.

(** ** Data *)

Record pframe := Pframe {
  pf_obj : option positive;
  pf_pagenum : Z;
  pf_addr : Z;
  pf_busy : bool;
  pf_dirty : bool;
  pf_pincount : Z;
  (** the page at [pf_addr] *)
  pf_data : list Z
}.
Definition set_pf_obj v f := Pframe v (pf_pagenum f) (pf_addr f) (pf_busy f) (pf_dirty f)
  (pf_pincount f) (pf_data f).
Definition set_pf_busy v f := Pframe (pf_obj f) (pf_pagenum f) (pf_addr f) v (pf_dirty f)
  (pf_pincount f) (pf_data f).
Definition set_pf_dirty v f := Pframe (pf_obj f) (pf_pagenum f) (pf_addr f) (pf_busy f) v
  (pf_pincount f) (pf_data f).
Definition set_pf_pincount v f := Pframe (pf_obj f) (pf_pagenum f) (pf_addr f) (pf_busy f)
  (pf_dirty f) v (pf_data f).
Definition set_pf_data v f := Pframe (pf_obj f) (pf_pagenum f) (pf_addr f) (pf_busy f)
  (pf_dirty f) (pf_pincount f) v.

(** mm/pframe.h *)
Definition pframe_is_pinned (f : pframe) : bool := 0 <? pf_pincount f.
Definition pframe_is_free (f : pframe) : bool := bool_decide (pf_obj f = None).

Inductive mmobj_ops : Set := anon_mmobj_ops | shadow_mmobj_ops | other_mmobj_ops.
#[export] Instance mmobj_ops_eq_dec : EqDecision mmobj_ops.
Proof. solve_decision. Defined.

(** Of the union [mmo_un], shadow objects use [mmo_bottom_obj] and all others
    [mmo_vmas]. *)
Record mmobj := Mmobj {
  mmo_ops : mmobj_ops;
  mmo_refcount : Z;
  mmo_nrespages : Z;
  mmo_respages : list positive;
  mmo_shadowed : option positive;
  mmo_bottom_obj : option positive;
  mmo_vmas : list positive
}.
Definition set_mmo_refcount v o := Mmobj (mmo_ops o) v (mmo_nrespages o) (mmo_respages o)
  (mmo_shadowed o) (mmo_bottom_obj o) (mmo_vmas o).
Definition set_mmo_nrespages v o := Mmobj (mmo_ops o) (mmo_refcount o) v (mmo_respages o)
  (mmo_shadowed o) (mmo_bottom_obj o) (mmo_vmas o).
Definition set_mmo_respages v o := Mmobj (mmo_ops o) (mmo_refcount o) (mmo_nrespages o) v
  (mmo_shadowed o) (mmo_bottom_obj o) (mmo_vmas o).
(** What [mmobj_init] of mm/mmobj.c, which the repository lacks, leaves in an object: the
    operations, no references, no pages and nothing below it. *)
Definition mmobj_init (ops : mmobj_ops) : mmobj := Mmobj ops 0 0 [] None None [].

(** The frames, the objects, the lists and counts of frames, the hash table, and
    the rest of the kernel. *)
Record pmem (X : Type) := Pmem {
  frames : gmap positive pframe;
  objs : gmap positive mmobj;
  alloc_list : list positive;
  nallocated : Z;
  pinned_list : list positive;
  npinned : Z;
  pframe_hash : gmap Z (list positive);
  nfreepages_min : Z;
  nfreepages_target : Z;
  pext : X
}.
Arguments Pmem {X} frames objs alloc_list nallocated pinned_list npinned pframe_hash
  nfreepages_min nfreepages_target pext.
Arguments frames {X} _.
Arguments objs {X} _.
Arguments alloc_list {X} _.
Arguments nallocated {X} _.
Arguments pinned_list {X} _.
Arguments npinned {X} _.
Arguments pframe_hash {X} _.
Arguments nfreepages_min {X} _.
Arguments nfreepages_target {X} _.
Arguments pext {X} _.

(** ** What the files call *)

(** The wait queues: that of a frame, [alloc_waitq] and [pageoutd_waitq]. *)
Inductive waitq : Set := QFrame (p : positive) | QAlloc | QPageout.

Class PmemH := { PF_HASH_SIZE : Z; pf_hash_size_pos : 0 < PF_HASH_SIZE < U32;
  (** how often [pframe_get] and [pframe_clean_all] start over *)
  get_turns : nat }.

(** The allocators give an address that is not in use, or [NULL]; wait queues, page
    tables, and the areas that map an object. *)
Class PmemExt (X : Type) := {
  pframe_slab : pmem X → option positive;
  pframe_uninit : positive → pframe;
  (** [slab_allocator_create("pframe", sizeof(pframe_t))] *)
  pframe_allocator_create : M X (option positive);
  anon_slab : pmem X → option positive;
  shadow_slab : pmem X → option positive;
  pframe_slab_fresh s p : pframe_slab s = Some p → frames s !! p = None;
  anon_slab_fresh s o : anon_slab s = Some o → objs s !! o = None;
  shadow_slab_fresh s o : shadow_slab s = Some o → objs s !! o = None;
  page_alloc : M X (option Z);
  page_free : Z → M X unit;
  page_bytes : X → Z → list Z;
  page_free_count : X → Z;
  waitq_init : waitq → M X unit;
  sched_sleep_on : waitq → M X unit;
  sched_cancellable_sleep_on : waitq → M X Z;
  sched_broadcast_on : waitq → M X unit;
  kthread_exit : Z → M X unit;
  tlb_flush : Z → M X unit;
  pt_unmap : positive → Z → M X unit;
  vma_at : X → positive → option vmarea;
  (** [vmm_proc->p_pagedir] of a map, if it has a process *)
  vmm_pagedir : X → positive → option positive
}.

(** The operations of objects that are neither anonymous nor shadow objects. *)
Class OtherObj (X : Type) := {
  other_ref : positive → M (pmem X) unit;
  other_put : positive → M (pmem X) unit;
  other_lookuppage : positive → Z → bool → M (pmem X) (Z * option positive);
  other_fillpage : positive → positive → M (pmem X) Z;
  other_dirtypage : positive → positive → M (pmem X) Z;
  other_cleanpage : positive → positive → M (pmem X) Z
}.

Section pframe.
Context `{HP : PageH, HH : PmemH} {X : Type} `{HX : !PmemExt X, HT : !OtherObj X}.
Local Abbreviation P := (pmem X).
Implicit Types (p o : positive) (s : P).

(** ** Reading and writing through pointers *)

Definition on_ext {A} (m : M X A) : M P A :=
  zoom pext (λ x s, Pmem (frames s) (objs s) (alloc_list s) (nallocated s) (pinned_list s)
    (npinned s) (pframe_hash s) (nfreepages_min s) (nfreepages_target s) x) m.
Definition frames_set (f : gmap positive pframe → gmap positive pframe) : M P unit :=
  modify (λ s, Pmem (f (frames s)) (objs s) (alloc_list s) (nallocated s) (pinned_list s)
    (npinned s) (pframe_hash s) (nfreepages_min s) (nfreepages_target s) (pext s)).
Definition objs_set (f : gmap positive mmobj → gmap positive mmobj) : M P unit :=
  modify (λ s, Pmem (frames s) (f (objs s)) (alloc_list s) (nallocated s) (pinned_list s)
    (npinned s) (pframe_hash s) (nfreepages_min s) (nfreepages_target s) (pext s)).
Definition alloc_set (f : list positive → list positive) (d : Z) : M P unit :=
  modify (λ s, Pmem (frames s) (objs s) (f (alloc_list s)) (nallocated s + d) (pinned_list s)
    (npinned s) (pframe_hash s) (nfreepages_min s) (nfreepages_target s) (pext s)).
Definition pinned_set (f : list positive → list positive) (d : Z) : M P unit :=
  modify (λ s, Pmem (frames s) (objs s) (alloc_list s) (nallocated s) (f (pinned_list s))
    (npinned s + d) (pframe_hash s) (nfreepages_min s) (nfreepages_target s) (pext s)).
Definition hash_set (f : gmap Z (list positive) → gmap Z (list positive)) : M P unit :=
  modify (λ s, Pmem (frames s) (objs s) (alloc_list s) (nallocated s) (pinned_list s)
    (npinned s) (f (pframe_hash s)) (nfreepages_min s) (nfreepages_target s) (pext s)).

Definition frame_get p : M P pframe := λ s, deref (frames s !! p) s.
Definition frame_upd p (f : pframe → pframe) : M P unit := frames_set (alter f p).
Definition obj_get o : M P mmobj := λ s, deref (objs s !! o) s.
Definition obj_upd o (f : mmobj → mmobj) : M P unit := objs_set (alter f o).
Definition remove (p : positive) (l : list positive) : list positive := filter (λ q, q ≠ p) l.

(** [hash_page(obj, pagenum)] *)
Definition addr_of (o : option positive) : Z := match o with Some o => Z.pos o | None => 0 end.
Definition hash_page (o : option positive) (pagenum : Z) : Z :=
  u32 (addr_of o + pagenum) mod PF_HASH_SIZE.
Definition hash_chain (h : gmap Z (list positive)) (i : Z) : list positive := default [] (h !! i).

(** ** pframe.c *)

Definition pframe_init : M P unit :=
  modify (λ s, Pmem (frames s) (objs s) [] 0 [] 0 (pframe_hash s) (nfreepages_min s)
                 (nfreepages_target s) (pext s)) ;;;
  pframe_allocator <- on_ext pframe_allocator_create ;;
  kassert (bool_decide (pframe_allocator ≠ None)) ;;;
  modify (λ s, Pmem (frames s) (objs s) (alloc_list s) (nallocated s) (pinned_list s) (npinned s) ∅ 0
                 (Z.shiftr (page_free_count (pext s)) 1) (pext s)) ;;;
  on_ext (waitq_init QAlloc).

(** The walk along a hash chain. *)
Fixpoint chain_search (l : list positive) (o : option positive) (pagenum : Z)
    : M P (option positive) :=
  match l with
  | [] => ret None
  | p :: l =>
      pf <- frame_get p ;;
      if bool_decide (o = pf_obj pf) && (pagenum =? pf_pagenum pf) then ret (Some p)
      else chain_search l o pagenum
  end.

Definition pframe_get_resident (o : option positive) (pagenum : Z) : M P (option positive) :=
  chain <- get (λ s, hash_chain (pframe_hash s) (hash_page o pagenum)) ;;
  r <- chain_search chain o pagenum ;;
  match r with
  | Some p =>
      pf <- frame_get p ;;
      (if negb (pframe_is_pinned pf) then alloc_set (λ l, remove p l ++ [p]) 0 else ret tt) ;;;
      ret (Some p)
  | None => ret None
  end.

(** anon.c and shadow.c: [ref] *)
Definition anon_ref o : M P unit :=
  O <- obj_get o ;;
  kassert ((0 <? mmo_refcount O) && bool_decide (mmo_ops O = anon_mmobj_ops)) ;;;
  obj_upd o (λ O, set_mmo_refcount (mmo_refcount O + 1) O).
Definition shadow_ref o : M P unit :=
  O <- obj_get o ;;
  kassert ((0 <? mmo_refcount O) && bool_decide (mmo_ops O = shadow_mmobj_ops)) ;;;
  obj_upd o (λ O, set_mmo_refcount (mmo_refcount O + 1) O).
(** [o->mmo_ops->ref(o)] *)
Definition mmo_ref o : M P unit :=
  O <- obj_get o ;;
  match mmo_ops O with
  | anon_mmobj_ops => anon_ref o
  | shadow_mmobj_ops => shadow_ref o
  | other_mmobj_ops => other_ref o
  end.

Definition pframe_alloc o (pagenum : Z) : M P (option positive) :=
  pf <- get pframe_slab ;;
  match pf with
  | None => ret None
  | Some p =>
      frames_set (insert p (pframe_uninit p)) ;;;
      addr <- on_ext page_alloc ;;
      match addr with
      | None => frames_set (delete p) ;;; ret None
      | Some addr =>
          alloc_set (λ l, l ++ [p]) 1 ;;;
          data <- get (λ s, page_bytes (pext s) addr) ;;
          frames_set (insert p (Pframe (Some o) pagenum addr false false 0 data)) ;;;
          on_ext (waitq_init (QFrame p)) ;;;
          hash_set (λ h, let i := hash_page (Some o) pagenum in
                         <[i := p :: hash_chain h i]> h) ;;;
          mmo_ref o ;;;
          obj_upd o (λ O, set_mmo_nrespages (mmo_nrespages O + 1) O) ;;;
          obj_upd o (λ O, set_mmo_respages (p :: mmo_respages O) O) ;;;
          ret (Some p)
      end
  end.

(** The pin count, an [int] in C, is not bounded here: a frame would have to be pinned
    2^31 times for the difference to show. *)
Definition pframe_pin p : M P unit :=
  pf <- frame_get p ;;
  kassert (negb (pframe_is_free pf)) ;;;
  kassert (0 <=? pf_pincount pf) ;;;
  frame_upd p (set_pf_pincount (pf_pincount pf + 1)) ;;;
  if pf_pincount pf + 1 =? 1 then
    alloc_set (remove p) (-1) ;;; pinned_set (λ l, l ++ [p]) 1
  else ret tt.

Definition pframe_unpin p : M P unit :=
  pf <- frame_get p ;;
  kassert (negb (pframe_is_free pf)) ;;;
  kassert (0 <? pf_pincount pf) ;;;
  frame_upd p (set_pf_pincount (pf_pincount pf - 1)) ;;;
  if pf_pincount pf - 1 =? 0 then
    pinned_set (remove p) (-1) ;;; alloc_set (λ l, l ++ [p]) 1
  else ret tt.

(** mm/mmobj.h: [mmobj_bottom_vmas(o)] *)
Definition mmobj_bottom_vmas o : M P (list positive) :=
  O <- obj_get o ;;
  match mmo_shadowed O with
  | Some _ => b <- deref (mmo_bottom_obj O) ;; B <- obj_get b ;; ret (mmo_vmas B)
  | None => ret (mmo_vmas O)
  end.

(** The loop of [pframe_remove_from_pts]. *)
Fixpoint unmap_areas (pagenum : Z) (vmas : list positive) : M P unit :=
  match vmas with
  | [] => ret tt
  | v :: vmas =>
      vma <- (λ s, deref (vma_at (pext s) v) s) ;;
      (if (pagenum >=? vma_off vma) &&
          (pagenum <? u32 (vma_off vma + u32 (vma_end vma - vma_start vma))) then
         let vaddr := PN_TO_ADDR (u32 (vma_start vma + pagenum - vma_off vma)) in
         map <- deref (vma_vmmap vma) ;;
         pd <- get (λ s, vmm_pagedir (pext s) map) ;;
         match pd with Some pd => on_ext (pt_unmap pd vaddr) | None => ret tt end
       else ret tt) ;;;
      unmap_areas pagenum vmas
  end.

Definition pframe_remove_from_pts p : M P unit :=
  pf <- frame_get p ;;
  o <- deref (pf_obj pf) ;;
  vmas <- mmobj_bottom_vmas o ;;
  unmap_areas (pf_pagenum pf) vmas.

(** [pframe_free], given the [put] of objects.  The frame goes back to its allocator
    before it is taken out of the list of its object; the list links of a frame are the
    lists of its object here, so that this write to the freed frame has no effect. *)
Definition pframe_free_with (put : positive → M P unit) p : M P unit :=
  pf <- frame_get p ;;
  kassert (negb (pframe_is_pinned pf)) ;;;
  kassert (negb (pframe_is_free pf)) ;;;
  kassert (negb (pf_busy pf)) ;;;
  o <- deref (pf_obj pf) ;;
  on_ext (tlb_flush (pf_addr pf)) ;;;
  pframe_remove_from_pts p ;;;
  hash_set (λ h, let i := hash_page (Some o) (pf_pagenum pf) in
                 <[i := remove p (hash_chain h i)]> h) ;;;
  frame_upd p (set_pf_obj None) ;;;
  alloc_set (remove p) (-1) ;;;
  on_ext (page_free (pf_addr pf)) ;;;
  frames_set (delete p) ;;;
  obj_upd o (λ O, set_mmo_nrespages (mmo_nrespages O - 1) O) ;;;
  obj_upd o (λ O, set_mmo_respages (remove p (mmo_respages O)) O) ;;;
  put o.

(** ** anon.c and shadow.c: [put] *)

(** The loop over the resident pages; the next one is read before the page goes. *)
Fixpoint uncache_pages (put : positive → M P unit) (pages : list positive) : M P unit :=
  match pages with
  | [] => ret tt
  | p :: pages =>
      pf <- frame_get p ;;
      (if pframe_is_pinned pf then pframe_unpin p else ret tt) ;;;
      pframe_free_with put p ;;;
      uncache_pages put pages
  end.

(** The reference count is decremented after the object went back to its
    allocator: a write to memory that is no object any more, which changes no object
    here. *)
Definition anon_put (put : positive → M P unit) o : M P unit :=
  O <- obj_get o ;;
  kassert ((0 <? mmo_refcount O) && bool_decide (mmo_ops O = anon_mmobj_ops)) ;;;
  (if mmo_refcount O =? mmo_nrespages O + 1 then
     uncache_pages put (mmo_respages O) ;;;
     objs_set (delete o)
   else ret tt) ;;;
  obj_upd o (λ O, set_mmo_refcount (mmo_refcount O - 1) O).

Definition shadow_put (put : positive → M P unit) o : M P unit :=
  O <- obj_get o ;;
  kassert ((0 <? mmo_refcount O) && bool_decide (mmo_ops O = shadow_mmobj_ops)) ;;;
  if negb (mmo_nrespages O =? mmo_refcount O - 1) then
    obj_upd o (λ O, set_mmo_refcount (mmo_refcount O - 1) O)
  else
    uncache_pages put (mmo_respages O) ;;;
    obj_upd o (λ O, set_mmo_refcount (mmo_refcount O - 1) O) ;;;
    O <- obj_get o ;;
    sh <- deref (mmo_shadowed O) ;;
    put sh ;;;
    O <- obj_get o ;;
    b <- deref (mmo_bottom_obj O) ;;
    put b ;;;
    objs_set (delete o).

(** [o->mmo_ops->put(o)]: the calls nest once for each object down the chain of
    shadow objects and once more for the pages of an object. *)
Fixpoint put_nested (fuel : nat) o : M P unit :=
  match fuel with
  | O => out_of_fuel
  | S fuel =>
      O <- obj_get o ;;
      match mmo_ops O with
      | anon_mmobj_ops => anon_put (put_nested fuel) o
      | shadow_mmobj_ops => shadow_put (put_nested fuel) o
      | other_mmobj_ops => other_put o
      end
  end.
Definition mmo_put o : M P unit :=
  n <- get (λ s, S (S (size (objs s)))) ;; put_nested n o.
Definition pframe_free p : M P unit := pframe_free_with mmo_put p.

(** ** Looking up and filling pages *)

Definition anon_create : M P (option positive) :=
  o <- get anon_slab ;;
  match o with
  | None => ret None
  | Some o => objs_set (insert o (set_mmo_refcount 1 (mmobj_init anon_mmobj_ops))) ;;; ret (Some o)
  end.

Definition shadow_create : M P (option positive) :=
  o <- get shadow_slab ;;
  o <- deref o ;;
  objs_set (insert o (set_mmo_refcount 1 (mmobj_init shadow_mmobj_ops))) ;;;
  ret (Some o).

Definition anon_fillpage p : M P Z :=
  pf <- frame_get p ;;
  kassert (pf_busy pf) ;;;
  kassert (negb (pframe_is_pinned pf)) ;;;
  pframe_pin p ;;;
  frame_upd p (set_pf_data (replicate (Z.to_nat PAGE_SIZE) 0)) ;;;
  ret 0.

(** The walk of [shadow_lookuppage] down the shadow objects. *)
Fixpoint shadow_find (fuel : nat) (cur : positive) (pagenum : Z) : M P (option positive) :=
  C <- obj_get cur ;;
  match mmo_shadowed C with
  | None => ret None
  | Some below =>
      r <- pframe_get_resident (Some cur) pagenum ;;
      match r with
      | Some p => ret (Some p)
      | None => match fuel with O => out_of_fuel | S fuel => shadow_find fuel below pagenum end
      end
  end.

(** The walk of [shadow_fillpage]. *)
Fixpoint fill_find (fuel : nat) (cur : option positive) (pagenum : Z) : M P (option positive) :=
  match cur with
  | None => ret None
  | Some c =>
      C <- obj_get c ;;
      r <- pframe_get_resident (mmo_shadowed C) pagenum ;;
      match r with
      | Some p => ret (Some p)
      | None => match fuel with
                | O => out_of_fuel
                | S fuel => fill_find fuel (mmo_shadowed C) pagenum
                end
      end
  end.

(** [memcpy(pf->pf_addr, src->pf_addr, PAGE_SIZE); pframe_pin(pf);] *)
Definition copy_and_pin p (src : positive) : M P unit :=
  f <- frame_get src ;;
  frame_upd p (set_pf_data (pf_data f)) ;;;
  pframe_pin p.

Section with_lookup.
(** [pframe_lookup], for the calls that nest. *)
Context (lookup : positive → Z → bool → M P (Z * option positive)).

Definition shadow_fillpage o p : M P Z :=
  pf <- frame_get p ;;
  kassert (pf_busy pf) ;;;
  kassert (negb (pframe_is_pinned pf)) ;;;
  n <- get (λ s, size (objs s)) ;;
  r <- fill_find n (Some o) (pf_pagenum pf) ;;
  match r with
  | Some src => copy_and_pin p src ;;; ret 0
  | None =>
      O <- obj_get o ;;
      b <- deref (mmo_bottom_obj O) ;;
      ' (err, r) <- lookup b (pf_pagenum pf) false ;;
      if err >=? 0 then src <- deref r ;; copy_and_pin p src ;;; ret 0
      else ret err
  end.

Definition mmo_fillpage o p : M P Z :=
  O <- obj_get o ;;
  match mmo_ops O with
  | anon_mmobj_ops => anon_fillpage p
  | shadow_mmobj_ops => shadow_fillpage o p
  | other_mmobj_ops => other_fillpage o p
  end.

Definition pframe_fill p : M P Z :=
  frame_upd p (set_pf_busy true) ;;;
  pf <- frame_get p ;;
  o <- deref (pf_obj pf) ;;
  r <- mmo_fillpage o p ;;
  frame_upd p (set_pf_busy false) ;;;
  on_ext (sched_broadcast_on (QFrame p)) ;;;
  ret r.

(** [while (1)]: a turn for each time the page is found busy. *)
Fixpoint pframe_get_loop (turns : nat) o (pagenum : Z) : M P (Z * option positive) :=
  r <- pframe_get_resident (Some o) pagenum ;;
  match r with
  | Some p =>
      pf <- frame_get p ;;
      if pf_busy pf then
        on_ext (sched_sleep_on (QFrame p)) ;;;
        match turns with O => out_of_fuel | S turns => pframe_get_loop turns o pagenum end
      else ret (0, Some p)
  | None =>
      r <- pframe_alloc o pagenum ;;
      p <- deref r ;;
      fill_res <- pframe_fill p ;;
      if fill_res <? 0 then pframe_free p ;;; ret (fill_res, None)
      else
        pf <- frame_get p ;;
        kassert (negb (pf_busy pf)) ;;;
        ret (0, Some p)
  end.
Definition pframe_get o (pagenum : Z) : M P (Z * option positive) :=
  pframe_get_loop get_turns o pagenum.

Definition shadow_dirtypage : M P Z := ret 0.
Definition anon_dirtypage p : M P Z := frame_upd p (set_pf_dirty true) ;;; ret 0.
Definition mmo_dirtypage o p : M P Z :=
  O <- obj_get o ;;
  match mmo_ops O with
  | anon_mmobj_ops => anon_dirtypage p
  | shadow_mmobj_ops => shadow_dirtypage
  | other_mmobj_ops => other_dirtypage o p
  end.

Definition pframe_dirty p : M P Z :=
  pf <- frame_get p ;;
  kassert (negb (pf_busy pf)) ;;;
  frame_upd p (set_pf_busy true) ;;;
  o <- deref (pf_obj pf) ;;
  r <- mmo_dirtypage o p ;;
  (if r =? 0 then frame_upd p (set_pf_dirty true) else ret tt) ;;;
  frame_upd p (set_pf_busy false) ;;;
  on_ext (sched_broadcast_on (QFrame p)) ;;;
  ret r.

Definition anon_lookuppage o (pagenum : Z) : M P (Z * option positive) := pframe_get o pagenum.

(** The assertions at the end of [shadow_lookuppage]. *)
Definition shadow_found (pagenum : Z) (r : option positive) : M P (Z * option positive) :=
  p <- deref r ;;
  pf <- frame_get p ;;
  kassert ((pagenum =? pf_pagenum pf) && negb (pf_busy pf)) ;;;
  ret (0, Some p).

Definition shadow_lookuppage o (pagenum : Z) (forwrite : bool) : M P (Z * option positive) :=
  if negb forwrite then
    n <- get (λ s, size (objs s)) ;;
    r <- shadow_find n o pagenum ;;
    match r with
    | Some p => shadow_found pagenum (Some p)
    | None =>
        O <- obj_get o ;;
        b <- deref (mmo_bottom_obj O) ;;
        ' (err, r) <- lookup b pagenum false ;;
        if err <? 0 then ret (err, r) else shadow_found pagenum r
    end
  else
    r <- pframe_get_resident (Some o) pagenum ;;
    match r with
    | Some p => shadow_found pagenum (Some p)
    | None =>
        ' (err, r) <- pframe_get o pagenum ;;
        if err <? 0 then ret (err, r)
        else
          p <- deref r ;;
          _ <- pframe_dirty p ;;
          shadow_found pagenum (Some p)
    end.
End with_lookup.

(** [o->mmo_ops->lookuppage(o, pagenum, forwrite, result)]: the calls nest once for
    an object and once for the object at its bottom. *)
Fixpoint lookup_nested (fuel : nat) o (pagenum : Z) (forwrite : bool) : M P (Z * option positive) :=
  match fuel with
  | O => out_of_fuel
  | S fuel =>
      O <- obj_get o ;;
      match mmo_ops O with
      | anon_mmobj_ops => anon_lookuppage (lookup_nested fuel) o pagenum
      | shadow_mmobj_ops => shadow_lookuppage (lookup_nested fuel) o pagenum forwrite
      | other_mmobj_ops => other_lookuppage o pagenum forwrite
      end
  end.
Definition pframe_lookup (o : option positive) (pagenum : Z) (forwrite : bool)
    : M P (Z * option positive) :=
  o <- deref o ;;
  n <- get (λ s, S (size (objs s))) ;;
  lookup_nested n o pagenum forwrite.

(** ** Cleaning and moving pages *)

Definition anon_cleanpage : M P Z := ret 0.
Definition shadow_cleanpage : M P Z := ret 0.
Definition mmo_cleanpage o p : M P Z :=
  O <- obj_get o ;;
  match mmo_ops O with
  | anon_mmobj_ops => anon_cleanpage
  | shadow_mmobj_ops => shadow_cleanpage
  | other_mmobj_ops => other_cleanpage o p
  end.

Definition pframe_clean p : M P Z :=
  pf <- frame_get p ;;
  kassert (pf_dirty pf) ;;;
  kassert (pf_pincount pf =? 0) ;;;
  frame_upd p (set_pf_dirty false) ;;;
  on_ext (tlb_flush (pf_addr pf)) ;;;
  pframe_remove_from_pts p ;;;
  frame_upd p (set_pf_busy true) ;;;
  o <- deref (pf_obj pf) ;;
  r <- mmo_cleanpage o p ;;
  (if r <? 0 then frame_upd p (set_pf_dirty true) else ret tt) ;;;
  frame_upd p (set_pf_busy false) ;;;
  on_ext (sched_broadcast_on (QFrame p)) ;;;
  ret r.

Definition pframe_migrate p (dest : positive) : M P unit :=
  pf <- frame_get p ;;
  kassert (negb (pf_busy pf)) ;;;
  r <- pframe_get_resident (Some dest) (pf_pagenum pf) ;;
  match r with
  | Some _ => pframe_unpin p ;;; _ <- pframe_clean p ;; pframe_free p
  | None =>
      src <- deref (pf_obj pf) ;;
      frame_upd p (set_pf_obj (Some dest)) ;;;
      hash_set (λ h, let i := hash_page (Some src) (pf_pagenum pf) in
                     <[i := remove p (hash_chain h i)]> h) ;;;
      obj_upd src (λ O, set_mmo_respages (remove p (mmo_respages O)) O) ;;;
      obj_upd src (λ O, set_mmo_nrespages (mmo_nrespages O - 1) O) ;;;
      mmo_put src ;;;
      hash_set (λ h, let i := hash_page (Some dest) (pf_pagenum pf) in
                     <[i := p :: hash_chain h i]> h) ;;;
      obj_upd dest (λ O, set_mmo_respages (p :: mmo_respages O) O) ;;;
      obj_upd dest (λ O, set_mmo_nrespages (mmo_nrespages O + 1) O) ;;;
      mmo_ref dest
  end.

(** One walk along the list: [true] if the walk starts over. *)
Fixpoint clean_walk (l : list positive) : M P bool :=
  match l with
  | [] => ret false
  | p :: l =>
      pf <- frame_get p ;;
      kassert (negb (pframe_is_pinned pf)) ;;;
      kassert (negb (pframe_is_free pf)) ;;;
      if pf_busy pf then on_ext (sched_sleep_on (QFrame p)) ;;; ret true
      else if pf_dirty pf then _ <- pframe_clean p ;; ret true
      else clean_walk l
  end.
Fixpoint clean_all_loop (turns : nat) : M P unit :=
  l <- get alloc_list ;;
  again <- clean_walk l ;;
  if (again : bool) then
    match turns with O => out_of_fuel | S turns => clean_all_loop turns end
  else ret tt.
Definition pframe_clean_all : M P unit :=
  n <- get (λ s, (length (alloc_list s) + get_turns)%nat) ;; clean_all_loop n.

(** ** The pageout daemon *)

Definition pageoutd_target_met s : bool := page_free_count (pext s) >=? nfreepages_target s.

Definition pageoutd_step p : M P unit :=
  pf <- frame_get p ;;
  if pf_busy pf then on_ext (sched_sleep_on (QFrame p))
  else if pf_dirty pf then _ <- pframe_clean p ;; ret tt
  else pframe_free p.

Fixpoint pageoutd_reclaim (turns : nat) : M P unit :=
  met <- get pageoutd_target_met ;;
  l <- get alloc_list ;;
  if (met : bool) then ret tt
  else match l with
       | [] => ret tt
       | p :: _ =>
           pageoutd_step p ;;;
           match turns with O => out_of_fuel | S turns => pageoutd_reclaim turns end
       end.

(** The daemon, for [rounds] wake-ups. *)
Fixpoint pageoutd_run (rounds : nat) : M P unit :=
  n <- get nallocated ;;
  kassert (0 <=? n) ;;;
  turns <- get (λ s, (2 * length (alloc_list s) + get_turns)%nat) ;;
  pageoutd_reclaim turns ;;;
  on_ext (sched_broadcast_on QAlloc) ;;;
  r <- on_ext (sched_cancellable_sleep_on QPageout) ;;
  (if negb (r =? 0) then on_ext (kthread_exit 0) else ret tt) ;;;
  match rounds with O => out_of_fuel | S rounds => pageoutd_run rounds end.
End pframe.
