(* ===== verification/PframeProps.v ===== *)
(** * Properties of the page cache: lookup, pinning, allocation and filling *)
From S2P Require Import Prelude Headers Vmmap Pframe.
Local Open Scope kernel_scope.

Section props.
Context `{HP : PageH, HH : PmemH} {X : Type} `{HX : !PmemExt X, HT : !OtherObj X}.
Local Abbreviation P := (pmem X).
Implicit Types (p q o : positive) (s : P) (f : pframe).

(** ** The invariant *)

(** What identifies the frames, and how often they are pinned. *)
Definition ident (fs : gmap positive pframe) : gmap positive (option positive * Z) :=
  (λ f, (pf_obj f, pf_pagenum f)) <$> fs.
Definition pins (fs : gmap positive pframe) : gmap positive Z := pf_pincount <$> fs.

(** Every frame holds a page of an object, no two the same page; it is in the hash
    chain of its page and in the list of its object, and nothing else is. *)
Record ident_wf (id : gmap positive (option positive * Z)) (h : gmap Z (list positive))
    (os : gmap positive mmobj) : Prop := IdentWf {
  iw_obj p x : id !! p = Some x → ∃ o n O, x = (Some o, n) ∧ os !! o = Some O;
  iw_unique p q x : id !! p = Some x → id !! q = Some x → p = q;
  iw_chain_nodup i : NoDup (hash_chain h i);
  iw_chain i p : p ∈ hash_chain h i ↔ ∃ x, id !! p = Some x ∧ hash_page x.1 x.2 = i;
  iw_res_nodup o O : os !! o = Some O → NoDup (mmo_respages O);
  iw_nres o O : os !! o = Some O → mmo_nrespages O = Z.of_nat (length (mmo_respages O));
  iw_res o O p : os !! o = Some O → p ∈ mmo_respages O ↔ ∃ n, id !! p = Some (Some o, n)
}.

(** The frames on [alloc_list] are those that are not pinned, the frames on
    [pinned_list] those that are, and the counts are the lengths of the lists. *)
Record pins_wf (pn : gmap positive Z) (al : list positive) (na : Z) (pl : list positive) (np : Z)
    : Prop := PinsWf {
  pw_al_nodup : NoDup al;
  pw_pl_nodup : NoDup pl;
  pw_na : na = Z.of_nat (length al);
  pw_np : np = Z.of_nat (length pl);
  pw_al p : p ∈ al ↔ pn !! p = Some 0;
  pw_pl p : p ∈ pl ↔ ∃ n, pn !! p = Some n ∧ 0 < n;
  pw_pos p n : pn !! p = Some n → 0 <= n
}.

Record pmem_wf s : Prop := PmemWf {
  mw_ident : ident_wf (ident (frames s)) (pframe_hash s) (objs s);
  mw_pins : pins_wf (pins (frames s)) (alloc_list s) (nallocated s) (pinned_list s) (npinned s);
  (** an object in use has a reference besides those of its pages *)
  mw_refs o O : objs s !! o = Some O → mmo_nrespages O < mmo_refcount O
}.

(** The frames, whatever the reference counts of the objects. *)
Definition cache_wf s : Prop :=
  ident_wf (ident (frames s)) (pframe_hash s) (objs s) ∧
  pins_wf (pins (frames s)) (alloc_list s) (nallocated s) (pinned_list s) (npinned s).

Lemma pmem_wf_cache s : pmem_wf s → cache_wf s.
Proof. by intros []. Qed.

Lemma cache_wf_pmem s :
  cache_wf s → (∀ o O, objs s !! o = Some O → mmo_nrespages O < mmo_refcount O) → pmem_wf s.
Proof. intros [] ?. by split. Qed.

(** ** States *)

Definition set_frames fs s : P := Pmem fs (objs s) (alloc_list s) (nallocated s) (pinned_list s)
  (npinned s) (pframe_hash s) (nfreepages_min s) (nfreepages_target s) (pext s).
Definition set_objs os s : P := Pmem (frames s) os (alloc_list s) (nallocated s) (pinned_list s)
  (npinned s) (pframe_hash s) (nfreepages_min s) (nfreepages_target s) (pext s).
Definition set_alloc al na s : P := Pmem (frames s) (objs s) al na (pinned_list s)
  (npinned s) (pframe_hash s) (nfreepages_min s) (nfreepages_target s) (pext s).
Definition set_pinned pl np s : P := Pmem (frames s) (objs s) (alloc_list s) (nallocated s) pl
  np (pframe_hash s) (nfreepages_min s) (nfreepages_target s) (pext s).
Definition set_hash h s : P := Pmem (frames s) (objs s) (alloc_list s) (nallocated s) (pinned_list s)
  (npinned s) h (nfreepages_min s) (nfreepages_target s) (pext s).
Definition set_ext x s : P := Pmem (frames s) (objs s) (alloc_list s) (nallocated s) (pinned_list s)
  (npinned s) (pframe_hash s) (nfreepages_min s) (nfreepages_target s) x.

Lemma frame_get_eq s p f : frames s !! p = Some f → frame_get p s = Ret f s.
Proof. unfold frame_get. by intros ->. Qed.
Lemma obj_get_eq s o O : objs s !! o = Some O → obj_get o s = Ret O s.
Proof. unfold obj_get. by intros ->. Qed.
Lemma frame_upd_eq s p f g :
  frames s !! p = Some f → frame_upd p g s = Ret tt (set_frames (<[p := g f]> (frames s)) s).
Proof. intros Hp. unfold frame_upd, frames_set, modify. by rewrite (alter_lookup_insert _ _ _ f). Qed.
Lemma obj_upd_eq s o O g :
  objs s !! o = Some O → obj_upd o g s = Ret tt (set_objs (<[o := g O]> (objs s)) s).
Proof. intros Ho. unfold obj_upd, objs_set, modify. by rewrite (alter_lookup_insert _ _ _ O). Qed.
Lemma on_ext_eq {A} (m : M X A) s a x : m (pext s) = Ret a x → on_ext m s = Ret a (set_ext x s).
Proof. unfold on_ext, zoom. by intros ->. Qed.

(** ** Lists and maps *)

Lemma elem_of_remove p q l : q ∈ remove p l ↔ q ≠ p ∧ q ∈ l.
Proof. unfold remove. rewrite list_elem_of_filter. naive_solver. Qed.

Lemma remove_length p l : NoDup l → p ∈ l → Z.of_nat (length (remove p l)) = Z.of_nat (length l) - 1.
Proof.
  intros Hnd Hp. rewrite (filter_ne_perm l p Hnd Hp) at 2. simpl. unfold remove. lia.
Qed.

Lemma NoDup_remove p l : NoDup l → NoDup (remove p l).
Proof. apply NoDup_filter. Qed.

Lemma NoDup_snoc p l : NoDup l → p ∉ l → NoDup (l ++ [p]).
Proof.
  intros Hl Hp. apply NoDup_app. split; [done|]. split; [|apply NoDup_singleton].
  intros q Hq [-> | []%elem_of_nil]%elem_of_cons. done.
Qed.

Lemma ident_insert fs p f : ident (<[p := f]> fs) = <[p := (pf_obj f, pf_pagenum f)]> (ident fs).
Proof. unfold ident. by rewrite fmap_insert. Qed.
Lemma pins_insert fs p f : pins (<[p := f]> fs) = <[p := pf_pincount f]> (pins fs).
Proof. unfold pins. by rewrite fmap_insert. Qed.
Lemma ident_lookup fs p f :
  fs !! p = Some f → ident fs !! p = Some (pf_obj f, pf_pagenum f).
Proof. intros Hp. unfold ident. by rewrite lookup_fmap, Hp. Qed.
Lemma pins_lookup fs p f : fs !! p = Some f → pins fs !! p = Some (pf_pincount f).
Proof. intros Hp. unfold pins. by rewrite lookup_fmap, Hp. Qed.
Lemma ident_inv fs p x :
  ident fs !! p = Some x → ∃ f, fs !! p = Some f ∧ x = (pf_obj f, pf_pagenum f).
Proof. unfold ident. rewrite lookup_fmap, fmap_Some. naive_solver. Qed.

(** Changing a frame in neither way. *)
Lemma ident_same fs p f g :
  fs !! p = Some f → pf_obj g = pf_obj f → pf_pagenum g = pf_pagenum f →
  ident (<[p := g]> fs) = ident fs.
Proof.
  intros Hp Ho Hn. rewrite ident_insert, Ho, Hn. apply insert_id. by apply ident_lookup.
Qed.
Lemma pins_same fs p f g :
  fs !! p = Some f → pf_pincount g = pf_pincount f → pins (<[p := g]> fs) = pins fs.
Proof. intros Hp Hn. rewrite pins_insert, Hn. apply insert_id. by apply pins_lookup. Qed.

Lemma cache_wf_frame s p f : cache_wf s → frames s !! p = Some f → ∃ o O,
  pf_obj f = Some o ∧ objs s !! o = Some O ∧ 0 <= pf_pincount f.
Proof.
  intros [Hi Hpn] Hp. destruct (iw_obj _ _ _ Hi p _ (ident_lookup _ _ _ Hp)) as (o & n & O & Hx & Ho).
  exists o, O. split; [congruence|]. split; [done|]. eapply pw_pos; [done|by apply pins_lookup].
Qed.

Lemma pmem_wf_frame s p f : pmem_wf s → frames s !! p = Some f → ∃ o O,
  pf_obj f = Some o ∧ objs s !! o = Some O ∧ 0 <= pf_pincount f.
Proof. intros Hwf%pmem_wf_cache. by apply cache_wf_frame. Qed.

(** ** Finding a resident page *)

Lemma chain_search_eq s (o : option positive) n l :
  (∀ p, p ∈ l → is_Some (frames s !! p)) →
  ∃ r, chain_search l o n s = Ret r s ∧
    match r with
    | Some p => p ∈ l ∧ ∃ f, frames s !! p = Some f ∧ pf_obj f = o ∧ pf_pagenum f = n
    | None => ∀ p f, p ∈ l → frames s !! p = Some f → ¬ (pf_obj f = o ∧ pf_pagenum f = n)
    end.
Proof.
  induction l as [|q l IH]; intros Hl.
  { exists None. split; [done|]. intros p f Hin. by apply elem_of_nil in Hin. }
  destruct (Hl q) as [g Hg]; [left|]. simpl. rewrite (bind_Ret _ _ _ _ _ (frame_get_eq _ _ _ Hg)).
  destruct (bool_decide_reflect (o = pf_obj g)); simpl.
  - destruct (Z.eqb_spec n (pf_pagenum g)).
    + exists (Some q). split; [done|]. split; [left|]. by exists g.
    + destruct IH as (r & Hr & Hc); [intros; apply Hl; by right|]. exists r. split; [done|].
      destruct r as [p|]; [split; [right|]; apply Hc|].
      intros p f [-> |Hin]%elem_of_cons Hf; [naive_solver|by eapply Hc].
  - destruct IH as (r & Hr & Hc); [intros; apply Hl; by right|]. exists r. split; [done|].
    destruct r as [p|]; [split; [right|]; apply Hc|].
    intros p f [-> |Hin]%elem_of_cons Hf; [naive_solver|by eapply Hc].
Qed.

(** Only the order of [alloc_list] differs. *)
Record same_but_order s s' : Prop := SameButOrder {
  so_frames : frames s' = frames s;
  so_objs : objs s' = objs s;
  so_alloc : alloc_list s' ≡ₚ alloc_list s;
  so_nalloc : nallocated s' = nallocated s;
  so_pinned : pinned_list s' = pinned_list s;
  so_npinned : npinned s' = npinned s;
  so_hash : pframe_hash s' = pframe_hash s;
  so_ext : pext s' = pext s
}.

Lemma same_but_order_wf s s' : same_but_order s s' → pmem_wf s → pmem_wf s'.
Proof.
  intros [Hf Ho Ha Hn Hp Hnp Hh _] [Hi Hpn Hr]. split.
  - by rewrite Hf, Ho, Hh.
  - rewrite Hf, Hn, Hp, Hnp. destruct Hpn. split; try done.
    + by rewrite Ha.
    + by rewrite Ha.
    + intros p. by rewrite Ha.
  - by rewrite Ho.
Qed.

(** The resident page of an object, by looking at every frame. *)
Definition resident s (o : option positive) (n : Z) (r : option positive) : Prop :=
  match r with
  | Some p => ∃ f, frames s !! p = Some f ∧ pf_obj f = o ∧ pf_pagenum f = n
  | None => ∀ p f, frames s !! p = Some f → ¬ (pf_obj f = o ∧ pf_pagenum f = n)
  end.

Lemma get_resident_spec s (o : option positive) n :
  pmem_wf s → returns (pframe_get_resident o n) s (λ r s',
    resident s o n r ∧ same_but_order s s' ∧
    ∀ p f, r = Some p → frames s !! p = Some f → pf_pincount f = 0 → last (alloc_list s') = Some p).
Proof.
  intros Hwf. pose proof Hwf as [Hi Hpn _]. unfold pframe_get_resident, returns. kstep.
  set (ch := hash_chain _ _).
  assert (∀ p, p ∈ ch ↔ ∃ f, frames s !! p = Some f ∧ hash_page (pf_obj f) (pf_pagenum f) = hash_page o n)
    as Hch.
  { intros p. unfold ch. rewrite (iw_chain _ _ _ Hi). split.
    - intros (x & (f & Hf & ->)%ident_inv & Hx). by exists f.
    - intros (f & Hf & Hx). eexists. split; [by apply ident_lookup|done]. }
  destruct (chain_search_eq s o n ch) as (r & Hr & Hc); [intros p (f & Hf & _)%Hch; by exists f|].
  rewrite (bind_Ret _ _ _ _ _ Hr). destruct r as [p|].
  - destruct Hc as (_ & f & Hf & Ho & Hn). rewrite (bind_Ret _ _ _ _ _ (frame_get_eq _ _ _ Hf)).
    unfold pframe_is_pinned. destruct (Z.ltb_spec 0 (pf_pincount f)) as [Hpos|Hle].
    + eexists _, _. split; [done|]. split; [by exists f|]. split; [done|].
      intros q g [= <-] Hg Hz. simplify_eq. lia.
    + eexists _, _. split; [done|]. split; [by exists f|].
      assert (pf_pincount f = 0) as Hz.
      { pose proof (pw_pos _ _ _ _ _ Hpn p _ (pins_lookup _ _ _ Hf)). lia. }
      split; [|intros q g [= <-] _ _; simpl; by rewrite last_snoc].
      split; simpl; try done; [|lia].
      assert (p ∈ alloc_list s) as Hin by (apply (pw_al _ _ _ _ _ Hpn); rewrite <- Hz; by apply pins_lookup).
      rewrite Permutation_app_comm. simpl. symmetry. apply filter_ne_perm; [apply Hpn|done].
  - eexists _, _. split; [done|]. split; [|done]. intros p f Hf [<- <-].
    eapply Hc; [apply Hch|by apply Hf|done]. by exists f.
Qed.

(** ** Pinning *)

Lemma pins_wf_pin pn al na pl np p :
  pins_wf pn al na pl np → pn !! p = Some 0 →
  pins_wf (<[p := 1]> pn) (remove p al) (na - 1) (pl ++ [p]) (np + 1).
Proof.
  intros [Hal Hpl Hna Hnp Hia Hip Hpos] Hp.
  assert (p ∈ al) as Hpa by (by apply Hia).
  assert (p ∉ pl) as Hnp' by (intros (n & Hn & ?)%Hip; simplify_eq; lia). split.
  - by apply NoDup_remove.
  - by apply NoDup_snoc.
  - rewrite remove_length by done. lia.
  - rewrite length_app. simpl. lia.
  - intros q. rewrite elem_of_remove, Hia, lookup_insert. case_decide; naive_solver.
  - intros q. rewrite elem_of_app, list_elem_of_singleton, Hip, lookup_insert. case_decide; naive_solver lia.
  - intros q n. rewrite lookup_insert. case_decide; naive_solver lia.
Qed.

Lemma pins_wf_unpin pn al na pl np p :
  pins_wf pn al na pl np → pn !! p = Some 1 →
  pins_wf (<[p := 0]> pn) (al ++ [p]) (na + 1) (remove p pl) (np - 1).
Proof.
  intros [Hal Hpl Hna Hnp Hia Hip Hpos] Hp.
  assert (p ∈ pl) as Hpp by (apply Hip; exists 1; split; [done|lia]).
  assert (p ∉ al) as Hna' by (intros ?%Hia; congruence). split.
  - by apply NoDup_snoc.
  - by apply NoDup_remove.
  - rewrite length_app. simpl. lia.
  - rewrite remove_length by done. lia.
  - intros q. rewrite elem_of_app, list_elem_of_singleton, Hia, lookup_insert. case_decide; naive_solver.
  - intros q. rewrite elem_of_remove, Hip, lookup_insert. case_decide; naive_solver lia.
  - intros q n. rewrite lookup_insert. case_decide; naive_solver lia.
Qed.

Lemma pins_wf_more pn al na pl np p n m :
  pins_wf pn al na pl np → pn !! p = Some n → 0 < n → 0 < m → pins_wf (<[p := m]> pn) al na pl np.
Proof.
  intros [Hal Hpl Hna Hnp Hia Hip Hpos] Hp Hn Hm. split; try done.
  - intros q. rewrite Hia, lookup_insert. case_decide; naive_solver lia.
  - intros q. rewrite Hip, lookup_insert. case_decide; naive_solver lia.
  - intros q k. rewrite lookup_insert. case_decide; naive_solver lia.
Qed.

(** The pin count of a frame is [v]; only it and the lists differ. *)
Definition pinned_to s p f (v : Z) s' : Prop :=
  pmem_wf s' ∧ frames s' = <[p := set_pf_pincount v f]> (frames s) ∧ objs s' = objs s ∧
  pframe_hash s' = pframe_hash s ∧ pext s' = pext s.

Lemma pin_spec s p f :
  pmem_wf s → frames s !! p = Some f →
  returns (pframe_pin p) s (λ _ s', pinned_to s p f (pf_pincount f + 1) s').
Proof.
  intros Hwf Hp. destruct (pmem_wf_frame s p f Hwf Hp) as (o & O & Hfo & _ & Hpos).
  pose proof Hwf as [Hi Hpn Hr]. pose proof (pins_lookup _ _ _ Hp) as Hpl.
  unfold pframe_pin, returns. rewrite (bind_Ret _ _ _ _ _ (frame_get_eq _ _ _ Hp)).
  rewrite (bind_Ret _ _ _ tt s) by (unfold pframe_is_free; by rewrite Hfo).
  rewrite (bind_Ret _ _ _ tt s) by (apply kassert_true; by apply Z.leb_le).
  rewrite (bind_Ret _ _ _ _ _ (frame_upd_eq _ _ _ _ Hp)).
  destruct (Z.eqb_spec (pf_pincount f + 1) 1) as [Hz|Hnz].
  - eexists _, _. split; [reflexivity|]. split; [split|done]; simpl; try done.
    + by erewrite ident_same.
    + rewrite pins_insert. simpl. rewrite Hz. apply pins_wf_pin; [done|]. rewrite Hpl. f_equal. lia.
  - eexists _, _. split; [reflexivity|]. split; [split|done]; simpl; try done.
    + by erewrite ident_same.
    + rewrite pins_insert. simpl. eapply pins_wf_more; [done|done|lia|lia].
Qed.

Lemma unpin_cache s p f :
  cache_wf s → frames s !! p = Some f → 0 < pf_pincount f →
  returns (pframe_unpin p) s (λ _ s', cache_wf s' ∧
    frames s' = <[p := set_pf_pincount (pf_pincount f - 1) f]> (frames s) ∧ objs s' = objs s ∧
    pframe_hash s' = pframe_hash s ∧ pext s' = pext s).
Proof.
  intros Hwf Hp Hpos. destruct (cache_wf_frame s p f Hwf Hp) as (o & O & Hfo & _ & _).
  pose proof Hwf as [Hi Hpn]. pose proof (pins_lookup _ _ _ Hp) as Hpl.
  unfold pframe_unpin, returns. rewrite (bind_Ret _ _ _ _ _ (frame_get_eq _ _ _ Hp)).
  rewrite (bind_Ret _ _ _ tt s) by (unfold pframe_is_free; by rewrite Hfo).
  rewrite (bind_Ret _ _ _ tt s) by (apply kassert_true; by apply Z.ltb_lt).
  rewrite (bind_Ret _ _ _ _ _ (frame_upd_eq _ _ _ _ Hp)).
  destruct (Z.eqb_spec (pf_pincount f - 1) 0) as [Hz|Hnz].
  - eexists _, _. split; [reflexivity|]. split; [split|done]; simpl; try done.
    + by erewrite ident_same.
    + rewrite pins_insert. simpl. rewrite Hz. apply pins_wf_unpin; [done|]. rewrite Hpl. f_equal. lia.
  - eexists _, _. split; [reflexivity|]. split; [split|done]; simpl; try done.
    + by erewrite ident_same.
    + rewrite pins_insert. simpl. eapply pins_wf_more; [done|done|lia|lia].
Qed.

Lemma unpin_spec s p f :
  pmem_wf s → frames s !! p = Some f → 0 < pf_pincount f →
  returns (pframe_unpin p) s (λ _ s', pinned_to s p f (pf_pincount f - 1) s').
Proof.
  intros Hwf Hp Hpos.
  eapply returns_mono; [exact (unpin_cache s p f (pmem_wf_cache _ Hwf) Hp Hpos)|].
  intros [] s' (Hc & Hf & Ho & ? & ?). split; [|done]. apply cache_wf_pmem; [done|]. rewrite Ho. apply Hwf.
Qed.

(** A change of a frame that leaves identity and pins alone. *)
Lemma frame_change_wf s p f g :
  pmem_wf s → frames s !! p = Some f → pf_obj g = pf_obj f → pf_pagenum g = pf_pagenum f →
  pf_pincount g = pf_pincount f → pmem_wf (set_frames (<[p := g]> (frames s)) s).
Proof.
  intros [Hi Hpn Hr] Hp Ho Hn Hc. split; simpl; [|by erewrite pins_same|done].
  by erewrite ident_same.
Qed.

(** ** New frames *)

Lemma hash_chain_insert h i l j :
  hash_chain (<[i := l]> h) j = if decide (i = j) then l else hash_chain h j.
Proof. unfold hash_chain. rewrite lookup_insert. by case_decide. Qed.

Lemma ident_wf_insert id h os o O n p :
  ident_wf id h os → os !! o = Some O → id !! p = None →
  (∀ q, id !! q ≠ Some (Some o, n)) →
  ident_wf (<[p := (Some o, n)]> id)
    (<[hash_page (Some o) n := p :: hash_chain h (hash_page (Some o) n)]> h)
    (<[o := set_mmo_respages (p :: mmo_respages O) (set_mmo_nrespages (mmo_nrespages O + 1)
              (set_mmo_refcount (mmo_refcount O + 1) O))]> os).
Proof.
  intros [Hobj Huniq Hcn Hch Hrn Hnr Hres] Ho Hp Hno.
  assert (∀ i, p ∉ hash_chain h i) as Hpc by (intros i (x & Hx & _)%Hch; congruence).
  assert (p ∉ mmo_respages O) as Hpr by (intros (k & Hk)%(Hres _ _ _ Ho); congruence). split.
  - intros q x. rewrite lookup_insert. case_decide as Hq.
    + intros [= <-]. eexists _, _, _. split; [done|]. apply lookup_insert_eq.
    + intros (o' & n' & O' & -> & Ho')%Hobj. destruct (decide (o = o')) as [<-|Hne].
      * eexists _, _, _. split; [done|]. apply lookup_insert_eq.
      * exists o', n', O'. split; [done|]. by rewrite lookup_insert_ne.
  - intros q r x. rewrite !lookup_insert. repeat case_decide; naive_solver.
  - intros i. rewrite hash_chain_insert. case_decide; [|done]. apply NoDup_cons. by split.
  - intros i q. rewrite hash_chain_insert, lookup_insert. case_decide as Hi.
    + subst i. rewrite elem_of_cons, Hch. case_decide; naive_solver.
    + rewrite Hch. case_decide; naive_solver.
  - intros o' O'. rewrite lookup_insert. case_decide; [|by apply Hrn]. intros [= <-]. simpl.
    apply NoDup_cons. split; [done|]. by eapply Hrn.
  - intros o' O'. rewrite lookup_insert. case_decide; [|by apply Hnr]. intros [= <-]. simpl.
    rewrite (Hnr _ _ Ho). lia.
  - intros o' O' q. rewrite !lookup_insert. case_decide as Heq.
    + intros [= <-]. simpl. subst o'. rewrite elem_of_cons, (Hres _ _ _ Ho).
      case_decide; naive_solver.
    + intros HO'. rewrite (Hres _ _ _ HO'). case_decide; naive_solver.
Qed.

Lemma pins_wf_insert pn al na pl np p :
  pins_wf pn al na pl np → pn !! p = None →
  pins_wf (<[p := 0]> pn) (al ++ [p]) (na + 1) pl np.
Proof.
  intros [Hal Hpl Hna Hnp Hia Hip Hpos] Hp.
  assert (p ∉ al) by (intros ?%Hia; congruence). split; try done.
  - by apply NoDup_snoc.
  - rewrite length_app. simpl. lia.
  - intros q. rewrite elem_of_app, list_elem_of_singleton, Hia, lookup_insert. case_decide; naive_solver.
  - intros q. rewrite Hip, lookup_insert. case_decide; naive_solver lia.
  - intros q n. rewrite lookup_insert. case_decide; naive_solver lia.
Qed.

(** ** What the page cache promises *)

(** Page [n] of [o], by looking at every frame there is. *)
Definition find_frame s (o : option positive) (n : Z) : option positive :=
  fst <$> head (filter (λ x, pf_obj x.2 = o ∧ pf_pagenum x.2 = n) (map_to_list (frames s))).

Lemma find_frame_resident s (o : option positive) n : resident s o n (find_frame s o n).
Proof.
  unfold find_frame. destruct (filter _ _) as [|[p f] l] eqn:Hf; simpl.
  - intros p f Hp Hx. apply (filter_nil_not_elem_of _ _ (p, f)) in Hf; [|done].
    apply Hf. by apply elem_of_map_to_list.
  - assert ((p, f) ∈ filter (λ x : positive * pframe, pf_obj x.2 = o ∧ pf_pagenum x.2 = n)
      (map_to_list (frames s))) as [Hx Hin]%list_elem_of_filter by (rewrite Hf; left).
    exists f. apply elem_of_map_to_list in Hin. by destruct Hx.
Qed.

Lemma resident_unique s (o : option positive) n r r' :
  pmem_wf s → resident s o n r → resident s o n r' → r = r'.
Proof.
  intros [Hi _ _] Hr Hr'. destruct r as [p|], r' as [q|]; [| | |done].
  - destruct Hr as (f & Hf & <- & <-), Hr' as (g & Hg & Hgo & Hgn). f_equal.
    eapply (iw_unique _ _ _ Hi); [by apply ident_lookup|].
    rewrite <- Hgo, <- Hgn. by apply ident_lookup.
  - destruct Hr as (f & Hf & Ho & Hn). exfalso. by eapply Hr'.
  - destruct Hr' as (f & Hf & Ho & Hn). exfalso. by eapply Hr.
Qed.

(** C31: the hash table gives what a search through every frame would: in a
    consistent page cache [pframe_get_resident] returns, with the frame that holds the
    page or [NULL] if none does; it changes nothing but the order of [alloc_list],
    where an unpinned page it finds comes last. *)
Theorem get_resident_is_search s (o : option positive) (n : Z) :
  pmem_wf s → returns (pframe_get_resident o n) s (λ r s',
    r = find_frame s o n ∧ same_but_order s s' ∧
    ∀ p f, r = Some p → frames s !! p = Some f → pf_pincount f = 0 → last (alloc_list s') = Some p).
Proof.
  intros Hwf. destruct (get_resident_spec s o n Hwf) as (r & s' & Hr & Hres & Hso & Hlast).
  exists r, s'. split; [done|]. split; [|done].
  eapply resident_unique; [done|done|apply find_frame_resident].
Qed.

(** A sequence of calls of [pframe_pin] ([true]) and [pframe_unpin] ([false]). *)
Fixpoint run_pins p (ops : list bool) : M P unit :=
  match ops with
  | [] => ret tt
  | op :: ops => (if op : bool then pframe_pin p else pframe_unpin p) ;;; run_pins p ops
  end.

(** The count they promise to keep; an unpin too many is an error. *)
Fixpoint pin_count (c : Z) (ops : list bool) : option Z :=
  match ops with
  | [] => Some c
  | true :: ops => pin_count (c + 1) ops
  | false :: ops => if 0 <? c then pin_count (c - 1) ops else None
  end.

Lemma unpin_panics s p f :
  pmem_wf s → frames s !! p = Some f → pf_pincount f = 0 → pframe_unpin p s = Panic.
Proof.
  intros Hwf Hp Hz. destruct (pmem_wf_frame s p f Hwf Hp) as (o & O & Hfo & _ & _).
  unfold pframe_unpin. rewrite (bind_Ret _ _ _ _ _ (frame_get_eq _ _ _ Hp)).
  rewrite (bind_Ret _ _ _ tt s) by (unfold pframe_is_free; by rewrite Hfo). by rewrite Hz.
Qed.

Lemma pinned_to_trans s p f v s1 w s2 :
  pinned_to s p f v s1 → pinned_to s1 p (set_pf_pincount v f) w s2 → pinned_to s p f w s2.
Proof.
  intros (_ & Hf1 & Ho1 & Hh1 & Hx1) (Hwf & Hf2 & Ho2 & Hh2 & Hx2). split; [done|].
  split; [by rewrite Hf2, Hf1, insert_insert_eq|]. split_and!; congruence.
Qed.

Lemma pinned_to_lists s p f v s' :
  pinned_to s p f v s' → (p ∈ pinned_list s' ↔ 0 < v) ∧ (p ∈ alloc_list s' ↔ v = 0).
Proof.
  intros ([_ Hpn _] & Hf & _). assert (pins (frames s') !! p = Some v) as Hp.
  { rewrite Hf, pins_insert. apply lookup_insert_eq. }
  rewrite (pw_pl _ _ _ _ _ Hpn), (pw_al _ _ _ _ _ Hpn), Hp. naive_solver.
Qed.

(** What a sequence of calls should come to. *)
Definition counts s p f (r : option Z) (m : M P unit) : Prop :=
  match r with
  | Some c => returns m s (λ _ s', pinned_to s p f c s' ∧
      (p ∈ pinned_list s' ↔ 0 < c) ∧ (p ∈ alloc_list s' ↔ c = 0))
  | None => m s = Panic
  end.

Lemma counts_step s p f v s1 (m m' : M P unit) r :
  m s = Ret tt s1 → pinned_to s p f v s1 → counts s1 p (set_pf_pincount v f) r m' →
  counts s p f r (m ;;; m').
Proof.
  intros Hr Hto Hc. unfold counts in *. destruct r as [c|]; unfold returns;
    rewrite (bind_Ret _ _ _ _ _ Hr); [|done].
  destruct Hc as (a & s2 & Hr2 & Hto2 & Hl). exists a, s2. split; [done|]. split; [|done].
  by eapply pinned_to_trans.
Qed.

(** C21: pinning implements a counter.  Any sequence of pins and unpins of a frame
    returns as long as no unpin finds the count at zero, keeps the page cache
    consistent, leaves the count it should and the frame on the list it belongs to;
    an unpin too many panics. *)
Theorem pins_are_a_counter s p f (ops : list bool) :
  pmem_wf s → frames s !! p = Some f →
  counts s p f (pin_count (pf_pincount f) ops) (run_pins p ops).
Proof.
  revert s f. induction ops as [|[] ops IH]; intros s f Hwf Hp; simpl.
  - eexists _, _. split; [done|].
    assert (pinned_to s p f (pf_pincount f) s) as Hto; [|split; [done|by eapply pinned_to_lists]].
    split; [done|]. split; [|done]. symmetry. apply insert_id. by destruct f.
  - destruct (pin_spec s p f Hwf Hp) as ([] & s1 & Hr & Hto). eapply counts_step; [done|done|].
    destruct Hto as (Hwf1 & Hf1 & _). apply (IH s1); [done|]. rewrite Hf1. apply lookup_insert_eq.
  - destruct (Z.ltb_spec 0 (pf_pincount f)) as [Hpos|Hle].
    + destruct (unpin_spec s p f Hwf Hp Hpos) as ([] & s1 & Hr & Hto). eapply counts_step; [done|done|].
      destruct Hto as (Hwf1 & Hf1 & _). apply (IH s1); [done|]. rewrite Hf1. apply lookup_insert_eq.
    + destruct (pmem_wf_frame s p f Hwf Hp) as (o & O & _ & _ & Hpos). simpl. unfold bind.
      rewrite (unpin_panics s p f Hwf Hp) by lia. done.
Qed.
End props.
