(* ===== verification/PframeLookup.v ===== *)
(** * Properties of page lookup: anonymous objects and copy-on-write *)
From S2P Require Import Prelude Headers Vmmap Pframe PframeProps.
Local Open Scope kernel_scope.

Section lookup.
Context `{HP : PageH, HH : PmemH} {X : Type} `{HX : !PmemExt X, HT : !OtherObj X}.
Local Abbreviation P := (pmem X).
Implicit Types (p q o b : positive) (s : P) (f : pframe) (n : Z).

(** The areas are as before. *)
Definition same_areas (x x' : X) : Prop := ∀ v, vma_at x' v = vma_at x v.

(** What the rest of the kernel promises: these calls return, and those made while a
    page is cleaned or given up leave the areas alone. *)
Class ExtLaws := {
  page_alloc_spec x : returns page_alloc x (λ _ _, True);
  page_free_spec x a : returns (page_free a) x (λ _ x', same_areas x x');
  waitq_init_spec x (q : waitq) : returns (waitq_init q) x (λ _ _, True);
  broadcast_spec x (q : waitq) : returns (sched_broadcast_on q) x (λ _ x', same_areas x x');
  tlb_flush_spec x a : returns (tlb_flush a) x (λ _ x', same_areas x x');
  pt_unmap_spec x pd a : returns (pt_unmap pd a) x (λ _ x', same_areas x x')
}.
Context {HL : ExtLaws}.

(** Memory does not run out. *)
Definition memory_available : Prop :=
  (∀ s, is_Some (pframe_slab s)) ∧ (∀ x r x', page_alloc x = Ret r x' → is_Some r).

Lemma on_ext_spec {A} (m : M X A) {Q : X → A → X → Prop} s :
  (∀ x, returns m x (Q x)) → ∃ a x, on_ext m s = Ret a (set_ext x s) ∧ m (pext s) = Ret a x.
Proof.
  intros Hm. destruct (Hm (pext s)) as (a & x & Hr & _). exists a, x. split; [by apply on_ext_eq|done].
Qed.

Lemma mmo_ref_eq s o O :
  objs s !! o = Some O → mmo_ops O ≠ other_mmobj_ops → 0 < mmo_refcount O →
  mmo_ref o s = Ret tt (set_objs (<[o := set_mmo_refcount (mmo_refcount O + 1) O]> (objs s)) s).
Proof.
  intros Ho Hops Hr. unfold mmo_ref. rewrite (bind_Ret _ _ _ _ _ (obj_get_eq _ _ _ Ho)).
  assert (∀ k, mmo_ops O = k → kassert ((0 <? mmo_refcount O) && bool_decide (mmo_ops O = k)) s = Ret tt s)
    as Hk by (intros k <-; apply kassert_true; by rewrite (proj2 (Z.ltb_lt _ _)), bool_decide_true).
  destruct (mmo_ops O) eqn:Hops'; [| |done].
  - unfold anon_ref. rewrite (bind_Ret _ _ _ _ _ (obj_get_eq _ _ _ Ho)), Hops'.
    rewrite (bind_Ret _ _ _ _ _ (Hk anon_mmobj_ops eq_refl)). by rewrite (obj_upd_eq _ _ _ _ Ho).
  - unfold shadow_ref. rewrite (bind_Ret _ _ _ _ _ (obj_get_eq _ _ _ Ho)), Hops'.
    rewrite (bind_Ret _ _ _ _ _ (Hk shadow_mmobj_ops eq_refl)). by rewrite (obj_upd_eq _ _ _ _ Ho).
Qed.

(** An object with one more resident page. *)
Definition grown p (O : mmobj) : mmobj :=
  set_mmo_respages (p :: mmo_respages O) (set_mmo_nrespages (mmo_nrespages O + 1)
    (set_mmo_refcount (mmo_refcount O + 1) O)).

Lemma pframe_alloc_spec s o O n :
  pmem_wf s → memory_available → objs s !! o = Some O → mmo_ops O ≠ other_mmobj_ops →
  resident s (Some o) n None →
  returns (pframe_alloc o n) s (λ r s', ∃ p addr data, r = Some p ∧ frames s !! p = None ∧
    pmem_wf s' ∧ objs s' = <[o := grown p O]> (objs s) ∧
    frames s' = <[p := Pframe (Some o) n addr false false 0 data]> (frames s)).
Proof.
  intros [Hi Hpn Hr] [Hslab Hpage] Ho Hops Hres. unfold pframe_alloc, returns. kstep.
  destruct (Hslab s) as [p Hp]. rewrite Hp. pose proof (pframe_slab_fresh _ _ Hp) as Hfresh. kstep.
  set (s1 := set_frames (<[p := pframe_uninit p]> (frames s)) s).
  destruct (on_ext_spec page_alloc s1 page_alloc_spec) as (a & x & Hpa & Hpa').
  destruct (Hpage _ _ _ Hpa') as [addr ->].
  rewrite (bind_Ret _ _ _ (Some addr) (set_ext x s1)) by done. do 3 kstep.
  match goal with |- context [bind (on_ext (waitq_init (QFrame p))) _ ?s2] => set (s2' := s2) end.
  destruct (on_ext_spec (waitq_init (QFrame p)) s2' (λ x, waitq_init_spec x _)) as ([] & x2 & Hw & _).
  rewrite (bind_Ret _ _ _ _ _ Hw). kstep.
  match goal with |- context [bind (mmo_ref o) _ ?s3] => set (s3' := s3) end.
  pose proof (Hr _ _ Ho) as Href. pose proof (iw_nres _ _ _ Hi _ _ Ho) as Hn.
  rewrite (bind_Ret _ _ _ _ _ (mmo_ref_eq s3' o O Ho Hops ltac:(lia))).
  rewrite (bind_Ret _ _ _ _ _ (obj_upd_eq (set_objs _ s3') o _ _ (lookup_insert_eq _ _ _))).
  rewrite (bind_Ret _ _ _ _ _ (obj_upd_eq (set_objs _ (set_objs _ s3')) o _ _ (lookup_insert_eq _ _ _))).
  simpl. rewrite !insert_insert_eq.
  exists (Some p). eexists. split; [reflexivity|].
  exists p, addr, (page_bytes x addr). split; [done|]. split; [done|].
  split; [|split; [done|by simpl; rewrite insert_insert_eq]]. split; simpl.
  - rewrite insert_insert_eq, ident_insert. simpl. apply ident_wf_insert; [done|done| |].
    + unfold ident. by rewrite lookup_fmap, Hfresh.
    + intros q (f & Hf & Hid)%ident_inv. apply (Hres q f Hf). by simplify_eq.
  - rewrite insert_insert_eq, pins_insert. simpl. apply pins_wf_insert; [done|].
    unfold pins. by rewrite lookup_fmap, Hfresh.
  - intros o' O'. rewrite lookup_insert. case_decide; [|by apply Hr]. intros [= <-]. simpl. lia.
Qed.

(** ** Anonymous objects *)

Definition zero_page : list Z := replicate (Z.to_nat PAGE_SIZE) 0.

(** A frame that [pframe_fill] has filled: pinned once and not busy any more. *)
Definition filled_frame f (data : list Z) : pframe :=
  set_pf_busy false (set_pf_data data (set_pf_pincount 1 f)).

Lemma anon_fillpage_spec s p f :
  pmem_wf s → frames s !! p = Some f → pf_busy f = true → pf_pincount f = 0 →
  returns (anon_fillpage p) s (λ r s', r = 0 ∧ pmem_wf s' ∧ objs s' = objs s ∧
    frames s' = <[p := set_pf_data zero_page (set_pf_pincount 1 f)]> (frames s)).
Proof.
  intros Hwf Hp Hb Hz. unfold anon_fillpage, returns.
  rewrite (bind_Ret _ _ _ _ _ (frame_get_eq _ _ _ Hp)), Hb. kstep.
  rewrite (bind_Ret _ _ _ tt s) by (unfold pframe_is_pinned; by rewrite Hz).
  destruct (pin_spec s p f Hwf Hp) as ([] & s1 & Hr1 & Hwf1 & Hf1 & Ho1 & _).
  rewrite Hz in Hf1. simpl in Hf1.
  assert (frames s1 !! p = Some (set_pf_pincount 1 f)) as Hp1 by (rewrite Hf1; apply lookup_insert_eq).
  rewrite (bind_Ret _ _ _ _ _ Hr1), (bind_Ret _ _ _ _ _ (frame_upd_eq _ _ _ _ Hp1)).
  eexists _, _. split; [done|]. split; [done|]. split; [by eapply frame_change_wf|].
  split; [done|]. simpl. rewrite Hf1. by rewrite insert_insert_eq.
Qed.

(** ** What is seen through an object *)

(** The content of page [n] of object [o]: that of the resident page, or that seen
    through the object below, and zeros at an anonymous object. *)
Inductive sees s : positive → Z → list Z → Prop :=
| sees_resident o n p f :
    frames s !! p = Some f → pf_obj f = Some o → pf_pagenum f = n → sees s o n (pf_data f)
| sees_zero o n O :
    objs s !! o = Some O → mmo_ops O = anon_mmobj_ops → mmo_shadowed O = None →
    resident s (Some o) n None → sees s o n zero_page
| sees_below o n O sh d :
    objs s !! o = Some O → mmo_shadowed O = Some sh → resident s (Some o) n None →
    sees s sh n d → sees s o n d.

(** The objects from [o] down to [b], which shadows nothing. *)
Inductive chain s : positive → positive → nat → Prop :=
| chain_bottom o O : objs s !! o = Some O → mmo_shadowed O = None → chain s o o 0
| chain_step o O sh b k :
    objs s !! o = Some O → mmo_shadowed O = Some sh → chain s sh b k → chain s o b (S k).

Lemma chain_level s o b k b' k' : chain s o b k → chain s o b' k' → b = b' ∧ k = k'.
Proof.
  intros Hc. revert b' k'. induction Hc as [o O Ho Hs|o O sh b k Ho Hs Hc IH]; intros b' k' Hc';
    inversion Hc'; subst; simplify_eq; [done|]. edestruct IH as [-> ->]; done.
Qed.

Lemma chain_objs s o b k :
  chain s o b k → ∃ l, length l = S k ∧ NoDup l ∧ ∀ x, x ∈ l → x ∈ dom (objs s) ∧
    ∃ j, (j <= k)%nat ∧ chain s x b j.
Proof.
  induction 1 as [o O Ho Hs|o O sh b k Ho Hs Hc (l & Hl & Hnd & Hin)].
  - exists [o]. split; [done|]. split; [apply NoDup_singleton|].
    intros x ->%list_elem_of_singleton. split; [by apply elem_of_dom|]. exists 0%nat.
    split; [lia|by econstructor].
  - exists (o :: l). assert (chain s o b (S k)) as Hco by (by econstructor).
    split; [simpl; lia|]. split.
    + apply NoDup_cons. split; [|done]. intros (_ & j & Hj & Hcj)%Hin.
      destruct (chain_level _ _ _ _ _ _ Hco Hcj). lia.
    + intros x [-> |Hx]%elem_of_cons.
      * split; [by apply elem_of_dom|]. by exists (S k).
      * destruct (Hin x Hx) as (? & j & ? & ?). split; [done|]. exists j. split; [lia|done].
Qed.

Lemma chain_size s o b k : chain s o b k → (k < size (objs s))%nat.
Proof.
  intros (l & Hl & Hnd & Hin)%chain_objs.
  assert (size (list_to_set l : gset positive) <= size (dom (objs s)))%nat as Hs.
  { apply subseteq_size. intros x Hx%elem_of_list_to_set. by apply Hin. }
  rewrite size_dom in Hs. rewrite size_list_to_set in Hs by done. lia.
Qed.

(** Frames of [E] apart, nothing that was there changes, and a new frame is of an
    object in [D] and holds what was seen through it. *)
Record grows (D : positive → Prop) (E : gset positive) s s' : Prop := Grows {
  gr_old p f : p ∉ E → frames s !! p = Some f → frames s' !! p = Some f;
  gr_new p f : p ∉ E → frames s' !! p = Some f → frames s !! p = None →
    pf_busy f = false ∧ ∃ o n, pf_obj f = Some o ∧ pf_pagenum f = n ∧ D o ∧ sees s o n (pf_data f);
  gr_shape o : (λ O, (mmo_ops O, mmo_shadowed O, mmo_bottom_obj O)) <$> objs s' !! o =
               (λ O, (mmo_ops O, mmo_shadowed O, mmo_bottom_obj O)) <$> objs s !! o
}.

Lemma grows_order D E s s' : same_but_order s s' → grows D E s s'.
Proof.
  intros [Hf Ho _ _ _ _ _ _]. split; rewrite ?Hf, ?Ho; try done. intros p f _ -> ?. done.
Qed.

Lemma grows_obj D E s s' o O :
  grows D E s s' → objs s !! o = Some O → ∃ O', objs s' !! o = Some O' ∧
    mmo_ops O' = mmo_ops O ∧ mmo_shadowed O' = mmo_shadowed O ∧ mmo_bottom_obj O' = mmo_bottom_obj O.
Proof.
  intros Hg Ho. pose proof (gr_shape _ _ _ _ Hg o) as Hs. rewrite Ho in Hs.
  destruct (objs s' !! o) as [O'|]; [|done]. exists O'. simpl in Hs. by simplify_eq.
Qed.

(** A page is seen in one way. *)
Lemma sees_unique s o n d d' : pmem_wf s → sees s o n d → sees s o n d' → d = d'.
Proof.
  intros [Hi _ _] Hd. revert d'. induction Hd as [o n p f Hf Hfo Hn|o n O Ho Ha Hs Hr|o n O sh d Ho Hs Hr Hd IH];
    intros d' Hd'; inversion Hd'; subst; simplify_eq; try done.
  - match goal with H : frames s !! ?q = Some ?g |- _ = pf_data ?g =>
      assert (p = q) as -> by (eapply (iw_unique _ _ _ Hi p q (Some o, pf_pagenum f));
        [rewrite <- Hfo; by apply ident_lookup|
         replace (Some o, pf_pagenum f) with (pf_obj g, pf_pagenum g) by congruence;
         by apply ident_lookup]) end.
    congruence.
  - exfalso. match goal with H : resident _ _ _ None |- _ => by eapply H end.
  - exfalso. match goal with H : resident _ _ _ None |- _ => by eapply H end.
  - exfalso. by eapply Hr.
  - exfalso. by eapply Hr.
  - by apply IH.
Qed.

Lemma resident_dec s (o : option positive) n : ∃ r, resident s o n r.
Proof.
  destruct (decide (map_Exists (λ _ f, pf_obj f = o ∧ pf_pagenum f = n) (frames s))) as [(p & f & Hp & Hx)|Hno].
  - exists (Some p), f. naive_solver.
  - exists None. intros p f Hp Hx. apply Hno. by exists p, f.
Qed.

(** What is seen stays: by the page, or by the new frame that holds it. *)
Lemma grows_sees D s s' o n d : pmem_wf s → grows D ∅ s s' → sees s o n d → sees s' o n d.
Proof.
  intros Hwf Hg Hd. pose proof Hd as Hd0. revert Hd0.
  induction Hd as [o n p f Hf Hfo Hn|o n O Ho Ha Hs Hr|o n O sh d Ho Hs Hr Hd IH]; intros Hd0.
  { eapply (sees_resident _ _ _ p); [|done|done]. eapply gr_old; [done|set_solver|done]. }
  all: destruct (grows_obj _ _ _ _ _ _ Hg Ho) as (O' & Ho' & Hop & Hsh & _).
  all: destruct (resident_dec s' (Some o) n) as [[p|] Hp].
  1,3: destruct Hp as (f & Hf & Hfo & Hfn);
    destruct (frames s !! p) as [g|] eqn:Hg'; [|
      destruct (gr_new _ _ _ _ Hg p f ltac:(set_solver) Hf Hg') as (_ & o' & n' & Hfo' & <- & _ & Hsees);
      assert (o' = o) as -> by congruence; subst n;
      rewrite (sees_unique _ _ _ _ _ Hwf Hd0 Hsees); by eapply sees_resident];
    rewrite (gr_old _ _ _ _ Hg p g ltac:(set_solver) Hg') in Hf; simplify_eq;
    exfalso; by eapply (Hr p f).
  - eapply sees_zero; [done|congruence|congruence|done].
  - eapply sees_below; [done|by rewrite Hsh|done|by apply IH].
Qed.

Lemma grows_refl D E s : grows D E s s.
Proof. split; try done. intros p f _ -> ?. done. Qed.

Lemma grows_obj_back D E s s' o O' :
  grows D E s s' → objs s' !! o = Some O' → ∃ O, objs s !! o = Some O ∧
    mmo_ops O' = mmo_ops O ∧ mmo_shadowed O' = mmo_shadowed O ∧ mmo_bottom_obj O' = mmo_bottom_obj O.
Proof.
  intros Hg Ho. pose proof (gr_shape _ _ _ _ Hg o) as Hs. rewrite Ho in Hs.
  destruct (objs s !! o) as [O|]; [|done]. exists O. simpl in Hs. by simplify_eq.
Qed.

Lemma grows_not_resident D s s' (o : option positive) n :
  grows D ∅ s s' → resident s' o n None → resident s o n None.
Proof.
  intros Hg Hr p f Hf. apply (Hr p f). eapply (gr_old _ _ _ _ Hg); [set_solver|done].
Qed.

Lemma grows_sees_back D s s' o n d : grows D ∅ s s' → sees s' o n d → sees s o n d.
Proof.
  intros Hg. induction 1 as [o n p f Hf Hfo Hn|o n O' Ho Ha Hs Hr|o n O' sh d Ho Hs Hr Hd IH].
  - destruct (frames s !! p) as [g|] eqn:Hgp.
    + rewrite (gr_old _ _ _ _ Hg p g ltac:(set_solver) Hgp) in Hf. simplify_eq. by eapply sees_resident.
    + destruct (gr_new _ _ _ _ Hg p f ltac:(set_solver) Hf Hgp) as (_ & o' & n' & Hfo' & <- & _ & Hsees).
      by simplify_eq.
  - destruct (grows_obj_back _ _ _ _ _ _ Hg Ho) as (O & HO & Hop & Hsh & _).
    eapply sees_zero; [done|congruence|congruence|by eapply grows_not_resident].
  - destruct (grows_obj_back _ _ _ _ _ _ Hg Ho) as (O & HO & Hop & Hsh & _).
    eapply sees_below; [done|by rewrite <- Hsh|by eapply grows_not_resident|done].
Qed.

Lemma grows_trans D E s1 s2 s3 : grows D ∅ s1 s2 → grows D E s2 s3 → grows D E s1 s3.
Proof.
  intros H1 H2. split.
  - intros p f Hp Hf. eapply gr_old; [done|done|]. eapply (gr_old _ _ _ _ H1); [set_solver|done].
  - intros p f Hp Hf Hn. destruct (frames s2 !! p) as [g|] eqn:Hg.
    + rewrite (gr_old _ _ _ _ H2 p g Hp Hg) in Hf. simplify_eq.
      apply (gr_new _ _ _ _ H1 p f); [set_solver|done|done].
    + destruct (gr_new _ _ _ _ H2 p f Hp Hf Hg) as (Hb & o & n & Hfo & Hfn & HD & Hs).
      split; [done|]. exists o, n. do 3 (split; [done|]). by eapply grows_sees_back.
  - intros o. by rewrite (gr_shape _ _ _ _ H2), (gr_shape _ _ _ _ H1).
Qed.

(** ** Getting a page *)

(** The page [n] of [o] is not busy. *)
Definition idle s o n : Prop := ∀ p f,
  frames s !! p = Some f → pf_obj f = Some o → pf_pagenum f = n → pf_busy f = false.

(** The page [n] of [o] itself is resident in frame [p], with what was seen. *)
Definition got (D : positive → Prop) s o n (r : Z * option positive) s' : Prop :=
  ∃ p f, r = (0, Some p) ∧ frames s' !! p = Some f ∧ pf_obj f = Some o ∧ pf_pagenum f = n ∧
    pf_busy f = false ∧ sees s o n (pf_data f) ∧ pmem_wf s' ∧ grows D ∅ s s'.

Section get.
Context (lookup : positive → Z → bool → M P (Z * option positive)).

(** [pframe_fill] of a new frame, around the object's function. *)
Lemma pframe_fill_spec s p f o (R : list Z → P → Prop) :
  pmem_wf s → frames s !! p = Some f → pf_obj f = Some o →
  (let s1 := set_frames (<[p := set_pf_busy true f]> (frames s)) s in
   pmem_wf s1 → returns (mmo_fillpage lookup o p) s1 (λ r s', r = 0 ∧ pmem_wf s' ∧ ∃ g,
     frames s' !! p = Some g ∧ pf_obj g = Some o ∧ pf_pagenum g = pf_pagenum f ∧ R (pf_data g) s')) →
  (∀ d s' g, R d s' → frames s' !! p = Some g → ∀ x g',
     R d (set_ext x (set_frames (<[p := g']> (frames s')) s'))) →
  returns (pframe_fill lookup p) s (λ r s', r = 0 ∧ pmem_wf s' ∧ ∃ g, frames s' !! p = Some g ∧
    pf_obj g = Some o ∧ pf_pagenum g = pf_pagenum f ∧ pf_busy g = false ∧ R (pf_data g) s').
Proof.
  intros Hwf Hp Hfo Hfill HR. unfold pframe_fill, returns.
  rewrite (bind_Ret _ _ _ _ _ (frame_upd_eq _ _ _ _ Hp)).
  set (s1 := set_frames (<[p := set_pf_busy true f]> (frames s)) s) in *.
  assert (frames s1 !! p = Some (set_pf_busy true f)) as Hp1 by apply lookup_insert_eq.
  rewrite (bind_Ret _ _ _ _ _ (frame_get_eq _ _ _ Hp1)). simpl. rewrite Hfo. kstep.
  destruct Hfill as (r & s2 & Hr & -> & Hwf2 & g & Hg & Hgo & Hgn & HRg); [by eapply frame_change_wf|].
  rewrite (bind_Ret _ _ _ _ _ Hr), (bind_Ret _ _ _ _ _ (frame_upd_eq _ _ _ _ Hg)).
  set (s3 := set_frames _ s2).
  destruct (on_ext_spec (sched_broadcast_on (QFrame p)) s3 (λ x, broadcast_spec x _)) as ([] & x & Hbr & _).
  rewrite (bind_Ret _ _ _ _ _ Hbr). eexists _, _. split; [done|]. split; [done|]. split.
  - assert (pmem_wf s3) as [???] by (by eapply frame_change_wf). by split.
  - exists (set_pf_busy false g). split; [apply lookup_insert_eq|]. do 3 (split; [done|]). by eapply HR.
Qed.

Lemma grows_fill D s s' p g o n :
  grows D {[p]} s s' → frames s !! p = None → frames s' !! p = Some g → pf_busy g = false →
  pf_obj g = Some o → pf_pagenum g = n → D o → sees s o n (pf_data g) → grows D ∅ s s'.
Proof.
  intros Hg Hp Hp' Hb Hgo Hgn HD Hs. split.
  - intros q f _ Hf. eapply (gr_old _ _ _ _ Hg); [|done]. intros ->%elem_of_singleton. congruence.
  - intros q f _ Hf Hn. destruct (decide (q = p)) as [-> |Hne].
    + assert (f = g) as -> by congruence. split; [done|]. by exists o, n.
    + apply (gr_new _ _ _ _ Hg q f); [set_solver|done|done].
  - apply Hg.
Qed.

Lemma grows_upd D p s s' x g' :
  grows D {[p]} s s' → grows D {[p]} s (set_ext x (set_frames (<[p := g']> (frames s')) s')).
Proof.
  intros [Hold Hnew Hsh]. split; simpl; [| |done].
  - intros q f Hq Hf. rewrite lookup_insert_ne by set_solver. by apply Hold.
  - intros q f Hq. rewrite lookup_insert_ne by set_solver. by apply Hnew.
Qed.

Lemma grows_alloc D s s' o O p f :
  objs s !! o = Some O → objs s' = <[o := grown p O]> (objs s) → frames s' = <[p := f]> (frames s) →
  grows D {[p]} s s'.
Proof.
  intros Ho Hos Hfs. split.
  - intros q g Hq Hg. rewrite Hfs, lookup_insert_ne by set_solver. done.
  - intros q g Hq. rewrite Hfs, lookup_insert_ne by set_solver. congruence.
  - intros o'. rewrite Hos, lookup_insert. case_decide; [|done]. subst. by rewrite Ho.
Qed.

(** What the object's function makes of the new frame [p] for page [n] of [o]. *)
Definition fills (D : positive → Prop) o n s : Prop := ∀ s1 p f,
  frames s !! p = None → pmem_wf s1 → grows D {[p]} s s1 → frames s1 !! p = Some f →
  pf_obj f = Some o → pf_pagenum f = n → pf_busy f = true → pf_pincount f = 0 →
  returns (mmo_fillpage lookup o p) s1 (λ r s', r = 0 ∧ pmem_wf s' ∧ ∃ g,
    frames s' !! p = Some g ∧ pf_obj g = Some o ∧ pf_pagenum g = n ∧
    sees s o n (pf_data g) ∧ grows D {[p]} s s').

Lemma fill_new_spec D s s1 o n p f :
  fills D o n s → frames s !! p = None → pmem_wf s1 → grows D {[p]} s s1 → frames s1 !! p = Some f →
  pf_obj f = Some o → pf_pagenum f = n → pf_pincount f = 0 →
  returns (pframe_fill lookup p) s1 (λ r s', r = 0 ∧ pmem_wf s' ∧ ∃ g, frames s' !! p = Some g ∧
    pf_obj g = Some o ∧ pf_pagenum g = n ∧ pf_busy g = false ∧ sees s o n (pf_data g) ∧
    grows D {[p]} s s').
Proof.
  intros Hfill Hnew Hwf Hg Hp Hfo Hfn Hz. rewrite <- Hfn in *.
  apply (pframe_fill_spec s1 p f o (λ d s', sees s o (pf_pagenum f) d ∧ grows D {[p]} s s')); [done|done|done| |].
  - intros s2 Hwf2. apply (Hfill s2 p (set_pf_busy true f)); try done; [|apply lookup_insert_eq].
    apply (grows_upd D p s s1 (pext s1) (set_pf_busy true f) Hg).
  - intros d s' g [Hs Hg'] _ x g'. split; [done|]. by apply grows_upd.
Qed.

Lemma pframe_get_unfold turns o n :
  pframe_get_loop lookup turns o n =
  (r <- pframe_get_resident (Some o) n ;;
   match r with
   | Some p =>
       pf <- frame_get p ;;
       if pf_busy pf then
         on_ext (sched_sleep_on (QFrame p)) ;;;
         match turns with O => out_of_fuel | S turns => pframe_get_loop lookup turns o n end
       else ret (0, Some p)
   | None =>
       r <- pframe_alloc o n ;;
       p <- deref r ;;
       fill_res <- pframe_fill lookup p ;;
       if fill_res <? 0 then pframe_free p ;;; ret (fill_res, None)
       else pf <- frame_get p ;; kassert (negb (pf_busy pf)) ;;; ret (0, Some p)
   end).
Proof. by destruct turns. Qed.

Lemma pframe_get_spec (D : positive → Prop) s o O n :
  pmem_wf s → memory_available → D o → objs s !! o = Some O → mmo_ops O ≠ other_mmobj_ops → idle s o n →
  (resident s (Some o) n None → ∀ s', same_but_order s s' → fills D o n s') →
  returns (pframe_get lookup o n) s (got D s o n).
Proof.
  intros Hwf Hmem HD Ho Hops Hidle Hfills. unfold pframe_get, returns. rewrite pframe_get_unfold.
  destruct (get_resident_spec s (Some o) n Hwf) as (r & s0 & Hr & Hres & Hso & _).
  rewrite (bind_Ret _ _ _ _ _ Hr).
  pose proof (same_but_order_wf _ _ Hso Hwf) as Hwf0. destruct r as [p|].
  { destruct Hres as (f & Hf & Hfo & Hfn).
    rewrite (bind_Ret _ _ _ f s0) by (apply frame_get_eq; by rewrite (so_frames _ _ Hso)).
    rewrite (Hidle p f Hf Hfo Hfn). eexists _, _. split; [done|]. exists p, f.
    split; [done|]. split; [by rewrite (so_frames _ _ Hso)|]. do 2 (split; [done|]).
    split; [by eapply Hidle|]. split; [by eapply sees_resident|]. split; [done|by apply grows_order]. }
  assert (objs s0 !! o = Some O) as Ho0 by (by rewrite (so_objs _ _ Hso)).
  assert (resident s0 (Some o) n None) as Hres0 by (intros q f; rewrite (so_frames _ _ Hso); apply Hres).
  destruct (pframe_alloc_spec s0 o O n Hwf0 Hmem Ho0 Hops Hres0)
    as (r & s1 & Ha & p & addr & data & -> & Hnew & Hwf1 & Hos & Hfs).
  rewrite (bind_Ret _ _ _ _ _ Ha). kstep.
  pose proof (grows_alloc D _ _ _ _ _ _ Ho0 Hos Hfs) as Hg1.
  assert (frames s1 !! p = Some (Pframe (Some o) n addr false false 0 data)) as Hp1
    by (rewrite Hfs; apply lookup_insert_eq).
  destruct (fill_new_spec D s0 s1 o n p _ (Hfills Hres s0 Hso) Hnew Hwf1 Hg1 Hp1 eq_refl eq_refl eq_refl)
    as (r & s2 & Hfl & -> & Hwf2 & g & Hg & Hgo & Hgn & Hgb & Hgs & Hg2).
  rewrite (bind_Ret _ _ _ _ _ Hfl). simpl.
  rewrite (bind_Ret _ _ _ _ _ (frame_get_eq _ _ _ Hg)), Hgb. kstep.
  eexists _, _. split; [done|]. exists p, g.
  pose proof (grows_fill _ _ _ _ _ _ _ Hg2 Hnew Hg Hgb Hgo Hgn HD Hgs) as Hg3.
  pose proof (grows_order D ∅ _ _ Hso) as Hg0.
  do 5 (split; [done|]). split; [by eapply grows_sees_back|]. split; [done|].
  by eapply grows_trans.
Qed.

(** ** Anonymous objects *)

Lemma anon_fills D s o O n :
  objs s !! o = Some O → mmo_ops O = anon_mmobj_ops → mmo_shadowed O = None →
  resident s (Some o) n None → fills D o n s.
Proof.
  intros Ho Hops Hsh Hres s1 p f Hnew Hwf Hg Hp Hfo Hfn Hb Hz. unfold mmo_fillpage, returns.
  destruct (grows_obj _ _ _ _ _ _ Hg Ho) as (O1 & Ho1 & Hops1 & _).
  rewrite (bind_Ret _ _ _ _ _ (obj_get_eq _ _ _ Ho1)), Hops1, Hops.
  destruct (anon_fillpage_spec s1 p f Hwf Hp Hb Hz) as (r & s2 & Hr & -> & Hwf2 & Hos & Hfs).
  eexists _, _. split; [done|]. split; [done|]. split; [done|].
  exists (set_pf_data zero_page (set_pf_pincount 1 f)). split; [rewrite Hfs; apply lookup_insert_eq|].
  split; [done|]. split; [done|]. split; [by eapply sees_zero|].
  destruct (grows_upd D p s s1 (pext s1) (set_pf_data zero_page (set_pf_pincount 1 f)) Hg) as [G1 G2 G3].
  split; [by rewrite Hfs|by rewrite Hfs|by rewrite Hos].
Qed.

Lemma anon_get_spec (D : positive → Prop) s o O n :
  pmem_wf s → memory_available → D o → objs s !! o = Some O → mmo_ops O = anon_mmobj_ops →
  mmo_shadowed O = None → idle s o n → returns (pframe_get lookup o n) s (got D s o n).
Proof.
  intros Hwf Hmem HD Ho Hops Hsh Hidle. eapply pframe_get_spec; try done; [by rewrite Hops|].
  intros Hres s' Hso. eapply anon_fills; [by rewrite (so_objs _ _ Hso)|done|done|].
  intros q f. rewrite (so_frames _ _ Hso). apply Hres.
Qed.
End get.
End lookup.
