(* ===== verification/PframeShadow.v ===== *)
(** * Properties of shadow objects: looking down the chain and copy-on-write *)
From S2P Require Import Prelude Headers Vmmap Pframe PframeProps PframeLookup.
Local Open Scope kernel_scope.

Section shadow.
Context `{HP : PageH, HH : PmemH} {X : Type} `{HX : !PmemExt X, HT : !OtherObj X}.
Context {HL : ExtLaws}.
Local Abbreviation P := (pmem X).
Implicit Types (p q o b : positive) (s : P) (f : pframe) (n : Z).

Lemma chain_order s s' o b k : objs s' = objs s → chain s o b k → chain s' o b k.
Proof. intros Ho. induction 1; econstructor; rewrite ?Ho; done. Qed.

Lemma sees_order s s' o n d :
  same_but_order s s' → sees s o n d → sees s' o n d.
Proof.
  intros [Hf Ho _ _ _ _ _ _]. induction 1 as [o n p f Hp Hfo Hn|o n O HO Ha Hs Hr|o n O sh d HO Hs Hr Hd IH].
  - eapply sees_resident; [by rewrite Hf|done|done].
  - eapply sees_zero; [by rewrite Ho|done|done|]. intros q g. rewrite Hf. apply Hr.
  - eapply sees_below; [by rewrite Ho|done| |done]. intros q g. rewrite Hf. apply Hr.
Qed.

Lemma same_but_order_sym s s' : same_but_order s s' → same_but_order s' s.
Proof. intros []. by split. Qed.

Lemma same_but_order_trans s1 s2 s3 :
  same_but_order s1 s2 → same_but_order s2 s3 → same_but_order s1 s3.
Proof. intros [] []. split; try congruence. by etrans. Qed.

(** The walk of [shadow_lookuppage] finds the page that is seen, unless no object
    above the bottom has it resident. *)
Lemma shadow_find_spec n b k : ∀ s o fuel,
  pmem_wf s → chain s o b k → (k <= fuel)%nat →
  returns (shadow_find fuel o n) s (λ r s', same_but_order s s' ∧
    match r with
    | Some p => ∃ f, frames s !! p = Some f ∧ pf_pagenum f = n ∧ sees s o n (pf_data f)
    | None => ∀ d, sees s b n d → sees s o n d
    end).
Proof.
  induction k as [|k IH]; intros s o fuel Hwf Hc Hfuel; inversion Hc as [? O Ho Hs|? O sh ? ? Ho Hs Hc'];
    subst; (destruct fuel as [|fuel]; [try lia|]); simpl; unfold returns;
    rewrite (bind_Ret _ _ _ _ _ (obj_get_eq _ _ _ Ho)), Hs.
  1,2: by eexists _, _.
  destruct (get_resident_spec s (Some o) n Hwf) as (r & s1 & Hr & Hres & Hso & _).
  rewrite (bind_Ret _ _ _ _ _ Hr). destruct r as [p|].
  { destruct Hres as (f & Hf & Hfo & Hfn). eexists _, _. split; [done|]. split; [done|].
    exists f. split; [done|]. split; [done|]. by eapply sees_resident. }
  destruct (IH s1 sh fuel) as (r & s2 & Hr2 & Hso2 & Hpost);
    [by eapply same_but_order_wf|by eapply chain_order; [apply Hso|]|lia|].
  exists r, s2. split; [done|]. split; [by eapply same_but_order_trans|]. destruct r as [p|].
  - destruct Hpost as (f & Hf & Hfn & Hse). exists f. rewrite <- (so_frames _ _ Hso).
    split; [done|]. split; [done|]. eapply sees_below; [done|done|done|].
    by eapply sees_order; [apply same_but_order_sym|].
  - intros d Hd. eapply sees_below; [done|done|done|].
    eapply sees_order; [by apply same_but_order_sym|]. apply Hpost. by eapply sees_order.
Qed.

(** The walk of [shadow_fillpage] below [c]. *)
Lemma fill_find_spec n b k : ∀ s c C fuel,
  pmem_wf s → chain s c b k → objs s !! c = Some C → (S k <= fuel)%nat →
  returns (fill_find fuel (Some c) n) s (λ r s', same_but_order s s' ∧
    match r with
    | Some p => ∃ f sh, frames s !! p = Some f ∧ mmo_shadowed C = Some sh ∧ sees s sh n (pf_data f)
    | None => ∀ sh d, mmo_shadowed C = Some sh → sees s b n d → sees s sh n d
    end).
Proof.
  induction k as [|k IH]; intros s c C fuel Hwf Hc HC Hfuel; (destruct fuel as [|fuel]; [lia|]);
    inversion Hc as [? O Ho Hs|? O sh ? ? Ho Hs Hc']; subst; simplify_eq; simpl; unfold returns;
    rewrite (bind_Ret _ _ _ _ _ (obj_get_eq _ _ _ HC)), Hs.
  - destruct (get_resident_spec s None n Hwf) as (r & s1 & Hr & Hres & Hso & _).
    rewrite (bind_Ret _ _ _ _ _ Hr). destruct r as [p|].
    { destruct Hres as (f & Hf & Hfo & _). destruct (pmem_wf_frame s p f Hwf Hf) as (? & ? & ? & _).
      congruence. }
    destruct fuel; eexists _, _; (split; [done|]); by split.
  - destruct (get_resident_spec s (Some sh) n Hwf) as (r & s1 & Hr & Hres & Hso & _).
    rewrite (bind_Ret _ _ _ _ _ Hr). destruct r as [p|].
    { destruct Hres as (f & Hf & Hfo & Hfn). eexists _, _. split; [done|]. split; [done|].
      exists f, sh. split; [done|]. split; [done|]. by eapply sees_resident. }
    assert (∃ SH, objs s !! sh = Some SH) as [SH HSH] by (inversion Hc'; by eexists).
    destruct (IH s1 sh SH fuel) as (r & s2 & Hr2 & Hso2 & Hpost);
      [by eapply same_but_order_wf|by eapply chain_order; [apply Hso|]|by rewrite (so_objs _ _ Hso)|lia|].
    exists r, s2. split; [done|]. split; [by eapply same_but_order_trans|]. destruct r as [p|].
    + destruct Hpost as (f & sh2 & Hf & Hs2 & Hse). exists f, sh. rewrite <- (so_frames _ _ Hso).
      split; [done|]. split; [done|]. eapply sees_below; [done|done|done|].
      by eapply sees_order; [apply same_but_order_sym|].
    + intros sh' d [= <-] Hd. inversion Hc' as [? ? HO' Hs'|? ? sh2 ? ? HO' Hs' Hc'']; subst; [done|].
      simplify_eq. eapply sees_below; [done|done|done|].
      eapply sees_order; [by apply same_but_order_sym|]. apply (Hpost sh2 d Hs'). by eapply sees_order.
Qed.

(** Another frame than the new one holds what was seen. *)
Lemma sees_frame_back D s s1 p q g x :
  grows D {[p]} s s1 → q ≠ p → frames s1 !! q = Some g → pf_obj g = Some x →
  sees s x (pf_pagenum g) (pf_data g).
Proof.
  intros Hg Hne Hq Hgx. destruct (frames s !! q) as [g'|] eqn:Hq'.
  - rewrite (gr_old _ _ _ _ Hg q g') in Hq by (done || set_solver). simplify_eq.
    by eapply sees_resident.
  - destruct (gr_new _ _ _ _ Hg q g) as (_ & x' & n' & Hx' & <- & _ & Hs); [set_solver|done|done|].
    congruence.
Qed.

(** What is seen through an object below [o] does not depend on the new frame of
    [o]. *)
Lemma sees_below_back D s s1 o p f x b k b' k' n d :
  grows D {[p]} s s1 → frames s !! p = None → frames s1 !! p = Some f → pf_obj f = Some o →
  chain s x b k → chain s o b' k' → (k < k')%nat → sees s1 x n d → sees s x n d.
Proof.
  intros Hg Hnew Hp Hfo Hc Ho Hlt Hd. revert Hlt Hc. revert k.
  assert (∀ x n, resident s1 (Some x) n None → resident s (Some x) n None) as Hback.
  { intros y m Hr q g Hgq. apply (Hr q g), (gr_old _ _ _ _ Hg); [|done].
    intros ->%elem_of_singleton. congruence. }
  induction Hd as [x n q g Hgq Hgo Hgn|x n O1 HO1 Ha1 Hs1 Hr1|x n O1 sh d HO1 Hs1 Hr1 Hd1 IH];
    intros k Hlt Hc.
  - rewrite <- Hgn. eapply (sees_frame_back D s s1 p q); [done| |done|done].
    intros ->. assert (x = o) as -> by congruence.
    destruct (chain_level _ _ _ _ _ _ Hc Ho). lia.
  - destruct (grows_obj_back _ _ _ _ _ _ Hg HO1) as (O & HO & Hop & Hsh & _).
    eapply sees_zero; [done|congruence|congruence|by apply Hback].
  - destruct (grows_obj_back _ _ _ _ _ _ Hg HO1) as (O & HO & Hop & Hsh & _).
    assert (mmo_shadowed O = Some sh) as HOs by congruence.
    inversion Hc as [? O' HO' Hs'|? O' sh' ? k0 HO' Hs' Hc']; subst; simplify_eq.
    eapply sees_below; [done|done|by apply Hback|]. apply (IH k0); [lia|done].
Qed.

(** ** Filling a page of a shadow object *)

(** A shadow object over an anonymous one. *)
Record shadows s o b k : Prop := Shadows {
  sw_obj : ∃ O, objs s !! o = Some O ∧ mmo_ops O = shadow_mmobj_ops ∧ mmo_bottom_obj O = Some b;
  sw_chain : chain s o b (S k);
  sw_anon : ∃ B, objs s !! b = Some B ∧ mmo_ops B = anon_mmobj_ops ∧ mmo_shadowed B = None
}.

Lemma chain_grows D E s s' o b k : grows D E s s' → chain s o b k → chain s' o b k.
Proof.
  intros Hg. induction 1 as [o O Ho Hs|o O sh b k Ho Hs Hc IH];
    destruct (grows_obj _ _ _ _ _ _ Hg Ho) as (O' & Ho' & _ & Hsh & _);
    econstructor; by rewrite ?Hsh.
Qed.

Lemma shadows_grows D E s s' o b k : grows D E s s' → shadows s o b k → shadows s' o b k.
Proof.
  intros Hg [(O & Ho & Hop & Hb) Hc (B & HB & HBop & HBs)]. split.
  - destruct (grows_obj _ _ _ _ _ _ Hg Ho) as (O' & Ho' & ? & _ & ?). exists O'. split_and!; congruence.
  - by eapply chain_grows.
  - destruct (grows_obj _ _ _ _ _ _ Hg HB) as (O' & Ho' & ? & ? & _). exists O'. split_and!; congruence.
Qed.

(** [memcpy] and [pframe_pin] on the new frame. *)
Lemma copy_and_pin_spec s p f src g :
  pmem_wf s → frames s !! p = Some f → frames s !! src = Some g → pf_pincount f = 0 →
  returns (copy_and_pin p src) s (λ _ s', pmem_wf s' ∧ objs s' = objs s ∧
    frames s' = <[p := set_pf_pincount 1 (set_pf_data (pf_data g) f)]> (frames s)).
Proof.
  intros Hwf Hp Hsrc Hz. unfold copy_and_pin, returns.
  rewrite (bind_Ret _ _ _ _ _ (frame_get_eq _ _ _ Hsrc)), (bind_Ret _ _ _ _ _ (frame_upd_eq _ _ _ _ Hp)).
  set (f1 := set_pf_data (pf_data g) f). set (s1 := set_frames _ s).
  assert (pmem_wf s1) as Hwf1 by (by eapply frame_change_wf).
  destruct (pin_spec s1 p f1 Hwf1) as ([] & s2 & Hr & Hwf2 & Hf2 & Ho2 & _); [apply lookup_insert_eq|].
  exists tt, s2. split; [done|]. split; [done|]. split; [done|]. rewrite Hf2. simpl.
  by rewrite insert_insert_eq, Hz.
Qed.

Lemma grows_then D s s1 s2 b p :
  grows D {[p]} s s1 → grows (λ x, x = b) ∅ s1 s2 → D b →
  (∀ m d, sees s1 b m d → sees s b m d) → grows D {[p]} s s2.
Proof.
  intros H1 H2 Hb Hback. split.
  - intros q f Hq Hf. apply (gr_old _ _ _ _ H2 q f); [set_solver|]. by apply (gr_old _ _ _ _ H1 q f).
  - intros q f Hq Hf Hn. destruct (frames s1 !! q) as [g|] eqn:Hg.
    + rewrite (gr_old _ _ _ _ H2 q g) in Hf by (done || set_solver). simplify_eq.
      by apply (gr_new _ _ _ _ H1 q f).
    + destruct (gr_new _ _ _ _ H2 q f) as (Hbu & o & n & Hfo & Hfn & -> & Hs); [set_solver|done|done|].
      split; [done|]. exists b, n. do 3 (split; [done|]). by apply Hback.
  - intros o. by rewrite (gr_shape _ _ _ _ H2), (gr_shape _ _ _ _ H1).
Qed.

Lemma same_order_grows_l D E s s1 s2 : grows D E s s1 → same_but_order s1 s2 → grows D E s s2.
Proof. intros [G1 G2 G3] [Hf Ho _ _ _ _ _ _]. split; rewrite ?Hf, ?Ho; done. Qed.

(** The frame once it is filled. *)
Lemma fill_done D s s1 s2 o n p f src g :
  pmem_wf s1 → grows D {[p]} s s1 → frames s1 !! p = Some f → frames s1 !! src = Some g →
  pf_obj f = Some o → pf_pagenum f = n → pf_pincount f = 0 → sees s o n (pf_data g) →
  returns (copy_and_pin p src ;;; ret 0) s1 (λ r s', r = 0 ∧ pmem_wf s' ∧ ∃ g,
    frames s' !! p = Some g ∧ pf_obj g = Some o ∧ pf_pagenum g = n ∧
    sees s o n (pf_data g) ∧ grows D {[p]} s s').
Proof.
  intros Hwf Hg Hp Hsrc Hfo Hfn Hz Hs.
  destruct (copy_and_pin_spec s1 p f src g) as ([] & s' & Hr & Hwf' & Hos & Hfs); try done.
  unfold returns. rewrite (bind_Ret _ _ _ _ _ Hr). eexists _, _. split; [done|]. split; [done|].
  split; [done|]. eexists. split; [rewrite Hfs; apply lookup_insert_eq|]. do 3 (split; [done|]).
  destruct (grows_upd D p s s1 (pext s1) (set_pf_pincount 1 (set_pf_data (pf_data g) f)) Hg) as [G1 G2 G3].
  split; [by rewrite Hfs|by rewrite Hfs|by rewrite Hos].
Qed.

(** Pages of the bottom object stay idle while a frame of [o] is being filled. *)
Lemma idle_grows D s s1 b n p f o :
  grows D {[p]} s s1 → frames s1 !! p = Some f → pf_obj f = Some o → o ≠ b → idle s b n → idle s1 b n.
Proof.
  intros Hg Hp Hfo Hne Hidle q h Hq Hqo Hqn. destruct (frames s !! q) as [h'|] eqn:Hq'.
  - destruct (decide (q = p)) as [-> |Hqp]; [congruence|].
    rewrite (gr_old _ _ _ _ Hg q h') in Hq; [simplify_eq; by eapply Hidle|set_solver|done].
  - destruct (decide (q = p)) as [-> |Hqp]; [congruence|].
    by apply (gr_new _ _ _ _ Hg q h); set_solver.
Qed.

Lemma idle_order s s' b n : same_but_order s s' → idle s b n → idle s' b n.
Proof. intros Hso Hidle p f. rewrite (so_frames _ _ Hso). apply Hidle. Qed.

(** ** Looking up a page through a shadow object *)

(** No frame of page [n] is busy. *)
Definition page_idle s n : Prop := ∀ p f,
  frames s !! p = Some f → pf_pagenum f = n → pf_busy f = false.

Lemma shadow_found_eq s n p f :
  frames s !! p = Some f → pf_pagenum f = n → pf_busy f = false →
  shadow_found n (Some p) s = Ret (0, Some p) s.
Proof.
  intros Hp <- Hb. unfold shadow_found. kstep. rewrite (bind_Ret _ _ _ _ _ (frame_get_eq _ _ _ Hp)).
  by rewrite Hb, Z.eqb_refl.
Qed.

(** [p] is a frame with the content seen in page [n] of [o]. *)
Definition shows (D : positive → Prop) s o n (r : Z * option positive) s' : Prop :=
  ∃ p f, r = (0, Some p) ∧ frames s' !! p = Some f ∧ pf_pagenum f = n ∧ pf_busy f = false ∧
    sees s o n (pf_data f) ∧ pmem_wf s' ∧ grows D ∅ s s'.

(** [pframe_dirty] of a page of an anonymous or shadow object. *)
Lemma dirty_spec s p f o O :
  pmem_wf s → frames s !! p = Some f → pf_busy f = false → pf_obj f = Some o →
  objs s !! o = Some O → mmo_ops O ≠ other_mmobj_ops →
  returns (pframe_dirty p) s (λ r s', r = 0 ∧ pmem_wf s' ∧ objs s' = objs s ∧
    frames s' = <[p := set_pf_busy false (set_pf_dirty true (set_pf_busy true f))]> (frames s)).
Proof.
  intros Hwf Hp Hb Hfo Ho Hop. unfold pframe_dirty, returns.
  rewrite (bind_Ret _ _ _ _ _ (frame_get_eq _ _ _ Hp)), Hb. kstep.
  rewrite (bind_Ret _ _ _ _ _ (frame_upd_eq _ _ _ _ Hp)), Hfo. kstep.
  set (s1 := set_frames (<[p := set_pf_busy true f]> (frames s)) s).
  assert (∃ g, mmo_dirtypage o p s1 = Ret 0 (set_frames (<[p := g]> (frames s)) s) ∧
    set_pf_dirty true g = set_pf_dirty true (set_pf_busy true f)) as (g & Hd & Hg).
  { unfold mmo_dirtypage. rewrite (bind_Ret _ _ s1 O _) by (by apply obj_get_eq).
    destruct (mmo_ops O); [|by exists (set_pf_busy true f)|done].
    exists (set_pf_dirty true (set_pf_busy true f)). split; [|done]. unfold anon_dirtypage, s1.
    rewrite (bind_Ret _ _ _ _ _ (frame_upd_eq (set_frames _ s) p _ _ (lookup_insert_eq _ _ _))).
    simpl. by rewrite insert_insert_eq. }
  rewrite (bind_Ret _ _ _ _ _ Hd).
  simpl. rewrite (bind_Ret _ _ _ _ _ (frame_upd_eq (set_frames _ s) p _ _ (lookup_insert_eq _ _ _))).
  rewrite (bind_Ret _ _ _ _ _ (frame_upd_eq (set_frames _ (set_frames _ s)) p _ _ (lookup_insert_eq _ _ _))).
  simpl. rewrite !insert_insert_eq, Hg. set (s3 := set_frames _ _).
  destruct (on_ext_spec (sched_broadcast_on (QFrame p)) s3 (λ x, broadcast_spec x _)) as ([] & x & Hbr & _).
  rewrite (bind_Ret _ _ _ _ _ Hbr). eexists _, _. split; [done|]. split; [done|].
  split; [|done].
  assert (pmem_wf (set_frames (<[p := set_pf_busy false (set_pf_dirty true (set_pf_busy true f))]>
    (frames s)) s)) as [???] by (by eapply frame_change_wf). by split.
Qed.
(** A new frame that only gets dirty. *)
Lemma grows_dirty D s s1 s2 p f g :
  grows D ∅ s s1 → frames s !! p = None → frames s1 !! p = Some f → objs s2 = objs s1 →
  frames s2 = <[p := g]> (frames s1) → pf_obj g = pf_obj f → pf_pagenum g = pf_pagenum f →
  pf_data g = pf_data f → pf_busy g = false → grows D ∅ s s2.
Proof.
  intros [Hold Hnew Hsh] Hn Hp Hos Hfs Hgo Hgn Hgd Hgb. split; rewrite ?Hfs, ?Hos; [| |done].
  - intros q h Hq Hh. rewrite lookup_insert_ne by congruence. by apply Hold.
  - intros q h Hq. rewrite lookup_insert. case_decide as Heq; [|by apply Hnew].
    intros [= <-] _. subst q. destruct (Hnew p f Hq Hp Hn) as (_ & x & m & Hx & Hm & HD & Hs).
    split; [done|]. exists x, m. rewrite Hgo, Hgn, Hgd. by do 3 (split; [done|]).
Qed.

Section with_lookup.
Context (lookup : positive → Z → bool → M P (Z * option positive)) (b : positive) (n : Z).
Context (Hlook : ∀ s B, pmem_wf s → objs s !! b = Some B → mmo_ops B = anon_mmobj_ops →
  mmo_shadowed B = None → idle s b n → returns (lookup b n false) s (got (λ x, x = b) s b n)).

Lemma shadow_fills D s o k :
  shadows s o b k → idle s b n → D b → resident s (Some o) n None → fills lookup D o n s.
Proof using All.
  intros Hsh Hidle HDb Hres s1 p f Hnew Hwf1 Hg Hp Hfo Hfn Hb Hz.
  pose proof (shadows_grows _ _ _ _ _ _ _ Hg Hsh) as [(O1 & Ho1 & Hop1 & Hb1) Hc1 (B & HB & HBop & HBs)].
  destruct Hsh as [(O & Ho & Hop & Hbo) Hc _].
  inversion Hc as [|? ? sh ? ? HO Hs Hcs]; subst; simplify_eq.
  assert (mmo_shadowed O1 = Some sh) as Hs1.
  { destruct (grows_obj _ _ _ _ _ _ Hg Ho) as (O' & HO' & _ & HsO & _). congruence. }
  assert (∀ x kx m d, chain s x b kx → (kx <= k)%nat → sees s1 x m d → sees s x m d) as Hback.
  { intros x kx m d Hcx Hle. eapply sees_below_back; [done..|lia]. }
  assert (∀ d, sees s1 sh (pf_pagenum f) d → sees s o (pf_pagenum f) d) as Hup.
  { intros d Hd. eapply sees_below; [done|done|done|]. by eapply Hback. }
  unfold mmo_fillpage, returns. rewrite (bind_Ret _ _ _ _ _ (obj_get_eq _ _ _ Ho1)), Hop1.
  unfold shadow_fillpage. rewrite (bind_Ret _ _ _ _ _ (frame_get_eq _ _ _ Hp)), Hb. kstep.
  rewrite (bind_Ret _ _ _ tt s1) by (unfold pframe_is_pinned; by rewrite Hz). kstep.
  destruct (fill_find_spec (pf_pagenum f) b (S k) s1 o O1 (size (objs s1)))
    as (r & s2 & Hr & Hso & Hpost); [done|done|done|by apply chain_size in Hc1|].
  rewrite (bind_Ret _ _ _ _ _ Hr). pose proof (same_order_grows_l _ _ _ _ _ Hg Hso) as Hg2.
  assert (frames s2 !! p = Some f) as Hp2 by (by rewrite (so_frames _ _ Hso)).
  pose proof (same_but_order_wf _ _ Hso Hwf1) as Hwf2. destruct r as [src|].
  - destruct Hpost as (g & sh' & Hsrc & Hsh' & Hse). simplify_eq.
    apply (fill_done D s s2 s2 o (pf_pagenum f) p f src g); try done; [by rewrite (so_frames _ _ Hso)|].
    by apply Hup.
  - rewrite (bind_Ret _ _ _ O1 s2) by (apply obj_get_eq; by rewrite (so_objs _ _ Hso)).
    rewrite Hb1. kstep.
    destruct (Hlook s2 B) as (r & s3 & Hl & src & g & -> & Hsrc & _ & _ & _ & Hse & Hwf3 & Hg3);
      [done|by rewrite (so_objs _ _ Hso)|done|done| |].
    { eapply idle_order; [done|]. eapply idle_grows; try done. intros ->. by simplify_eq. }
    rewrite (bind_Ret _ _ _ _ _ Hl). simpl. kstep.
    assert (∀ m d, sees s2 b m d → sees s b m d) as Hbb.
    { intros m d Hd. apply (Hback b 0%nat); [|lia|].
      - destruct (grows_obj_back _ _ _ _ _ _ Hg HB) as (B' & HB' & _ & HBs' & _).
        eapply chain_bottom; [done|congruence].
      - by eapply sees_order; [apply same_but_order_sym|]. }
    pose proof (grows_then D s s2 s3 b p Hg2 Hg3 HDb Hbb) as Hg4.
    assert (frames s3 !! p = Some f) as Hp3 by (by apply (gr_old _ _ _ _ Hg3 p f)).
    apply (fill_done D s s3 s3 o (pf_pagenum f) p f src g); try done.
    apply Hup, (Hpost sh); [done|]. by eapply sees_order; [apply same_but_order_sym|].
Qed.

Lemma shadow_read_spec s o k :
  pmem_wf s → shadows s o b k → page_idle s n →
  returns (shadow_lookuppage lookup o n false) s (shows (λ x, x = b) s o n).
Proof using All.
  intros Hwf [(O & Ho & Hop & Hb) Hc (B & HB & HBop & HBs)] Hidle.
  unfold shadow_lookuppage, returns. simpl. kstep.
  destruct (shadow_find_spec n b (S k) s o (size (objs s)) Hwf Hc) as (r & s1 & Hr & Hso & Hpost);
    [apply chain_size in Hc; lia|].
  rewrite (bind_Ret _ _ _ _ _ Hr). pose proof (same_but_order_wf _ _ Hso Hwf) as Hwf1.
  destruct r as [p|].
  - destruct Hpost as (f & Hf & Hfn & Hse).
    assert (frames s1 !! p = Some f) as Hf1 by (by rewrite (so_frames _ _ Hso)).
    rewrite (shadow_found_eq s1 n p f); [|done|done|by eapply Hidle]. eexists _, _. split; [done|].
    exists p, f. do 3 (split; [done|]). split; [by eapply Hidle|]. split; [done|]. split; [done|].
    by apply grows_order.
  - rewrite (bind_Ret _ _ _ O s1) by (apply obj_get_eq; by rewrite (so_objs _ _ Hso)).
    rewrite Hb. kstep.
    destruct (Hlook s1 B) as (r & s2 & Hl & p & f & -> & Hf & Hfo & Hfn & Hfb & Hse & Hwf2 & Hg);
      [done|by rewrite (so_objs _ _ Hso)|done|done| |].
    { intros q g. rewrite (so_frames _ _ Hso). intros Hq _. by eapply Hidle. }
    rewrite (bind_Ret _ _ _ _ _ Hl). simpl. rewrite (shadow_found_eq s2 n p f) by done.
    eexists _, _. split; [done|]. exists p, f. do 4 (split; [done|]).
    split; [apply Hpost; by eapply sees_order; [apply same_but_order_sym|]|]. split; [done|].
    eapply grows_trans; [by apply grows_order|done].
Qed.


(** The branch of a write that copies the page. *)
Lemma shadow_write_new s o k :
  pmem_wf s → memory_available → shadows s o b k → page_idle s n → resident s (Some o) n None →
  returns (' (err, r) <- pframe_get lookup o n ;;
    if err <? 0 then ret (err, r)
    else p <- deref r ;; _ <- pframe_dirty p ;; shadow_found n (Some p)) s
    (got (λ x, x = o ∨ x = b) s o n).
Proof using All.
  intros Hwf Hmem Hsh Hidle Hres. pose proof Hsh as [(O & Ho & Hop & Hb) Hc _]. unfold returns.
  destruct (pframe_get_spec lookup (λ x, x = o ∨ x = b) s o O n)
    as (r & s2 & Hg & p & f & -> & Hf & Hfo & Hfn & Hfb & Hse & Hwf2 & Hgr); try done;
    [by left|by rewrite Hop|intros q g Hq _; by eapply Hidle| |].
  { intros _ s' Hs'. apply (shadow_fills _ s' o k); [| |by right|].
    - eapply shadows_grows; [by apply (grows_order (λ _, True) ∅)|done].
    - intros q g. rewrite (so_frames _ _ Hs'). intros Hq _. by eapply Hidle.
    - intros q g. rewrite (so_frames _ _ Hs'). apply Hres. }
  rewrite (bind_Ret _ _ _ _ _ Hg). simpl. kstep.
  assert (frames s !! p = None) as Hnew.
  { apply eq_None_not_Some. intros [g Hg1]. apply (Hres p g Hg1).
    rewrite (gr_old _ _ _ _ Hgr p g) in Hf by (done || set_solver). by simplify_eq. }
  destruct (grows_obj _ _ _ _ _ _ Hgr Ho) as (O2 & Ho2 & Hop2 & _).
  destruct (dirty_spec s2 p f o O2) as (r & s3 & Hd & -> & Hwf3 & Hos & Hfs); try done;
    [by rewrite Hop2, Hop|].
  rewrite (bind_Ret _ _ _ _ _ Hd).
  assert (frames s3 !! p = Some (set_pf_busy false (set_pf_dirty true (set_pf_busy true f)))) as Hf3
    by (rewrite Hfs; apply lookup_insert_eq).
  rewrite (shadow_found_eq s3 n p _ Hf3) by done.
  eexists _, _. split; [done|]. eexists p, _. do 6 (split; [done|]). split; [done|].
  by eapply grows_dirty.
Qed.

Lemma got_order D s s1 o r s' : same_but_order s s1 → got D s1 o n r s' → got D s o n r s'.
Proof using HL.
  intros Hso (p & f & -> & Hf & Hfo & Hfn & Hfb & Hse & Hwf & Hg). exists p, f.
  do 5 (split; [done|]). split; [by eapply sees_order; [apply same_but_order_sym|]|].
  split; [done|]. eapply grows_trans; [by apply grows_order|done].
Qed.

Lemma shadow_write_spec s o k :
  pmem_wf s → memory_available → shadows s o b k → page_idle s n →
  returns (shadow_lookuppage lookup o n true) s (got (λ x, x = o ∨ x = b) s o n).
Proof using All.
  intros Hwf Hmem Hsh Hidle. unfold shadow_lookuppage, returns. simpl.
  destruct (get_resident_spec s (Some o) n Hwf) as (r & s1 & Hr & Hres & Hso & _).
  rewrite (bind_Ret _ _ _ _ _ Hr). pose proof (same_but_order_wf _ _ Hso Hwf) as Hwf1.
  destruct r as [p|].
  - destruct Hres as (f & Hf & Hfo & Hfn). pose proof (Hidle p f Hf Hfn) as Hfb.
    assert (frames s1 !! p = Some f) as Hf1 by (by rewrite (so_frames _ _ Hso)).
    rewrite (shadow_found_eq s1 n p f) by done. eexists _, _. split; [done|]. exists p, f.
    do 5 (split; [done|]). split; [by eapply sees_resident|]. split; [done|by apply grows_order].
  - destruct (shadow_write_new s1 o k) as (r & s2 & Hr2 & Hgot); try done.
    + eapply shadows_grows; [by apply (grows_order (λ _, True) ∅)|done].
    + intros q g. rewrite (so_frames _ _ Hso). apply Hidle.
    + intros q g. rewrite (so_frames _ _ Hso). apply Hres.
    + exists r, s2. split; [done|]. by eapply got_order.
Qed.
End with_lookup.
End shadow.
