(* ===== verification/PframeCow.v ===== *)
(** * Looking up pages of memory objects: demand zero and copy-on-write

    What [pframe_lookup] gives its callers, the page fault handler among them, for
    anonymous objects and for chains of shadow objects over them. *)
From S2P Require Import Prelude Headers Vmmap Pframe PframeProps PframeLookup PframeShadow.
Local Open Scope kernel_scope.

Section cow.
Context `{HP : PageH, HH : PmemH} {X : Type} `{HX : !PmemExt X, HT : !OtherObj X}.
Context {HL : ExtLaws}.
Local Abbreviation P := (pmem X).
Implicit Types (p q o b : positive) (s : P) (f : pframe) (n : Z).

(** ** The calls that nest *)

Lemma lookup_nested_anon fuel s o O n w (D : positive → Prop) :
  pmem_wf s → memory_available → D o → objs s !! o = Some O → mmo_ops O = anon_mmobj_ops →
  mmo_shadowed O = None → idle s o n →
  returns (lookup_nested (S fuel) o n w) s (got D s o n).
Proof.
  intros Hwf Hmem HD Ho Hop Hs Hidle. unfold returns. simpl.
  rewrite (bind_Ret _ _ _ _ _ (obj_get_eq _ _ _ Ho)), Hop. unfold anon_lookuppage.
  by eapply anon_get_spec.
Qed.

Lemma lookup_nested_shadow fuel s o O n w :
  objs s !! o = Some O → mmo_ops O = shadow_mmobj_ops →
  lookup_nested (S fuel) o n w s = shadow_lookuppage (lookup_nested fuel) o n w s.
Proof. intros Ho Hop. simpl. by rewrite (bind_Ret _ _ _ _ _ (obj_get_eq _ _ _ Ho)), Hop. Qed.

(** There are at least two objects, so the calls nest as deep as they need. *)
Lemma shadows_fuel s o b k : shadows s o b k → ∃ m, size (objs s) = S m.
Proof.
  intros [_ Hc _]. apply chain_size in Hc. destruct (size (objs s)) as [|m]; [lia|by exists m].
Qed.

(** ** Storing into a page *)

(** The objects from [x] down the chain include [o]. *)
Inductive above s : positive → positive → Prop :=
| above_refl o : above s o o
| above_step x O sh o :
    objs s !! x = Some O → mmo_shadowed O = Some sh → above s sh o → above s x o.

Lemma above_grows D E s s' x o : grows D E s s' → above s' x o → above s x o.
Proof.
  intros Hg. induction 1 as [o|x O' sh o Hx Hs Ha IH]; [constructor|].
  destruct (grows_obj_back _ _ _ _ _ _ Hg Hx) as (O & HO & _ & Hsh & _).
  eapply above_step; [done| |done]. congruence.
Qed.

(** The program stores [d] in the page of frame [p]. *)
Definition stored p (d : list Z) s : P := set_frames (alter (set_pf_data d) p (frames s)) s.

Lemma stored_lookup p d s q f :
  frames (stored p d s) !! q = Some f ↔
  ∃ g, frames s !! q = Some g ∧ f = if decide (q = p) then set_pf_data d g else g.
Proof.
  unfold stored. simpl. rewrite lookup_alter. case_decide as H1; case_decide as H2; try congruence.
  - rewrite fmap_Some. naive_solver.
  - naive_solver.
Qed.

Lemma stored_resident p d s (o : option positive) n : resident s o n None → resident (stored p d s) o n None.
Proof.
  intros Hr q f (g & Hg & ->)%stored_lookup. case_decide; simpl; by apply (Hr q g).
Qed.

(** Storing into page [n] of [o] is not seen in another page, nor through an object
    whose chain does not have [o]. *)
Lemma stored_isolated s p f o n d x m e :
  frames s !! p = Some f → pf_obj f = Some o → pf_pagenum f = n → m ≠ n ∨ ¬ above s x o →
  sees s x m e → sees (stored p d s) x m e.
Proof.
  intros Hp Hfo Hfn Hor. induction 1 as [x m q g Hq Hgo Hgm|x m O Ho Ha Hs Hr|x m O sh e Ho Hs Hr He IH].
  - eapply (sees_resident _ _ _ q); [|done|done]. apply stored_lookup. exists g. split; [done|].
    case_decide; [|done]. subst q. exfalso. simplify_eq. destruct Hor as [?|Hor]; [done|].
    apply Hor. constructor.
  - eapply sees_zero; [done|done|done|by apply stored_resident].
  - eapply sees_below; [done|done|by apply stored_resident|]. apply IH.
    destruct Hor as [?|Hor]; [by left|]. right. intros Hab. apply Hor. by eapply above_step.
Qed.

Lemma stored_seen s p f o n d :
  frames s !! p = Some f → pf_obj f = Some o → pf_pagenum f = n → sees (stored p d s) o n d.
Proof.
  intros Hp Hfo Hfn. assert (sees (stored p d s) o n (pf_data (set_pf_data d f))) as Hs; [|done].
  eapply (sees_resident _ _ _ p); [|done|done]. apply stored_lookup. exists f.
  by rewrite decide_True.
Qed.

(** ** The properties *)

(** C32: a page of an anonymous object is zero until it is stored into.
    [pframe_lookup] returns 0 and a frame that holds the page, not busy, with what
    the page held if it was resident and zeros if it was not; the page cache stays
    consistent and no page of any object changes for who looks at it. *)
Theorem anon_lookup_zero_fills s o O n w :
  pmem_wf s → memory_available → objs s !! o = Some O → mmo_ops O = anon_mmobj_ops →
  mmo_shadowed O = None → idle s o n →
  returns (pframe_lookup (Some o) n w) s (λ r s', pmem_wf s' ∧ (∃ p f,
    r = (0, Some p) ∧ frames s' !! p = Some f ∧ pf_obj f = Some o ∧ pf_pagenum f = n ∧
    pf_busy f = false ∧
    pf_data f = match find_frame s (Some o) n ≫= λ q, frames s !! q with
                | Some g => pf_data g
                | None => zero_page
                end) ∧
    ∀ x m e, sees s x m e ↔ sees s' x m e).
Proof.
  intros Hwf Hmem Ho Hop Hs Hidle. unfold pframe_lookup, returns. do 2 kstep.
  destruct (lookup_nested_anon (size (objs s)) s o O n w (λ x, x = o))
    as (r & s' & Hr & p & f & -> & Hf & Hfo & Hfn & Hfb & Hse & Hwf' & Hg); try done.
  eexists _, _. split; [done|]. split; [done|]. split.
  - exists p, f. do 5 (split; [done|]).
    eapply (sees_unique s o n); [done|done|]. pose proof (find_frame_resident s (Some o) n) as Hres.
    destruct (find_frame s (Some o) n) as [q|]; simpl.
    + destruct Hres as (g & Hq & Hgo & Hgn). rewrite Hq. by eapply sees_resident.
    + by eapply sees_zero.
  - intros x m e. split; [by apply (grows_sees _ _ _ _ _ _ Hwf Hg)|by eapply grows_sees_back].
Qed.

(** C15: reading through a chain of shadow objects gives the page of the first object
    that has it, and otherwise that of the anonymous object at the bottom.
    [pframe_lookup] for reading returns 0 and a frame with exactly the content that is
    seen through the object; nothing that is seen through any object changes. *)
Theorem shadow_lookup_reads s o b k n :
  pmem_wf s → memory_available → shadows s o b k → page_idle s n →
  returns (pframe_lookup (Some o) n false) s (λ r s', pmem_wf s' ∧ (∃ p f,
    r = (0, Some p) ∧ frames s' !! p = Some f ∧ pf_pagenum f = n ∧ pf_busy f = false ∧
    sees s o n (pf_data f)) ∧
    ∀ x m e, sees s x m e ↔ sees s' x m e).
Proof.
  intros Hwf Hmem Hsh Hidle. unfold pframe_lookup, returns. do 2 kstep.
  pose proof Hsh as [(O & Ho & Hop & _) _ _]. destruct (shadows_fuel _ _ _ _ Hsh) as [m ->].
  rewrite (lookup_nested_shadow _ _ _ _ _ _ Ho Hop).
  destruct (shadow_read_spec (lookup_nested (S m)) b n) with s o k
    as (r & s' & Hr & p & f & -> & Hf & Hfn & Hfb & Hse & Hwf' & Hg); try done.
  { intros s1 B Hwf1 HB HBop HBs Hid. by eapply lookup_nested_anon. }
  eexists _, _. split; [done|]. split; [done|]. split; [by exists p, f|].
  intros x j e. split; [by apply (grows_sees _ _ _ _ _ _ Hwf Hg)|by eapply grows_sees_back].
Qed.

(** C4: copy-on-write.  [pframe_lookup] for writing through a shadow object returns 0
    and a frame of that very object with the content seen before; what is then stored
    in the frame is seen through the object, and nothing else that is seen changes:
    no other page, and no page seen through an object that is not stacked on this
    one, the objects below and the other shadow objects over them included. *)
Theorem shadow_write_copies s o b k n d :
  pmem_wf s → memory_available → shadows s o b k → page_idle s n →
  returns (pframe_lookup (Some o) n true) s (λ r s', pmem_wf s' ∧ ∃ p f,
    r = (0, Some p) ∧ frames s' !! p = Some f ∧ pf_obj f = Some o ∧ pf_pagenum f = n ∧
    sees s o n (pf_data f) ∧ sees (stored p d s') o n d ∧
    ∀ x m e, m ≠ n ∨ ¬ above s x o → sees s x m e → sees (stored p d s') x m e).
Proof.
  intros Hwf Hmem Hsh Hidle. unfold pframe_lookup, returns. do 2 kstep.
  pose proof Hsh as [(O & Ho & Hop & _) _ _]. destruct (shadows_fuel _ _ _ _ Hsh) as [m ->].
  rewrite (lookup_nested_shadow _ _ _ _ _ _ Ho Hop).
  destruct (shadow_write_spec (lookup_nested (S m)) b n) with s o k
    as (r & s' & Hr & p & f & -> & Hf & Hfo & Hfn & Hfb & Hse & Hwf' & Hg); try done.
  { intros s1 B Hwf1 HB HBop HBs Hid. by eapply lookup_nested_anon. }
  eexists _, _. split; [done|]. split; [done|]. exists p, f. do 5 (split; [done|]).
  split; [by eapply stored_seen|]. intros x j e Hor He.
  eapply stored_isolated; [done|done|done| |by apply (grows_sees _ _ _ _ _ _ Hwf Hg)].
  destruct Hor as [?|Hor]; [by left|]. right. intros Hab. apply Hor. by eapply above_grows.
Qed.
End cow.
