(* ===== verification/PframePut.v ===== *)
(** * Giving up memory objects

    Freeing a page frame and dropping the last reference to an anonymous object,
    which frees every page it has. *)
From S2P Require Import Prelude Headers Vmmap Pframe PframeProps PframeLookup.
Local Open Scope kernel_scope.

Section put.
Context `{HP : PageH, HH : PmemH} {X : Type} `{HX : !PmemExt X, HT : !OtherObj X}.
Context {HL : ExtLaws}.
Local Abbreviation P := (pmem X).
Implicit Types (p q o b : positive) (s : P) (f : pframe) (n : Z).

(** An object with one resident page less, and the reference of that page. *)
Definition shrunk p (O : mmobj) : mmobj :=
  set_mmo_refcount (mmo_refcount O - 1)
    (set_mmo_respages (remove p (mmo_respages O)) (set_mmo_nrespages (mmo_nrespages O - 1) O)).

Lemma ident_wf_delete id h os o O n p :
  ident_wf id h os → os !! o = Some O → id !! p = Some (Some o, n) →
  ident_wf (delete p id)
    (<[hash_page (Some o) n := remove p (hash_chain h (hash_page (Some o) n))]> h)
    (<[o := shrunk p O]> os).
Proof.
  intros [Hobj Huniq Hcn Hch Hrn Hnr Hres] Ho Hp. split.
  - intros q x [Hne Hx]%lookup_delete_Some. destruct (Hobj q x Hx) as (o' & n' & O' & -> & Ho').
    destruct (decide (o = o')) as [<-|Hne'].
    + eexists _, _, _. split; [done|]. apply lookup_insert_eq.
    + exists o', n', O'. split; [done|]. by rewrite lookup_insert_ne.
  - intros q r x [_ Hq]%lookup_delete_Some [_ Hr]%lookup_delete_Some. by eapply Huniq.
  - intros i. rewrite hash_chain_insert. case_decide; [by apply NoDup_remove|done].
  - intros i q. rewrite hash_chain_insert. case_decide as Hi.
    + subst i. rewrite elem_of_remove, Hch. setoid_rewrite lookup_delete_Some. naive_solver.
    + rewrite Hch. setoid_rewrite lookup_delete_Some. split; [|naive_solver].
      intros (x & Hx & Hxi). exists x. split; [|done]. split; [|done]. intros ->. by simplify_eq.
  - intros o' O'. rewrite lookup_insert. case_decide; [|by apply Hrn]. intros [= <-]. simpl.
    apply NoDup_remove. by eapply Hrn.
  - intros o' O'. rewrite lookup_insert. case_decide; [|by apply Hnr]. intros [= <-]. simpl.
    rewrite remove_length; [by rewrite (Hnr _ _ Ho)|by eapply Hrn|].
    apply (Hres _ _ _ Ho). by exists n.
  - intros o' O' q. rewrite lookup_insert. setoid_rewrite lookup_delete_Some. case_decide as Heq.
    + intros [= <-]. simpl. subst o'. rewrite elem_of_remove, (Hres _ _ _ Ho). naive_solver.
    + intros HO'. rewrite (Hres _ _ _ HO'). naive_solver.
Qed.

Lemma pins_wf_delete pn al na pl np p :
  pins_wf pn al na pl np → pn !! p = Some 0 → pins_wf (delete p pn) (remove p al) (na - 1) pl np.
Proof.
  intros [Hal Hpl Hna Hnp Hia Hip Hpos] Hp. split; try done.
  - by apply NoDup_remove.
  - rewrite remove_length; [lia|done|by apply Hia].
  - intros q. rewrite elem_of_remove, Hia, lookup_delete_Some. naive_solver.
  - intros q. rewrite Hip. setoid_rewrite lookup_delete_Some. split; [|naive_solver].
    intros (n & Hn & Hlt). exists n. split; [|done]. split; [|done]. intros ->. simplify_eq. lia.
  - intros q n [_ Hn]%lookup_delete_Some. by eapply Hpos.
Qed.

(** ** A reference of several *)

(** Putting an object that has more references only takes one away. *)
Definition put_drops (put : positive → M P unit) o : Prop := ∀ s O,
  objs s !! o = Some O → mmo_ops O ≠ other_mmobj_ops → mmo_nrespages O + 1 < mmo_refcount O →
  0 <= mmo_nrespages O →
  put o s = Ret tt (set_objs (<[o := set_mmo_refcount (mmo_refcount O - 1) O]> (objs s)) s).

Lemma put_nested_drops fuel o : put_drops (put_nested (S fuel)) o.
Proof.
  intros s O Ho Hop Hlt Hpos. simpl. rewrite (bind_Ret _ _ _ _ _ (obj_get_eq _ _ _ Ho)).
  assert (∀ k, mmo_ops O = k → kassert ((0 <? mmo_refcount O) && bool_decide (mmo_ops O = k)) s = Ret tt s)
    as Hk by (intros k <-; apply kassert_true; rewrite (proj2 (Z.ltb_lt _ _)), bool_decide_true; [done|done|lia]).
  destruct (mmo_ops O) eqn:Hop'; [| |done].
  - unfold anon_put. rewrite (bind_Ret _ _ _ _ _ (obj_get_eq _ _ _ Ho)), Hop'.
    rewrite (bind_Ret _ _ _ _ _ (Hk anon_mmobj_ops eq_refl)).
    rewrite (proj2 (Z.eqb_neq _ _)) by lia. kstep. by rewrite (obj_upd_eq _ _ _ _ Ho).
  - unfold shadow_put. rewrite (bind_Ret _ _ _ _ _ (obj_get_eq _ _ _ Ho)), Hop'.
    rewrite (bind_Ret _ _ _ _ _ (Hk shadow_mmobj_ops eq_refl)).
    rewrite (proj2 (Z.eqb_neq _ _)) by lia. simpl. by rewrite (obj_upd_eq _ _ _ _ Ho).
Qed.

(** ** Taking a page out of the page tables *)

Lemma on_ext_areas {A} (m : M X A) s :
  (∀ x, returns m x (λ _ x', same_areas x x')) →
  ∃ a x, on_ext m s = Ret a (set_ext x s) ∧ same_areas (pext s) x.
Proof.
  intros Hm. destruct (Hm (pext s)) as (a & x & Hr & Hx). exists a, x. split; [by apply on_ext_eq|done].
Qed.

(** Areas that exist and are in a map. *)
Definition readable (x : X) (vmas : list positive) : Prop :=
  ∀ v, v ∈ vmas → ∃ a, vma_at x v = Some a ∧ is_Some (vma_vmmap a).
(** The areas that map [o] can be read. *)
Definition unmappable s o : Prop :=
  ∃ vmas, mmobj_bottom_vmas o s = Ret vmas s ∧ readable (pext s) vmas.
(** No address space maps the object. *)
Definition unmapped s o : Prop := ∃ O, objs s !! o = Some O ∧ mmo_shadowed O = None ∧ mmo_vmas O = [].

Lemma same_areas_trans (x y z : X) : same_areas x y → same_areas y z → same_areas x z.
Proof. intros Hxy Hyz v. by rewrite Hyz. Qed.

Lemma readable_same x x' vmas : same_areas x x' → readable x vmas → readable x' vmas.
Proof. intros Hx Hr v Hv. rewrite Hx. by apply Hr. Qed.

Lemma unmapped_unmappable s o : unmapped s o → unmappable s o.
Proof.
  intros (O & Ho & Hs & Hv). exists []. split; [|by intros v ?%elem_of_nil]. unfold mmobj_bottom_vmas.
  rewrite (bind_Ret _ _ _ _ _ (obj_get_eq _ _ _ Ho)), Hs. unfold ret. by rewrite Hv.
Qed.

(** Which areas map an object depends on these fields only. *)
Lemma bottom_vmas_same s s' o vmas :
  (∀ x O, objs s !! x = Some O → ∃ O', objs s' !! x = Some O' ∧ mmo_shadowed O' = mmo_shadowed O ∧
     mmo_bottom_obj O' = mmo_bottom_obj O ∧ mmo_vmas O' = mmo_vmas O) →
  mmobj_bottom_vmas o s = Ret vmas s → mmobj_bottom_vmas o s' = Ret vmas s'.
Proof.
  intros Hsame. unfold mmobj_bottom_vmas. intros (O & s1 & HO & Hr)%bind_ret_inv.
  unfold obj_get in HO. destruct (objs s !! o) as [O1|] eqn:Ho; [|done]. injection HO as -> ->.
  destruct (Hsame _ _ Ho) as (O' & Ho' & Hs & Hb & Hv). rewrite (bind_Ret _ _ _ _ _ (obj_get_eq _ _ _ Ho')), Hs.
  destruct (mmo_shadowed O); [|injection Hr as <-; unfold ret; by rewrite Hv].
  rewrite Hb. destruct (mmo_bottom_obj O) as [b|]; [|done]. kstep.
  apply bind_ret_inv in Hr as (b' & s2 & [= <- <-] & (B & s3 & HB & Hr)%bind_ret_inv). unfold obj_get in HB.
  destruct (objs s1 !! b) as [B1|] eqn:Hob; [|done]. injection HB as -> ->. injection Hr as <-.
  destruct (Hsame _ _ Hob) as (B' & Hob' & _ & _ & Hbv).
  rewrite (bind_Ret _ _ _ _ _ (obj_get_eq _ _ _ Hob')). unfold ret. by rewrite Hbv.
Qed.

Lemma unmappable_insert s s' o k O O' :
  objs s !! k = Some O → objs s' = <[k := O']> (objs s) → same_areas (pext s) (pext s') →
  mmo_shadowed O' = mmo_shadowed O → mmo_bottom_obj O' = mmo_bottom_obj O → mmo_vmas O' = mmo_vmas O →
  unmappable s o → unmappable s' o.
Proof.
  intros Hk Ho Hx Hs Hb Hv (vmas & Hr & Hrd). exists vmas. split; [|by eapply readable_same].
  eapply bottom_vmas_same; [|done]. intros x Ox HOx. rewrite Ho, lookup_insert. case_decide; [|by exists Ox].
  simplify_eq. by exists O'.
Qed.

Lemma unmap_areas_run n vmas : ∀ s, readable (pext s) vmas →
  ∃ x, unmap_areas n vmas s = Ret tt (set_ext x s) ∧ same_areas (pext s) x.
Proof.
  induction vmas as [|v vmas IH]; intros s Hrd; [exists (pext s); by destruct s|].
  destruct (Hrd v) as (a & Ha & [m Hm]); [left|].
  assert (∃ x, (if (n >=? vma_off a) && (n <? u32 (vma_off a + u32 (vma_end a - vma_start a))) then
      let vaddr := PN_TO_ADDR (u32 (vma_start a + n - vma_off a)) in
      map <- deref (vma_vmmap a) ;; pd <- get (λ s, vmm_pagedir (pext s) map) ;;
      match pd with Some pd => on_ext (pt_unmap pd vaddr) | None => ret tt end else ret tt) s =
      Ret tt (set_ext x s) ∧ same_areas (pext s) x) as (x1 & H1 & Hx1).
  { destruct (_ && _); [|exists (pext s); by destruct s]. rewrite Hm. do 2 kstep.
    destruct (vmm_pagedir _ _) as [pd|]; [|exists (pext s); by destruct s].
    destruct (on_ext_areas (pt_unmap pd (PN_TO_ADDR (u32 (vma_start a + n - vma_off a)))) s) as ([] & x & Hr & Hx);
      [intros; apply pt_unmap_spec|by exists x]. }
  destruct (IH (set_ext x1 s)) as (x2 & H2 & Hx2).
  { eapply readable_same; [done|]. intros w Hw. apply Hrd. by right. }
  exists x2. split; [|by eapply same_areas_trans]. simpl.
  rewrite (bind_Ret _ _ _ a s) by (by rewrite Ha). by rewrite (bind_Ret _ _ _ _ _ H1).
Qed.

Lemma remove_from_pts_run s p f o :
  frames s !! p = Some f → pf_obj f = Some o → unmappable s o →
  ∃ x, pframe_remove_from_pts p s = Ret tt (set_ext x s) ∧ same_areas (pext s) x.
Proof.
  intros Hp Hfo (vmas & Hv & Hrd). unfold pframe_remove_from_pts.
  rewrite (bind_Ret _ _ _ _ _ (frame_get_eq _ _ _ Hp)), Hfo. kstep.
  rewrite (bind_Ret _ _ _ _ _ Hv). by apply unmap_areas_run.
Qed.

(** ** Freeing a frame *)

(** The frame [p] of [o] is gone. *)
Definition freed s p o (O : mmobj) s' : Prop :=
  cache_wf s' ∧ frames s' = delete p (frames s) ∧ objs s' = <[o := shrunk p O]> (objs s) ∧
  same_areas (pext s) (pext s').

(** [put] takes one of several references to [o] away, an object of the kind [k]. *)
Definition put_gives (put : positive → M P unit) o (k : mmobj_ops) : Prop := ∀ s O,
  objs s !! o = Some O → mmo_ops O = k → mmo_nrespages O + 1 < mmo_refcount O → 0 <= mmo_nrespages O →
  ∃ e, put o s = Ret tt (set_ext e (set_objs (<[o := set_mmo_refcount (mmo_refcount O - 1) O]> (objs s)) s)) ∧
    same_areas (pext s) e.

Lemma put_drops_gives put o k : put_drops put o → k ≠ other_mmobj_ops → put_gives put o k.
Proof. intros Hput Hk s O Ho <- Hlt Hpos. exists (pext s). by rewrite (Hput s O). Qed.

Lemma pframe_free_any put s p f o O :
  put_gives put o (mmo_ops O) → cache_wf s → frames s !! p = Some f → pf_obj f = Some o → pf_pincount f = 0 →
  pf_busy f = false → objs s !! o = Some O → mmo_nrespages O < mmo_refcount O → unmappable s o →
  returns (pframe_free_with put p) s (λ _ s', freed s p o O s' ∧ alloc_list s' = remove p (alloc_list s)).
Proof.
  intros Hput [Hi Hpn] Hp Hfo Hz Hb Ho Href Hun. unfold pframe_free_with, returns.
  pose proof (iw_nres _ _ _ Hi _ _ Ho) as Hn.
  assert (p ∈ mmo_respages O) as Hin.
  { apply (iw_res _ _ _ Hi _ _ _ Ho). exists (pf_pagenum f). rewrite <- Hfo. by apply ident_lookup. }
  assert (0 < mmo_nrespages O) as Hpos by (destruct (mmo_respages O); [by apply elem_of_nil in Hin|simpl in Hn; lia]).
  rewrite (bind_Ret _ _ _ _ _ (frame_get_eq _ _ _ Hp)).
  rewrite (bind_Ret _ _ _ tt s) by (unfold pframe_is_pinned; by rewrite Hz).
  rewrite (bind_Ret _ _ _ tt s) by (unfold pframe_is_free; by rewrite Hfo).
  rewrite Hb, Hfo. do 2 kstep.
  destruct (on_ext_areas (tlb_flush (pf_addr f)) s (λ x, tlb_flush_spec x _)) as ([] & x & Ht & Hx).
  rewrite (bind_Ret _ _ _ _ _ Ht).
  destruct (remove_from_pts_run (set_ext x s) p f o Hp Hfo) as (x1 & Hr1 & Hx1).
  { destruct Hun as (vmas & Hv & Hrd). exists vmas. split; [|by eapply readable_same].
    eapply bottom_vmas_same; [|done]. eauto 10. }
  rewrite (bind_Ret _ _ _ _ _ Hr1). kstep.
  match goal with |- context [bind (frame_upd p _) _ ?s1] => set (s1' := s1) end.
  rewrite (bind_Ret _ _ _ _ _ (frame_upd_eq s1' p f _ Hp)). kstep.
  match goal with |- context [bind (on_ext (page_free _)) _ ?s2] => set (s2' := s2) end.
  destruct (on_ext_areas (page_free (pf_addr f)) s2' (λ x, page_free_spec x _)) as ([] & x2 & Hf & Hx2).
  rewrite (bind_Ret _ _ _ _ _ Hf). kstep.
  match goal with |- context [bind (obj_upd o _) _ ?s3] => set (s3' := s3) end.
  rewrite (bind_Ret _ _ _ _ _ (obj_upd_eq s3' o O _ Ho)).
  rewrite (bind_Ret _ _ _ _ _ (obj_upd_eq (set_objs _ s3') o _ _ (lookup_insert_eq _ _ _))).
  simpl. rewrite insert_insert_eq.
  match goal with |- context [put o ?s4] => destruct (Hput s4 _ (lookup_insert_eq _ _ _)) as (e & -> & He) end;
    [done|simpl; lia|simpl; lia|]. simpl. rewrite insert_insert_eq.
  eexists _, _. split; [done|]. split; [|done].
  split; [|split; [simpl; by rewrite delete_insert_eq|split; [done|]]].
  - split; simpl; rewrite ?delete_insert_eq.
    + unfold ident. rewrite fmap_delete. apply ident_wf_delete; [done|done|].
      rewrite <- Hfo. by apply ident_lookup.
    + unfold pins. rewrite fmap_delete. apply pins_wf_delete; [done|]. rewrite <- Hz. by apply pins_lookup.
  - simpl. eapply same_areas_trans; [exact Hx|]. eapply same_areas_trans; [exact Hx1|]. by eapply same_areas_trans.
Qed.

Lemma pframe_free_spec put s p f o O :
  put_drops put o → cache_wf s → frames s !! p = Some f → pf_obj f = Some o → pf_pincount f = 0 →
  pf_busy f = false → objs s !! o = Some O → mmo_nrespages O < mmo_refcount O →
  mmo_ops O ≠ other_mmobj_ops → unmappable s o →
  returns (pframe_free_with put p) s (λ _ s', freed s p o O s' ∧ alloc_list s' = remove p (alloc_list s)).
Proof. intros Hput Hwf Hp Hfo Hz Hb Ho Href Hop Hun. apply pframe_free_any with f; try done. by apply put_drops_gives. Qed.

Lemma freed_wf s p o O s' : pmem_wf s → objs s !! o = Some O → freed s p o O s' → pmem_wf s'.
Proof.
  intros [_ _ Hr] Ho (Hc & _ & Hos & _). apply cache_wf_pmem; [done|].
  intros o' O'. rewrite Hos, lookup_insert. case_decide; [|by apply Hr]. intros [= <-]. simpl.
  pose proof (Hr _ _ Ho). lia.
Qed.

(** ** The last reference *)

(** The pages of [o] are idle and pinned at most once, as filling them leaves them. *)
Definition releasable s o : Prop := ∀ p f,
  frames s !! p = Some f → pf_obj f = Some o → pf_pincount f <= 1 ∧ pf_busy f = false.

(** Unpinning, if it is pinned, and freeing one page. *)
Lemma uncache_one put s p f o O :
  put_drops put o → cache_wf s → frames s !! p = Some f → pf_obj f = Some o → releasable s o →
  objs s !! o = Some O → mmo_nrespages O < mmo_refcount O → mmo_ops O ≠ other_mmobj_ops → unmappable s o →
  returns ((if pframe_is_pinned f then pframe_unpin p else ret tt) ;;; pframe_free_with put p) s
    (λ _ s', freed s p o O s').
Proof.
  intros Hput Hwf Hp Hfo Hrel Ho Href Hop Hun. destruct (Hrel p f Hp Hfo) as [Hle Hb].
  destruct (cache_wf_frame s p f Hwf Hp) as (_ & _ & _ & _ & Hpos). unfold pframe_is_pinned.
  destruct (Z.ltb_spec 0 (pf_pincount f)) as [Hlt|Hge].
  - destruct (unpin_cache s p f Hwf Hp Hlt) as ([] & s1 & Hr & Hwf1 & Hf1 & Ho1 & _ & Hx1).
    replace (pf_pincount f - 1) with 0 in Hf1 by lia. unfold returns. rewrite (bind_Ret _ _ _ _ _ Hr).
    destruct (pframe_free_spec put s1 p (set_pf_pincount 0 f) o O) as ([] & s2 & Hr2 & (Hwf2 & Hf2 & Ho2 & Hx2) & _);
      try done; [rewrite Hf1; apply lookup_insert_eq|by rewrite Ho1| |].
    { apply (unmappable_insert s s1 o o O O); try done; [by rewrite Ho1, insert_id|by rewrite Hx1]. }
    exists tt, s2. split; [done|]. split; [done|].
    rewrite Hf2, Ho2, Hf1, Ho1, delete_insert_eq, <- Hx1. done.
  - eapply returns_mono; [apply (pframe_free_spec put s p f o O); try done; lia|]. by intros [] s' [? _].
Qed.

(** [O] without pages and their references. *)
Definition bare (O : mmobj) : mmobj :=
  set_mmo_refcount (mmo_refcount O - mmo_nrespages O) (set_mmo_respages [] (set_mmo_nrespages 0 O)).

(** [o] has no pages any more. *)
Definition emptied s o (O : mmobj) s' : Prop :=
  cache_wf s' ∧ frames s' = filter (λ x, pf_obj x.2 ≠ Some o) (frames s) ∧
  objs s' = <[o := bare O]> (objs s) ∧ same_areas (pext s) (pext s').

Lemma uncache_spec put o l : ∀ s O,
  put_drops put o → cache_wf s → objs s !! o = Some O → mmo_nrespages O < mmo_refcount O →
  mmo_ops O ≠ other_mmobj_ops → unmappable s o → releasable s o → mmo_respages O = l →
  returns (uncache_pages put l) s (λ _ s', emptied s o O s').
Proof.
  induction l as [|p l IH]; intros s O Hput Hwf Ho Href Hop Hun Hrel Hl; pose proof Hwf as [Hi _];
    pose proof (iw_nres _ _ _ Hi _ _ Ho) as Hn; rewrite Hl in Hn; simpl in Hn.
  - eexists _, _. split; [done|]. split; [done|]. split; [|split; [|done]].
    + symmetry. apply map_filter_id. intros q f Hq Hfo.
      assert (q ∈ mmo_respages O) as Hin; [|rewrite Hl in Hin; by apply elem_of_nil in Hin].
      apply (iw_res _ _ _ Hi _ _ _ Ho). exists (pf_pagenum f). rewrite <- Hfo. by apply ident_lookup.
    + rewrite insert_id; [done|]. rewrite Ho. unfold bare. destruct O; simpl in *. subst.
      unfold set_mmo_refcount. simpl. do 2 f_equal. lia.
  - assert (p ∈ mmo_respages O) as Hin by (rewrite Hl; left).
    apply (iw_res _ _ _ Hi _ _ _ Ho) in Hin as (n & (f & Hp & [=])%ident_inv).
    assert (remove p (p :: l) = l) as Hrm.
    { pose proof (iw_res_nodup _ _ _ Hi _ _ Ho) as Hnd. rewrite Hl in Hnd.
      apply (filter_ne_middle [] l p Hnd). }
    destruct (uncache_one put s p f o O) as ([] & s1 & Hr & Hwf1 & Hf1 & Ho1 & Hx1); try done.
    destruct (IH s1 (shrunk p O)) as ([] & s2 & Hr2 & Hwf2 & Hf2 & Ho2 & Hx2); try done.
    + rewrite Ho1. apply lookup_insert_eq.
    + simpl. lia.
    + by apply (unmappable_insert s s1 o o O (shrunk p O)).
    + intros q g. rewrite Hf1. intros [_ Hq]%lookup_delete_Some. by apply (Hrel q g).
    + simpl. by rewrite Hl.
    + exists tt, s2. split.
      { simpl. rewrite (bind_Ret _ _ _ _ _ (frame_get_eq _ _ _ Hp)).
        apply bind_ret_inv in Hr as ([] & s0 & Hu & Hfr). by rewrite (bind_Ret _ _ _ _ _ Hu), (bind_Ret _ _ _ _ _ Hfr). }
      split; [done|]. split; [|split; [|by eapply same_areas_trans]].
      { rewrite Hf2, Hf1. apply map_filter_delete_not. intros g Hg Hne. apply Hne. by simplify_eq. }
      rewrite Ho2, Ho1, insert_insert_eq. unfold bare, set_mmo_refcount. simpl. do 2 f_equal. lia.
Qed.

(** An object without pages goes away. *)
Lemma delete_obj_cache s s1 o O :
  emptied s o O s1 → objs s !! o = Some O → cache_wf (set_objs (delete o (objs s)) s1).
Proof.
  intros ([[Hobj Huniq Hcn Hch Hrn Hnr Hres] Hpn] & Hf1 & Ho1 & _) Ho.
  assert (∀ o' O1, delete o (objs s) !! o' = Some O1 → objs s1 !! o' = Some O1) as Hback.
  { intros o' O1 [Hne HO1]%lookup_delete_Some. by rewrite Ho1, lookup_insert_ne. }
  split; simpl; [split; eauto| done].
  intros p x Hx. destruct (Hobj p x Hx) as (o' & n & O1 & -> & HO1). exists o', n, O1. split; [done|].
  apply lookup_delete_Some. rewrite Ho1 in HO1. apply ident_inv in Hx as (f & Hp & [=]).
  rewrite Hf1 in Hp. apply map_lookup_filter_Some in Hp as [_ Hne]. simpl in Hne.
  assert (o ≠ o') by congruence. split; [done|]. by rewrite lookup_insert_ne in HO1.
Qed.

Lemma delete_obj_wf s s1 o O :
  pmem_wf s → emptied s o O s1 → objs s !! o = Some O → pmem_wf (set_objs (delete o (objs s)) s1).
Proof.
  intros Hwf He Ho. apply cache_wf_pmem; [by eapply delete_obj_cache|].
  simpl. intros o' O' [_ Ho']%lookup_delete_Some. by eapply mw_refs.
Qed.

(** Dropping the last reference to an anonymous object. *)
Lemma anon_put_run fuel s o O :
  cache_wf s → objs s !! o = Some O → mmo_ops O = anon_mmobj_ops → unmappable s o → releasable s o →
  mmo_refcount O = mmo_nrespages O + 1 →
  ∃ s1, emptied s o O s1 ∧ put_nested (S (S fuel)) o s = Ret tt (set_objs (delete o (objs s)) s1).
Proof.
  intros Hwf Ho Hop Hun Hrel Hrc. pose proof (iw_nres _ _ _ (proj1 Hwf) _ _ Ho) as Hn.
  destruct (uncache_spec (put_nested (S fuel)) o (mmo_respages O) s O) as ([] & s1 & Hr & He); try done;
    [apply put_nested_drops|lia|by rewrite Hop|].
  exists s1. split; [done|]. destruct He as (_ & _ & Ho1 & _).
  change (put_nested (S (S fuel)) o s) with ((O <- obj_get o ;; match mmo_ops O with
    | anon_mmobj_ops => anon_put (put_nested (S fuel)) o
    | shadow_mmobj_ops => shadow_put (put_nested (S fuel)) o | other_mmobj_ops => other_put o end) s).
  rewrite (bind_Ret _ _ _ _ _ (obj_get_eq _ _ _ Ho)), Hop.
  unfold anon_put. rewrite (bind_Ret _ _ _ _ _ (obj_get_eq _ _ _ Ho)), Hop.
  rewrite (bind_Ret _ _ _ tt s) by (apply kassert_true; rewrite (proj2 (Z.ltb_lt _ _)); [done|lia]).
  rewrite (proj2 (Z.eqb_eq _ _) Hrc).
  erewrite bind_Ret; [|by rewrite (bind_Ret _ _ _ _ _ Hr)]. unfold obj_upd, objs_set, modify. simpl.
  rewrite Ho1, delete_insert_eq. unfold set_objs. do 2 f_equal.
  apply map_eq. intros o'. rewrite lookup_alter. case_decide; [|done]. subst. by rewrite lookup_delete_eq.
Qed.

(** Dropping the last reference to an anonymous object gives back everything.
    If only its pages still refer to the object, [put] returns and leaves a consistent
    page cache with neither the object nor any of its pages; all other objects and
    pages are as before. *)
Theorem anon_put_last s o O :
  pmem_wf s → objs s !! o = Some O → mmo_ops O = anon_mmobj_ops → unmapped s o → releasable s o →
  mmo_refcount O = mmo_nrespages O + 1 →
  returns (mmo_put o) s (λ _ s', pmem_wf s' ∧ objs s' = delete o (objs s) ∧
    frames s' = filter (λ x, pf_obj x.2 ≠ Some o) (frames s)).
Proof.
  intros Hwf Ho Hop Hun Hrel Hrc.
  destruct (anon_put_run (size (objs s)) s o O (pmem_wf_cache _ Hwf) Ho Hop) as (s1 & He & Hr); try done;
    [by apply unmapped_unmappable|].
  exists tt, (set_objs (delete o (objs s)) s1). split; [by unfold mmo_put; kstep|].
  split; [by eapply delete_obj_wf|]. split; [done|]. apply He.
Qed.
End put.
