(* ===== verification/Pageout.v ===== *)
(** * The pageout daemon as a process: the rest of mm/pframe.c

    Starting and stopping the daemon and shutting the page cache down.  Processes and
    threads are the interface [PageoutOps]; the daemon itself is [pageoutd_run]. *)
From S2P Require Import Prelude Headers Vmmap Pframe PframeProps PframeLookup PframePut.
Local Open Scope kernel_scope.

(** The page cache and the globals [pageoutd] and [pageoutd_thr]. *)
Record pageout (X : Type) := Pageout {
  po_mem : pmem X;
  pageoutd : option positive;
  pageoutd_thr : option positive
}.
Arguments Pageout {X} po_mem pageoutd pageoutd_thr.
Arguments po_mem {X} _.
Arguments pageoutd {X} _.
Arguments pageoutd_thr {X} _.

Class PageoutOps (X : Type) := {
  (** [curproc->p_pid], unless [curproc] is [NULL] *)
  cur_pid : X → option Z;
  p_pid : X → positive → Z;
  (** [proc_create("pageoutd")] and [kthread_create(p, pageoutd_run, 0, NULL)] *)
  create_pageoutd : M X (option positive);
  create_pageoutd_thr : positive → M X (option positive);
  sched_make_runnable : positive → M X unit;
  kthread_cancel : positive → Z → M X unit;
  (** [do_waitpid(-1, 0, NULL)] *)
  wait_any_child : M X Z
}.

Section pageout.
Context `{HP : PageH, HL : LimitsH, HH : PmemH} {X : Type}.
Context `{HX : !PmemExt X, HT : !OtherObj X, HQ : !PageoutOps X}.
Local Abbreviation Q := (pageout X).

Definition on_mem {A} (m : M (pmem X) A) : M Q A :=
  zoom po_mem (λ x s, Pageout x (pageoutd s) (pageoutd_thr s)) m.
Definition pageoutd_set (v : option positive) : M Q unit :=
  modify (λ s, Pageout (po_mem s) v (pageoutd_thr s)).
Definition pageoutd_thr_set (v : option positive) : M Q unit :=
  modify (λ s, Pageout (po_mem s) (pageoutd s) v).

Definition pageoutd_init : M Q unit :=
  on_mem (on_ext (waitq_init QPageout)) ;;;
  pid <- get (λ s, cur_pid (pext (po_mem s))) ;;
  kassert (bool_decide (pid = Some PID_IDLE)) ;;;
  p <- on_mem (on_ext create_pageoutd) ;;
  pageoutd_set p ;;;
  p <- deref p ;;
  t <- on_mem (on_ext (create_pageoutd_thr p)) ;;
  pageoutd_thr_set t ;;;
  t <- deref t ;;
  on_mem (on_ext (sched_make_runnable t)).

Definition pageoutd_exit : M Q unit :=
  t <- (λ s, deref (pageoutd_thr s) s) ;;
  on_mem (on_ext (kthread_cancel t 0)) ;;;
  pageoutd_thr_set None.

(** The loop of [pframe_shutdown]; the next page is read before the page goes. *)
Fixpoint free_all (l : list positive) : M (pmem X) unit :=
  match l with
  | [] => ret tt
  | p :: l =>
      pf <- frame_get p ;;
      kassert (negb (pf_dirty pf)) ;;;
      kassert (negb (pf_busy pf)) ;;;
      kassert (negb (pframe_is_pinned pf)) ;;;
      pframe_free p ;;;
      free_all l
  end.

Definition pframe_shutdown : M Q unit :=
  pid <- (λ s, deref (cur_pid (pext (po_mem s))) s) ;;
  kassert (PID_IDLE =? pid) ;;;
  pageoutd_exit ;;;
  p <- (λ s, deref (pageoutd s) s) ;;
  pid <- get (λ s, p_pid (pext (po_mem s)) p) ;;
  child <- on_mem (on_ext wait_any_child) ;;
  kassert (pid =? child) ;;;
  n <- get (λ s, npinned (po_mem s)) ;;
  kassert (0 =? n) ;;;
  on_mem pframe_clean_all ;;;
  l <- get (λ s, alloc_list (po_mem s)) ;;
  on_mem (free_all l).
End pageout.

(** ** Pages that are not pinned *)

Section props.
Context `{HP : PageH, HH : PmemH} {X : Type} `{HX : !PmemExt X, HT : !OtherObj X}.
Context {HL : ExtLaws}.
Implicit Types (s : pmem X) (p o : positive).

Lemma mmo_put_drops o : put_drops mmo_put o.
Proof.
  intros s O Ho Hop Hlt Hpos. unfold mmo_put. kstep. by apply put_nested_drops.
Qed.

(** Pages on the list are not pinned. *)
Lemma alloc_unpinned s p f :
  pmem_wf s → p ∈ alloc_list s → frames s !! p = Some f → pf_pincount f = 0.
Proof.
  intros Hwf Hin Hp. apply (pw_al _ _ _ _ _ (mw_pins _ Hwf)) in Hin. rewrite (pins_lookup _ _ _ Hp) in Hin.
  by simplify_eq.
Qed.
End props.
