(* ===== verification/PframeMm.v ===== *)
(** * The page cache beneath address spaces

    vmmap.c and fork.c reach memory objects and page frames through the interface
    [MmOps]; anon.c, shadow.c and pframe.c implement it.  Here the interface is given
    by the definitions of Pframe, and the laws that the theorems on address spaces
    rest on, [MmLaws], are proved of them.  The references an area holds to an object
    are its reference count less the references that resident pages, shadow objects and
    the file system hold. *)
From S2P Require Import Prelude Headers Vmmap VmmapProps Pframe PframeProps PframeLookup.
Local Open Scope kernel_scope.

(** The [mmap] of files, and the page tables of the current process. *)
Class MmRest (X : Type) := {
  file_mmap : positive → positive → M (pmem X) (Z * option positive);
  x_tlb_flush_all : M X unit;
  x_pt_unmap_range : Z → Z → M X unit
}.

Definition set_mmo_shadowed v O := Mmobj (mmo_ops O) (mmo_refcount O) (mmo_nrespages O)
  (mmo_respages O) v (mmo_bottom_obj O) (mmo_vmas O).
Definition set_mmo_bottom v O := Mmobj (mmo_ops O) (mmo_refcount O) (mmo_nrespages O)
  (mmo_respages O) (mmo_shadowed O) v (mmo_vmas O).
Definition set_mmo_vmas v O := Mmobj (mmo_ops O) (mmo_refcount O) (mmo_nrespages O)
  (mmo_respages O) (mmo_shadowed O) (mmo_bottom_obj O) v.

(** [memcpy] of [bs] to offset [off] of a page. *)
Definition splice (off : Z) (bs l : list Z) : list Z :=
  take (Z.to_nat off) l ++ bs ++ drop (Z.to_nat off + length bs) l.

Section ops.
Context `{HP : PageH, HH : PmemH} {X : Type} `{HX : !PmemExt X, HT : !OtherObj X, HR : !MmRest X}.
Local Abbreviation P := (pmem X).
Implicit Types (p o : positive) (s : P).

(** A store to a field of the object at [o]. *)
Definition obj_set o (f : mmobj → mmobj) : M P unit := _ <- obj_get o ;; obj_upd o f.

(** mm/mmobj.h: [mmobj_bottom_obj(o)] *)
Definition bottom_obj o : M P positive :=
  O <- obj_get o ;;
  match mmo_shadowed O with Some _ => deref (mmo_bottom_obj O) | None => ret o end.

#[export] Instance pmem_mm_ops : MmOps P := {|
  Vmmap.mmo_ref := Pframe.mmo_ref;
  Vmmap.mmo_put := Pframe.mmo_put;
  mmo_lookuppage o pn w := pframe_lookup (Some o) pn w;
  mmo_vmas_insert_tail o v := obj_set o (λ O, set_mmo_vmas (mmo_vmas O ++ [v]) O);
  mmo_vmas_remove v := objs_set (fmap (λ O, set_mmo_vmas (remove v (mmo_vmas O)) O));
  Vmmap.anon_create := Pframe.anon_create;
  Vmmap.shadow_create := Pframe.shadow_create;
  mmo_set_shadowed sh o := obj_set sh (set_mmo_shadowed (Some o));
  mmo_set_bottom_obj sh o := obj_set sh (set_mmo_bottom (Some o));
  mmobj_bottom_obj := bottom_obj;
  vn_mmap := file_mmap;
  pf_read p off len := (pf <- frame_get p ;; ret (take (Z.to_nat len) (drop (Z.to_nat off) (pf_data pf))));
  pf_write p off bs := (pf <- frame_get p ;; frame_upd p (set_pf_data (splice off bs (pf_data pf))));
  Vmmap.pframe_dirty := Pframe.pframe_dirty;
  tlb_flush_all := on_ext x_tlb_flush_all;
  pt_unmap_range lo hi := on_ext (x_pt_unmap_range lo hi)
|}.
End ops.

Section laws.
Context `{HP : PageH, HH : PmemH} {X : Type} `{HX : !PmemExt X, HT : !OtherObj X, HR : !MmRest X}.
Local Abbreviation P := (pmem X).
Implicit Types (p o sh b x : positive) (s : P) (os : gmap positive mmobj) (O : mmobj).

(** What the rest of the kernel promises: [ref] of an object of a file counts the
    reference, page tables can be changed, and the allocator of shadow objects, whose
    result shadow.c does not check, finds memory. *)
Class MmRestLaws := {
  other_ref_spec s o O : objs s !! o = Some O → mmo_ops O = other_mmobj_ops →
    if 0 <? mmo_refcount O then
      ∃ e, other_ref o s = Ret tt (set_ext e
        (set_objs (<[o := set_mmo_refcount (mmo_refcount O + 1) O]> (objs s)) s)) ∧ same_areas (pext s) e
    else other_ref o s = Panic;
  tlb_flush_all_returns e : returns x_tlb_flush_all e (λ _ e', same_areas e e');
  pt_unmap_range_returns e lo hi : returns (x_pt_unmap_range lo hi) e (λ _ e', same_areas e e');
  shadow_slab_some s : is_Some (shadow_slab s)
}.
Context {HRL : MmRestLaws}.

(** ** Counting references *)

(** References that neither resident pages nor, for the object of a file, the file
    system accounts for. *)
Definition free_refs O : Z := mmo_refcount O - Z.of_nat (length (mmo_respages O))
  - if decide (mmo_ops O = other_mmobj_ops) then 1 else 0.
Definition points_to (f : mmobj → option positive) os o : Z := map_count (λ O, f O = Some o) os.
Definition area_refs s o : Z :=
  match objs s !! o with Some ob => free_refs ob | None => 0 end
  - points_to mmo_shadowed (objs s) o - points_to mmo_bottom_obj (objs s) o.
Definition in_use s o : Prop := ∃ O, objs s !! o = Some O ∧ 0 < mmo_refcount O.
Definition obj_below s o : option positive := objs s !! o ≫= mmo_shadowed.
Definition obj_bottom s o : option positive := objs s !! o ≫= mmo_bottom_obj.

Lemma points_to_insert f os k O O' o :
  os !! k = Some O → points_to f (<[k := O']> os) o =
    points_to f os o - (if decide (f O = Some o) then 1 else 0) + (if decide (f O' = Some o) then 1 else 0).
Proof. exact (map_count_insert (λ O, f O = Some o) os k O O'). Qed.

Lemma points_to_fresh f os k O' o :
  os !! k = None →
  points_to f (<[k := O']> os) o = points_to f os o + (if decide (f O' = Some o) then 1 else 0).
Proof. exact (map_count_fresh (λ O, f O = Some o) os k O'). Qed.

Lemma points_to_pos f os o : 0 <= points_to f os o.
Proof. apply map_count_pos. Qed.

(** Changing one object. *)
Lemma area_refs_insert s k O O' x :
  objs s !! k = Some O →
  area_refs (set_objs (<[k := O']> (objs s)) s) x = area_refs s x
    + (if decide (x = k) then free_refs O' - free_refs O else 0)
    + (if decide (mmo_shadowed O = Some x) then 1 else 0) - (if decide (mmo_shadowed O' = Some x) then 1 else 0)
    + (if decide (mmo_bottom_obj O = Some x) then 1 else 0)
    - (if decide (mmo_bottom_obj O' = Some x) then 1 else 0).
Proof.
  intros Hk. unfold area_refs. simpl. rewrite !(points_to_insert _ _ _ O) by done.
  destruct (decide (x = k)) as [-> |Hne]; [rewrite lookup_insert_eq, Hk|rewrite lookup_insert_ne by done]; lia.
Qed.

Lemma area_refs_fresh s k O' x :
  objs s !! k = None → mmo_shadowed O' = None → mmo_bottom_obj O' = None →
  area_refs (set_objs (<[k := O']> (objs s)) s) x =
    area_refs s x + (if decide (x = k) then free_refs O' else 0).
Proof.
  intros Hk Hs Hb. unfold area_refs. simpl. rewrite !points_to_fresh, Hs, Hb by done.
  rewrite (decide_False (P := None = Some x)) by done.
  destruct (decide (x = k)) as [-> |Hne]; [rewrite lookup_insert_eq, Hk|rewrite lookup_insert_ne by done]; lia.
Qed.

(** What a change of the fields of one object does to the others. *)
Lemma insert_shape s k O O' :
  objs s !! k = Some O → ∀ x, x ≠ k ∨ mmo_shadowed O' = mmo_shadowed O ∧ mmo_bottom_obj O' = mmo_bottom_obj O →
  obj_below (set_objs (<[k := O']> (objs s)) s) x = obj_below s x ∧
  obj_bottom (set_objs (<[k := O']> (objs s)) s) x = obj_bottom s x.
Proof.
  intros Hk x Hx. unfold obj_below, obj_bottom. simpl. destruct (decide (x = k)) as [-> |Hne].
  - rewrite lookup_insert_eq, Hk. simpl. naive_solver.
  - by rewrite lookup_insert_ne.
Qed.

Lemma in_use_insert s k O O' x :
  objs s !! k = Some O → 0 < mmo_refcount O → 0 < mmo_refcount O' →
  in_use (set_objs (<[k := O']> (objs s)) s) x ↔ in_use s x.
Proof.
  intros Hk Hr Hr'. unfold in_use. simpl. destruct (decide (x = k)) as [-> |Hne].
  - rewrite lookup_insert_eq, Hk. naive_solver.
  - by rewrite lookup_insert_ne.
Qed.

Lemma in_use_fresh s k O' x :
  objs s !! k = None → 0 < mmo_refcount O' →
  in_use (set_objs (<[k := O']> (objs s)) s) x ↔ in_use s x ∨ Some k = Some x.
Proof.
  intros Hk Hr. unfold in_use. simpl. destruct (decide (x = k)) as [-> |Hne].
  - rewrite lookup_insert_eq, Hk. naive_solver.
  - rewrite lookup_insert_ne by done. naive_solver.
Qed.

(** ** The operations *)

Lemma obj_set_eq s o O f :
  objs s !! o = Some O → obj_set o f s = Ret tt (set_objs (<[o := f O]> (objs s)) s).
Proof.
  intros Ho. unfold obj_set. rewrite (bind_Ret _ _ _ _ _ (obj_get_eq _ _ _ Ho)). by apply obj_upd_eq.
Qed.

Lemma mmo_ref_run s o O :
  objs s !! o = Some O → 0 < mmo_refcount O → ∃ e, same_areas (pext s) e ∧ Pframe.mmo_ref o s =
    Ret tt (set_ext e (set_objs (<[o := set_mmo_refcount (mmo_refcount O + 1) O]> (objs s)) s)).
Proof.
  intros Ho Hr. destruct (decide (mmo_ops O = other_mmobj_ops)) as [Hop|Hop].
  - pose proof (other_ref_spec s o O Ho Hop) as Hs. rewrite (proj2 (Z.ltb_lt _ _) Hr) in Hs.
    destruct Hs as (e & He & Ha). exists e. split; [done|]. unfold Pframe.mmo_ref.
    by rewrite (bind_Ret _ _ _ _ _ (obj_get_eq _ _ _ Ho)), Hop.
  - exists (pext s). split; [done|]. by rewrite (mmo_ref_eq s o O).
Qed.

Lemma area_refs_set s k O O' x :
  objs s !! k = Some O → mmo_shadowed O' = mmo_shadowed O → mmo_bottom_obj O' = mmo_bottom_obj O →
  area_refs (set_objs (<[k := O']> (objs s)) s) x =
    area_refs s x + if decide (x = k) then free_refs O' - free_refs O else 0.
Proof. intros Hk Hs Hb. rewrite (area_refs_insert s k O O') by done. rewrite Hs, Hb. lia. Qed.

Lemma ref_law s o : in_use s o → returns (Pframe.mmo_ref o) s (λ _ s',
  (∀ x, area_refs s' x = area_refs s x + if decide (x = o) then 1 else 0) ∧
  (∀ x, in_use s' x ↔ in_use s x) ∧ ∀ x, obj_below s' x = obj_below s x ∧ obj_bottom s' x = obj_bottom s x).
Proof using HRL.
  intros (O & Ho & Hr). destruct (mmo_ref_run s o O Ho Hr) as (e & _ & He).
  eexists _, _. split; [exact He|]. split; [|split].
  - intros x. transitivity (area_refs (set_objs (<[o := set_mmo_refcount (mmo_refcount O + 1) O]> (objs s)) s) x);
      [done|]. rewrite (area_refs_set s o O) by done. unfold free_refs. simpl. case_decide; lia.
  - intros x. apply (in_use_insert s o O); simpl; [done|done|lia].
  - intros x. apply (insert_shape s o O _ Ho). by right.
Qed.

Lemma vmas_insert_law s o v : in_use s o →
  returns (obj_set o (λ O, set_mmo_vmas (mmo_vmas O ++ [v]) O)) s (λ _ s',
    (∀ x, area_refs s' x = area_refs s x) ∧ (∀ x, in_use s' x ↔ in_use s x) ∧
    ∀ x, obj_below s' x = obj_below s x ∧ obj_bottom s' x = obj_bottom s x).
Proof.
  intros (O & Ho & Hr). eexists _, _. split; [by apply obj_set_eq|]. split; [|split].
  - intros x. rewrite (area_refs_set s o O) by done. unfold free_refs. simpl. case_decide; lia.
  - intros x. by apply (in_use_insert s o O).
  - intros x. apply (insert_shape s o O _ Ho). by right.
Qed.

Lemma points_to_fmap f g os o :
  (∀ O, f (g O) = f O) → points_to f (g <$> os) o = points_to f os o.
Proof.
  intros Hfg. unfold points_to, map_count. f_equal.
  rewrite map_filter_fmap, map_size_fmap. f_equal. apply map_filter_ext. intros k O _. simpl. by rewrite Hfg.
Qed.

Lemma vmas_remove_law s v :
  returns (objs_set (fmap (λ O, set_mmo_vmas (remove v (mmo_vmas O)) O))) s
    (λ _ s', ∀ x, area_refs s' x = area_refs s x).
Proof.
  eexists _, _. split; [done|]. intros x. unfold area_refs. simpl. rewrite lookup_fmap, !points_to_fmap by done.
  by destruct (objs s !! x).
Qed.

(** Putting a new object on an unused address. *)
Lemma new_obj_law s o ops :
  objs s !! o = None → ops ≠ other_mmobj_ops →
  let s' := set_objs (<[o := set_mmo_refcount 1 (mmobj_init ops)]> (objs s)) s in
  (∀ x, in_use s' x ↔ in_use s x ∨ Some o = Some x) ∧
  (∀ x, area_refs s' x = area_refs s x + if decide (Some o = Some x) then 1 else 0) ∧
  (∀ x, Some o = Some x → ¬ in_use s x ∧ in_use s' x ∧ obj_below s' x = None ∧ obj_bottom s' x = None) ∧
  (∀ x, Some o ≠ Some x → obj_below s' x = obj_below s x ∧ obj_bottom s' x = obj_bottom s x).
Proof.
  intros Ho Hops s'. split_and!.
  - intros x. by apply in_use_fresh.
  - intros x. unfold s'. rewrite area_refs_fresh by done. unfold free_refs. simpl. rewrite (decide_False (P := ops = other_mmobj_ops)) by done.
    destruct (decide (x = o)), (decide (Some o = Some x)); naive_solver.
  - intros x [= <-]. unfold in_use, obj_below, obj_bottom. simpl. rewrite lookup_insert_eq, Ho. naive_solver.
  - intros x Hne. unfold obj_below, obj_bottom. simpl. rewrite lookup_insert_ne by congruence. done.
Qed.

Lemma set_shadowed_law s sh o : in_use s sh → obj_below s sh = None →
  returns (obj_set sh (set_mmo_shadowed (Some o))) s (λ _ s',
    (∀ x, area_refs s' x = area_refs s x - if decide (x = o) then 1 else 0) ∧
    (∀ x, in_use s' x ↔ in_use s x) ∧ obj_below s' sh = Some o ∧
    (∀ x, x ≠ sh → obj_below s' x = obj_below s x) ∧ ∀ x, obj_bottom s' x = obj_bottom s x).
Proof.
  intros (O & Ho & Hr) Hb. unfold obj_below in Hb. rewrite Ho in Hb. simpl in Hb.
  eexists _, _. split; [by apply obj_set_eq|]. split_and!.
  - intros x. rewrite (area_refs_insert s sh O) by done. unfold free_refs. simpl. rewrite Hb.
    destruct (decide (x = o)), (decide (Some o = Some x)); try congruence; repeat case_decide; naive_solver lia.
  - intros x. by apply (in_use_insert s sh O).
  - unfold obj_below. simpl. by rewrite lookup_insert_eq.
  - intros x Hx. apply (insert_shape s sh O _ Ho). by left.
  - intros x. unfold obj_bottom. simpl. destruct (decide (x = sh)) as [-> |Hne];
      [by rewrite lookup_insert_eq, Ho|by rewrite lookup_insert_ne].
Qed.

Lemma set_bottom_law s sh o : in_use s sh → obj_bottom s sh = None →
  returns (obj_set sh (set_mmo_bottom (Some o))) s (λ _ s',
    (∀ x, area_refs s' x = area_refs s x - if decide (x = o) then 1 else 0) ∧
    (∀ x, in_use s' x ↔ in_use s x) ∧ obj_bottom s' sh = Some o ∧
    (∀ x, x ≠ sh → obj_bottom s' x = obj_bottom s x) ∧ ∀ x, obj_below s' x = obj_below s x).
Proof.
  intros (O & Ho & Hr) Hb. unfold obj_bottom in Hb. rewrite Ho in Hb. simpl in Hb.
  eexists _, _. split; [by apply obj_set_eq|]. split_and!.
  - intros x. rewrite (area_refs_insert s sh O) by done. unfold free_refs. simpl. rewrite Hb.
    destruct (decide (x = o)), (decide (Some o = Some x)); try congruence; repeat case_decide; naive_solver lia.
  - intros x. by apply (in_use_insert s sh O).
  - unfold obj_bottom. simpl. by rewrite lookup_insert_eq.
  - intros x Hx. apply (insert_shape s sh O _ Ho). by left.
  - intros x. unfold obj_below. simpl. destruct (decide (x = sh)) as [-> |Hne];
      [by rewrite lookup_insert_eq, Ho|by rewrite lookup_insert_ne].
Qed.

Lemma bottom_obj_law s o b :
  in_use s o → (if obj_below s o then obj_bottom s o = Some b else b = o) → bottom_obj o s = Ret b s.
Proof.
  intros (O & Ho & _) Hb. unfold bottom_obj, obj_below, obj_bottom in *. rewrite Ho in Hb. simpl in Hb.
  rewrite (bind_Ret _ _ _ _ _ (obj_get_eq _ _ _ Ho)).
  destruct (mmo_shadowed O); [by rewrite Hb|by subst].
Qed.

Lemma area_refs_in_use s o : 0 < area_refs s o → in_use s o.
Proof.
  unfold area_refs, in_use, free_refs. pose proof (points_to_pos mmo_shadowed (objs s) o).
  pose proof (points_to_pos mmo_bottom_obj (objs s) o).
  destruct (objs s !! o) as [O|]; [|lia]. intros. exists O. split; [done|]. case_decide; lia.
Qed.

(** The memory system that vmmap.c and fork.c rely on. *)
#[export] Program Instance pmem_mm_laws : MmLaws P := {|
  owned := area_refs; live := in_use; shadowed := obj_below; bottom := obj_bottom |}.
Next Obligation. apply area_refs_in_use. Qed.
Next Obligation. apply ref_law. Qed.
Next Obligation. apply vmas_insert_law. Qed.
Next Obligation. apply vmas_remove_law. Qed.
Next Obligation.
  intros s. unfold Vmmap.anon_create. simpl. unfold Pframe.anon_create, returns. kstep.
  destruct (anon_slab s) as [o|] eqn:Ho; [|eexists _, _; split; [done|]; split; [done|]; split; [done|]; intros; simpl; lia].
  destruct (new_obj_law s o anon_mmobj_ops (anon_slab_fresh _ _ Ho) ltac:(done)) as (Hl & Hown & Hnew & _).
  eexists _, _. split; [done|]. split; [intros x Hx; apply Hl; by left|]. split; [|exact Hown].
  intros x Hx. by destruct (Hnew x Hx) as (? & ? & ? & _).
Qed.
Next Obligation.
  intros s. unfold Vmmap.shadow_create. simpl. unfold Pframe.shadow_create, returns. kstep.
  destruct (shadow_slab_some s) as [o Ho]. rewrite Ho. kstep.
  destruct (new_obj_law s o shadow_mmobj_ops (shadow_slab_fresh _ _ Ho) ltac:(done)) as (Hl & Hown & Hnew & Hrest).
  eexists _, _. split; [done|]. by split_and!.
Qed.
Next Obligation. intros s sh o Hsh _. by apply set_shadowed_law. Qed.
Next Obligation. intros s sh o Hsh _. by apply set_bottom_law. Qed.
Next Obligation. apply bottom_obj_law. Qed.
Next Obligation.
  intros s. destruct (tlb_flush_all_returns (pext s)) as ([] & e & He & _).
  eexists _, _. split; [by apply on_ext_eq|done].
Qed.
Next Obligation.
  intros s lo hi. destruct (pt_unmap_range_returns (pext s) lo hi) as ([] & e & He & _).
  eexists _, _. split; [by apply on_ext_eq|done].
Qed.
End laws.
