(* ===== verification/PframeRelease.v ===== *)
(** * Reference counts of memory objects

    An object goes away with its last reference, and with it the references it holds:
    a shadow object those to the object below it and to the one at the bottom.  While
    these are given up the object is still allocated, without pages and without
    references; such objects are kept apart from the others in the proofs. *)
From S2P Require Import Prelude Headers Vmmap VmmapProps Pframe PframeProps PframeLookup PframeShadow PframeCow PframePut PframeMm.
Local Open Scope kernel_scope.

Section release.
Context `{HP : PageH, HH : PmemH} {X : Type} `{HX : !PmemExt X, HT : !OtherObj X}.
Context {HL : ExtLaws}.
Local Abbreviation P := (pmem X).
Implicit Types (p q o b sh x : positive) (s : P) (f : pframe) (n : Z) (d : gmap positive mmobj).

(** One reference less. *)
Definition less (O : mmobj) : mmobj := set_mmo_refcount (mmo_refcount O - 1) O.

(** What a file system promises: [put] of the object of a file that has more
    references takes one away. *)
Class OtherPutLaws := {
  other_put_spec s o (O : mmobj) : objs s !! o = Some O → mmo_ops O = other_mmobj_ops →
    mmo_nrespages O + 1 < mmo_refcount O → ∃ e, other_put o s =
      Ret tt (set_ext e (set_objs (<[o := less O]> (objs s)) s)) ∧ same_areas (pext s) e
}.
Context {HOP : OtherPutLaws}.

(** ** The invariant *)

(** The fields that say what an object shadows. *)
Definition shadow_fields (O : mmobj) b : Prop :=
  match mmo_shadowed O with
  | Some _ => mmo_ops O = shadow_mmobj_ops ∧ mmo_bottom_obj O = Some b
  | None => mmo_ops O ≠ shadow_mmobj_ops ∧ mmo_bottom_obj O = None
  end.

(** Nothing refers to an object that is not there, and every reference is counted;
    the objects below an object end in the one it calls its bottom; pages of
    anonymous and shadow objects are idle and pinned at most once. *)
Record counted s : Prop := Counted {
  ct_wf : pmem_wf s;
  ct_pos x : 0 <= area_refs s x;
  ct_chain o O : objs s !! o = Some O → ∃ b k, chain s o b k ∧ shadow_fields O b;
  ct_idle o O : objs s !! o = Some O → mmo_ops O ≠ other_mmobj_ops → releasable s o;
  ct_areas o O : objs s !! o = Some O → readable (pext s) (mmo_vmas O)
}.

(** The same object, perhaps mapped by fewer areas. *)
Definition same_shape (O O' : mmobj) : Prop :=
  mmo_ops O' = mmo_ops O ∧ mmo_shadowed O' = mmo_shadowed O ∧ mmo_bottom_obj O' = mmo_bottom_obj O ∧
  mmo_vmas O' ⊆ mmo_vmas O.

(** From [s] to [s'] objects only change references or, unless they are those of
    files, go away, with their pages. *)
Record kept s s' : Prop := Kept {
  kp_objs x O' : objs s' !! x = Some O' → ∃ O, objs s !! x = Some O ∧ same_shape O O';
  kp_frames p f : frames s' !! p = Some f ↔
    frames s !! p = Some f ∧ ∃ o, pf_obj f = Some o ∧ is_Some (objs s' !! o);
  kp_areas : same_areas (pext s) (pext s');
  kp_files x O : objs s !! x = Some O → mmo_ops O = other_mmobj_ops → is_Some (objs s' !! x)
}.

Lemma same_shape_trans O1 O2 O3 : same_shape O1 O2 → same_shape O2 O3 → same_shape O1 O3.
Proof using. intros (?&?&?&?) (?&?&?&?). unfold same_shape. repeat split; (congruence || by etrans). Qed.

Lemma shadow_fields_same O O' b : same_shape O O' → shadow_fields O b → shadow_fields O' b.
Proof using. intros (Ho & Hs & Hb & _). unfold shadow_fields. by rewrite Ho, Hs, Hb. Qed.

Lemma released_trans s1 s2 s3 : kept s1 s2 → kept s2 s3 → kept s1 s3.
Proof using.
  intros [Ho1 Hf1 Ha1 Hn1] [Ho2 Hf2 Ha2 Hn2]. split.
  - intros x O3 HO3. destruct (Ho2 _ _ HO3) as (O2 & HO2 & H32). destruct (Ho1 _ _ HO2) as (O1 & HO1 & H21).
    exists O1. split; [done|]. by eapply same_shape_trans.
  - intros p f. rewrite Hf2, Hf1. split; [naive_solver|].
    intros (Hp & o & Hfo & [O3 HO3]). destruct (Ho2 _ _ HO3) as (O2 & HO2 & _). eauto 10.
  - by eapply same_areas_trans.
  - intros x O HO Hop. destruct (Hn1 x O HO Hop) as [O2 HO2].
    destruct (Ho1 _ _ HO2) as (O1 & HO1 & Hop2 & _). simplify_eq. eapply Hn2; [done|by rewrite Hop2].
Qed.

Lemma released_refl s : pmem_wf s → kept s s.
Proof using.
  intros Hwf. split; [by eexists| |done|by eexists]. intros p f. split; [|naive_solver]. intros Hp. split; [done|].
  destruct (pmem_wf_frame s p f Hwf Hp) as (o & O & Hfo & HO & _). eauto.
Qed.

(** ** Counting *)

Lemma points_to_lookup g (os : gmap positive mmobj) k O x :
  os !! k = Some O → g O = Some x → 0 < points_to g os x.
Proof.
  intros Hk Hg. unfold points_to. pose proof (map_count_delete (λ O, g O = Some x) os k O Hk) as Hd.
  simpl in Hd. rewrite decide_True in Hd by done.
  pose proof (map_count_pos (λ O, g O = Some x) (delete k os)). lia.
Qed.

Lemma area_refs_delete s k O x :
  objs s !! k = Some O → area_refs (set_objs (delete k (objs s)) s) x = area_refs s x
    - (if decide (x = k) then free_refs O else 0) + (if decide (mmo_shadowed O = Some x) then 1 else 0)
    + (if decide (mmo_bottom_obj O = Some x) then 1 else 0).
Proof using.
  intros Hk. unfold area_refs, points_to. simpl. rewrite !(map_count_delete _ (objs s) k O) by done.
  destruct (decide (x = k)) as [-> |Hne]; [rewrite lookup_delete_eq, Hk|rewrite lookup_delete_ne by done]; lia.
Qed.

(** An object that is referred to is there. *)
Lemma referred_present s x O y :
  (∀ x, 0 <= area_refs s x) → objs s !! x = Some O →
  mmo_shadowed O = Some y ∨ mmo_bottom_obj O = Some y → is_Some (objs s !! y).
Proof using.
  intros Hpos Hx Hy. destruct (objs s !! y) as [Y|] eqn:HY; [by exists Y|]. exfalso.
  specialize (Hpos y). unfold area_refs in Hpos. rewrite HY in Hpos.
  pose proof (points_to_pos mmo_shadowed (objs s) y). pose proof (points_to_pos mmo_bottom_obj (objs s) y).
  destruct Hy as [Hy|Hy]; pose proof (points_to_lookup _ _ _ _ _ Hx Hy); lia.
Qed.

Lemma kept_chain s s' o b k :
  kept s s' → (∀ x, 0 <= area_refs s' x) → is_Some (objs s' !! o) → chain s o b k → chain s' o b k.
Proof using.
  intros Hk Hpos Ho Hc. induction Hc as [o O HO Hs|o O sh b k HO Hs Hc IH]; destruct Ho as [O' HO'];
    destruct (kp_objs _ _ Hk _ _ HO') as (O1 & HO1 & _ & Hs' & _); simplify_eq.
  - eapply chain_bottom; [done|]. by rewrite Hs'.
  - eapply chain_step; [done|by rewrite Hs'|]. apply IH.
    eapply referred_present; [done|exact HO'|]. left. by rewrite Hs'.
Qed.

Lemma counted_kept s s' :
  counted s → kept s s' → pmem_wf s' → (∀ x, 0 <= area_refs s' x) → counted s'.
Proof using.
  intros [_ _ Hch Hid Har] Hk Hwf Hpos. split; try done.
  - intros o O' HO'. destruct (kp_objs _ _ Hk _ _ HO') as (O & HO & HO'e).
    destruct (Hch _ _ HO) as (b & k & Hc & Hf). exists b, k.
    split; [eapply kept_chain; try done; by eexists|]. by eapply shadow_fields_same.
  - intros o O' HO' Hop p f Hp Hfo. destruct (kp_objs _ _ Hk _ _ HO') as (O & HO & HO'e).
    apply (kp_frames _ _ Hk) in Hp as [Hp _]. destruct HO'e as [Heq _]. rewrite Heq in Hop. by eapply (Hid o O).
  - intros o O' HO'. destruct (kp_objs _ _ Hk _ _ HO') as (O & HO & HO'e).
    eapply readable_same; [apply Hk|]. intros v Hv. apply (Har o O HO). by apply HO'e.
Qed.

(** ** Objects that are being given up *)

Definition dead d : Prop := ∀ x (O : mmobj), d !! x = Some O → mmo_respages O = [] ∧ mmo_nrespages O = 0.
Definition with_objs d s : P := set_objs (objs s ∪ d) s.

Lemma with_objs_lookup d s x O : objs s !! x = Some O → objs (with_objs d s) !! x = Some O.
Proof using. intros Hx. by apply lookup_union_Some_l. Qed.

Lemma cache_wf_with d s : dead d → d ##ₘ objs s → cache_wf s → cache_wf (with_objs d s).
Proof using.
  intros Hd Hdj [[Hobj Huniq Hcn Hch Hrn Hnr Hres] Hpn]. split; [split|]; simpl; try done.
  - intros p y Hy. destruct (Hobj p y Hy) as (o & n & O & -> & Ho). exists o, n, O. split; [done|].
    by apply lookup_union_Some_l.
  - intros o O [Ho|Ho]%lookup_union_Some; [by eapply Hrn| |by symmetry].
    destruct (Hd _ _ Ho) as [-> _]. apply NoDup_nil_2.
  - intros o O [Ho|Ho]%lookup_union_Some; [by eapply Hnr| |by symmetry]. by destruct (Hd _ _ Ho) as [-> ->].
  - intros o O p [Ho|Ho]%lookup_union_Some; [by eapply Hres| |by symmetry].
    destruct (Hd _ _ Ho) as [-> _]. rewrite elem_of_nil. split; [done|]. intros (n & Hn).
    destruct (Hobj _ _ Hn) as (o' & n' & O' & [= <- <-] & Ho'). by eapply map_disjoint_spec.
Qed.

Lemma cache_wf_without d s : dead d → d ##ₘ objs s → cache_wf (with_objs d s) → cache_wf s.
Proof using.
  intros Hd Hdj [[Hobj Huniq Hcn Hch Hrn Hnr Hres] Hpn]. simpl in *.
  split; [split|]; try done; try (intros; eauto using lookup_union_Some_l; done).
  - intros p y Hy. destruct (Hobj p y Hy) as (o & n & O & -> & Ho). exists o, n, O. split; [done|].
    pose proof Ho as [Ho'|Ho']%lookup_union_Some; [done| |by symmetry]. exfalso.
    apply (not_elem_of_nil p). destruct (Hd _ _ Ho') as [<- _]. apply (Hres _ _ _ Ho). by exists n.
  - intros o O Ho. apply (Hrn o). by apply lookup_union_Some_l.
  - intros o O Ho. apply (Hnr o). by apply lookup_union_Some_l.
  - intros o O p Ho. apply (Hres o). by apply lookup_union_Some_l.
Qed.

(** ** One of several references *)

(** What giving up one reference to [o] does. *)
Definition gave_up o s s' : Prop :=
  counted s' ∧ kept s s' ∧ ∀ x, area_refs s' x = area_refs s x - if decide (x = o) then 1 else 0.

Lemma ident_wf_refcount id h os o O v :
  ident_wf id h os → os !! o = Some O → ident_wf id h (<[o := set_mmo_refcount v O]> os).
Proof using.
  intros [Hobj Huniq Hcn Hch Hrn Hnr Hres] Ho. split; try done.
  - intros p y Hy. destruct (Hobj p y Hy) as (o' & n & O' & -> & Ho').
    destruct (decide (o = o')) as [<- |Hne]; [do 3 eexists; split; [done|apply lookup_insert_eq]|].
    exists o', n, O'. by rewrite lookup_insert_ne.
  - intros o' O'. rewrite lookup_insert. case_decide; [|by apply Hrn]. intros [= <-]. exact (Hrn o O Ho).
  - intros o' O'. rewrite lookup_insert. case_decide; [|by apply Hnr]. intros [= <-]. exact (Hnr o O Ho).
  - intros o' O' p. rewrite lookup_insert. case_decide; [|by apply Hres]. subst. intros [= <-]. exact (Hres o' O p Ho).
Qed.

Lemma less_gave_up s o O e :
  counted s → objs s !! o = Some O → 0 < area_refs s o → mmo_nrespages O + 1 < mmo_refcount O →
  same_areas (pext s) e → gave_up o s (set_ext e (set_objs (<[o := less O]> (objs s)) s)).
Proof using.
  intros Hct Ho Hown Hlt He. pose proof (ct_wf _ Hct) as [Hi Hpn Hr].
  assert (∀ x, area_refs (set_ext e (set_objs (<[o := less O]> (objs s)) s)) x =
    area_refs s x - if decide (x = o) then 1 else 0) as Hrefs.
  { intros x. transitivity (area_refs (set_objs (<[o := less O]> (objs s)) s) x); [done|].
    rewrite (area_refs_set s o O) by done. unfold free_refs. simpl. case_decide; lia. }
  assert (kept s (set_ext e (set_objs (<[o := less O]> (objs s)) s))) as Hk.
  { split; simpl; [| |done|intros x O1 HO1 _; rewrite lookup_insert; case_decide; by eexists].
    - intros x O'. rewrite lookup_insert. case_decide; [|intros HO'; by exists O'].
      intros [= <-]. subst. by exists O.
    - intros p f. split; [|naive_solver]. intros Hp. split; [done|].
      destruct (pmem_wf_frame s p f (ct_wf _ Hct) Hp) as (o' & O' & Hfo & Ho' & _). exists o'. split; [done|].
      rewrite lookup_insert. case_decide; by eexists. }
  split; [|by split]. apply (counted_kept s); try done.
  - split; simpl; [by apply ident_wf_refcount|done|]. intros x O'. rewrite lookup_insert.
    case_decide; [|by apply Hr]. intros [= <-]. simpl. lia.
  - intros x. rewrite Hrefs. pose proof (ct_pos _ Hct x). case_decide; subst; lia.
Qed.

Lemma put_one fuel d s o O :
  counted s → objs s !! o = Some O → 0 < area_refs s o → mmo_nrespages O + 1 < mmo_refcount O →
  ∃ s', put_nested (S fuel) o (with_objs d s) = Ret tt (with_objs d s') ∧ gave_up o s s'.
Proof using HOP.
  intros Hct Ho Hown Hlt. pose proof (with_objs_lookup d _ _ _ Ho) as Hod.
  pose proof (iw_nres _ _ _ (mw_ident _ (ct_wf _ Hct)) _ _ Ho) as Hn.
  destruct (decide (mmo_ops O = other_mmobj_ops)) as [Hop|Hop].
  - destruct (other_put_spec _ o O Hod Hop Hlt) as (e & Hr & He).
    exists (set_ext e (set_objs (<[o := less O]> (objs s)) s)). split; [|by apply less_gave_up].
    simpl. rewrite (bind_Ret _ _ _ _ _ (obj_get_eq _ _ _ Hod)), Hop, Hr. unfold with_objs. simpl.
    by rewrite insert_union_l.
  - exists (set_ext (pext s) (set_objs (<[o := less O]> (objs s)) s)). split; [|by apply less_gave_up].
    rewrite (put_nested_drops fuel o _ O Hod Hop Hlt) by lia. unfold with_objs. simpl. by rewrite insert_union_l.
Qed.

(** ** The last reference *)

Lemma last_reference s o O :
  counted s → objs s !! o = Some O → 0 < area_refs s o → mmo_refcount O = mmo_nrespages O + 1 →
  mmo_ops O ≠ other_mmobj_ops ∧ free_refs O = 1 ∧ area_refs s o = 1 ∧
  mmo_shadowed O ≠ Some o ∧ mmo_bottom_obj O ≠ Some o.
Proof using.
  intros Hct Ho Hown Hrc. pose proof (iw_nres _ _ _ (mw_ident _ (ct_wf _ Hct)) _ _ Ho) as Hn.
  unfold area_refs in *. rewrite Ho in *. unfold free_refs in *.
  pose proof (points_to_pos mmo_shadowed (objs s) o). pose proof (points_to_pos mmo_bottom_obj (objs s) o).
  case_decide; [lia|]. split; [done|]. split; [lia|]. split; [lia|].
  split; intros Hp; pose proof (points_to_lookup _ _ _ _ _ Ho Hp); lia.
Qed.

Lemma counted_unmappable d s o O : counted s → objs s !! o = Some O → unmappable (with_objs d s) o.
Proof using.
  intros Hct Ho. unfold unmappable, mmobj_bottom_vmas.
  rewrite (bind_Ret _ _ _ _ _ (obj_get_eq _ _ _ (with_objs_lookup d _ _ _ Ho))).
  destruct (ct_chain _ Hct _ _ Ho) as (b & k & _ & Hf). unfold shadow_fields in Hf.
  destruct (mmo_shadowed O) as [sh|]; [|eexists; split; [done|]; by eapply (ct_areas _ Hct o)].
  destruct Hf as [_ Hb]. rewrite Hb. kstep.
  destruct (referred_present s o O b (ct_pos _ Hct) Ho) as [B HB]; [by right|].
  rewrite (bind_Ret _ _ _ _ _ (obj_get_eq _ _ _ (with_objs_lookup d _ _ _ HB))).
  eexists. split; [done|]. by eapply (ct_areas _ Hct b).
Qed.

(** [o] and its pages are gone. *)
Lemma emptied_gone d s o O s1 :
  counted s → dead d → d ##ₘ objs s → objs s !! o = Some O → mmo_ops O ≠ other_mmobj_ops →
  emptied (with_objs d s) o O s1 →
  let s' := set_objs (delete o (objs s)) s1 in pmem_wf s' ∧ kept s s'.
Proof using.
  intros Hct Hd Hdj Ho Hop He s'. pose proof He as (_ & Hf & _ & Hx).
  assert (d !! o = None) as Hdo by (by eapply map_disjoint_Some_r). split.
  - apply cache_wf_pmem; [|simpl; intros x O' [_ Hx']%lookup_delete_Some; by eapply (mw_refs _ (ct_wf _ Hct))].
    apply (cache_wf_without d); [done|by apply map_disjoint_delete_r|].
    pose proof (delete_obj_cache _ _ _ _ He (with_objs_lookup d _ _ _ Ho)) as Hc. simpl in Hc.
    rewrite delete_union, (delete_id d o) in Hc by done. exact Hc.
  - split; simpl; [| |done|intros x O1 HO1 Hop1; rewrite lookup_delete_ne by congruence; by eexists].
    + intros x O' [_ HO']%lookup_delete_Some. by exists O'.
    + intros p f. rewrite Hf, map_lookup_filter_Some. simpl. split; intros [Hp Hne]; (split; [done|]).
      * destruct (pmem_wf_frame s p f (ct_wf _ Hct) Hp) as (o' & O' & Hfo & Ho' & _). exists o'.
        split; [done|]. rewrite lookup_delete_ne by congruence. by eexists.
      * destruct Hne as (o' & Hfo & [O' [? _]%lookup_delete_Some]). congruence.
Qed.

Lemma put_anon fuel d s o O :
  counted s → dead d → d ##ₘ objs s → objs s !! o = Some O → 0 < area_refs s o →
  mmo_refcount O = mmo_nrespages O + 1 → mmo_ops O = anon_mmobj_ops →
  ∃ s', put_nested (S (S fuel)) o (with_objs d s) = Ret tt (with_objs d s') ∧ gave_up o s s'.
Proof using HL.
  intros Hct Hd Hdj Ho Hown Hrc Hop. assert (d !! o = None) as Hdo by (by eapply map_disjoint_Some_r).
  destruct (last_reference s o O) as (Hno & Hfr & Har & _); try done.
  destruct (anon_put_run fuel (with_objs d s) o O) as (s1 & He & Hr); try done.
  { apply cache_wf_with; try done. apply pmem_wf_cache, Hct. }
  { by apply with_objs_lookup. }
  { by eapply counted_unmappable. }
  { by eapply (ct_idle _ Hct). }
  destruct (emptied_gone d s o O s1) as [Hwf Hk]; try done. exists (set_objs (delete o (objs s)) s1).
  assert (∀ x, area_refs (set_objs (delete o (objs s)) s1) x = area_refs s x - if decide (x = o) then 1 else 0) as Hrefs.
  { intros x. transitivity (area_refs (set_objs (delete o (objs s)) s) x); [done|].
    rewrite (area_refs_delete s o O) by done. destruct (ct_chain _ Hct _ _ Ho) as (b & k & _ & Hf).
    unfold shadow_fields in Hf. destruct (mmo_shadowed O); [destruct Hf; congruence|]. destruct Hf as [_ ->].
    rewrite !(decide_False (P := None = Some x)) by done. case_decide; lia. }
  split; [|split; [|by split]].
  - rewrite Hr. unfold with_objs. simpl. by rewrite delete_union, (delete_id d o).
  - apply (counted_kept s); try done. intros x. rewrite Hrefs. pose proof (ct_pos _ Hct x).
    case_decide; subst; lia.
Qed.

(** [shadow_put] once the pages are gone. *)
Definition put_below (put : positive → M P unit) o sh : M P unit :=
  put sh ;;; O <- obj_get o ;; b <- deref (mmo_bottom_obj O) ;; put b ;;; objs_set (delete o).

Lemma shadow_put_run fuel s o O sh :
  cache_wf s → objs s !! o = Some O → mmo_ops O = shadow_mmobj_ops → unmappable s o → releasable s o →
  mmo_refcount O = mmo_nrespages O + 1 → mmo_shadowed O = Some sh →
  ∃ s1, emptied s o O s1 ∧ put_nested (S (S fuel)) o s =
    put_below (put_nested (S fuel)) o sh (set_objs (<[o := less (bare O)]> (objs s)) s1).
Proof using HL.
  intros Hwf Ho Hop Hun Hrel Hrc Hs. pose proof (iw_nres _ _ _ (proj1 Hwf) _ _ Ho) as Hn.
  destruct (uncache_spec (put_nested (S fuel)) o (mmo_respages O) s O) as ([] & s1 & Hr & He); try done;
    [apply put_nested_drops|lia|by rewrite Hop|].
  exists s1. split; [done|]. destruct He as (_ & _ & Ho1 & _).
  change (put_nested (S (S fuel)) o s) with ((O <- obj_get o ;; match mmo_ops O with
    | anon_mmobj_ops => anon_put (put_nested (S fuel)) o
    | shadow_mmobj_ops => shadow_put (put_nested (S fuel)) o | other_mmobj_ops => other_put o end) s).
  rewrite (bind_Ret _ _ _ _ _ (obj_get_eq _ _ _ Ho)), Hop.
  unfold shadow_put. rewrite (bind_Ret _ _ _ _ _ (obj_get_eq _ _ _ Ho)), Hop.
  rewrite (bind_Ret _ _ _ tt s) by (apply kassert_true; rewrite (proj2 (Z.ltb_lt _ _)); [done|lia]).
  rewrite (proj2 (Z.eqb_eq _ _)) by lia. cbn [negb]. rewrite (bind_Ret _ _ _ _ _ Hr).
  assert (objs s1 !! o = Some (bare O)) as Hb by (rewrite Ho1; apply lookup_insert_eq).
  rewrite (bind_Ret _ _ _ _ _ (obj_upd_eq _ _ _ _ Hb)), Ho1, insert_insert_eq.
  erewrite bind_Ret; [|apply obj_get_eq, lookup_insert_eq]. simpl. by rewrite Hs.
Qed.

Lemma chain_end s o b k : chain s o b k → chain s b b 0.
Proof using. induction 1; [by econstructor|done]. Qed.

Lemma area_refs_present s x : 0 < area_refs s x → is_Some (objs s !! x).
Proof using.
  unfold area_refs. destruct (objs s !! x); [by eexists|].
  pose proof (points_to_pos mmo_shadowed (objs s) x). pose proof (points_to_pos mmo_bottom_obj (objs s) x). lia.
Qed.

(** Setting an object aside, and taking it away. *)
Lemma set_aside d (os : gmap positive mmobj) o O :
  d !! o = None → <[o := O]> (os ∪ d) = delete o os ∪ <[o := O]> d.
Proof using.
  intros Hd. apply map_eq. intros x. rewrite lookup_insert, !lookup_union, lookup_delete, lookup_insert.
  by case_decide.
Qed.

Lemma take_away d (os : gmap positive mmobj) o O :
  d !! o = None → os !! o = None → delete o (os ∪ <[o := O]> d) = os ∪ d.
Proof using. intros Hd Ho. by rewrite delete_union, delete_insert_eq, !delete_id. Qed.

Lemma kept_disjoint d s s' : kept s s' → d ##ₘ objs s → d ##ₘ objs s'.
Proof using.
  intros Hk Hdj. apply map_disjoint_spec. intros x O O' HO (O1 & HO1 & _)%(kp_objs _ _ Hk).
  by eapply map_disjoint_spec.
Qed.

Lemma put_shadow fuel d s o O sh b :
  (∀ d s x y k, counted s → dead d → d ##ₘ objs s → (k <= fuel)%nat → chain s x y k → 0 < area_refs s x →
    ∃ s', put_nested (S (S fuel)) x (with_objs d s) = Ret tt (with_objs d s') ∧ gave_up x s s') →
  counted s → dead d → d ##ₘ objs s → objs s !! o = Some O → 0 < area_refs s o →
  mmo_refcount O = mmo_nrespages O + 1 → mmo_ops O = shadow_mmobj_ops → mmo_shadowed O = Some sh →
  mmo_bottom_obj O = Some b → (∃ k, (k <= fuel)%nat ∧ chain s sh b k) →
  ∃ s', put_nested (S (S (S fuel))) o (with_objs d s) = Ret tt (with_objs d s') ∧ gave_up o s s'.
Proof using HL.
  intros IH Hct Hd Hdj Ho Hown Hrc Hop Hs Hb (k & Hk & Hc).
  assert (d !! o = None) as Hdo by (by eapply map_disjoint_Some_r).
  destruct (last_reference s o O) as (Hno & Hfr & Har & Hso & Hbo); try done.
  destruct (shadow_put_run (S fuel) (with_objs d s) o O sh) as (s1 & He & Hr); try done.
  { apply cache_wf_with; try done. apply pmem_wf_cache, Hct. }
  { by apply with_objs_lookup. }
  { by eapply counted_unmappable. }
  { by eapply (ct_idle _ Hct). }
  destruct (emptied_gone d s o O s1) as [Hwf1 Hk1]; try done. set (s2 := set_objs (delete o (objs s)) s1) in *.
  set (d2 := <[o := less (bare O)]> d).
  assert (∀ x, area_refs s2 x = area_refs s x - (if decide (x = o) then 1 else 0)
    + (if decide (x = sh) then 1 else 0) + (if decide (x = b) then 1 else 0)) as Hrefs.
  { intros x. transitivity (area_refs (set_objs (delete o (objs s)) s) x); [done|].
    rewrite (area_refs_delete s o O), Hs, Hb by done. repeat case_decide; naive_solver lia. }
  assert (∀ x, 0 <= area_refs s2 x) as Hpos.
  { intros x. rewrite Hrefs. pose proof (ct_pos _ Hct x). repeat case_decide; subst; lia. }
  assert (counted s2) as Hct2 by (by apply (counted_kept s)).
  assert (dead d2) as Hd2 by (intros x Ox; unfold d2; rewrite lookup_insert; case_decide; [by intros [= <-]|apply Hd]).
  assert (objs s2 !! o = None) as Ho2 by apply lookup_delete_eq.
  assert (d2 ##ₘ objs s2) as Hdj2 by (apply map_disjoint_insert_l_2; [done|by eapply kept_disjoint]).
  destruct (IH d2 s2 sh b k) as (s3 & Hr3 & Hct3 & Hk3 & Hrefs3); try done.
  { apply (kept_chain s); try done. apply area_refs_present. rewrite Hrefs. pose proof (ct_pos _ Hct sh).
    repeat case_decide; subst; (congruence || lia). }
  { rewrite Hrefs. pose proof (ct_pos _ Hct sh). repeat case_decide; subst; (congruence || lia). }
  assert (0 < area_refs s3 b) as Hb3.
  { rewrite Hrefs3, Hrefs. pose proof (ct_pos _ Hct b). repeat case_decide; subst; (congruence || lia). }
  pose proof (released_trans _ _ _ Hk1 Hk3) as Hk13.
  destruct (IH d2 s3 b b 0%nat) as (s4 & Hr4 & Hct4 & Hk4 & Hrefs4); try done; [by apply (kept_disjoint d2 s2)|lia| |].
  { apply (kept_chain s); try done; [apply Hct3|by apply area_refs_present|by eapply chain_end]. }
  exists s4. split; [|split; [done|split; [by eapply released_trans|]]].
  - rewrite Hr. unfold put_below.
    replace (set_objs _ s1) with (with_objs d2 s2) 
      by (unfold with_objs, d2, set_objs; simpl; by rewrite set_aside).
    rewrite (bind_Ret _ _ _ _ _ Hr3).
    erewrite bind_Ret; [|apply obj_get_eq; apply lookup_union_Some_r; [symmetry; by apply (kept_disjoint d2 s2)|apply lookup_insert_eq]].
    simpl. rewrite Hb. kstep. rewrite (bind_Ret _ _ _ _ _ Hr4). unfold objs_set, modify, with_objs. simpl.
    unfold d2. rewrite take_away; [done|done|].
    destruct (objs s4 !! o) as [O4|] eqn:Ho4; [|done].
    destruct (kp_objs _ _ (released_trans _ _ _ Hk3 Hk4) _ _ Ho4) as (? & ? & _). congruence.
  - intros x. rewrite Hrefs4, Hrefs3, Hrefs. repeat case_decide; lia.
Qed.

Lemma put_run fuel : ∀ d s o b k,
  counted s → dead d → d ##ₘ objs s → (k <= fuel)%nat → chain s o b k → 0 < area_refs s o →
  ∃ s', put_nested (S (S fuel)) o (with_objs d s) = Ret tt (with_objs d s') ∧ gave_up o s s'.
Proof using HL HOP.
  induction fuel as [|fuel IH]; intros d s o b k Hct Hd Hdj Hk Hc Hown;
    destruct (area_refs_present s o Hown) as [O Ho]; pose proof (mw_refs _ (ct_wf _ Hct) _ _ Ho);
    (destruct (decide (mmo_refcount O = mmo_nrespages O + 1)) as [Hrc|Hne]; [|apply (put_one _ d s o O); [done..|lia]]);
    destruct (last_reference s o O) as (Hno & _); try done;
    destruct (ct_chain _ Hct _ _ Ho) as (b' & k' & Hc' & Hf); unfold shadow_fields in Hf;
    destruct (chain_level _ _ _ _ _ _ Hc Hc') as [<- <-];
    inversion Hc as [? O1 Ho1 Hs|? O1 sh ? k1 Ho1 Hs Hc1]; subst; simplify_eq; rewrite Hs in Hf; destruct Hf as [Hf1 Hf2].
  1,3: apply (put_anon _ d s b O); try done; by destruct (mmo_ops O).
  - lia.
  - apply (put_shadow fuel d s o O sh b); try done. exists k1. split; [lia|done].
Qed.

(** ** What is left *)

(** Another object refers to [x]. *)
Definition referred s x : Prop := ∃ y Y, objs s !! y = Some Y ∧
  (mmo_shadowed Y = Some x ∨ mmo_bottom_obj Y = Some x).

Lemma points_to_inv g (os : gmap positive mmobj) x :
  0 < points_to g os x → ∃ y Y, os !! y = Some Y ∧ g Y = Some x.
Proof using.
  intros Hlt. unfold points_to, map_count in Hlt.
  destruct (map_choose (filter (λ kv : positive * mmobj, g kv.2 = Some x) os)) as (y & Y & HY).
  { intros He. rewrite He, map_size_empty in Hlt. lia. }
  apply map_lookup_filter_Some in HY as [HY Hg]. by exists y, Y.
Qed.

Lemma points_to_none g (os : gmap positive mmobj) x :
  (∀ y Y, os !! y = Some Y → g Y ≠ Some x) → points_to g os x = 0.
Proof using.
  intros Hno. pose proof (points_to_pos g os x). destruct (decide (0 < points_to g os x)) as [Hp|]; [|lia].
  apply points_to_inv in Hp as (y & Y & HY & Hg). by destruct (Hno y Y HY).
Qed.

Lemma counted_needed s x O : counted s → objs s !! x = Some O →
  mmo_ops O = other_mmobj_ops ∨ 0 < area_refs s x ∨ referred s x.
Proof using.
  intros Hct HO. pose proof (mw_refs _ (ct_wf _ Hct) _ _ HO) as Hlt.
  rewrite (iw_nres _ _ _ (mw_ident _ (ct_wf _ Hct)) _ _ HO) in Hlt.
  destruct (decide (mmo_ops O = other_mmobj_ops)) as [|Hop]; [by left|]. right.
  destruct (decide (0 < area_refs s x)) as [|Hn]; [by left|]. right.
  unfold area_refs, free_refs in Hn. rewrite HO, decide_False in Hn by done.
  destruct (decide (0 < points_to mmo_shadowed (objs s) x)) as [Hp|Hp].
  - apply points_to_inv in Hp as (y & Y & HY & Hg). exists y, Y. auto.
  - assert (0 < points_to mmo_bottom_obj (objs s) x) as Hp' by lia.
    apply points_to_inv in Hp' as (y & Y & HY & Hg). exists y, Y. auto.
Qed.

Lemma chain_above s o b k : chain s o b k → above s o b.
Proof using. induction 1; [constructor|by econstructor]. Qed.

Lemma above_trans s x y z : above s x y → above s y z → above s x z.
Proof using. induction 1; [done|]. intros. econstructor; eauto. Qed.

(** An object that refers to [x] is higher in a chain through [x]. *)
Lemma referred_above s x b k :
  counted s → chain s x b k → referred s x →
  ∃ y b' k', chain s y b' k' ∧ (k < k')%nat ∧ above s y x.
Proof using.
  intros Hct Hc (y & Y & HY & Hp). destruct (ct_chain _ Hct _ _ HY) as (b' & k' & Hc' & Hf).
  exists y, b', k'. split; [done|]. unfold shadow_fields in Hf.
  inversion Hc' as [? Y1 HY1 Hs|? Y1 sh ? k1 HY1 Hs Hc1]; subst; simplify_eq; rewrite Hs in *.
  - exfalso. destruct Hf as [_ Hf]. destruct Hp; congruence.
  - destruct Hf as [_ Hf]. destruct Hp as [[= <-]|Hb]; simplify_eq.
    + destruct (chain_level _ _ _ _ _ _ Hc Hc1) as [-> ->]. split; [lia|]. econstructor; [done|done|constructor].
    + destruct (chain_level _ _ _ _ _ _ Hc (chain_end _ _ _ _ Hc1)) as [-> ->]. split; [lia|].
      by eapply chain_above.
Qed.

(** No object stays without a reason: it is that of a file, or it is in the chain of an
    object that an area refers to. *)
Definition needed s x : Prop := ∃ y, above s y x ∧
  (0 < area_refs s y ∨ ∃ Y, objs s !! y = Some Y ∧ mmo_ops Y = other_mmobj_ops).

Lemma counted_all_needed s x : counted s → is_Some (objs s !! x) → needed s x.
Proof using.
  intros Hct Hx. assert (∃ b k, chain s x b k) as (b & k & Hc).
  { destruct Hx as [O HO]. destruct (ct_chain _ Hct _ _ HO) as (b & k & Hc & _). eauto. }
  remember (size (objs s) - k)%nat as m eqn:Hm. revert x b k Hx Hc Hm.
  induction m as [m IH] using lt_wf_ind; intros x b k [O HO] Hc Hm.
  destruct (counted_needed s x O Hct HO) as [Hop|[Hr|Hr]].
  - exists x. split; [constructor|]. right. by exists O.
  - exists x. split; [constructor|]. by left.
  - destruct (referred_above s x b k Hct Hc Hr) as (y & b' & k' & Hc' & Hlt & Hab).
    pose proof (chain_size _ _ _ _ Hc').
    destruct (IH (size (objs s) - k')%nat ltac:(lia) y b' k') as (z & Hz & Hw); [|done|done|].
    { inversion Hc'; subst; by eexists. }
    exists z. split; [|done]. by eapply above_trans.
Qed.

(** With no references left there are no objects and no pages. *)
Lemma counted_nothing_left s :
  counted s → (∀ x, area_refs s x = 0) → (∀ x O, objs s !! x = Some O → mmo_ops O ≠ other_mmobj_ops) →
  objs s = ∅ ∧ frames s = ∅.
Proof using.
  intros Hct Hno Hf. assert (objs s = ∅) as Ho.
  { apply map_empty. intros x. destruct (objs s !! x) as [O|] eqn:HO; [|done].
    destruct (counted_all_needed s x Hct) as (y & _ & [Hy|(Y & HY & Hop)]); [by eexists| |].
    - rewrite Hno in Hy. lia.
    - by destruct (Hf y Y HY). }
  split; [done|]. apply map_empty. intros p. destruct (frames s !! p) as [f|] eqn:Hp; [|done].
  destruct (pmem_wf_frame s p f (ct_wf _ Hct) Hp) as (o & O & _ & HO & _). by rewrite Ho, lookup_empty in HO.
Qed.

Lemma sees_kept s s' x n l :
  kept s s' → (∀ y, 0 <= area_refs s' y) → is_Some (objs s' !! x) → sees s x n l → sees s' x n l.
Proof using.
  intros Hk Hpos Hx Hsee. assert (∀ o n, resident s (Some o) n None → resident s' (Some o) n None) as Hres.
  { intros o m Hr q g [Hq _]%(kp_frames _ _ Hk). exact (Hr q g Hq). }
  induction Hsee as [x n p f Hp Hfo Hn|x n O HO Hop Hs Hr|x n O sh l HO Hs Hr Hsee IH].
  - eapply sees_resident; [|done|done]. apply (kp_frames _ _ Hk). eauto.
  - destruct Hx as [O' HO']. destruct (kp_objs _ _ Hk _ _ HO') as (O1 & HO1 & Ho' & Hs' & _). simplify_eq.
    eapply sees_zero; [done|by rewrite Ho'|by rewrite Hs'|by apply Hres].
  - destruct Hx as [O' HO']. destruct (kp_objs _ _ Hk _ _ HO') as (O1 & HO1 & Ho' & Hs' & _). simplify_eq.
    eapply sees_below; [done|by rewrite Hs'|by apply Hres|]. apply IH.
    eapply referred_present; [done|exact HO'|]. left. by rewrite Hs'.
Qed.

Lemma mmo_put_run s o :
  counted s → 0 < area_refs s o → returns (mmo_put o) s (λ _ s', gave_up o s s').
Proof using HL HOP.
  intros Hct Hown. destruct (area_refs_present s o Hown) as [O Ho].
  destruct (ct_chain _ Hct _ _ Ho) as (b & k & Hc & _). pose proof (chain_size _ _ _ _ Hc) as Hk.
  destruct (put_run (size (objs s)) ∅ s o b k) as (s' & Hr & Hg); try done;
    [apply map_disjoint_empty_l|lia|].
  exists tt, s'. split; [|done]. unfold mmo_put. kstep. revert Hr. unfold with_objs.
  rewrite !(right_id_L ∅ (∪)). by destruct s, s'.
Qed.

(** C12: Reference counting gives up exactly what is no longer referred to.  Giving up
    a reference returns, after freeing the object, and the objects below it, that had no
    other: the references of every object are then counted as before, less the one; an
    object is left only if it is that of a file or in the chain of an object that an area
    refers to, and the pages left are those of the objects left; through these the same
    contents are seen as before. *)
Theorem mmo_put_releases s o :
  counted s → 0 < area_refs s o →
  returns (mmo_put o) s (λ _ s', counted s' ∧
    (∀ x, area_refs s' x = area_refs s x - if decide (x = o) then 1 else 0) ∧
    (∀ x, is_Some (objs s' !! x) → needed s' x) ∧
    (∀ p f, frames s' !! p = Some f ↔
       frames s !! p = Some f ∧ ∃ x, pf_obj f = Some x ∧ is_Some (objs s' !! x)) ∧
    ∀ x n l, is_Some (objs s' !! x) → sees s x n l → sees s' x n l).
Proof using HL HOP.
  intros Hct Hown. eapply returns_mono; [by apply mmo_put_run|]. intros [] s' (Hct' & Hk & Hrefs).
  split; [done|]. split; [done|]. split; [intros x; by apply counted_all_needed|]. split; [apply Hk|].
  intros x n l. apply sees_kept; [done|apply Hct'].
Qed.
End release.

(** ** The promise to address spaces *)

Section mm_put_laws.
Context `{HP : PageH, HH : PmemH} {X : Type} `{HX : !PmemExt X, HT : !OtherObj X, HR : !MmRest X}.
Context {HL : ExtLaws} {HRL : MmRestLaws} {HOP : OtherPutLaws}.
Local Abbreviation P := (pmem X).
Implicit Types (o x : positive) (s : P).

(** Objects that changed only references and areas keep the frames in order. *)
Lemma ident_wf_map id h os (g : mmobj → mmobj) :
  (∀ O, mmo_respages (g O) = mmo_respages O ∧ mmo_nrespages (g O) = mmo_nrespages O) →
  ident_wf id h os → ident_wf id h (g <$> os).
Proof.
  intros Hg [Hobj Huniq Hcn Hch Hrn Hnr Hres]. split; try done.
  - intros p y Hy. destruct (Hobj p y Hy) as (o & n & O & -> & Ho). exists o, n, (g O). split; [done|].
    by rewrite lookup_fmap, Ho.
  - intros o O'. rewrite lookup_fmap, fmap_Some. intros (O & Ho & ->). rewrite (proj1 (Hg O)). by eapply Hrn.
  - intros o O'. rewrite lookup_fmap, fmap_Some. intros (O & Ho & ->). destruct (Hg O) as [-> ->]. by eapply Hnr.
  - intros o O' p. rewrite lookup_fmap, fmap_Some. intros (O & Ho & ->). rewrite (proj1 (Hg O)). by eapply Hres.
Qed.

(** The invariant still holds, and nothing but references and areas changed, if
    anything. *)
Definition leaves s s' : Prop := counted s' ∧ kept s s'.

Lemma leaves_kept s s' :
  counted s → kept s s' → pmem_wf s' → (∀ x, 0 <= area_refs s' x) → leaves s s'.
Proof. intros. split; [by apply (counted_kept s)|done]. Qed.

Lemma ref_leaves s o s' : counted s → Pframe.mmo_ref o s = Ret tt s' → leaves s s'.
Proof.
  intros Hct Hr. assert (∃ O, objs s !! o = Some O) as [O Ho].
  { unfold Pframe.mmo_ref in Hr. apply bind_ret_inv in Hr as (O & s1 & HO & _). unfold obj_get in HO.
    destruct (objs s !! o) as [O1|]; [by exists O1|done]. }
  pose proof (ct_wf _ Hct) as [Hi Hpn Hrf]. pose proof (Hrf _ _ Ho). pose proof (iw_nres _ _ _ Hi _ _ Ho).
  destruct (mmo_ref_run s o O Ho) as (e & He & Hre); [lia|]. rewrite Hre in Hr. injection Hr as <-.
  apply leaves_kept; [done| | |].
  - split; simpl; [| |done|intros x O1 HO1 _; rewrite lookup_insert; case_decide; by eexists].
    + intros x O'. rewrite lookup_insert. case_decide; [|by exists O']. intros [= <-]. subst. by exists O.
    + intros p f. split; [|naive_solver]. intros Hp. split; [done|].
      destruct (pmem_wf_frame s p f (ct_wf _ Hct) Hp) as (o' & O' & Hfo & Ho' & _). exists o'. split; [done|].
      rewrite lookup_insert. case_decide; by eexists.
  - split; simpl; [by apply ident_wf_refcount|done|]. intros x O'. rewrite lookup_insert.
    case_decide; [|by apply Hrf]. intros [= <-]. simpl. lia.
  - intros x. pose proof (ct_pos _ Hct x).
    transitivity (area_refs s x + if decide (x = o) then 1 else 0); [case_decide; lia|]. apply Z.eq_le_incl.
    transitivity (area_refs (set_objs (<[o := set_mmo_refcount (mmo_refcount O + 1) O]> (objs s)) s) x); [|done].
    rewrite (area_refs_set s o O) by done. unfold free_refs. simpl. case_decide; lia.
Qed.

Lemma ext_leaves s e : counted s → same_areas (pext s) e → leaves s (set_ext e s).
Proof.
  intros Hct He. apply leaves_kept; [done| |by destruct (ct_wf _ Hct)|exact (ct_pos _ Hct)].
  split; simpl; [by eexists| |done|by eexists]. intros p f. split; [|naive_solver]. intros Hp. split; [done|].
  destruct (pmem_wf_frame s p f (ct_wf _ Hct) Hp) as (o' & O' & Hfo & Ho' & _). eauto.
Qed.

Lemma vmas_remove_leaves s v :
  counted s → leaves s (set_objs ((λ O, set_mmo_vmas (remove v (mmo_vmas O)) O) <$> objs s) s).
Proof.
  intros Hct. pose proof (ct_wf _ Hct) as [Hi Hpn Hrf]. apply leaves_kept; [done| | |].
  - split; simpl; [| |done|intros x O1 HO1 _; rewrite lookup_fmap, HO1; by eexists].
    + intros x O'. rewrite lookup_fmap, fmap_Some. intros (O & Ho & ->). exists O. split; [done|].
      do 3 (split; [done|]). simpl. intros w. rewrite elem_of_remove. naive_solver.
    + intros p f. split; [|naive_solver]. intros Hp. split; [done|].
      destruct (pmem_wf_frame s p f (ct_wf _ Hct) Hp) as (o' & O' & Hfo & Ho' & _). exists o'. split; [done|].
      rewrite lookup_fmap, Ho'. by eexists.
  - split; simpl; [by apply ident_wf_map|done|]. intros x O'. rewrite lookup_fmap, fmap_Some.
    intros (O & Ho & ->). simpl. by eapply Hrf.
  - intros x. destruct (vmas_remove_law s v) as ([] & s' & [= <-] & Hrefs). etrans; [apply (ct_pos _ Hct x)|].
    apply Z.eq_le_incl. symmetry. apply Hrefs.
Qed.

Lemma tlb_flush_all_leaves s s' : counted s → Vmmap.tlb_flush_all s = Ret tt s' → leaves s s'.
Proof.
  intros Hct Hr. destruct (tlb_flush_all_returns (pext s)) as ([] & e & He & Ha).
  unfold Vmmap.tlb_flush_all in Hr. simpl in Hr. rewrite (on_ext_eq _ _ _ _ He) in Hr. injection Hr as <-.
  by apply ext_leaves.
Qed.

Lemma pt_unmap_range_leaves s lo hi s' : counted s → Vmmap.pt_unmap_range lo hi s = Ret tt s' → leaves s s'.
Proof.
  intros Hct Hr. destruct (pt_unmap_range_returns (pext s) lo hi) as ([] & e & He & Ha).
  unfold Vmmap.pt_unmap_range in Hr. simpl in Hr. rewrite (on_ext_eq _ _ _ _ He) in Hr. injection Hr as <-.
  by apply ext_leaves.
Qed.

(** The page cache gives up references as address spaces rely on. *)
#[export] Program Instance pmem_mm_put_laws : MmPutLaws P := {| mm_ok := counted |}.
Next Obligation.
  intros s o Hct Hown. eapply returns_mono; [by apply mmo_put_run|]. by intros [] s' (? & _ & ?).
Qed.
Next Obligation. intros s o s' Hct Hr. by apply (ref_leaves s o). Qed.
Next Obligation. intros s v s' Hct [= <-]. by apply vmas_remove_leaves. Qed.
Next Obligation. intros s s' Hct Hr. by apply (tlb_flush_all_leaves s). Qed.
Next Obligation. intros s lo hi s' Hct Hr. by apply (pt_unmap_range_leaves s lo hi). Qed.

(** All that follows a state [s0] only gives up what was there. *)
Lemma leaves_since s0 s s' : leaves s0 s → (counted s → leaves s s') → leaves s0 s'.
Proof. intros [Hct Hk] Hl. destruct (Hl Hct) as [Hct' Hk']. split; [done|]. by eapply released_trans. Qed.

Program Definition pmem_put_since s0 : MmPutLaws P := {| mm_ok := leaves s0 |}.
Next Obligation.
  intros s0 s o [Hct Hk] Hown. eapply returns_mono; [by apply mmo_put_run|]. intros [] s' (Hct' & Hk' & Hrefs).
  split; [split; [done|by eapply released_trans]|done].
Qed.
Next Obligation. intros s0 s o s' Hl Hr. eapply leaves_since; [done|]. intros. by apply (ref_leaves s o). Qed.
Next Obligation. intros s0 s v s' Hl [= <-]. eapply leaves_since; [done|]. apply vmas_remove_leaves. Qed.
Next Obligation. intros s0 s s' Hl Hr. eapply leaves_since; [done|]. intros. by apply tlb_flush_all_leaves. Qed.
Next Obligation. intros s0 s lo hi s' Hl Hr. eapply leaves_since; [done|]. intros. by apply (pt_unmap_range_leaves s lo hi). Qed.
End mm_put_laws.
