(* ===== verification/PageoutProps.v ===== *)
(** * Properties of the pageout daemon

    Cleaning pages, reclaiming them in the order in which they were last requested, and
    emptying the page cache at shutdown. *)
From S2P Require Import Prelude Headers Vmmap Pframe PframeProps PframeLookup PframePut PframeMm PframeRelease Pageout.
Local Open Scope kernel_scope.

Section props.
Context `{HP : PageH, HH : PmemH} {X : Type} `{HX : !PmemExt X, HT : !OtherObj X}.
Context {HL : ExtLaws}.
Implicit Types (s : pmem X) (p q o : positive) (f : pframe).

(** What a file system promises: it writes a page of a file back without an error and
    without giving up the processor. *)
Class OtherCleanLaws := {
  other_cleanpage_spec s o (O : mmobj) p : objs s !! o = Some O → mmo_ops O = other_mmobj_ops →
    ∃ r e, other_cleanpage o p s = Ret r (set_ext e s) ∧ 0 <= r ∧ same_areas (pext s) e
}.
Context {HOP : OtherPutLaws} {HOC : OtherCleanLaws}.

(** ** Cleaning a page *)

(** An idle page of an object, of a file as a rule: the pages of anonymous and shadow
    objects are pinned from when they are filled. *)
Definition reclaimable s p : Prop := ∃ f o O, frames s !! p = Some f ∧ pf_busy f = false ∧
  pf_obj f = Some o ∧ objs s !! o = Some O ∧ unmappable s o.

(** Only the page [p] was cleaned. *)
Definition cleaned s p f s' : Prop :=
  frames s' = <[p := set_pf_dirty false f]> (frames s) ∧ objs s' = objs s ∧
  alloc_list s' = alloc_list s ∧ nallocated s' = nallocated s ∧ pinned_list s' = pinned_list s ∧
  npinned s' = npinned s ∧ pframe_hash s' = pframe_hash s ∧ same_areas (pext s) (pext s').

Lemma unmappable_same s s' o :
  objs s' = objs s → same_areas (pext s) (pext s') → unmappable s o → unmappable s' o.
Proof.
  intros Ho Hx (vmas & Hv & Hrd). exists vmas. split; [|by eapply readable_same].
  eapply bottom_vmas_same; [|done]. rewrite Ho. eauto 10.
Qed.

Lemma mmo_cleanpage_eq s o O p :
  objs s !! o = Some O →
  ∃ r e, mmo_cleanpage o p s = Ret r (set_ext e s) ∧ 0 <= r ∧ same_areas (pext s) e.
Proof using HOC.
  intros Ho. unfold mmo_cleanpage. rewrite (bind_Ret _ _ _ _ _ (obj_get_eq _ _ _ Ho)).
  destruct (mmo_ops O) eqn:Hop; [..|by eapply other_cleanpage_spec]; exists 0, (pext s); by destruct s.
Qed.

Lemma mmo_put_gives o k : put_gives mmo_put o k.
Proof using HOP.
  destruct (decide (k = other_mmobj_ops)) as [-> |Hk]; [|by apply put_drops_gives; [apply mmo_put_drops|]].
  intros s O Ho Hop Hlt _. destruct (other_put_spec s o O Ho Hop Hlt) as (e & Hr & He). exists e. split; [|done].
  unfold mmo_put. kstep. simpl. by rewrite (bind_Ret _ _ _ _ _ (obj_get_eq _ _ _ Ho)), Hop.
Qed.

Lemma pframe_clean_run s p f :
  frames s !! p = Some f → pf_dirty f = true → pf_pincount f = 0 → reclaimable s p →
  returns (pframe_clean p) s (λ r s', 0 <= r ∧ cleaned s p f s').
Proof.
  intros Hp Hd Hz (g & o & O & Hg & Hb & Hfo & Ho & Hun). simplify_eq. unfold pframe_clean, returns.
  rewrite (bind_Ret _ _ _ _ _ (frame_get_eq _ _ _ Hp)), Hd, Hz. do 2 kstep.
  rewrite (bind_Ret _ _ _ _ _ (frame_upd_eq _ _ _ _ Hp)).
  match goal with |- context [bind (on_ext (tlb_flush _)) _ ?x] => set (s1 := x) end.
  destruct (on_ext_areas (tlb_flush (pf_addr f)) s1 (λ x, tlb_flush_spec x _)) as ([] & x & Ht & Hx).
  rewrite (bind_Ret _ _ _ _ _ Ht).
  destruct (remove_from_pts_run (set_ext x s1) p (set_pf_dirty false f) o) as (x1 & Hr1 & Hx1);
    [apply lookup_insert_eq|done|by apply (unmappable_same s)|].
  rewrite (bind_Ret _ _ _ _ _ Hr1). erewrite bind_Ret; [|apply frame_upd_eq, lookup_insert_eq].
  rewrite Hfo. kstep.
  match goal with |- context [bind (mmo_cleanpage o p) _ ?x] => destruct (mmo_cleanpage_eq x o O p Ho) as (r & x3 & Hr3 & Hr0 & Hx3) end.
  rewrite (bind_Ret _ _ _ _ _ Hr3), (proj2 (Z.ltb_ge _ _)) by done. kstep.
  erewrite bind_Ret; [|apply frame_upd_eq; simpl; rewrite insert_insert_eq; apply lookup_insert_eq].
  match goal with |- context [bind (on_ext (sched_broadcast_on _)) _ ?x] => set (s2 := x) end.
  destruct (on_ext_areas (sched_broadcast_on (QFrame p)) s2 (λ x, broadcast_spec x _)) as ([] & x2 & Hr2 & Hx2).
  rewrite (bind_Ret _ _ _ _ _ Hr2). eexists _, _. split; [done|]. split; [done|].
  split; [|do 6 (split; [done|])].
  - simpl. rewrite !insert_insert_eq. f_equal. unfold set_pf_busy, set_pf_dirty. simpl. by rewrite Hb.
  - simpl. eapply same_areas_trans; [exact Hx|]. eapply same_areas_trans; [exact Hx1|].
    by eapply same_areas_trans.
Qed.

Lemma cleaned_wf s p f s' : pmem_wf s → frames s !! p = Some f → cleaned s p f s' → pmem_wf s'.
Proof.
  intros Hwf Hp (Hf & Ho & Hal & Hna & Hpl & Hnp & Hh & _).
  destruct (frame_change_wf s p f (set_pf_dirty false f) Hwf Hp) as [Hi Hpn Hr]; try done. simpl in *.
  split; [by rewrite Hf, Ho, Hh|by rewrite Hf, Hal, Hna, Hpl, Hnp|by rewrite Ho].
Qed.

Lemma cleaned_reclaimable s p f s' q :
  frames s !! p = Some f → cleaned s p f s' → reclaimable s q → reclaimable s' q.
Proof.
  intros Hp (Hf & Ho & _ & _ & _ & _ & _ & Hx) (g & o & O & Hq & Hb & Hfo & HO & Hun).
  exists (if decide (q = p) then set_pf_dirty false f else g), o, O. rewrite Hf, Ho, lookup_insert.
  assert (unmappable s' o) by (by eapply unmappable_same).
  repeat case_decide; simplify_eq; done.
Qed.

(** ** Freeing a page *)

Lemma pframe_free_head s p f :
  pmem_wf s → frames s !! p = Some f → p ∈ alloc_list s → reclaimable s p →
  returns (pframe_free p) s (λ _ s', pmem_wf s' ∧ frames s' = delete p (frames s) ∧
    alloc_list s' = remove p (alloc_list s) ∧ ∀ q, q ≠ p → reclaimable s q → reclaimable s' q).
Proof.
  intros Hwf Hp Hin (g & o & O & Hg & Hb & Hfo & Ho & Hun). simplify_eq.
  pose proof (alloc_unpinned _ _ _ Hwf Hin Hp) as Hz.
  destruct (pframe_free_any mmo_put s p f o O (mmo_put_gives o _)) as ([] & s1 & Hr & Hfd & Hal); try done;
    [by apply pmem_wf_cache|by eapply mw_refs|].
  pose proof (freed_wf _ _ _ _ _ Hwf Ho Hfd) as Hwf1. destruct Hfd as (_ & Hf1 & Ho1 & Hx1).
  exists tt, s1. split; [done|]. do 3 (split; [done|]).
  intros q Hne (h & o' & O' & Hq & Hqb & Hqo & HO' & Hun').
  exists h, o', (if decide (o' = o) then shrunk p O else O'). rewrite Hf1, Ho1, lookup_delete_ne, lookup_insert by done.
  assert (unmappable s1 o') by (by apply (unmappable_insert s s1 o' o O (shrunk p O))).
  repeat case_decide; simplify_eq; done.
Qed.

(** ** Reclaiming *)

(** The same page, perhaps cleaned. *)
Definition same_page (x y : option pframe) : Prop := (set_pf_dirty false <$> x) = (set_pf_dirty false <$> y).

(** From the front of the list pages were freed until the target was met or none was
    left; the others are as before, perhaps cleaned. *)
Definition reclaimed s s' : Prop :=
  pmem_wf s' ∧ (pageoutd_target_met s' = true ∨ alloc_list s' = []) ∧
  ∃ l, alloc_list s = l ++ alloc_list s' ∧ (∀ p, p ∈ l → frames s' !! p = None) ∧
    ∀ p, p ∉ l → same_page (frames s' !! p) (frames s !! p).

Lemma reclaimed_cleaned s p f s1 s' :
  frames s !! p = Some f → cleaned s p f s1 → reclaimed s1 s' → reclaimed s s'.
Proof.
  intros Hp (Hf & _ & Hal & _) (Hwf & Hend & l & Hl & Hgone & Hsame). split; [done|]. split; [done|].
  exists l. rewrite <- Hal. do 2 (split; [done|]). intros q Hq. etrans; [by apply Hsame|].
  unfold same_page. rewrite Hf, lookup_insert. case_decide; [|done]. subst. by rewrite Hp.
Qed.

Lemma reclaimed_freed s p l s1 s' :
  alloc_list s = p :: l → p ∉ l → frames s1 = delete p (frames s) → alloc_list s1 = l →
  reclaimed s1 s' → reclaimed s s'.
Proof.
  intros Hal Hpl Hf Hal1 (Hwf & Hend & l1 & Hl & Hgone & Hsame). split; [done|]. split; [done|].
  exists (p :: l1). split; [by rewrite Hal, <- Hal1, Hl|]. split.
  - intros q [-> |Hq]%elem_of_cons; [|by apply Hgone]. assert (p ∉ l1) as Hpl1.
    { intros Hin. apply Hpl. rewrite <- Hal1, Hl. set_solver. }
    specialize (Hsame p Hpl1). unfold same_page in Hsame. rewrite Hf, lookup_delete_eq in Hsame.
    by destruct (frames s' !! p).
  - intros q [Hne Hq]%not_elem_of_cons. etrans; [by apply Hsame|]. by rewrite Hf, lookup_delete_ne.
Qed.

Lemma reclaim_stop turns s :
  pmem_wf s → pageoutd_target_met s = true ∨ alloc_list s = [] →
  returns (pageoutd_reclaim turns) s (λ _ s', reclaimed s s').
Proof.
  intros Hwf Hend. exists tt, s. split.
  - destruct turns; simpl; do 2 kstep; destruct Hend as [-> | ->]; by destruct (pageoutd_target_met s).
  - split; [done|]. split; [done|]. exists []. split; [done|]. split; [by intros p ?%elem_of_nil|done].
Qed.

Lemma reclaim_step turns s p l :
  pageoutd_target_met s = false → alloc_list s = p :: l →
  pageoutd_reclaim (S turns) s = (pageoutd_step p ;;; pageoutd_reclaim turns) s.
Proof. intros Hm Hl. simpl. do 2 kstep. by rewrite Hm, Hl. Qed.

(** The head of the list is freed once it is clean, and dealt with in two steps. *)
Section head.
Context (p : positive) (l : list positive).
Context (IH : ∀ s turns, pmem_wf s → (∀ q, q ∈ l → reclaimable s q) → alloc_list s = l →
  (2 * length l <= turns)%nat → returns (pageoutd_reclaim turns) s (λ _ s', reclaimed s s')).
Context s (Hwf : pmem_wf s) (Hrec : ∀ q, q ∈ p :: l → reclaimable s q) (Hal : alloc_list s = p :: l).

Lemma reclaim_clean_head t f :
  frames s !! p = Some f → pf_dirty f = false → (S (2 * length l) <= t)%nat →
  returns (pageoutd_reclaim t) s (λ _ s', reclaimed s s').
Proof using All.
  intros Hp Hd Ht. destruct (pageoutd_target_met s) eqn:Hm; [apply reclaim_stop; auto|].
  pose proof (pw_al_nodup _ _ _ _ _ (mw_pins _ Hwf)) as Hnd. rewrite Hal in Hnd.
  pose proof Hnd as [Hpl _]%NoDup_cons.
  destruct t as [|t]; [lia|]. unfold returns. rewrite (reclaim_step t s p l Hm Hal).
  destruct (pframe_free_head s p f) as ([] & s1 & Hr & Hwf1 & Hf1 & Hal1 & Hk1); try done;
    [rewrite Hal; left|apply Hrec; left|].
  assert (alloc_list s1 = l) as Hl1 by (rewrite Hal1, Hal; by apply (filter_ne_middle [] l p)).
  destruct (IH s1 t) as ([] & s2 & Hr2 & Hrd); [done| |done|lia|].
  { intros q Hq. apply Hk1; [set_solver|]. apply Hrec. by right. }
  exists tt, s2. split; [|by eapply reclaimed_freed].
  erewrite bind_Ret; [exact Hr2|]. unfold pageoutd_step. rewrite (bind_Ret _ _ _ _ _ (frame_get_eq _ _ _ Hp)), Hd.
  destruct (Hrec p) as (g & ? & ? & ? & Hb & _); [left|]. simplify_eq. by rewrite Hb.
Qed.
End head.

Lemma reclaim_run l : ∀ s turns,
  pmem_wf s → (∀ p, p ∈ l → reclaimable s p) → alloc_list s = l → (2 * length l <= turns)%nat →
  returns (pageoutd_reclaim turns) s (λ _ s', reclaimed s s').
Proof.
  induction l as [|p l IH]; intros s turns Hwf Hrec Hal Ht; [apply reclaim_stop; auto|]. simpl in Ht.
  destruct (Hrec p) as (f & o & O & Hp & Hb & _); [left|].
  destruct (pf_dirty f) eqn:Hd; [|by eapply (reclaim_clean_head p l IH); try done; lia].
  destruct (pageoutd_target_met s) eqn:Hm; [apply reclaim_stop; auto|].
  destruct turns as [|turns]; [lia|]. unfold returns. rewrite (reclaim_step turns s p l Hm Hal).
  assert (pf_pincount f = 0) as Hz by (eapply alloc_unpinned; [done|rewrite Hal; left|done]).
  destruct (pframe_clean_run s p f) as (r & s1 & Hr & _ & Hc); try done; [apply Hrec; left|].
  pose proof Hc as (Hf1 & _ & Hal1 & _).
  destruct (reclaim_clean_head p l IH s1) with (t := turns) (f := set_pf_dirty false f) as ([] & s2 & Hr2 & Hrd).
  { by eapply cleaned_wf. }
  { intros q Hq. eapply cleaned_reclaimable; [done|done|]. by apply Hrec. }
  { congruence. }
  { rewrite Hf1. apply lookup_insert_eq. }
  { done. }
  { lia. }
  exists tt, s2. split; [|by eapply reclaimed_cleaned].
  erewrite bind_Ret; [exact Hr2|]. unfold pageoutd_step. rewrite (bind_Ret _ _ _ _ _ (frame_get_eq _ _ _ Hp)), Hb, Hd.
  by rewrite (bind_Ret _ _ _ _ _ Hr).
Qed.

(** C20: The pageout daemon makes room and stops: if the pages that are not pinned are
    idle, whatever object they belong to, and the file systems write their dirty pages
    back without an error and without giving up the processor, its loop returns within
    twice as many steps as there are pages on the list, once enough memory is free or no
    page is left.  It frees pages in the order of the list, the least recently requested
    first, and of the other pages changes at most that they are clean; the page cache
    stays consistent. *)
Theorem pageoutd_reclaim_makes_room s turns :
  pmem_wf s → (∀ p, p ∈ alloc_list s → reclaimable s p) → (2 * length (alloc_list s) <= turns)%nat →
  returns (pageoutd_reclaim turns) s (λ _ s', pmem_wf s' ∧
    (pageoutd_target_met s' = true ∨ alloc_list s' = []) ∧
    ∃ l, alloc_list s = l ++ alloc_list s' ∧ (∀ p, p ∈ l → frames s' !! p = None) ∧
      ∀ p, p ∉ l → same_page (frames s' !! p) (frames s !! p)).
Proof. intros Hwf Hrec Ht. by apply (reclaim_run (alloc_list s)). Qed.

(** ** Cleaning all pages *)

Definition is_dirty s p : Prop := ∃ f, frames s !! p = Some f ∧ pf_dirty f = true.
#[local] Instance is_dirty_dec s p : Decision (is_dirty s p).
Proof.
  destruct (frames s !! p) as [f|] eqn:Hp; [destruct (pf_dirty f) eqn:Hd|].
  - left. by exists f.
  - right. intros (g & Hg & ?). congruence.
  - right. intros (g & Hg & ?). congruence.
Defined.

Lemma clean_walk_run s l :
  pmem_wf s → (∀ p, p ∈ l → p ∈ alloc_list s ∧ reclaimable s p) →
  (clean_walk l s = Ret false s ∧ ∀ p, p ∈ l → ¬ is_dirty s p) ∨
  ∃ p f s', clean_walk l s = Ret true s' ∧ p ∈ l ∧ frames s !! p = Some f ∧ pf_dirty f = true ∧ cleaned s p f s'.
Proof.
  intros Hwf. induction l as [|p l IH]; intros Hrec.
  { left. split; [done|]. by intros p ?%elem_of_nil. }
  destruct (Hrec p) as [Hin Hr]; [left|]. pose proof Hr as (f & o & O & Hp & Hb & Hfo & _).
  pose proof (alloc_unpinned _ _ _ Hwf Hin Hp) as Hz. simpl.
  rewrite (bind_Ret _ _ _ _ _ (frame_get_eq _ _ _ Hp)).
  rewrite (bind_Ret _ _ _ tt s) by (unfold pframe_is_pinned; by rewrite Hz).
  rewrite (bind_Ret _ _ _ tt s) by (unfold pframe_is_free; by rewrite Hfo). rewrite Hb.
  destruct (pf_dirty f) eqn:Hd.
  - right. destruct (pframe_clean_run s p f) as (r & s1 & Hr1 & _ & Hc); try done. exists p, f, s1.
    split; [by rewrite (bind_Ret _ _ _ _ _ Hr1)|]. split; [left|done].
  - destruct IH as [[Hw Hno]|(q & g & s1 & Hw & Hq & Hrest)]; [intros q Hq; apply Hrec; by right| |].
    + left. split; [done|]. intros q [-> |Hq]%elem_of_cons; [|by apply Hno]. intros (g & Hg & Hdg). congruence.
    + right. exists q, g, s1. split; [done|]. split; [by right|done].
Qed.

(** All pages on the list are clean, and nothing else has changed. *)
Definition all_clean s s' : Prop :=
  pmem_wf s' ∧ alloc_list s' = alloc_list s ∧ npinned s' = npinned s ∧ same_areas (pext s) (pext s') ∧
  (∀ p, p ∈ alloc_list s' → reclaimable s' p ∧ ¬ is_dirty s' p) ∧
  ∀ p, same_page (frames s' !! p) (frames s !! p).

Lemma clean_all_run turns : ∀ s,
  pmem_wf s → (∀ p, p ∈ alloc_list s → reclaimable s p) →
  (length (filter (is_dirty s) (alloc_list s)) <= turns)%nat →
  returns (clean_all_loop turns) s (λ _ s', all_clean s s').
Proof.
  induction turns as [|turns IH]; intros s Hwf Hrec Hn;
    destruct (clean_walk_run s (alloc_list s)) as [[Hw Hno]|(p & f & s1 & Hw & Hin & Hp & Hd & Hc)]; try done;
    try (intros p Hp; split; [done|by apply Hrec]).
  1, 3: exists tt, s; split; [simpl; kstep; by rewrite (bind_Ret _ _ _ _ _ Hw)|];
    split; [done|]; do 3 (split; [done|]); split; [|done]; intros p Hp; split; [by apply Hrec|by apply Hno].
  - exfalso. assert (p ∈ filter (is_dirty s) (alloc_list s)) as Hf by (apply list_elem_of_filter; split; [by exists f|done]).
    destruct (filter (is_dirty s) (alloc_list s)); [by apply elem_of_nil in Hf|simpl in Hn; lia].
  - pose proof Hc as (Hf1 & _ & Hal1 & _ & _ & Hnp1 & _ & Hx1).
    destruct (IH s1) as ([] & s2 & Hr2 & Hwf2 & Hal2 & Hnp2 & Hx2 & Hcl2 & Hsp2).
    + by eapply cleaned_wf.
    + rewrite Hal1. intros q Hq. eapply cleaned_reclaimable; [done|done|]. by apply Hrec.
    + rewrite Hal1. enough (length (filter (is_dirty s1) (alloc_list s)) < length (filter (is_dirty s) (alloc_list s)))%nat by lia.
      apply (filter_length_lt _ _ _ p); [|done|by exists f|].
      * intros q (g & Hg & Hdg). rewrite Hf1, lookup_insert in Hg. case_decide; [|by exists g]. by simplify_eq.
      * intros (g & Hg & Hdg). rewrite Hf1, lookup_insert_eq in Hg. by simplify_eq.
    + exists tt, s2. split; [simpl; kstep; by rewrite (bind_Ret _ _ _ _ _ Hw)|].
      split; [done|]. split; [congruence|]. split; [congruence|]. split; [by eapply same_areas_trans|].
      split; [done|]. intros q. etrans; [by apply Hsp2|]. unfold same_page. rewrite Hf1, lookup_insert.
      case_decide; [|done]. subst. by rewrite Hp.
Qed.

(** [pframe_clean_all] returns with every page that is not pinned clean. *)
Lemma pframe_clean_all_run s :
  pmem_wf s → (∀ p, p ∈ alloc_list s → reclaimable s p) →
  returns pframe_clean_all s (λ _ s', all_clean s s').
Proof.
  intros Hwf Hrec. unfold pframe_clean_all, returns. kstep. apply clean_all_run; [done|done|].
  pose proof (filter_length_le (is_dirty s) (alloc_list s)). lia.
Qed.

(** ** Freeing all pages *)

Lemma free_all_run l : ∀ s,
  pmem_wf s → alloc_list s = l → (∀ p, p ∈ l → reclaimable s p ∧ ¬ is_dirty s p) →
  returns (free_all l) s (λ _ s', pmem_wf s' ∧ alloc_list s' = [] ∧
    ∀ p, frames s' !! p = if decide (p ∈ l) then None else frames s !! p).
Proof.
  induction l as [|p l IH]; intros s Hwf Hal Hrec.
  { exists tt, s. do 3 (split; [done|]). intros p. by rewrite decide_False by set_solver. }
  pose proof (pw_al_nodup _ _ _ _ _ (mw_pins _ Hwf)) as Hnd. rewrite Hal in Hnd. pose proof Hnd as [Hpl _]%NoDup_cons.
  destruct (Hrec p) as [Hr Hnd']; [left|]. pose proof Hr as (f & o & O & Hp & Hb & _).
  assert (p ∈ alloc_list s) as Hin by (rewrite Hal; left). pose proof (alloc_unpinned _ _ _ Hwf Hin Hp) as Hz.
  assert (pf_dirty f = false) as Hd by (destruct (pf_dirty f) eqn:Hd; [|done]; destruct Hnd'; by exists f).
  destruct (pframe_free_head s p f) as ([] & s1 & Hr1 & Hwf1 & Hf1 & Hal1 & Hk1); try done.
  destruct (IH s1) as ([] & s2 & Hr2 & Hwf2 & Hal2 & Hf2); [done| | |].
  { rewrite Hal1, Hal. by apply (filter_ne_middle [] l p). }
  { intros q Hq. assert (q ≠ p) by set_solver. destruct (Hrec q) as [Hrq Hdq]; [by right|].
    split; [by apply Hk1|]. intros (g & Hg & ?). apply Hdq. exists g. by rewrite Hf1, lookup_delete_ne in Hg. }
  exists tt, s2. split.
  - simpl. rewrite (bind_Ret _ _ _ _ _ (frame_get_eq _ _ _ Hp)), Hd, Hb. do 2 kstep.
    rewrite (bind_Ret _ _ _ tt s) by (unfold pframe_is_pinned; by rewrite Hz). by rewrite (bind_Ret _ _ _ _ _ Hr1).
  - do 2 (split; [done|]). intros q. rewrite Hf2, Hf1, lookup_delete. repeat case_decide; try done; set_solver.
Qed.
End props.

(** ** Starting up *)

Section startup.
Context `{HP : PageH, HH : PmemH} {X : Type} `{HX : !PmemExt X, HT : !OtherObj X}.
Context {HL : ExtLaws}.

(** Before there are objects and frames, [pframe_init] makes a consistent page cache,
    whatever was in its lists, counts and hash table. *)
Lemma pframe_init_wf (s : pmem X) :
  frames s = ∅ → objs s = ∅ → returns pframe_allocator_create (pext s) (λ r _, is_Some r) →
  returns pframe_init s (λ _ s', pmem_wf s' ∧ frames s' = ∅ ∧ objs s' = ∅ ∧ nfreepages_min s' = 0).
Proof.
  intros Hf Ho (r & x & Hr & [a ->]). unfold pframe_init, returns. kstep.
  erewrite bind_Ret; [|apply on_ext_eq; simpl; exact Hr]. do 2 kstep.
  match goal with |- context [on_ext (waitq_init QAlloc) ?y] => set (s1 := y) end.
  destruct (on_ext_spec (waitq_init QAlloc) s1 (λ x, waitq_init_spec x _)) as ([] & x2 & Hw & _).
  exists tt, (set_ext x2 s1). split; [done|]. split; [|done]. split; simpl; rewrite ?Hf, ?Ho.
  - split; try done; try (intros; apply NoDup_nil_2).
    intros i p. split; [by intros ?%elem_of_nil|by intros (y & Hy & _)].
  - split; try done; try apply NoDup_nil_2; intros p; (split; [by intros ?%elem_of_nil|]); naive_solver.
  - by intros o O.
Qed.
End startup.

(** ** Shutting down *)

Section shutdown.
Context `{HP : PageH, HLM : LimitsH, HH : PmemH} {X : Type}.
Context `{HX : !PmemExt X, HT : !OtherObj X, HQ : !PageoutOps X}.
Context {HL : ExtLaws} {HOP : OtherPutLaws} {HOC : OtherCleanLaws}.
Implicit Types (s : pageout X) (p q : positive) (x : X).

(** What proc.c promises of the daemon [p] and its thread [t]: it can be cancelled, and
    then it is the child that [do_waitpid] finds. *)
Definition daemon_exits x p t : Prop :=
  returns (kthread_cancel t 0) x (λ _ x1, same_areas x x1 ∧
    returns wait_any_child x1 (λ pid x2, pid = p_pid x1 p ∧ same_areas x1 x2)).

Lemma on_mem_run {A} (m : M (pmem X) A) s a y :
  m (po_mem s) = Ret a y → on_mem m s = Ret a (Pageout y (pageoutd s) (pageoutd_thr s)).
Proof. intros Hm. unfold on_mem, zoom. by rewrite Hm. Qed.

Lemma none_pinned (y : pmem X) q f :
  pmem_wf y → npinned y = 0 → frames y !! q = Some f → q ∈ alloc_list y.
Proof.
  intros Hwf Hnp Hq. pose proof (mw_pins _ Hwf) as Hpn. apply (pw_al _ _ _ _ _ Hpn). rewrite (pins_lookup _ _ _ Hq).
  destruct (pmem_wf_frame _ _ _ Hwf Hq) as (_ & _ & _ & _ & Hpos). f_equal.
  destruct (decide (0 < pf_pincount f)) as [Hlt|]; [exfalso|lia].
  assert (q ∈ pinned_list y) as Hin
    by (apply (pw_pl _ _ _ _ _ Hpn); exists (pf_pincount f); by rewrite (pins_lookup _ _ _ Hq)).
  pose proof (pw_np _ _ _ _ _ Hpn) as Hn. destruct (pinned_list y); [by apply elem_of_nil in Hin|simpl in Hn; lia].
Qed.

Lemma reclaimable_ext (y : pmem X) x p : same_areas (pext y) x → reclaimable y p → reclaimable (set_ext x y) p.
Proof.
  intros Hx (f & o & O & Hp & Hb & Hfo & Ho & Hun). exists f, o, O. do 4 (split; [done|]).
  by apply (unmappable_same y).
Qed.

(** Shutting down empties the page cache.  Called by the idle process once nothing is
    pinned and the pages are idle, with a daemon that goes away when it is cancelled,
    [pframe_shutdown] writes back and frees every page, and returns with a consistent
    page cache without pages. *)
Theorem pframe_shutdown_empties s p t :
  pmem_wf (po_mem s) → npinned (po_mem s) = 0 → (∀ q, q ∈ alloc_list (po_mem s) → reclaimable (po_mem s) q) →
  cur_pid (pext (po_mem s)) = Some PID_IDLE → pageoutd s = Some p → pageoutd_thr s = Some t →
  daemon_exits (pext (po_mem s)) p t →
  returns pframe_shutdown s (λ _ s', pmem_wf (po_mem s') ∧ frames (po_mem s') = ∅ ∧ nallocated (po_mem s') = 0 ∧
    pageoutd_thr s' = None).
Proof.
  intros Hwf Hnp Hrec Hcur Hpd Hthr ([] & x1 & Hr1 & Hx1 & pid & x2 & Hr2 & -> & Hx2).
  set (m2 := set_ext x2 (po_mem s)).
  assert (pmem_wf m2) as Hwf2 by (by destruct Hwf).
  assert (∀ q, q ∈ alloc_list m2 → reclaimable m2 q) as Hrec2.
  { intros q Hq. apply (reclaimable_ext (po_mem s)); [by eapply same_areas_trans|by apply Hrec]. }
  destruct (pframe_clean_all_run m2 Hwf2 Hrec2) as ([] & m3 & Hr3 & Hwf3 & Hal3 & Hnp3 & _ & Hcl3 & Hsp3).
  destruct (free_all_run (alloc_list m3) m3) as ([] & m4 & Hr4 & Hwf4 & Hal4 & Hf4); [done|done|done|].
  exists tt, (Pageout m4 (Some p) None). split.
  - unfold pframe_shutdown. rewrite (bind_Ret _ _ _ PID_IDLE s) by (by rewrite Hcur).
    rewrite (bind_Ret _ _ _ tt s) by (apply kassert_true; apply Z.eqb_refl).
    erewrite bind_Ret.
    2: { unfold pageoutd_exit. rewrite (bind_Ret _ _ _ t s) by (by rewrite Hthr).
         erewrite bind_Ret; [done|]. apply on_mem_run. by apply on_ext_eq. }
    erewrite bind_Ret; [|simpl; by rewrite Hpd]. kstep.
    erewrite bind_Ret; [|apply on_mem_run; apply on_ext_eq; simpl; exact Hr2].
    rewrite (bind_Ret _ _ _ tt _) by (apply kassert_true; apply Z.eqb_refl). kstep.
    rewrite (bind_Ret _ _ _ tt _) by (apply kassert_true; simpl; by rewrite Hnp).
    erewrite bind_Ret; [|apply on_mem_run; simpl; exact Hr3]. kstep.
    erewrite on_mem_run; [|simpl; exact Hr4]. simpl. by rewrite ?Hpd.
  - simpl. split; [done|]. split; [|split; [|done]].
    + apply map_empty. intros q. rewrite Hf4. case_decide as Hq; [done|].
      destruct (frames m3 !! q) as [f|] eqn:Hq3; [|done]. destruct Hq. eapply none_pinned; [done| |done].
      by rewrite Hnp3.
    + by rewrite (pw_na _ _ _ _ _ (mw_pins _ Hwf4)), Hal4.
Qed.
End shutdown.
