(* ===== verification/PframePages.v ===== *)
(** * The pages of memory objects, as address spaces use them

    The laws [MmPages] on reading and writing pages, which the theorems on
    [vmmap_read] and [vmmap_write] rest on, proved of the page cache: looking a page
    up gives a frame with what is seen through the object, and a store to the frame of
    a page shows in that page and in the pages of the shadow objects above it only. *)
From S2P Require Import Prelude Headers Vmmap VmmapProps VmmapBytes Pframe PframeProps.
From S2P Require Import PframeLookup PframeShadow PframeCow PframeMm.
Local Open Scope kernel_scope.

Section pages.
Context `{HP : PageH, HH : PmemH} {X : Type} `{HX : !PmemExt X, HT : !OtherObj X, HR : !MmRest X}.
Context {HL : ExtLaws}.
Local Abbreviation P := (pmem X).
Implicit Types (p q o b : positive) (s : P) (f : pframe) (n : Z).

(** ** What is seen, computed *)

Fixpoint content_of (fuel : nat) s o n : list Z :=
  match find_frame s (Some o) n ≫= λ p, frames s !! p with
  | Some f => pf_data f
  | None =>
      match obj_below s o, fuel with
      | Some sh, S fuel => content_of fuel s sh n
      | _, _ => zero_page
      end
  end.

(** A consistent page cache where every frame holds a whole page and nobody is
    filling or writing one. *)
Record mem_ok s : Prop := MemOk {
  mk_wf : pmem_wf s;
  mk_frame p f : frames s !! p = Some f → length (pf_data f) = Z.to_nat PAGE_SIZE ∧ pf_busy f = false
}.

(** An anonymous object, or a shadow object over one. *)
Definition plain s o : Prop :=
  ∃ O, objs s !! o = Some O ∧ mmo_ops O = anon_mmobj_ops ∧ mmo_shadowed O = None.
Definition usable s o : Prop := plain s o ∨ ∃ b k, shadows s o b k.

Lemma usable_chain s o : usable s o → ∃ b k, chain s o b k ∧ plain s b.
Proof.
  intros [(O & Ho & Hop & Hs)|(b & k & [_ Hc Hb])].
  - exists o, 0%nat. split; [by econstructor|]. by exists O.
  - by exists b, (S k).
Qed.

Lemma content_sees s o n b k fuel :
  chain s o b k → plain s b → (k <= fuel)%nat → sees s o n (content_of fuel s o n).
Proof.
  intros Hc Hb. revert fuel. induction Hc as [o O Ho Hs|o O sh b k Ho Hs Hc IH]; intros fuel Hf;
    pose proof (find_frame_resident s (Some o) n) as Hr;
    (destruct fuel as [|fuel]; [try lia|]); simpl;
    (destruct (find_frame s (Some o) n) as [p|]; simpl;
      [destruct Hr as (f & Hp & Hfo & Hfn); rewrite Hp; by eapply sees_resident|]);
    unfold obj_below; rewrite Ho; simpl; rewrite Hs.
  - destruct Hb as (O' & Ho' & Hop & _). simplify_eq. by eapply sees_zero.
  - destruct Hb as (O' & Ho' & Hop & _). simplify_eq. by eapply sees_zero.
  - eapply sees_below; [done|done|done|]. apply IH; [done|lia].
Qed.

Definition page_content s (x : positive * Z) : list Z := content_of (size (objs s)) s x.1 x.2.

Lemma page_content_sees s o n : usable s o → sees s o n (page_content s (o, n)).
Proof.
  intros (b & k & Hc & Hb)%usable_chain. eapply content_sees; [done|done|].
  apply chain_size in Hc. lia.
Qed.

Lemma page_content_eq s o n d : pmem_wf s → usable s o → sees s o n d → page_content s (o, n) = d.
Proof. intros Hwf Hu Hd. eapply sees_unique; [done| |done]. by apply page_content_sees. Qed.

Lemma sees_length s o n d : mem_ok s → sees s o n d → length d = Z.to_nat PAGE_SIZE.
Proof.
  intros Hok. induction 1 as [o n p f Hf|o n O Ho Ha Hs Hr|o n O sh d Ho Hs Hr Hd IH].
  - by eapply mk_frame.
  - apply length_replicate.
  - done.
Qed.

(** ** States that grow *)

Lemma usable_grows D E s s' o : grows D E s s' → usable s o → usable s' o.
Proof.
  intros Hg [(O & Ho & Hop & Hs)|(b & k & Hsh)].
  - left. destruct (grows_obj _ _ _ _ _ _ Hg Ho) as (O' & ? & ? & ? & _). exists O'. split_and!; congruence.
  - right. exists b, k. by eapply shadows_grows.
Qed.

Lemma mem_ok_grows D s s' : mem_ok s → pmem_wf s' → grows D ∅ s s' → mem_ok s'.
Proof.
  intros Hok Hwf Hg. split; [done|]. intros p f Hf. destruct (frames s !! p) as [g|] eqn:Hp.
  - rewrite (gr_old _ _ _ _ Hg p g ltac:(set_solver) Hp) in Hf. simplify_eq. by apply (mk_frame s Hok p).
  - destruct (gr_new _ _ _ _ Hg p f ltac:(set_solver) Hf Hp) as (Hb & o & n & _ & _ & _ & Hs).
    split; [by eapply sees_length|done].
Qed.

Lemma above_iff_grows D E s s' x o : grows D E s s' → above s' x o ↔ above s x o.
Proof.
  intros Hg. split; [by eapply above_grows|]. induction 1 as [o|x O sh o Hx Hs Ha IH]; [constructor|].
  destruct (grows_obj _ _ _ _ _ _ Hg Hx) as (O' & HO & _ & Hsh & _).
  eapply above_step; [done| |done]. congruence.
Qed.

(** A page can be had if the page cache is in order and its object is usable. *)
Definition page_ok s (x : positive * Z) : Prop := mem_ok s ∧ usable s x.1.
Definition page_alias s (x y : positive * Z) : Prop := x.2 = y.2 ∧ above s y.1 x.1.
(** [p] is the frame of the very page [x]. *)
Definition holds s p (x : positive * Z) : Prop := mem_ok s ∧ usable s x.1 ∧
  ∃ f, frames s !! p = Some f ∧ pf_obj f = Some x.1 ∧ pf_pagenum f = x.2.

Lemma grows_kept D s s' :
  pmem_wf s' → grows D ∅ s s' → ∀ x, page_ok s x → page_ok s' x ∧ page_content s' x = page_content s x.
Proof.
  intros Hwf Hg [o n] [Hok Hu]. simpl in *.
  assert (usable s' o) as Hu' by (by eapply usable_grows).
  split; [split; [by eapply mem_ok_grows|done]|]. apply page_content_eq; [done|done|].
  eapply grows_sees; [apply Hok|done|by apply page_content_sees].
Qed.

Lemma grows_alias D E s s' x y : grows D E s s' → page_alias s' x y ↔ page_alias s x y.
Proof. intros Hg. unfold page_alias. by rewrite above_iff_grows. Qed.

Lemma mem_ok_idle s n : mem_ok s → page_idle s n.
Proof. intros Hok p f Hf _. by eapply mk_frame. Qed.

(** ** Looking pages up *)

Section lookup.
Context (Hmem : memory_available).

Lemma lookup_read_law s o n : page_ok s (o, n) →
  returns (pframe_lookup (Some o) n false) s (λ r s', ∃ p f, r = (0, Some p) ∧
    frames s' !! p = Some f ∧ pf_data f = page_content s (o, n) ∧ pmem_wf s' ∧ grows (λ _, True) ∅ s s').
Proof using HL Hmem.
  intros [Hok Hu]. simpl in Hu. unfold pframe_lookup, returns. do 2 kstep.
  assert (∀ D s', grows D ∅ s s' → grows (λ _, True) ∅ s s') as Hmono.
  { intros D s' [H1 H2 H3]. split; [done| |done]. intros p f Hp Hf Hn.
    destruct (H2 p f Hp Hf Hn) as (? & o' & n' & ? & ? & _ & ?). split; [done|]. by exists o', n'. }
  pose proof Hu as [(O & Ho & Hop & Hs)|(b & k & Hsh)].
  - destruct (lookup_nested_anon (size (objs s)) s o O n false (λ _, True))
      as (r & s' & Hr & p & f & -> & Hf & Hfo & Hfn & Hfb & Hse & Hwf' & Hg); try done; [apply Hok| |].
    { intros q g Hq _ _. by eapply mk_frame. }
    eexists _, _. split; [done|]. exists p, f. do 2 (split; [done|]). split; [|done].
    symmetry. apply page_content_eq; [apply Hok|done|done].
  - pose proof Hsh as [(O & Ho & Hop & _) _ _]. destruct (shadows_fuel _ _ _ _ Hsh) as [m ->].
    rewrite (lookup_nested_shadow _ _ _ _ _ _ Ho Hop).
    destruct (shadow_read_spec (lookup_nested (S m)) b n) with s o k
      as (r & s' & Hr & p & f & -> & Hf & Hfn & Hfb & Hse & Hwf' & Hg); try done.
    { intros s1 B Hwf1 HB HBop HBs Hid. by eapply lookup_nested_anon. }
    { apply Hok. }
    { by apply mem_ok_idle. }
    eexists _, _. split; [done|]. exists p, f. do 2 (split; [done|]).
    split; [symmetry; apply page_content_eq; [apply Hok|done|done]|]. split; [done|by eapply Hmono].
Qed.

Lemma lookup_write_law s o n : page_ok s (o, n) →
  returns (pframe_lookup (Some o) n true) s (λ r s', ∃ p D, r = (0, Some p) ∧
    holds s' p (o, n) ∧ pmem_wf s' ∧ grows D ∅ s s').
Proof using HL Hmem.
  intros [Hok Hu]. simpl in Hu. unfold pframe_lookup, returns. do 2 kstep.
  assert (∃ D, returns (lookup_nested (S (size (objs s))) o n true) s (got D s o n)) as (D & r & s' & Hr & Hgot).
  { pose proof Hu as [(O & Ho & Hop & Hs)|(b & k & Hsh)].
    - exists (λ _, True). apply (lookup_nested_anon (size (objs s)) s o O n true); try done; [apply Hok|].
      intros q g Hq _ _. by eapply mk_frame.
    - exists (λ x, x = o ∨ x = b). pose proof Hsh as [(O & Ho & Hop & _) _ _].
      destruct (shadows_fuel _ _ _ _ Hsh) as [m ->]. unfold returns.
      rewrite (lookup_nested_shadow _ _ _ _ _ _ Ho Hop).
      apply (shadow_write_spec (lookup_nested (S m)) b n) with k; try done; [|apply Hok|by apply mem_ok_idle].
      intros s1 B Hwf1 HB HBop HBs Hid. by eapply lookup_nested_anon. }
  destruct Hgot as (p & f & -> & Hf & Hfo & Hfn & Hfb & Hse & Hwf' & Hg).
  eexists _, _. split; [done|]. exists p, D. split; [done|]. split; [|done].
  split; [by eapply mem_ok_grows|]. split; [by eapply usable_grows|]. by exists f.
Qed.
End lookup.

(** ** Storing into a page *)

Lemma stored_insert s p f d :
  frames s !! p = Some f → stored p d s = set_frames (<[p := set_pf_data d f]> (frames s)) s.
Proof. intros Hp. unfold stored. by erewrite alter_lookup_insert. Qed.

(** A frame changes in neither identity nor pins, and still holds a whole page. *)
Lemma mem_ok_frame s s' p f g :
  mem_ok s → pmem_wf s' → frames s !! p = Some f → frames s' = <[p := g]> (frames s) →
  length (pf_data g) = Z.to_nat PAGE_SIZE → pf_busy g = false → mem_ok s'.
Proof.
  intros Hok Hwf Hp Hfs Hlen Hb. split; [done|]. intros q h. rewrite Hfs, lookup_insert.
  case_decide; [by intros [= <-]|]. by apply mk_frame.
Qed.

Lemma usable_objs s s' o : objs s' = objs s → usable s o → usable s' o.
Proof.
  intros Ho. unfold usable, plain. rewrite Ho. intros [?|(b & k & [H1 H2 H3])]; [by left|].
  right. exists b, k. split; rewrite ?Ho; [done| |done]. by eapply chain_order.
Qed.

Lemma above_objs s s' x o : objs s' = objs s → above s' x o ↔ above s x o.
Proof. intros Ho. split; (induction 1; [constructor|eapply above_step; [|done|done]]); congruence. Qed.

Lemma page_alias_objs s s' x y : objs s' = objs s → page_alias s' x y ↔ page_alias s x y.
Proof. intros Ho. unfold page_alias. by rewrite above_objs. Qed.

Lemma holds_content s p x : holds s p x → ∃ f, frames s !! p = Some f ∧ pf_obj f = Some x.1 ∧
  pf_pagenum f = x.2 ∧ pf_data f = page_content s x.
Proof.
  destruct x as [o n]. intros (Hok & Hu & f & Hf & Hfo & Hfn). exists f. do 3 (split; [done|]).
  symmetry. apply page_content_eq; [apply Hok|done|]. by eapply sees_resident.
Qed.

Lemma splice_length off bs l :
  (Z.to_nat off + length bs <= length l)%nat → length (splice off bs l) = length l.
Proof. intros Hl. unfold splice. rewrite !length_app, length_take, length_drop. lia. Qed.

Lemma store_law s p x d :
  holds s p x → length d = Z.to_nat PAGE_SIZE → let s' := stored p d s in
  holds s' p x ∧ page_content s' x = d ∧ (∀ y, page_ok s y → page_ok s' y) ∧
  (∀ y, page_ok s y → y ≠ x → ¬ page_alias s x y → page_content s' y = page_content s y) ∧
  ∀ y z, page_alias s' y z ↔ page_alias s y z.
Proof.
  destruct x as [o n]. intros (Hok & Hu & f & Hf & Hfo & Hfn) Hd s'. simpl in *.
  assert (s' = set_frames (<[p := set_pf_data d f]> (frames s)) s) as Hs' by (by apply stored_insert).
  assert (pmem_wf s') as Hwf' by (rewrite Hs'; eapply frame_change_wf; [apply Hok|done..]).
  assert (mem_ok s') as Hok'.
  { eapply (mem_ok_frame s s' p f (set_pf_data d f)); [done|done|done|by rewrite Hs'|done|].
    by apply (mk_frame s Hok p f Hf). }
  assert (∀ y, usable s y → usable s' y) as Hus by (intros y; by apply usable_objs).
  split; [|split; [|split; [|split]]].
  - split; [done|]. split; [by apply Hus|]. exists (set_pf_data d f).
    split; [rewrite Hs'; apply lookup_insert_eq|done].
  - apply page_content_eq; [done|by apply Hus|]. by eapply stored_seen.
  - intros [y m] [_ Hy]. split; [done|by apply Hus].
  - intros [y m] [_ Hy] Hne Hna. simpl in *. apply page_content_eq; [done|by apply Hus|].
    eapply stored_isolated; [done|done|done| |by apply page_content_sees].
    destruct (decide (m = n)) as [-> |Hmn]; [right|by left]. intros Hab. by apply Hna.
  - intros y z. by apply page_alias_objs.
Qed.

Lemma usable_not_other s o : usable s o → ∃ O, objs s !! o = Some O ∧ mmo_ops O ≠ other_mmobj_ops.
Proof.
  intros [(O & Ho & Hop & _)|(b & k & [(O & Ho & Hop & _) _ _])]; exists O; (split; [done|]); by rewrite Hop.
Qed.

Lemma dirty_law s p x : holds s p x → returns (Pframe.pframe_dirty p) s (λ _ s',
  (∀ y, page_ok s y → page_ok s' y ∧ page_content s' y = page_content s y) ∧
  ∀ y z, page_alias s' y z ↔ page_alias s y z).
Proof using HL.
  destruct x as [o n]. intros (Hok & Hu & f & Hf & Hfo & Hfn). simpl in *.
  destruct (usable_not_other s o Hu) as (O & Ho & Hop). destruct (mk_frame s Hok p f Hf) as [Hlen Hb].
  destruct (dirty_spec s p f o O) as (r & s' & Hr & -> & Hwf' & Hos & Hfs); try done; [apply Hok|].
  exists 0, s'. split; [done|]. set (g := set_pf_busy _ _) in Hfs.
  assert (grows (λ _, True) {[p]} s s') as Hg.
  { split; rewrite ?Hfs, ?Hos; [| |done].
    - intros q h Hq. by rewrite lookup_insert_ne by set_solver.
    - intros q h Hq. rewrite lookup_insert_ne by set_solver. congruence. }
  assert (∀ y m d, sees s y m d → sees s' y m d) as Hsees.
  { intros y m d. induction 1 as [y m q h Hq Hho Hhn|y m O' HO' Ha Hs Hrs|y m O' sh d HO' Hs Hrs Hd IH].
    - destruct (decide (q = p)) as [-> |Hne].
      + assert (h = f) as -> by congruence. assert (sees s' y m (pf_data g)) as Hs; [|done].
        eapply (sees_resident _ _ _ p); [rewrite Hfs; apply lookup_insert_eq|done|done].
      + eapply (sees_resident _ _ _ q); [by rewrite Hfs, lookup_insert_ne|done|done].
    - eapply sees_zero; [by rewrite Hos|done|done|]. intros q h. rewrite Hfs, lookup_insert.
      case_decide; [|by apply Hrs]. intros [= <-]. subst q. by apply (Hrs p f).
    - eapply sees_below; [by rewrite Hos|done| |done]. intros q h. rewrite Hfs, lookup_insert.
      case_decide; [|by apply Hrs]. intros [= <-]. subst q. by apply (Hrs p f). }
  assert (mem_ok s') as Hok' by (by eapply (mem_ok_frame s s' p f g)).
  split; [|intros y z; by apply page_alias_objs]. intros [y m] [_ Hy]. simpl in Hy.
  assert (usable s' y) as Hy' by (by apply (usable_objs s)).
  split; [by split|]. apply page_content_eq; [done|done|]. by apply Hsees, page_content_sees.
Qed.

(** The pages that [vmmap_read] and [vmmap_write] rely on; memory does not run out. *)
Class MemoryAvailable := memory_is_available : memory_available.

#[export] Program Instance pmem_mm_pages `{!MemoryAvailable} : MmPages P := {|
  content := page_content; available := page_ok; alias := page_alias;
  frame_of s p := pf_data <$> frames s !! p; backs := holds |}.
Next Obligation. intros _ s p x (f & Hf & _ & _ & Hd)%holds_content. by rewrite Hf, <- Hd. Qed.
Next Obligation. intros _ s [o n] [Hok Hu]. eapply sees_length; [done|by apply page_content_sees]. Qed.
Next Obligation.
  intros Hmem s o n Hok. destruct (lookup_read_law Hmem s o n Hok) as (r & s' & Hr & p & f & -> & Hf & Hd & Hwf & Hg).
  eexists _, _. split; [exact Hr|]. exists p. split; [done|]. split; [by rewrite Hf, <- Hd|].
  split; [by eapply grows_kept|]. intros x y. by eapply grows_alias.
Qed.
Next Obligation.
  intros Hmem s o n Hok. destruct (lookup_write_law Hmem s o n Hok) as (r & s' & Hr & p & D & -> & Hh & Hwf & Hg).
  eexists _, _. split; [exact Hr|]. exists p. split; [done|]. split; [done|].
  split; [by eapply grows_kept|]. intros x y. by eapply grows_alias.
Qed.
Next Obligation.
  intros _ s p l off len Hl. apply fmap_Some in Hl as (f & Hf & ->). simpl. unfold returns.
  rewrite (bind_Ret _ _ _ _ _ (frame_get_eq _ _ _ Hf)). by eexists _, _.
Qed.
Next Obligation.
  intros _ s p x off bs Hh Hlen. destruct (holds_content s p x Hh) as (f & Hf & Hfo & Hfn & Hd).
  simpl. unfold returns. rewrite (bind_Ret _ _ _ _ _ (frame_get_eq _ _ _ Hf)), (frame_upd_eq _ _ _ _ Hf).
  rewrite <- stored_insert by done. destruct (mk_frame s (proj1 Hh) p f Hf) as [Hpl _].
  destruct (store_law s p x (splice off bs (pf_data f)) Hh) as (Hh' & Hc & Hav & Hoth & Hal);
    [rewrite splice_length; lia|].
  eexists _, _. split; [done|]. rewrite <- Hd. by split_and!.
Qed.
Next Obligation. intros _ s p x. apply dirty_law. Qed.
End pages.
