(* ===== verification/FaultMem.v ===== *)
(** * Page faults over the page cache: vm/pagefault.c with mm/pframe.c

    [pframe_pin], [pframe_dirty], [pframe_unpin] and the lookups that [handle_pagefault]
    calls are those of the page cache; what it needs of them is proved.  Page tables are
    an interface, [PtLaws]. *)
From S2P Require Import Prelude Headers Vmmap VmmapProps VmmapBytes VmCalls VmCallsProps VmCallsFault.
From S2P Require Import Pframe PframeProps PframeLookup PframeShadow PframeCow PframeMm PframePages.
Local Open Scope kernel_scope.

Section fault.
Context `{HE : ErrnoH, HP : PageH, HM : MmanH, HF : FcntlH, HU : FaultH, HH : PmemH}.
Context {X : Type} `{HX : !PmemExt X, HT : !OtherObj X, HR : !MmRest X, HC : !VmCallOps X}.
Context {HL : ExtLaws}.
Local Abbreviation P := (pmem X).
Implicit Types (s t : P) (p o : positive).

(** The calls of vm/ over the page cache: frames are those of the page cache, the rest
    (files, page tables, kernel memory, [do_exit]) is outside of it. *)
#[export] Instance pmem_call_ops : VmCallOps P := {|
  fget fd := on_ext (fget fd);
  fput f := on_ext (fput f);
  f_vnode t f := f_vnode (pext t) f;
  f_mode t f := f_mode (pext t) f;
  do_exit e := on_ext (do_exit e);
  VmCalls.pf_addr t p := Pframe.pf_addr <$> frames t !! p;
  VmCalls.pframe_pin := Pframe.pframe_pin;
  VmCalls.pframe_unpin := Pframe.pframe_unpin;
  pt_virt_to_phys a := on_ext (pt_virt_to_phys a);
  pt_map pd v pa f g := on_ext (pt_map pd v pa f g);
  VmCalls.tlb_flush v := on_ext (VmCalls.tlb_flush v);
  kmalloc n := on_ext (kmalloc n);
  kfree q := on_ext (kfree q);
  kmalloc_ptrs t p i := kmalloc_ptrs (pext t) p i;
  VmCalls.kt_errno t := VmCalls.kt_errno (pext t);
  set_errno e := on_ext (set_errno e)
|}.

(** mm/pagetable.c: the entry of a page, whether there is memory for a page table, and
    physical addresses. *)
Class PtLaws := {
  ext_entry : X → option positive → Z → option (Z * Z * Z);
  ext_room : X → Prop;
  ext_phys : Z → Z;
  ext_virt_to_phys (e : X) a : pt_virt_to_phys a e = Ret (ext_phys a) e;
  ext_pt_map (e : X) pd v pa f g : ext_room e → returns (pt_map pd v pa f g) e (λ r e', r = 0 ∧
    ext_entry e' pd v = Some (pa, f, g) ∧
    ∀ pd' v', (pd', v') ≠ (pd, v) → ext_entry e' pd' v' = ext_entry e pd' v');
  ext_tlb_flush (e : X) v : returns (VmCalls.tlb_flush v) e (λ _ e', ext_entry e' = ext_entry e)
}.
Context {HPT : PtLaws} {HMA : MemoryAvailable}.

(** ** The page cache and the rest of the kernel *)

Lemma ext_wf e s : pmem_wf s → pmem_wf (set_ext e s).
Proof. by intros [[] [] ?]; split; [split|split|]. Qed.

Lemma ext_mem_ok e s : mem_ok s → mem_ok (set_ext e s).
Proof. intros [Hwf Hf]. split; [by apply ext_wf|done]. Qed.

Lemma ext_content e s fuel : ∀ o n, content_of fuel (set_ext e s) o n = content_of fuel s o n.
Proof.
  induction fuel as [|fuel IH]; intros o n; [done|]. simpl.
  change (find_frame (set_ext e s) (Some o) n) with (find_frame s (Some o) n).
  change (obj_below (set_ext e s) o) with (obj_below s o).
  destruct (_ ≫= _); [done|]. destruct (obj_below s o); [apply IH|done].
Qed.

(** Only the rest of the kernel changes. *)
Lemma ext_same_frames e s : same_frames s (set_ext e s).
Proof.
  split; [done|done| |].
  - intros p [o n] (Hok & Hu & f & Hf). split; [by apply ext_mem_ok|].
    split; [by apply (usable_objs s)|by exists f].
  - intros [o n] [Hok Hu]. split; [|apply ext_content].
    split; [by apply ext_mem_ok|by apply (usable_objs s)].
Qed.

(** ** Changes of one frame *)

(** The frame [p] changes in its pins and flags only. *)
Lemma frame_same s s' p f g :
  mem_ok s → pmem_wf s' → objs s' = objs s → frames s !! p = Some f → frames s' = <[p := g]> (frames s) →
  pf_obj g = pf_obj f → pf_pagenum g = pf_pagenum f → Pframe.pf_addr g = Pframe.pf_addr f →
  pf_data g = pf_data f → pf_busy g = false → same_frames s s'.
Proof.
  intros Hok Hwf Ho Hf Hfs Hgo Hgn Hga Hgd Hgb.
  assert (mem_ok s') as Hok'.
  { eapply (mem_ok_frame s s' p f g); try done. rewrite Hgd. by apply (mk_frame s Hok p f). }
  assert (∀ q h, frames s !! q = Some h → ∃ h', frames s' !! q = Some h' ∧ pf_obj h' = pf_obj h ∧
    pf_pagenum h' = pf_pagenum h ∧ pf_data h' = pf_data h) as Hfwd.
  { intros q h Hq. rewrite Hfs, lookup_insert. case_decide as Hpq; [subst q|by exists h].
    simplify_eq. by exists g. }
  assert (∀ q h', frames s' !! q = Some h' → ∃ h, frames s !! q = Some h ∧ pf_obj h = pf_obj h' ∧
    pf_pagenum h = pf_pagenum h') as Hback.
  { intros q h'. rewrite Hfs, lookup_insert. case_decide as Hpq; [subst q|by exists h'].
    intros [= <-]. by exists f. }
  split.
  - intros q. simpl. rewrite Hfs, lookup_insert. case_decide; [|done]. subst q. rewrite Hf. simpl. by rewrite Hga.
  - intros q. simpl. rewrite Hfs, lookup_insert. case_decide; [|done]. subst q. rewrite Hf. simpl. by rewrite Hgd.
  - intros q [o n] (_ & Hu & h & Hh & Hho & Hhn). simpl in *. split; [done|].
    split; [by apply (usable_objs s)|]. destruct (Hfwd q h Hh) as (h' & ? & ? & ? & _).
    exists h'. simpl. split_and!; congruence.
  - intros [o n] [_ Hu]. simpl in Hu. assert (usable s' o) as Hu' by (by apply (usable_objs s)).
    split; [by split|]. apply page_content_eq; [done|done|].
    assert (∀ y m d, sees s y m d → sees s' y m d) as Hsees; [|by apply Hsees, page_content_sees].
    intros y m d. induction 1 as [y m q h Hq Hho Hhn|y m O' HO' Ha Hs Hrs|y m O' sh d HO' Hs Hrs Hd IH].
    + destruct (Hfwd q h Hq) as (h' & Hq' & ? & ? & <-). eapply sees_resident; [done|congruence|congruence].
    + eapply sees_zero; [by rewrite Ho|done|done|]. intros q h' Hq' [??].
      destruct (Hback q h' Hq') as (h & Hh & ? & ?). apply (Hrs q h Hh). split; congruence.
    + eapply sees_below; [by rewrite Ho|done| |done]. intros q h' Hq' [??].
      destruct (Hback q h' Hq') as (h & Hh & ? & ?). apply (Hrs q h Hh). split; congruence.
Qed.

(** What the handler relies on holds of the page cache. *)
Definition frame_pins s p : Z := match frames s !! p with Some f => pf_pincount f | None => 0 end.

#[export] Program Instance pmem_fault_laws : FaultLaws := {|
  VmCallsFault.pins := frame_pins;
  pt_entry t := ext_entry (pext t); pt_room t := ext_room (pext t); phys := ext_phys |}.
Next Obligation.
  intros s o n w p s' Hav Hr. simpl in Hr. destruct w.
  - destruct (lookup_write_law memory_is_available s o n Hav) as (r & t & Hr' & q & D & -> & (_ & _ & f & Hf & _) & _).
    rewrite Hr in Hr'. simplify_eq. simpl. rewrite Hf. by eexists.
  - destruct (lookup_read_law memory_is_available s o n Hav) as (r & t & Hr' & q & f & -> & Hf & _).
    rewrite Hr in Hr'. simplify_eq. simpl. rewrite Hf. by eexists.
Qed.
Next Obligation.
  intros s p [o n] (Hok & Hu & f & Hf & _). destruct (mk_frame s Hok p f Hf) as [_ Hb].
  destruct (pmem_wf_frame s p f (mk_wf _ Hok) Hf) as (_ & _ & _ & _ & Hpos).
  eapply returns_mono; [by apply (pin_spec s p f); [apply Hok|]|].
  intros [] s' (Hwf & Hfs & Ho & _). split.
  - by eapply (frame_same s s' p f).
  - unfold frame_pins. rewrite Hfs, lookup_insert_eq. simpl. lia.
Qed.
Next Obligation.
  intros s p [o n] (Hok & Hu & f & Hf & Hfo & _). simpl in *. destruct (mk_frame s Hok p f Hf) as [_ Hb].
  destruct (usable_not_other s o Hu) as (O & Ho & Hop).
  eapply returns_mono; [by apply (dirty_spec s p f o O); [apply Hok|..]|].
  intros r s' (_ & Hwf & Hos & Hfs). split.
  - by eapply (frame_same s s' p f).
  - unfold frame_pins. by rewrite Hfs, lookup_insert_eq, Hf.
Qed.
Next Obligation.
  intros s p [o n] (Hok & Hu & f & Hf & _) Hpos. unfold frame_pins in Hpos. rewrite Hf in Hpos.
  destruct (mk_frame s Hok p f Hf) as [_ Hb].
  eapply returns_mono; [by apply (unpin_spec s p f); [apply Hok|..]|].
  intros [] s' (Hwf & Hfs & Ho & _). by eapply (frame_same s s' p f).
Qed.
Next Obligation.
  intros s a. simpl. rewrite (on_ext_eq _ _ _ _ (ext_virt_to_phys (pext s) a)). by destruct s.
Qed.
Next Obligation.
  intros s pd v pa f g Hroom. destruct (ext_pt_map (pext s) pd v pa f g Hroom) as (r & e & Hr & -> & He & Hk).
  eexists _, _. split; [by apply on_ext_eq|]. split; [done|]. split; [apply ext_same_frames|done].
Qed.
Next Obligation.
  intros s v. destruct (ext_tlb_flush (pext s) v) as ([] & e & Hr & He).
  eexists _, _. split; [by apply on_ext_eq|]. split; [apply ext_same_frames|done].
Qed.

Context `{HS : !SlabOps P}.

(** C9: A fault on an access that the protection of its page permits, on a page of an
    anonymous object or of a shadow object over one, maps the page: [handle_pagefault],
    run over the page cache, returns with the page table entry of the page pointing to a
    frame that holds the content seen through the object behind the address, writable
    exactly if the fault was a write, in which case the frame belongs to that very page of
    the object (a private copy if it was shared); what is seen of every page, the areas
    and the maps are unchanged. *)
Theorem handle_pagefault_maps (s : vmproc P) map pr pl vaddr cause o i prot fl :
  vmmap_wf (vms s) map pr pl → p_vmmap s = Some map →
  page_at pl.*2 (ADDR_TO_PN vaddr) = Some (Some o, i, prot, fl) → access_ok cause prot →
  mem_ok (sys s) → usable (sys s) o → (∀ e, ext_room e) →
  let w := has cause FAULT_WRITE in
  returns (handle_pagefault vaddr cause) s (λ _ (s' : vmproc P), ∃ p f,
    ext_entry (pext (sys s')) (p_pagedir s) (PAGE_ALIGN_DOWN vaddr) =
      Some (ext_phys (Pframe.pf_addr f), pd_flags w, pt_flags w) ∧
    frames (sys s') !! p = Some f ∧ pf_data f = page_content (sys s) (o, i) ∧
    (w = true → pf_obj f = Some o ∧ pf_pagenum f = i) ∧
    (∀ o' i', usable (sys s) o' →
      usable (sys s') o' ∧ page_content (sys s') (o', i') = page_content (sys s) (o', i')) ∧
    mem_ok (sys s') ∧ vmareas (vms s') = vmareas (vms s) ∧ vmmaps (vms s') = vmmaps (vms s)).
Proof.
  intros Hwf Hm Hpg Hacc Hok Hu Hroom w.
  eapply returns_mono; [apply (pagefault_maps s map pr pl vaddr cause o i prot fl Hwf Hm Hpg Hacc);
    [by split|intros t; apply Hroom]|].
  intros [] s' (p & addr & He & Ha & Hf & Hb & Hk & Hareas & Hmaps).
  simpl in Ha, Hf. destruct (frames (sys s') !! p) as [f|] eqn:Hp; [|done]. simpl in Ha, Hf.
  injection Ha as Ha. injection Hf as Hf. subst addr. exists p, f. split; [exact He|]. split; [done|]. split; [done|].
  split; [|split; [|split; [|done]]].
  - intros Hw. destruct (Hb Hw) as (_ & _ & f' & Hf' & ? & ?). by simplify_eq.
  - intros o' i' Hu'. destruct (Hk (o', i')) as [[_ ?] ?]; [by split|]. done.
  - by destruct (Hk (o, i)) as [[? _] _]; [split|].
Qed.
End fault.
