(* ===== verification/PframeEx.v ===== *)
(** * The page cache at work

    A small page cache: an anonymous object with one resident page, and two shadow
    objects over it as after a fork.  The theorems on the page cache applied to it. *)
From S2P Require Import Prelude Headers Vmmap Pframe PframeProps.
From S2P Require Import PframeLookup PframeShadow PframeCow PframePut.
Local Open Scope kernel_scope.

#[local] Existing Instance page_ex.
#[local] Instance pmem_h_ex : PmemH.
Proof. refine {| PF_HASH_SIZE := 17; get_turns := 3 |}. split; reflexivity. Defined.

(** Allocators that always find room; everything else returns at once. *)
#[local] Instance ext_ex : PmemExt unit.
Proof.
  refine {| pframe_slab s := Some (fresh (dom (frames s))); pframe_uninit p := Pframe None 0 0 false false 0 [];
    pframe_allocator_create := ret (Some 1%positive);
    anon_slab s := Some (fresh (dom (objs s))); shadow_slab s := Some (fresh (dom (objs s)));
    page_alloc := ret (Some 8192); page_free a := ret tt; page_bytes x a := [1; 2; 3];
    page_free_count x := 10; waitq_init q := ret tt; sched_sleep_on q := ret tt;
    sched_cancellable_sleep_on q := ret 0; sched_broadcast_on q := ret tt; kthread_exit r := ret tt;
    tlb_flush a := ret tt; pt_unmap pd a := ret tt; vma_at x v := Some (Vmarea 0 1 0 0 0 (Some 1%positive) None LIn LIn);
    vmm_pagedir x m := None |};
    intros s p [= <-]; apply not_elem_of_dom, is_fresh.
Defined.
#[local] Instance other_ex : OtherObj unit := {|
  other_ref o := panic; other_put o := panic; other_lookuppage o n w := panic;
  other_fillpage o p := panic; other_dirtypage o p := panic; other_cleanpage o p := panic |}.

#[local] Instance ext_laws_ex : ExtLaws.
Proof. split; intros; by eexists _, _. Qed.

Lemma ex_memory : memory_available.
Proof. split; [by eexists|]. intros [] r x [= <- _]. by eexists. Qed.

(** Object 1 has page 5 in frame 10; objects 2 and 3 shadow it. *)
Definition ex_anon (rc n : Z) (l : list positive) : mmobj := Mmobj anon_mmobj_ops rc n l None None [].
Definition ex_shadow : mmobj := Mmobj shadow_mmobj_ops 1 0 [] (Some 1%positive) (Some 1%positive) [].
Definition ex_frame : pframe := Pframe (Some 1%positive) 5 4096 false false 1 [7; 8; 9].
Definition ex_over : gmap positive mmobj := {[ 2%positive := ex_shadow; 3%positive := ex_shadow ]}.
Definition ex_state (over : gmap positive mmobj) (rc : Z) : pmem unit :=
  Pmem {[ 10%positive := ex_frame ]} (<[1%positive := ex_anon rc 1 [10%positive]]> over) [] 0
    [10%positive] 1 {[ 6 := [10%positive] ]} 0 5 tt.
Definition ex_mem : pmem unit := ex_state ex_over 4.
(** Nothing but the page refers to object 1. *)
Definition ex_last : pmem unit := ex_state ∅ 2.

Lemma ex_over_inv o O : ex_over !! o = Some O → O = ex_shadow.
Proof.
  unfold ex_over. rewrite lookup_insert_Some, lookup_singleton_Some. naive_solver.
Qed.

Section wf.
Context (over : gmap positive mmobj) (Hover : ∀ o O, over !! o = Some O → O = ex_shadow).

Lemma ex_empty_wf rc : ident_wf ∅ ∅ (<[1%positive := ex_anon rc 0 []]> over).
Proof using Hover.
  assert (∀ o O, (<[1%positive := ex_anon rc 0 []]> over) !! o = Some O →
    mmo_respages O = [] ∧ mmo_nrespages O = 0) as Hno.
  { intros o O. rewrite lookup_insert_Some. intros [[<- <-]|[_ ->%Hover]]; done. }
  split; try done.
  - intros i. apply NoDup_nil_2.
  - intros i p. split; [by intros ?%elem_of_nil|by intros (x & Hx & _)].
  - intros o O [-> _]%Hno. apply NoDup_nil_2.
  - by intros o O [-> ->]%Hno.
  - intros o O p [-> _]%Hno. split; [by intros ?%elem_of_nil|by intros (n & Hn)].
Qed.

Lemma ex_state_wf rc : 1 < rc → pmem_wf (ex_state over rc).
Proof using Hover.
  intros Hrc. split.
  - pose proof (ident_wf_insert ∅ ∅ _ 1 (ex_anon (rc - 1) 0 []) 5 10 (ex_empty_wf (rc - 1))
      (lookup_insert_eq _ _ _) eq_refl (λ q, ltac:(done))) as Hwf.
    rewrite insert_insert_eq in Hwf. unfold set_mmo_refcount, ex_anon in Hwf. simpl in Hwf.
    replace (rc - 1 + 1) with rc in Hwf by lia. exact Hwf.
  - assert (pins_wf ∅ [] 0 [] 0) as H0.
    { split; try done; try apply NoDup_nil_2; intros p; (split; [by intros ?%elem_of_nil|]); naive_solver. }
    exact (pins_wf_pin _ _ _ _ _ 10 (pins_wf_insert _ _ _ _ _ 10 H0 eq_refl) eq_refl).
  - intros o O. simpl. rewrite lookup_insert_Some. intros [[<- <-]|[_ ->%Hover]]; simpl; lia.
Qed.
End wf.

Lemma ex_frames_inv over rc p f : frames (ex_state over rc) !! p = Some f → p = 10%positive ∧ f = ex_frame.
Proof. simpl. rewrite lookup_singleton_Some. naive_solver. Qed.

Lemma ex_mem_wf : pmem_wf ex_mem.
Proof. by apply ex_state_wf; [apply ex_over_inv|]. Qed.
Lemma ex_last_wf : pmem_wf ex_last.
Proof. by apply ex_state_wf. Qed.

Lemma ex_shadows o : o = 2%positive ∨ o = 3%positive → shadows ex_mem o 1 0.
Proof.
  intros Ho. split.
  - exists ex_shadow. by destruct Ho as [-> | ->].
  - eapply (chain_step _ _ ex_shadow 1); [by destruct Ho as [-> | ->]|done|by eapply chain_bottom].
  - by eexists.
Qed.

Lemma ex_idle n : page_idle ex_mem n.
Proof. intros p f [-> ->]%ex_frames_inv _. done. Qed.

Lemma get_resident_is_search_witness :
  pmem_wf ex_mem ∧ returns (pframe_get_resident (Some 1%positive) 5) ex_mem (λ r s',
    r = Some 10%positive ∧ same_but_order ex_mem s').
Proof.
  split; [apply ex_mem_wf|].
  destruct (get_resident_is_search ex_mem (Some 1%positive) 5 ex_mem_wf) as (r & s' & Hr & Hf & Hso & _).
  exists r, s'. split; [done|]. split; [rewrite Hf; by vm_compute|done].
Defined.

(** One unpin too many, and as many unpins as pins. *)
Lemma pins_are_a_counter_witness :
  counts ex_mem 10 ex_frame None (run_pins 10 [true; false; false; false]) ∧
  counts ex_mem 10 ex_frame (Some 0) (run_pins 10 [true; false; false]).
Proof.
  split.
  - exact (pins_are_a_counter ex_mem 10 ex_frame [true; false; false; false] ex_mem_wf eq_refl).
  - exact (pins_are_a_counter ex_mem 10 ex_frame [true; false; false] ex_mem_wf eq_refl).
Defined.

(** Page 6 of the anonymous object has not been touched. *)
Lemma anon_lookup_zero_fills_witness :
  returns (pframe_lookup (Some 1%positive) 6 true) ex_mem (λ r s', ∃ p f,
    r = (0, Some p) ∧ frames s' !! p = Some f ∧ pf_data f = zero_page).
Proof.
  destruct (anon_lookup_zero_fills ex_mem 1 (ex_anon 4 1 [10%positive]) 6 true)
    as (r & s' & Hr & _ & (p & f & -> & Hf & _ & _ & _ & Hd) & _); try done.
  - apply ex_mem_wf.
  - apply ex_memory.
  - intros p f [-> ->]%ex_frames_inv _. done.
  - exists (0, Some p), s'. split; [done|]. exists p, f. split; [done|]. split; [done|].
    rewrite Hd. by vm_compute.
Defined.

Lemma shadow_lookup_reads_witness :
  returns (pframe_lookup (Some 2%positive) 5 false) ex_mem (λ r s', pmem_wf s' ∧ ∃ p f,
    r = (0, Some p) ∧ frames s' !! p = Some f ∧ sees ex_mem 2 5 (pf_data f)).
Proof.
  destruct (shadow_lookup_reads ex_mem 2 1 0 5)
    as (r & s' & Hr & Hwf & (p & f & Hrp & Hf & _ & _ & Hs) & _).
  - apply ex_mem_wf.
  - apply ex_memory.
  - apply ex_shadows. by left.
  - apply ex_idle.
  - exists r, s'. split; [done|]. split; [done|]. by exists p, f.
Defined.

(** Storing through object 2 leaves what object 3 sees. *)
Lemma shadow_write_copies_witness :
  returns (pframe_lookup (Some 2%positive) 5 true) ex_mem (λ r s', ∃ p,
    r = (0, Some p) ∧ sees (stored p [1; 1; 1] s') 2 5 [1; 1; 1] ∧
    sees (stored p [1; 1; 1] s') 3 5 [7; 8; 9]).
Proof.
  destruct (shadow_write_copies ex_mem 2 1 0 5 [1; 1; 1])
    as (r & s' & Hr & _ & p & f & Hrp & Hf & _ & _ & _ & Hs & Hother).
  - apply ex_mem_wf.
  - apply ex_memory.
  - apply ex_shadows. by left.
  - apply ex_idle.
  - exists r, s'. split; [done|]. exists p. split; [done|]. split; [done|]. apply Hother.
    + right. intros Hab. inversion Hab as [|? O sh ? HO Hsh Hab']; subst.
      assert (O = ex_shadow) as -> by (by vm_compute in HO; simplify_eq). simpl in Hsh. simplify_eq.
      inversion Hab' as [|? O' sh' ? HO1 Hsh1 Hab1]; subst. vm_compute in HO1. by simplify_eq.
    + eapply (sees_below _ _ _ ex_shadow 1); [done|done| |].
      * intros q g [-> ->]%ex_frames_inv [Hq _]. done.
      * by apply (sees_resident ex_mem 1 5 10 ex_frame).
Defined.

Lemma anon_put_last_witness :
  returns (mmo_put 1) ex_last (λ _ s', pmem_wf s' ∧ objs s' = ∅ ∧ frames s' = ∅).
Proof.
  destruct (anon_put_last ex_last 1 (ex_anon 2 1 [10%positive])) as (r & s' & Hr & Hwf & Ho & Hf); try done.
  - apply ex_last_wf.
  - by eexists.
  - intros p f [-> ->]%ex_frames_inv _. done.
  - exists r, s'. split; [done|]. split; [done|]. rewrite Ho, Hf. by vm_compute.
Defined.
