(* ===== verification/FaultEx.v ===== *)
(** * A page fault over the page cache at work

    A process with one area on an anonymous object, none of whose pages is resident,
    writes to it. *)
From S2P Require Import Prelude Headers Vmmap VmmapProps VmCalls VmCallsFault.
From S2P Require Import Pframe PframeProps PframeLookup PframeMm PframePages PframeEx FaultMem.
Local Open Scope kernel_scope.

#[local] Existing Instance errno_ex.
#[local] Existing Instance page_ex.
#[local] Existing Instance mman_ex.
#[local] Existing Instance fcntl_ex.
#[local] Existing Instance fault_ex.
#[local] Existing Instance pmem_h_ex.

(** The rest of the kernel: the entries of the page tables. *)
Definition pts : Type := gmap (option positive * Z) (Z * Z * Z).

#[local] Instance pts_ext : PmemExt pts.
Proof.
  refine {| pframe_slab s := Some (fresh (dom (frames s)));
    pframe_uninit p := Pframe None 0 0 false false 0 [];
    pframe_allocator_create := ret (Some 1%positive);
    anon_slab s := Some (fresh (dom (objs s))); shadow_slab s := Some (fresh (dom (objs s)));
    page_alloc := ret (Some 8192); page_free a := ret tt; page_bytes x a := replicate 4096 0;
    page_free_count x := 10; waitq_init q := ret tt; sched_sleep_on q := ret tt;
    sched_cancellable_sleep_on q := ret 0; sched_broadcast_on q := ret tt; kthread_exit r := ret tt;
    tlb_flush a := ret tt; pt_unmap pd a := modify (delete (Some pd, a));
    vma_at x v := None; vmm_pagedir x m := None |};
    intros s p [= <-]; apply not_elem_of_dom, is_fresh.
Defined.
#[local] Instance pts_files : OtherObj pts := {|
  other_ref o := panic; other_put o := panic; other_lookuppage o n w := panic;
  other_fillpage o p := panic; other_dirtypage o p := panic; other_cleanpage o p := panic |}.
#[local] Instance pts_rest : MmRest pts := {|
  file_mmap f v := panic; x_tlb_flush_all := ret tt; x_pt_unmap_range lo hi := ret tt |}.
#[local] Instance pts_calls : VmCallOps pts := {|
  fget fd := ret None; fput f := ret tt; f_vnode t f := None; f_mode t f := 0;
  do_exit e := panic; VmCalls.pf_addr t p := None;
  VmCalls.pframe_pin p := panic; VmCalls.pframe_unpin p := panic;
  pt_virt_to_phys a := ret (a + 65536);
  pt_map pd v pa f g := λ e, Ret 0 (<[(pd, v) := (pa, f, g)]> e);
  VmCalls.tlb_flush v := ret tt;
  kmalloc n := ret None; kfree q := ret tt; kmalloc_ptrs t p i := None;
  VmCalls.kt_errno t := 0; set_errno e := ret tt |}.

#[local] Instance pts_ext_laws : ExtLaws.
Proof. split; intros; by eexists _, _. Qed.
#[local] Instance pts_laws : PtLaws.
Proof.
  refine {| ext_entry e pd v := e !! (pd, v); ext_room e := True; ext_phys a := a + 65536 |}.
  - done.
  - intros e pd v pa f g _. eexists _, _. split; [reflexivity|]. split; [done|].
    split; [apply lookup_insert_eq|]. intros pd' v' Hne. by apply lookup_insert_ne.
  - intros e v. by eexists _, _.
Defined.
#[local] Instance pts_memory : MemoryAvailable.
Proof. split; [by eexists|]. intros x r x' [= <- _]. by eexists. Qed.
#[local] Instance pts_slab : SlabOps (pmem pts).
Proof.
  refine {| vmarea_slab s := Some (fresh (dom (vmareas s))); vmmap_slab s := Some (fresh (dom (vmmaps s)));
    vma_uninit p := Vmarea 7 7 7 7 7 None None LNull LNull |};
  intros s p [= <-]; apply not_elem_of_dom, is_fresh.
Defined.

(** Pages 3000-3004, private, on the anonymous object 6; page directory 7. *)
Definition flt_area : vmarea := Vmarea 3000 3005 0 3 2 (Some 1%positive) (Some 6%positive) LIn LIn.
Definition flt_pl : list (positive * vmarea) := [(1%positive, flt_area)].
Definition flt_mem : pmem pts :=
  Pmem ∅ {[6%positive := set_mmo_refcount 1 (mmobj_init anon_mmobj_ops)]} [] 0 [] 0 ∅ 0 5 ∅.
Definition flt_proc : vmproc (pmem pts) :=
  Vmproc (Vm {[1%positive := flt_area]} {[1%positive := Vmmap [1%positive] (Some 9%positive)]} flt_mem)
    (Some 1%positive) (Some 7%positive) 0 0.

Lemma flt_ok : mem_ok flt_mem.
Proof.
  split; [|done]. split; [split|split|]; simpl; try done.
  - intros i. apply NoDup_nil_2.
  - intros i p. unfold hash_chain. simpl. rewrite elem_of_nil. naive_solver.
  - intros o O [_ <-]%lookup_singleton_Some. apply NoDup_nil_2.
  - by intros o O [_ <-]%lookup_singleton_Some.
  - intros o O p [_ <-]%lookup_singleton_Some. simpl. rewrite elem_of_nil. naive_solver.
  - apply NoDup_nil_2.
  - apply NoDup_nil_2.
  - intros p. rewrite elem_of_nil. naive_solver.
  - intros p. rewrite elem_of_nil. naive_solver.
  - by intros o O [_ <-]%lookup_singleton_Some.
Qed.

(** The first write to page 3001: it is mapped writable to a frame of page 1 of object
    6, which holds zeros. *)
Lemma handle_pagefault_maps_witness :
  returns (handle_pagefault (3001 * 4096 + 7) FAULT_WRITE) flt_proc (λ _ s', ∃ p f,
    pext (sys s') !! (Some 7%positive, 3001 * 4096) = Some (Pframe.pf_addr f + 65536, 7, 7) ∧
    frames (sys s') !! p = Some f ∧ pf_data f = replicate 4096 0 ∧
    pf_obj f = Some 6%positive ∧ pf_pagenum f = 1).
Proof.
  eapply returns_mono.
  - apply (handle_pagefault_maps flt_proc 1 (Some 9%positive) flt_pl (3001 * 4096 + 7) FAULT_WRITE 6 1 3 2).
    + split; [split; [reflexivity|repeat constructor]|split; [|repeat constructor]].
      repeat constructor; vm_compute; congruence.
    + reflexivity.
    + reflexivity.
    + by vm_compute.
    + apply flt_ok.
    + left. by eexists.
    + done.
  - intros [] s' (p & f & He & Hf & Hd & Hw & _). exists p, f. split; [exact He|]. split; [done|].
    split; [by rewrite Hd; vm_compute|]. by apply Hw.
Defined.
