(* ===== verification/PageoutEx.v ===== *)
(** * The pageout daemon at work

    A file with a dirty and a clean page that are not pinned. *)
From S2P Require Import Prelude Headers Vmmap Pframe PframeProps PframeLookup PframePut PframeMm PframeRelease Pageout PageoutProps PframeEx.
Local Open Scope kernel_scope.

#[local] Existing Instance page_ex.
#[local] Existing Instance limits_ex.
#[local] Existing Instance pmem_h_ex.
#[local] Existing Instance ext_ex.

(** A file system whose writes succeed. *)
#[local] Instance disk_ex : OtherObj unit := {|
  other_ref o := panic; other_put o := obj_upd o (λ O, set_mmo_refcount (mmo_refcount O - 1) O);
  other_lookuppage o n w := panic; other_fillpage o p := panic; other_dirtypage o p := panic;
  other_cleanpage o p := ret 0 |}.
#[local] Instance disk_ext_laws_ex : ExtLaws.
Proof. split; intros; by eexists _, _. Qed.
#[local] Instance disk_put_ex : OtherPutLaws.
Proof.
  split. intros s o O Ho _ _. exists (pext s). split; [|done]. simpl. rewrite (obj_upd_eq _ _ _ _ Ho).
  by destruct s.
Qed.
#[local] Instance disk_clean_ex : OtherCleanLaws.
Proof. split. intros s o O p _ _. exists 0, (pext s). split; [by destruct s|done]. Qed.

Definition out_file (rc n : Z) (l : list positive) : mmobj := Mmobj other_mmobj_ops rc n l None None [].
Definition out_frame (n : Z) (dirty : bool) : pframe := Pframe (Some 1%positive) n 4096 false dirty 0 [7; 8; 9].
(** Ten pages are free; the daemon wants twenty. *)
Definition out_mem : pmem unit :=
  Pmem (<[11%positive := out_frame 6 false]> (<[10%positive := out_frame 5 true]> ∅))
    {[ 1%positive := out_file 3 2 [11%positive; 10%positive] ]} [10%positive; 11%positive] 2 [] 0
    (<[7 := [11%positive]]> (<[6 := [10%positive]]> ∅)) 0 20 tt.

Lemma out_wf : pmem_wf out_mem.
Proof.
  split.
  - assert (ident_wf ∅ ∅ (<[1%positive := out_file 1 0 []]> ∅)) as H0.
    { assert (∀ o O, (<[1%positive := out_file 1 0 []]> ∅ : gmap positive mmobj) !! o = Some O → O = out_file 1 0 []) as Hno
        by (intros o O [[_ <-]|[_ ?]]%lookup_insert_Some; done).
      split; try done; try (intros; apply NoDup_nil_2).
      - intros i p. split; [by intros ?%elem_of_nil|by intros (y & Hy & _)].
      - intros o O ->%Hno. apply NoDup_nil_2.
      - by intros o O ->%Hno.
      - intros o O p ->%Hno. split; [by intros ?%elem_of_nil|by intros (n & Hn)]. }
    pose proof (ident_wf_insert ∅ ∅ _ 1 (out_file 1 0 []) 5 10 H0
      (lookup_insert_eq _ _ _) eq_refl (λ q, ltac:(done))) as H1. rewrite insert_insert_eq in H1.
    epose proof (ident_wf_insert _ _ _ 1 _ 6 11 H1 (lookup_insert_eq _ _ _) eq_refl) as H2.
    rewrite insert_insert_eq in H2. apply H2. intros q [[_ ?]|[_ ?]]%lookup_insert_Some; done.
  - assert (pins_wf ∅ [] 0 [] 0) as H0.
    { split; try done; try apply NoDup_nil_2; intros p; (split; [by intros ?%elem_of_nil|]); naive_solver. }
    exact (pins_wf_insert _ _ _ _ _ 11 (pins_wf_insert _ _ _ _ _ 10 H0 eq_refl) eq_refl).
  - simpl. by intros o O [_ <-]%lookup_singleton_Some.
Qed.

Lemma out_reclaimable p : p ∈ alloc_list out_mem → reclaimable out_mem p.
Proof.
  assert (unmappable out_mem 1) by (apply unmapped_unmappable; by eexists).
  intros [-> | ->%list_elem_of_singleton]%elem_of_cons;
    [exists (out_frame 5 true)|exists (out_frame 6 false)]; by exists 1%positive, (out_file 3 2 [11%positive; 10%positive]).
Qed.

(** The first page is cleaned and freed in two steps, the second freed in one. *)
Lemma pageoutd_reclaim_makes_room_witness :
  returns (pageoutd_reclaim 4) out_mem (λ _ s', pmem_wf s' ∧
    (pageoutd_target_met s' = true ∨ alloc_list s' = [])).
Proof.
  eapply returns_mono; [apply (pageoutd_reclaim_makes_room out_mem 4)|].
  - apply out_wf.
  - apply out_reclaimable.
  - by vm_compute.
  - by intros [] s' (? & ? & _).
Defined.

(** The idle process runs; process 4 is the daemon. *)
#[local] Instance po_ex : PageoutOps unit := {|
  cur_pid x := Some PID_IDLE; p_pid x p := 4; create_pageoutd := ret None; create_pageoutd_thr p := ret None;
  sched_make_runnable t := ret tt; kthread_cancel t r := ret tt; wait_any_child := ret 4 |}.

Lemma pframe_shutdown_empties_witness :
  returns pframe_shutdown (Pageout out_mem (Some 3%positive) (Some 8%positive)) (λ _ s', frames (po_mem s') = ∅).
Proof.
  eapply returns_mono; [apply (pframe_shutdown_empties _ 3 8)|].
  - apply out_wf.
  - done.
  - apply out_reclaimable.
  - done.
  - done.
  - done.
  - eexists _, _. split; [done|]. split; [done|]. by eexists _, _.
  - by intros [] s' (_ & ? & _).
Defined.
