(* ===== verification/Reclaim.v ===== *)
(** * Giving up an address space

    [vmmap_destroy] over the page cache: vmmap.c gives up one reference for each area,
    anon.c, shadow.c and pframe.c free what nothing refers to any more. *)
From S2P Require Import Prelude Headers Vmmap VmmapProps VmmapChange VmmapCopy Pframe PframeProps.
From S2P Require Import PframeLookup PframeCow PframePut PframeMm PframeRelease.
Local Open Scope kernel_scope.

Section reclaim.
Context `{HP : PageH, HM : MmanH, HH : PmemH} {X : Type}.
Context `{HX : !PmemExt X, HT : !OtherObj X, HR : !MmRest X, HS : !SlabOps (pmem X)}.
Context {HL : ExtLaws} {HRL : MmRestLaws} {HOP : OtherPutLaws}.
Implicit Types (o x : positive) (s : pmem X) (v : vm (pmem X)) (pl : list (positive * vmarea)).

(** Objects of files shadow nothing. *)
Lemma above_file s y Y x :
  counted s → objs s !! y = Some Y → mmo_ops Y = other_mmobj_ops → above s y x → y = x.
Proof using.
  intros Hct HY Hop Hab. destruct (ct_chain _ Hct _ _ HY) as (b & k & _ & Hf). unfold shadow_fields in Hf.
  inversion Hab as [|? Y1 sh ? HY1 Hs]; subst; [done|]. simplify_eq. rewrite Hs in Hf. destruct Hf; congruence.
Qed.

(** Without references of areas only the objects of files are left. *)
Lemma only_files_left s x O :
  counted s → (∀ y, area_refs s y = 0) → objs s !! x = Some O → mmo_ops O = other_mmobj_ops.
Proof using.
  intros Hct Hno HO. destruct (counted_all_needed s x Hct) as (y & Hab & [Hy|(Y & HY & Hop)]); [by eexists| |].
  - rewrite Hno in Hy. lia.
  - pose proof (above_file s y Y x Hct HY Hop Hab). by simplify_eq.
Qed.

(** C7: Destroying an address space gives back its memory: [vmmap_destroy] returns, the
    references of its areas, and only those, are gone, and every page that is left
    belongs to an object of a file or to one that the areas of another address space
    reach.  If there is no other, nothing but the objects of files is left. *)
Theorem vmmap_destroy_reclaims v map pr pl :
  vmmap_wf v map pr pl → counted (mm v) → (∀ o, obj_count o pl.*2 <= area_refs (mm v) o) →
  returns (vmmap_destroy map) v (λ _ v', vmmaps v' !! map = None ∧ counted (mm v') ∧
    (∀ x, area_refs (mm v') x = area_refs (mm v) x - obj_count x pl.*2) ∧
    (∀ p f, frames (mm v') !! p = Some f → ∃ x, pf_obj f = Some x ∧ needed (mm v') x) ∧
    ((∀ x, area_refs (mm v) x = obj_count x pl.*2) →
       ∀ x O, objs (mm v') !! x = Some O → mmo_ops O = other_mmobj_ops)).
Proof.
  intros Hwf Hct Hown. eapply returns_mono; [by apply (vmmap_destroy_spec v map pr pl)|].
  intros [] v' (Hm & _ & Ho & _ & Hct' & _). simpl in Ho, Hct'. split; [done|]. split; [done|]. split; [done|]. split.
  - intros p f Hp. destruct (pmem_wf_frame _ p f (ct_wf _ Hct') Hp) as (x & O & Hfo & HO & _). exists x.
    split; [done|]. apply counted_all_needed; [done|by eexists].
  - intros Hall x O. apply only_files_left; [done|]. intros y. rewrite Ho, Hall. lia.
Qed.
End reclaim.
