(* ===== verification/ReclaimEx.v ===== *)
(** * Giving up memory at work

    Two shadow objects over an anonymous object as after a fork: one of them is given
    up, and then an address space that maps the other. *)
From S2P Require Import Prelude Headers Vmmap VmmapProps VmmapChange Pframe PframeProps.
From S2P Require Import PframeLookup PframeCow PframePut PframeMm PframeRelease PframeEx Reclaim.
Local Open Scope kernel_scope.

#[local] Existing Instance page_ex.
#[local] Existing Instance mman_ex.
#[local] Existing Instance pmem_h_ex.
#[local] Existing Instance ext_ex.

(** Objects of files count their references. *)
#[local] Instance files_ex : OtherObj unit := {|
  other_ref o := (O <- obj_get o ;; kassert (0 <? mmo_refcount O) ;;;
                  obj_upd o (λ O, set_mmo_refcount (mmo_refcount O + 1) O));
  other_put o := obj_upd o (λ O, set_mmo_refcount (mmo_refcount O - 1) O);
  other_lookuppage o n w := panic;
  other_fillpage o p := panic; other_dirtypage o p := panic; other_cleanpage o p := panic |}.
#[local] Instance rest_ex : MmRest unit := {|
  file_mmap f v := panic; x_tlb_flush_all := ret tt; x_pt_unmap_range lo hi := ret tt |}.

#[local] Instance rest_laws_ex : MmRestLaws.
Proof.
  split.
  - intros s o O Ho Hop. simpl. rewrite (bind_Ret _ _ _ _ _ (obj_get_eq _ _ _ Ho)).
    destruct (0 <? mmo_refcount O); [|done]. exists tt. kstep. rewrite (obj_upd_eq _ _ _ _ Ho).
    by destruct s as [????????? []].
  - intros e. by eexists _, _.
  - intros e lo hi. by eexists _, _.
  - intros s. by eexists.
Qed.
#[local] Instance rest_ext_laws_ex : ExtLaws.
Proof. split; intros; by eexists _, _. Qed.
#[local] Instance put_laws_ex : OtherPutLaws.
Proof.
  split. intros s o O Ho _ _. exists (pext s). split; [|done]. simpl. rewrite (obj_upd_eq _ _ _ _ Ho).
  by destruct s.
Qed.
#[local] Instance pslab_ex : SlabOps (pmem unit).
Proof.
  refine {| vmarea_slab s := Some (fresh (dom (vmareas s))); vmmap_slab s := Some (fresh (dom (vmmaps s)));
    vma_uninit p := Vmarea 7 7 7 7 7 None None LNull LNull |};
  intros s p [= <-]; apply not_elem_of_dom, is_fresh.
Defined.


(** ** Counting by hand *)

Section counts.
Context (over : gmap positive mmobj) (Hover : ∀ o O, over !! o = Some O → O = ex_shadow).
Context (H1 : over !! 1%positive = None).

Lemma ex_objs_inv rc x O : objs (ex_state over rc) !! x = Some O →
  x = 1%positive ∧ O = ex_anon rc 1 [10%positive] ∨ x ≠ 1%positive ∧ over !! x = Some O ∧ O = ex_shadow.
Proof using Hover. simpl. rewrite lookup_insert_Some. intros [[<- <-]|[? Hx]]; [by left|right]. eauto. Qed.

Lemma ex_points rc x g : (∀ rc, g (ex_anon rc 1 [10%positive]) = None) → g ex_shadow = Some 1%positive →
  points_to g (objs (ex_state over rc)) x = if decide (x = 1%positive) then Z.of_nat (size over) else 0.
Proof using Hover H1.
  intros Ha Hs. case_decide as Hx.
  - subst x. simpl. unfold points_to. rewrite map_count_fresh, Ha, decide_False by done. unfold map_count.
    rewrite map_filter_id; [lia|]. intros o O HO. simpl. by rewrite (Hover _ _ HO), Hs.
  - apply points_to_none. intros y Y [(_ & ->)|(_ & _ & ->)]%ex_objs_inv; [by rewrite Ha|congruence].
Qed.

Lemma ex_area_refs rc x : area_refs (ex_state over rc) x =
  if decide (x = 1%positive) then rc - 1 - 2 * Z.of_nat (size over)
  else if decide (is_Some (over !! x)) then 1 else 0.
Proof using Hover H1.
  unfold area_refs. rewrite !ex_points by done. case_decide as Hx.
  { subst x. simpl. rewrite lookup_insert_eq. unfold free_refs, ex_anon. simpl. lia. }
  simpl. rewrite lookup_insert_ne by done. case_decide as Hs.
  - destruct Hs as [O HO]. by rewrite HO, (Hover _ _ HO).
  - by rewrite (proj2 (eq_None_not_Some _) Hs).
Qed.

Lemma ex_counted rc : 1 + 2 * Z.of_nat (size over) <= rc → 1 < rc → counted (ex_state over rc).
Proof using Hover H1.
  intros Hrc Hrc1. split.
  - by apply ex_state_wf.
  - intros x. rewrite ex_area_refs. repeat case_decide; lia.
  - assert (chain (ex_state over rc) 1 1 0) as Hc by (eapply chain_bottom; [apply lookup_insert_eq|done]).
    intros o O HO. exists 1%positive. pose proof HO as [(-> & ->)|(Hne & _ & ->)]%ex_objs_inv.
    + by exists 0%nat.
    + exists 1%nat. split; [by eapply chain_step|done].
  - by intros o O _ _ p f [_ ->]%ex_frames_inv _.
  - by intros o O [(_ & ->)|(_ & _ & ->)]%ex_objs_inv v ?%elem_of_nil.
Qed.
End counts.

(** Both shadow objects are mapped once; object 2 is given up, and what is seen through
    object 3 stays. *)
Lemma mmo_put_releases_witness :
  returns (mmo_put 2) (ex_state ex_over 5) (λ _ s', counted s' ∧ area_refs s' 2 = 0 ∧ sees s' 3 5 [7; 8; 9]).
Proof.
  eapply returns_mono; [apply (mmo_put_releases (ex_state ex_over 5) 2)|].
  - by apply ex_counted; [apply ex_over_inv|..].
  - by vm_compute.
  - intros [] s' (Hct & Hrefs & _ & _ & Hsee). split; [done|]. split; [rewrite Hrefs; by vm_compute|].
    apply Hsee.
    + apply area_refs_present. rewrite Hrefs. by vm_compute.
    + eapply (sees_below _ _ _ ex_shadow 1); [done|done| |].
      * by intros q g [-> ->]%ex_frames_inv [Hq _].
      * by apply (sees_resident _ 1 5 10 ex_frame).
Defined.

(** Pages 3000-3004 on object 2, which shadows object 1. *)
Definition rec_area : vmarea := Vmarea 3000 3005 0 3 2 (Some 1%positive) (Some 2%positive) LIn LSelf.
Definition rec_pl : list (positive * vmarea) := [(1%positive, rec_area)].
Definition rec_over : gmap positive mmobj := {[ 2%positive := ex_shadow ]}.
Definition rec_vm : vm (pmem unit) :=
  Vm {[1%positive := rec_area]} {[1%positive := Vmmap [1%positive] (Some 9%positive)]} (ex_state rec_over 3).

Lemma rec_over_inv o O : rec_over !! o = Some O → O = ex_shadow.
Proof. unfold rec_over. rewrite lookup_singleton_Some. naive_solver. Qed.

Lemma rec_refs x : area_refs (ex_state rec_over 3) x = obj_count x rec_pl.*2.
Proof.
  rewrite ex_area_refs by (apply rec_over_inv || done). unfold rec_pl. csimpl. rewrite obj_count_one. simpl.
  unfold rec_over. repeat case_decide; simplify_eq; try done.
  - destruct H0 as [O HO%lookup_singleton_Some]. naive_solver.
  - exfalso. apply H0. by eexists.
Qed.

(** The page of object 1 is freed too: nothing is left. *)
Lemma vmmap_destroy_reclaims_witness :
  returns (vmmap_destroy 1) rec_vm (λ _ v', ∀ x O, objs (mm v') !! x = Some O → mmo_ops O = other_mmobj_ops).
Proof.
  eapply returns_mono; [apply (vmmap_destroy_reclaims rec_vm 1 (Some 9%positive) rec_pl)|].
  - split; [split; [reflexivity|repeat constructor]|split; [|repeat constructor]].
    repeat constructor; vm_compute; congruence.
  - by apply ex_counted; [apply rec_over_inv|..].
  - intros o. apply Z.eq_le_incl. symmetry. apply rec_refs.
  - intros [] v' (_ & _ & _ & _ & Hall). apply Hall. apply rec_refs.
Defined.
