(* ===== verification/VnSpecial.v ===== *)
(** * Special files: fs/vn_special.c

    The vnodes of device files and the operations that forward to the drivers.  The
    device tables, the drivers and the file system that holds the special files are
    the interface [DevOps]. *)
From S2P Require Import Prelude Headers.
Local Open Scope kernel_scope.

(** ** Data *)

(** The tables of vnode operations: the two of this file, and those of file systems
    by their address. *)
Inductive vnode_ops : Set := bytedev_spec_vops | blockdev_spec_vops | fs_vops (ops : positive).
#[export] Instance vnode_ops_eq_dec : EqDecision vnode_ops.
Proof. solve_decision. Defined.

(** The union of [vn_cdev] and [vn_bdev], both pointers that may be [NULL]. *)
Inductive vn_dev : Set := vn_cdev (d : option positive) | vn_bdev (d : option positive).

Record svnode := Svnode {
  vn_mode : Z;
  vn_devid : Z;
  vn_ops : option vnode_ops;
  vn_device : vn_dev;
  vn_fs : option positive
}.
Definition set_vn_special (ops : vnode_ops) (d : vn_dev) (v : svnode) : svnode :=
  Svnode (vn_mode v) (vn_devid v) (Some ops) d (vn_fs v).

(** The vnodes, and the rest of the kernel. *)
Record spec (T : Type) := Spec { vnodes : gmap positive svnode; dev : T }.
Arguments Spec {T} vnodes dev.
Arguments vnodes {T} _.
Arguments dev {T} _.

(** Operations of drivers and file systems, [None] for a null pointer.  A read gives
    the result and the bytes stored in the buffer, [mmap] the memory object it
    stored, [stat] the structure. *)
Class DevOps (T : Type) := {
  bytedev_lookup : Z → T → option positive;
  blockdev_lookup : Z → T → option positive;
  cd_ops : T → positive → option positive;
  cd_read : positive → option (positive → Z → Z → M T (Z * list Z));
  cd_write : positive → option (positive → Z → list Z → M T Z);
  cd_mmap : positive → option (positive → positive → M T (Z * option positive));
  fs_root : T → positive → option positive;
  fs_stat : positive → option (positive → M T (Z * list Z))
}.

Section special.
Context `{HF : FcntlH} {T : Type} `{HD : !DevOps T}.
Local Abbreviation V := (spec T).
Implicit Types (vn file : positive).

Definition on_dev {A} (m : M T A) : M V A := zoom dev (λ t s, Spec (vnodes s) t) m.
Definition vn_get vn : M V svnode := λ s, deref (vnodes s !! vn) s.
Definition vn_upd vn (f : svnode → svnode) : M V unit :=
  modify (λ s, Spec (alter f vn (vnodes s)) (dev s)).

(** ** The operations *)

Definition init_special_vnode vn : M V unit :=
  v <- vn_get vn ;;
  if S_ISCHR (vn_mode v) then
    d <- get (λ s, bytedev_lookup (vn_devid v) (dev s)) ;;
    vn_upd vn (set_vn_special bytedev_spec_vops (vn_cdev d))
  else
    kassert (S_ISBLK (vn_mode v)) ;;;
    d <- get (λ s, blockdev_lookup (vn_devid v) (dev s)) ;;
    vn_upd vn (set_vn_special blockdev_spec_vops (vn_bdev d)).

(** The operations of a table that are null or not. *)
Definition vop_read (o : vnode_ops) : bool :=
  match o with bytedev_spec_vops => true | blockdev_spec_vops | fs_vops _ => false end.
Definition vop_write (o : vnode_ops) : bool :=
  match o with bytedev_spec_vops => true | blockdev_spec_vops | fs_vops _ => false end.

(** [vnode->vn_fs->fs_root->vn_ops->stat(vnode, ss)].  If the root of the file system
    were itself a special file, this would be the same call again, without end. *)
Definition special_file_stat vn : M V (Z * list Z) :=
  v <- vn_get vn ;;
  fs <- deref (vn_fs v) ;;
  root <- (λ s, deref (fs_root (dev s) fs) s) ;;
  r <- vn_get root ;;
  ops <- deref (vn_ops r) ;;
  match ops with
  | fs_vops o =>
      kassert (bool_decide (is_Some (fs_stat o))) ;;;
      st <- deref (fs_stat o) ;;
      on_dev (st vn)
  | bytedev_spec_vops | blockdev_spec_vops => out_of_fuel
  end.

(** [file->vn_cdev && file->vn_cdev->cd_ops && file->vn_cdev->cd_ops->f], where [has]
    tells whether a table of driver operations has [f]. *)
Definition cdev_has (has : positive → bool) (v : svnode) : M V unit := λ s,
  kassert (match vn_device v with
           | vn_cdev (Some d) | vn_bdev (Some d) =>
               match cd_ops (dev s) d with Some o => has o | None => false end
           | vn_cdev None | vn_bdev None => false
           end) s.

Definition special_file_read (file : option positive) (offset count : Z) : M V (Z * list Z) :=
  file <- deref file ;;
  v <- vn_get file ;;
  kassert (S_ISCHR (vn_mode v) || S_ISBLK (vn_mode v)) ;;;
  if S_ISCHR (vn_mode v) then
    ops <- deref (vn_ops v) ;;
    kassert (vop_read ops) ;;;
    d <- get (λ s, bytedev_lookup (vn_devid v) (dev s)) ;;
    cdev_has (λ o, bool_decide (is_Some (cd_read o))) v ;;;
    d <- deref d ;;
    o <- (λ s, deref (cd_ops (dev s) d) s) ;;
    rd <- deref (cd_read o) ;;
    on_dev (rd d offset count)
  else ret (0, []).

Definition special_file_write (file : option positive) (offset : Z) (buf : list Z) : M V Z :=
  file <- deref file ;;
  v <- vn_get file ;;
  kassert (S_ISCHR (vn_mode v) || S_ISBLK (vn_mode v)) ;;;
  if S_ISCHR (vn_mode v) then
    ops <- deref (vn_ops v) ;;
    kassert (vop_write ops) ;;;
    d <- get (λ s, bytedev_lookup (vn_devid v) (dev s)) ;;
    d <- deref d ;;
    o <- (λ s, deref (cd_ops (dev s) d) s) ;;
    wr <- deref (cd_write o) ;;
    bytes_written <- on_dev (wr d offset buf) ;;
    v <- vn_get file ;;
    cdev_has (λ o, bool_decide (is_Some (cd_write o))) v ;;;
    ret bytes_written
  else ret 0.

Definition special_file_mmap file (vma : positive) : M V (Z * option positive) :=
  v <- vn_get file ;;
  d <- (λ s, deref (bytedev_lookup (vn_devid v) (dev s)) s) ;;
  o <- (λ s, deref (cd_ops (dev s) d) s) ;;
  mm <- deref (cd_mmap o) ;;
  on_dev (mm file vma).

Definition special_file_fillpage file (offset : Z) : M V Z := ret 0.
Definition special_file_dirtypage file (offset : Z) : M V Z := ret 0.
Definition special_file_cleanpage file (offset : Z) : M V Z := ret 0.

(** ** Forwarding to the driver *)

Implicit Types (s : V).

(** [file] is a character device with the driver [d], whose operations are [o]. *)
Definition char_device s file (d o : positive) : Prop :=
  ∃ v, vnodes s !! file = Some v ∧ S_ISCHR (vn_mode v) = true ∧
    vn_ops v = Some bytedev_spec_vops ∧ vn_device v = vn_cdev (Some d) ∧
    bytedev_lookup (vn_devid v) (dev s) = Some d ∧ cd_ops (dev s) d = Some o.

Lemma vn_get_eq s vn v : vnodes s !! vn = Some v → vn_get vn s = Ret v s.
Proof. unfold vn_get. by intros ->. Qed.

Lemma init_char_device s vn v d o :
  vnodes s !! vn = Some v → S_ISCHR (vn_mode v) = true →
  bytedev_lookup (vn_devid v) (dev s) = Some d → cd_ops (dev s) d = Some o →
  returns (init_special_vnode vn) s (λ _ s', char_device s' vn d o ∧ dev s' = dev s ∧
    ∀ x, x ≠ vn → vnodes s' !! x = vnodes s !! x).
Proof.
  intros Hv Hc Hd Ho. unfold init_special_vnode, returns.
  rewrite (bind_Ret _ _ _ _ _ (vn_get_eq _ _ _ Hv)), Hc. kstep. eexists _, _. split; [done|].
  split; [|split; [done|]].
  - eexists. simpl. rewrite (alter_lookup_insert _ _ _ _ Hv), lookup_insert_eq, Hd.
    split; [done|]. by repeat split.
  - intros x Hx. simpl. by rewrite lookup_alter_ne.
Qed.

Lemma cdev_has_eq s file d o has v :
  char_device s file d o → vnodes s !! file = Some v → has o = true → cdev_has has v s = Ret tt s.
Proof.
  intros (v' & Hv' & _ & _ & Hd & _ & Ho) Hv Hh. simplify_eq. unfold cdev_has.
  by rewrite Hd, Ho, Hh.
Qed.

(** Reading a character device is reading from its driver, and so is writing, as long
    as the device is still there afterwards. *)
Theorem special_file_forwards s file d o rd wr offset count buf :
  char_device s file d o → cd_read o = Some rd → cd_write o = Some wr →
  special_file_read (Some file) offset count s = on_dev (rd d offset count) s ∧
  ∀ r t, wr d offset buf (dev s) = Ret r t → char_device (Spec (vnodes s) t) file d o →
    special_file_write (Some file) offset buf s = Ret r (Spec (vnodes s) t).
Proof.
  intros Hcd Hrd Hwr. pose proof Hcd as (v & Hv & Hc & Hops & Hdv & Hl & Ho).
  assert (∀ A (f : positive → option A) x, f o = Some x → bool_decide (is_Some (f o)) = true) as Hhas.
  { intros A f x ->. by apply bool_decide_eq_true_2. }
  split.
  - unfold special_file_read. kstep. rewrite (bind_Ret _ _ _ _ _ (vn_get_eq _ _ _ Hv)), Hc.
    kstep. rewrite Hops. do 3 kstep.
    rewrite (bind_Ret _ _ _ _ _ (cdev_has_eq s file d o _ v Hcd Hv (Hhas _ cd_read _ Hrd))), Hl.
    kstep. rewrite (bind_Ret _ _ _ o s) by (by rewrite Ho). rewrite Hrd. by kstep.
  - intros r t Hw Hcd'. unfold special_file_write. kstep.
    rewrite (bind_Ret _ _ _ _ _ (vn_get_eq _ _ _ Hv)), Hc. kstep. rewrite Hops. do 3 kstep.
    rewrite Hl. kstep. rewrite (bind_Ret _ _ _ o s) by (by rewrite Ho). rewrite Hwr. kstep.
    rewrite (bind_Ret _ _ _ r (Spec (vnodes s) t)) by (unfold on_dev, zoom; by rewrite Hw).
    set (s' := Spec (vnodes s) t).
    rewrite (bind_Ret _ _ _ v s') by (by apply vn_get_eq).
    by rewrite (bind_Ret _ _ _ _ _ (cdev_has_eq s' file d o _ v Hcd' Hv (Hhas _ cd_write _ Hwr))).
Qed.

(** Reading or writing a block device returns 0 and does nothing. *)
Theorem special_file_block s file v offset count buf :
  vnodes s !! file = Some v → S_ISCHR (vn_mode v) = false → S_ISBLK (vn_mode v) = true →
  special_file_read (Some file) offset count s = Ret (0, []) s ∧
  special_file_write (Some file) offset buf s = Ret 0 s.
Proof.
  intros Hv Hc Hb. split.
  - unfold special_file_read. kstep. rewrite (bind_Ret _ _ _ _ _ (vn_get_eq _ _ _ Hv)), Hc, Hb. by kstep.
  - unfold special_file_write. kstep. rewrite (bind_Ret _ _ _ _ _ (vn_get_eq _ _ _ Hv)), Hc, Hb. by kstep.
Qed.
End special.
