(* ===== verification/Vfs.v ===== *)
(** * The virtual file system: fs/namev.c, fs/open.c and fs/vfs_syscall.c

    Path resolution, the descriptor table of the current process and the system
    calls on files.  The vnode operations of a file system, the reference counts of
    vnodes (vnode.c) and of open files (file.c) are the interfaces [VnOps] and
    [FileOps]. *)
From Stdlib Require Import Ascii.
From S2P Require Import Prelude Headers.
Local Open Scope kernel_scope.

(** ** Data *)

(** A C string, without its final NUL. *)
Abbreviation cstring := (list ascii) (only parsing).
Definition SLASH : ascii := "/"%char.
Definition DOT : cstring := ["."%char].
Definition DOTDOT : cstring := ["."%char; "."%char].
Abbreviation vnode := positive (only parsing).

(** The operations of a vnode, any of which can be missing ([NULL]). *)
Inductive vop : Set :=
| VLookup | VCreate | VMknod | VMkdir | VRmdir | VUnlink | VLink | VReaddir | VStat
| VRead | VWrite.

Record file := File {
  f_pos : Z;
  f_mode : Z;
  f_refcount : Z;
  f_vnode : option vnode
}.
Definition set_f_pos v f := File v (f_mode f) (f_refcount f) (f_vnode f).
Definition set_f_mode v f := File (f_pos f) v (f_refcount f) (f_vnode f).
Definition set_f_refcount v f := File (f_pos f) (f_mode f) v (f_vnode f).
Definition set_f_vnode v f := File (f_pos f) (f_mode f) (f_refcount f) v.

(** The open files, by address; [curproc]'s descriptor table and working
    directory; the file systems [F] below. *)
Record vfs (F : Type) := Vfs {
  files : gmap positive file;
  p_files : list (option positive);
  p_cwd : option vnode;
  fs : F
}.
Arguments Vfs {F} files p_files p_cwd fs.
Arguments files {F} _.
Arguments p_files {F} _.
Arguments p_cwd {F} _.
Arguments fs {F} _.

(** ** What the code calls *)

(** The operations of vnodes.  Names are given with their length, so an operation
    gets exactly the characters of the name. *)
Class VnOps (F : Type) := {
  vfs_root_vn : F → vnode;
  vn_mode : F → vnode → Z;
  vn_len : F → vnode → Z;
  vn_devid : F → vnode → Z;
  vn_has : F → vop → vnode → bool;
  vref : vnode → M F unit;
  vput : vnode → M F unit;
  vn_lookup : vnode → cstring → M F (Z * option vnode);
  vn_create : vnode → cstring → M F (Z * option vnode);
  vn_mknod : vnode → cstring → Z → Z → M F Z;
  vn_mkdir : vnode → cstring → M F Z;
  vn_rmdir : vnode → cstring → M F Z;
  vn_unlink : vnode → cstring → M F Z;
  (** [vn_link from dir name] *)
  vn_link : vnode → vnode → cstring → M F Z;
  (** The result and what is stored in the caller's buffer. *)
  vn_readdir : vnode → Z → M F (Z * list Z);
  vn_stat : vnode → M F (Z * list Z);
  vn_read : vnode → Z → Z → M F (Z * list Z);
  vn_write : vnode → Z → list Z → M F Z
}.

(** [fget] and [fput] of file.c: they use the descriptor table. *)
Class FileOps (F : Type) := {
  fget : Z → M (vfs F) (option positive);
  fput : positive → M (vfs F) unit
}.

Section vfs.
Context `{ErrnoH, LimitsH, FcntlH} {F : Type} `{VnOps F, FileOps F}.

Definition on_fs {A} (m : M F A) : M (vfs F) A :=
  zoom fs (λ t s, Vfs (files s) (p_files s) (p_cwd s) t) m.

(** Calling an operation of a vnode: a missing one stops the kernel. *)
Definition vn_call {A} (op : vop) (v : vnode) (m : M F A) : M (vfs F) A :=
  b <- get (λ s, vn_has (fs s) op v) ;;
  if (b : bool) then on_fs m else panic.

Definition vn_has_op (op : vop) (v : vnode) : M (vfs F) bool := get (λ s, vn_has (fs s) op v).
Definition vn_isdir (v : vnode) : M (vfs F) bool := get (λ s, S_ISDIR (vn_mode (fs s) v)).

(** [curproc->p_files[fd]]; an index outside the table is undefined. *)
Definition pfiles_get (fd : Z) : M (vfs F) (option positive) := λ s,
  if fd <? 0 then Panic else deref (p_files s !! Z.to_nat fd) s.
Definition pfiles_set (fd : Z) (f : option positive) : M (vfs F) unit := λ s,
  if (0 <=? fd) && (fd <? Z.of_nat (length (p_files s)))
  then Ret tt (Vfs (files s) (<[Z.to_nat fd := f]> (p_files s)) (p_cwd s) (fs s))
  else Panic.
Definition file_get (f : positive) : M (vfs F) file := λ s, deref (files s !! f) s.
Definition file_upd (f : positive) (g : file → file) : M (vfs F) unit :=
  modify (λ s, Vfs (alter g f (files s)) (p_files s) (p_cwd s) (fs s)).

(** ** fs/namev.c *)

Definition lookup (dir : option vnode) (name : option cstring) (len : Z)
    : M (vfs F) (Z * option vnode) :=
  dir <- deref dir ;;
  name <- deref name ;;
  vn_call VLookup dir (vn_lookup dir (take (Z.to_nat len) name)).

(** The loops over the characters of the path. *)
Fixpoint last_slash (path : cstring) (n : nat) : Z :=
  match n with
  | O => -1
  | S n' => if bool_decide (path !! n' = Some SLASH) then Z.of_nat n' else last_slash path n'
  end.

Fixpoint scan (fuel : nat) (slash : bool) (path : cstring) (limit pos : Z) : Z :=
  if (pos <? limit) && bool_decide (bool_decide (path !! Z.to_nat pos = Some SLASH) = slash)
  then match fuel with
       | O => pos
       | S fuel' => scan fuel' slash path limit (pos + 1)
       end
  else pos.
(** [while (next_pos < limit && '/' == path[next_pos]) next_pos++;] and the same
    for the characters that are not slashes. *)
Definition skip_slashes path limit pos := scan (Z.to_nat (limit - pos)) true path limit pos.
Definition skip_name path limit pos := scan (Z.to_nat (limit - pos)) false path limit pos.

(** The loop over the directories of the path: [cur_base], [cur_node] and
    [prev_node] at its end, or the error of a failed lookup. *)
Fixpoint dir_namev_loop (fuel : nat) (path : cstring) (limit next_pos : Z)
    (cur_base cur_node prev_node : option vnode)
    : M (vfs F) (Z + option vnode * option vnode) :=
  if next_pos <? limit then
    match fuel with
    | O => out_of_fuel
    | S fuel' =>
        let cur_pos := next_pos in
        let next_pos := skip_name path limit next_pos in
        let len := next_pos - cur_pos in
        ' (res, v) <- lookup cur_base (Some (drop (Z.to_nat cur_pos) path)) len ;;
        let cur_node := match v with Some _ => v | None => cur_node end in
        (match prev_node with Some p => on_fs (vput p) | None => ret tt end) ;;;
        if res <? 0 then ret (inl res)
        else dir_namev_loop fuel' path limit (skip_slashes path limit next_pos)
               cur_node cur_node cur_node
    end
  else ret (inr (cur_base, cur_node)).

(** After the loop: the vnode found must be a directory; the starting directory
    gets a reference of its own. *)
Definition dir_namev_finish (name_len : Z) (name : option cstring)
    (r : Z + option vnode * option vnode) : M (vfs F) (Z * Z * option cstring * option vnode) :=
  match r with
  | inl res => ret (res, name_len, name, None)
  | inr (cur_base, Some cur_node) =>
      base_node <- deref cur_base ;;
      b <- vn_has_op VLookup base_node ;;
      if (b : bool) then ret (0, name_len, name, Some cur_node)
      else on_fs (vput cur_node) ;;; ret (- ENOTDIR, name_len, name, None)
  | inr (cur_base, None) =>
      base_node <- deref cur_base ;;
      on_fs (vref base_node) ;;;
      ret (0, name_len, name, Some base_node)
  end.

(** Resolution from the directory [cur_base]. *)
Definition dir_namev_from (cur_base : option vnode) (pathname : cstring)
    : M (vfs F) (Z * Z * option cstring * option vnode) :=
  let strlen := Z.of_nat (length pathname) in
  let dir_index_limit := last_slash pathname (length pathname) in
  let name_len := strlen - (dir_index_limit + 1) in
  if (0 <? name_len) && (NAME_LEN <? name_len)
  then ret (- ENAMETOOLONG, name_len, None, None)
  else
    let name :=
      if 0 <? name_len then
        Some (if 0 <=? dir_index_limit then drop (Z.to_nat (dir_index_limit + 1)) pathname
              else pathname)
      else None in
    r <- dir_namev_loop (length pathname) pathname dir_index_limit
           (skip_slashes pathname dir_index_limit 0) cur_base None None ;;
    dir_namev_finish name_len name r.

(** The result, [*name_len], [*name] (the rest of the path from the name on) and
    [*res_vnode]; an out-argument that is not set is [None] or 0, what the callers
    initialise it to. *)
Definition dir_namev (pathname : cstring) (base : option vnode)
    : M (vfs F) (Z * Z * option cstring * option vnode) :=
  cwd <- get p_cwd ;;
  root <- get (λ s, vfs_root_vn (fs s)) ;;
  let cur_base := match base with None => cwd | _ => base end in
  let cur_base := if bool_decide (head pathname = Some SLASH) then Some root else cur_base in
  dir_namev_from cur_base pathname.

(** The result and [*res_vnode]. *)
Definition open_namev (pathname : cstring) (flag : Z) (base : option vnode)
    : M (vfs F) (Z * option vnode) :=
  ' (res, name_len, name, dir_node) <- dir_namev pathname base ;;
  if res <? 0 then ret (res, None)
  else if name_len =? 0 then ret (0, dir_node)
  else
    ' (res, v) <- lookup dir_node name name_len ;;
    dir <- deref dir_node ;;
    if res <? 0 then
      if has flag O_CREAT then
        b <- vn_has_op VCreate dir ;;
        kassert b ;;;
        name <- deref name ;;
        ' (res, v) <- vn_call VCreate dir (vn_create dir (take (Z.to_nat name_len) name)) ;;
        on_fs (vput dir) ;;;
        ret (res, v)
      else on_fs (vput dir) ;;; ret (res, None)
    else on_fs (vput dir) ;;; ret (0, v).

(** ** fs/open.c *)

Fixpoint empty_fd_from (fd : Z) (l : list (option positive)) : Z :=
  match l with
  | [] => - EMFILE
  | None :: _ => fd
  | Some _ :: r => empty_fd_from (fd + 1) r
  end.
Definition get_empty_fd : M (vfs F) Z := get (λ s, empty_fd_from 0 (p_files s)).

Definition open_mode (oflags : Z) : Z :=
  let mode := 0 in
  let mode := if oflags =? O_RDONLY then Z.lor mode FMODE_READ else mode in
  let mode := if has oflags O_WRONLY then Z.lor mode FMODE_WRITE else mode in
  let mode := if has oflags O_RDWR then Z.lor mode (Z.lor FMODE_READ FMODE_WRITE) else mode in
  if has oflags O_APPEND then Z.lor mode FMODE_APPEND else mode.

Definition do_open (filename : cstring) (oflags : Z) : M (vfs F) Z :=
  if has oflags O_WRONLY && has oflags O_RDWR then ret (- EINVAL)
  else
    fd <- get_empty_fd ;;
    file <- fget (-1) ;;
    pfiles_set fd file ;;;
    file <- deref file ;;
    _ <- file_get file ;;
    file_upd file (set_f_mode (open_mode oflags)) ;;;
    ' (res, vnode) <- open_namev filename oflags None ;;
    if res <? 0 then
      fput file ;;; pfiles_set fd None ;;; ret res
    else
      vnode <- deref vnode ;;
      d <- vn_isdir vnode ;;
      if (d : bool) && (has oflags O_WRONLY || has oflags O_RDWR) then
        on_fs (vput vnode) ;;; fput file ;;; pfiles_set fd None ;;; ret (- EISDIR)
      else
        file_upd file (set_f_vnode (Some vnode)) ;;;
        file_upd file (set_f_pos 0) ;;;
        ret fd.

(** ** fs/vfs_syscall.c: open files *)

(** The result and the bytes stored in the buffer. *)
Definition do_read (fd nbytes : Z) : M (vfs F) (Z * list Z) :=
  file <- fget fd ;;
  match file with
  | None => ret (- EBADF, [])
  | Some file =>
      f <- file_get file ;;
      d <- (match f_vnode f with Some v => vn_isdir v | None => ret false end) ;;
      if (d : bool) then fput file ;;; ret (- EISDIR, [])
      else if Z.land (f_mode f) FMODE_READ =? 0 then fput file ;;; ret (- EBADF, [])
      else
        v <- deref (f_vnode f) ;;
        ' (bytes_read, buf) <- vn_call VRead v (vn_read v (f_pos f) nbytes) ;;
        (if 0 <=? bytes_read
         then file_upd file (λ f, set_f_pos (s32 (f_pos f + bytes_read)) f) else ret tt) ;;;
        fput file ;;;
        ret (bytes_read, buf)
  end.

Definition do_lseek (fd offset whence : Z) : M (vfs F) Z :=
  if (fd <? 0) || (fd >=? Z.of_nat NFILES) then ret (- EBADF)
  else
    file <- fget fd ;;
    match file with
    | None => ret (- EBADF)
    | Some file =>
        f <- file_get file ;;
        new_pos <- (if whence =? SEEK_SET then ret (Some offset)
                    else if whence =? SEEK_CUR then ret (Some (s32 (f_pos f + offset)))
                    else if whence =? SEEK_END then
                      v <- deref (f_vnode f) ;;
                      len <- get (λ s, vn_len (fs s) v) ;;
                      ret (Some (s32 (len + offset)))
                    else ret None) ;;
        match new_pos with
        | None => fput file ;;; ret (- EINVAL)
        | Some new_pos =>
            if new_pos <? 0 then fput file ;;; ret (- EINVAL)
            else file_upd file (set_f_pos new_pos) ;;; fput file ;;; ret new_pos
        end
    end.

Definition do_write (fd : Z) (buf : list Z) : M (vfs F) Z :=
  file <- fget fd ;;
  match file with
  | None => ret (- EBADF)
  | Some file =>
      f <- file_get file ;;
      if Z.land (f_mode f) FMODE_WRITE =? 0 then fput file ;;; ret (- EBADF)
      else
        (if has (f_mode f) FMODE_APPEND then _ <- do_lseek fd 0 SEEK_END ;; ret tt
         else ret tt) ;;;
        f <- file_get file ;;
        v <- deref (f_vnode f) ;;
        bytes_written <- vn_call VWrite v (vn_write v (f_pos f) buf) ;;
        (if 0 <=? bytes_written then
           file_upd file (λ f, set_f_pos (s32 (f_pos f + bytes_written)) f) ;;;
           f <- file_get file ;;
           mode <- get (λ s, vn_mode (fs s) v) ;;
           len <- get (λ s, vn_len (fs s) v) ;;
           kassert (S_ISCHR mode || S_ISBLK mode || (S_ISREG mode && (f_pos f <=? len)))
         else ret tt) ;;;
        fput file ;;;
        ret bytes_written
  end.

Definition do_close (fd : Z) : M (vfs F) Z :=
  if (fd <? 0) || (fd >=? Z.of_nat NFILES) then ret (- EBADF)
  else
    f <- pfiles_get fd ;;
    match f with
    | None => ret (- EBADF)
    | Some f => fput f ;;; pfiles_set fd None ;;; ret 0
    end.

Definition do_dup (fd : Z) : M (vfs F) Z :=
  if (fd <? 0) || (fd >=? Z.of_nat NFILES) then ret (- EBADF)
  else
    file <- fget fd ;;
    match file with
    | None => ret (- EBADF)
    | Some _ =>
        new_fd <- get_empty_fd ;;
        pfiles_set new_fd file ;;;
        ret new_fd
    end.

Definition do_dup2 (ofd nfd : Z) : M (vfs F) Z :=
  if (ofd <? 0) || (ofd >=? Z.of_nat NFILES) then ret (- EBADF)
  else if (nfd <? 0) || (nfd >=? Z.of_nat NFILES) then ret (- EBADF)
  else
    file <- fget ofd ;;
    match file with
    | None => ret (- EBADF)
    | Some f =>
        pfiles_set nfd file ;;;
        (if nfd =? ofd then fput f else ret tt) ;;;
        ret nfd
    end.

Definition do_getdent (fd : Z) : M (vfs F) (Z * list Z) :=
  if (fd <? 0) || (fd >=? Z.of_nat NFILES) then ret (- EBADF, [])
  else
    f <- pfiles_get fd ;;
    match f with
    | None => ret (- EBADF, [])
    | Some _ =>
        file <- fget fd ;;
        file <- deref file ;;
        f <- file_get file ;;
        v <- deref (f_vnode f) ;;
        b <- vn_has_op VReaddir v ;;
        if negb b then fput file ;;; ret (- ENOTDIR, [])
        else
          ' (bytes_read, dirp) <- vn_call VReaddir v (vn_readdir v (f_pos f)) ;;
          if bytes_read =? 0 then fput file ;;; ret (0, dirp)
          else
            (if 0 <? bytes_read
             then file_upd file (λ f, set_f_pos (s32 (f_pos f + bytes_read)) f) else ret tt) ;;;
            fput file ;;;
            ret (sizeof_dirent, dirp)
    end.

(** ** fs/vfs_syscall.c: names *)

Definition do_mknod (path : cstring) (mode devid : Z) : M (vfs F) Z :=
  kassert (S_ISCHR mode || S_ISBLK mode) ;;;
  ' (_, namelen, name, dir_vnode) <- dir_namev path None ;;
  dir <- deref dir_vnode ;;
  _ <- lookup dir_vnode name namelen ;;
  b <- vn_has_op VMknod dir ;;
  kassert b ;;;
  name <- deref name ;;
  res <- vn_call VMknod dir (vn_mknod dir (take (Z.to_nat namelen) name) mode devid) ;;
  on_fs (vput dir) ;;;
  ret res.

Definition do_mkdir (path : cstring) : M (vfs F) Z :=
  ' (res, namelen, name, dir_vnode) <- dir_namev path None ;;
  root <- get (λ s, vfs_root_vn (fs s)) ;;
  if (namelen =? 0) && bool_decide (dir_vnode = Some root) then
    on_fs (vput root) ;;; ret (- EEXIST)
  else if negb (res =? 0) then ret res
  else
    dir <- deref dir_vnode ;;
    name' <- deref name ;;
    ' (res, vnode) <- lookup dir_vnode name namelen ;;
    if res =? 0 then
      on_fs (vput dir) ;;;
      vnode <- deref vnode ;;
      on_fs (vput vnode) ;;; ret (- EEXIST)
    else
      b <- vn_has_op VMkdir dir ;;
      kassert b ;;;
      res <- vn_call VMkdir dir (vn_mkdir dir (take (Z.to_nat namelen) name')) ;;
      on_fs (vput dir) ;;;
      ret res.

(** [strcmp] on [NULL] is undefined. *)
Definition do_rmdir (path : cstring) : M (vfs F) Z :=
  ' (res, namelen, name, dir_vnode) <- dir_namev path None ;;
  if negb (res =? 0) then ret res
  else
    name <- deref name ;;
    dir <- deref dir_vnode ;;
    if bool_decide (name = DOT) then on_fs (vput dir) ;;; ret (- EINVAL)
    else if bool_decide (name = DOTDOT) then on_fs (vput dir) ;;; ret (- ENOTEMPTY)
    else
      b <- vn_has_op VRmdir dir ;;
      kassert b ;;;
      res <- vn_call VRmdir dir (vn_rmdir dir (take (Z.to_nat namelen) name)) ;;
      on_fs (vput dir) ;;;
      ret res.

Definition do_unlink (path : cstring) : M (vfs F) Z :=
  ' (res, namelen, name, dir_vnode) <- dir_namev path None ;;
  if negb (res =? 0) then ret res
  else
    dir <- deref dir_vnode ;;
    ' (res, vnode) <- lookup dir_vnode name namelen ;;
    if negb (res =? 0) then on_fs (vput dir) ;;; ret res
    else
      vnode <- deref vnode ;;
      d <- vn_isdir vnode ;;
      if (d : bool) then on_fs (vput dir) ;;; on_fs (vput vnode) ;;; ret (- EPERM)
      else
        b <- vn_has_op VUnlink dir ;;
        kassert b ;;;
        name <- deref name ;;
        res <- vn_call VUnlink dir (vn_unlink dir (take (Z.to_nat namelen) name)) ;;
        on_fs (vput dir) ;;;
        on_fs (vput vnode) ;;;
        ret res.

Definition do_link (from to : cstring) : M (vfs F) Z :=
  ' (res, from_vnode) <- open_namev from 0 None ;;
  if negb (res =? 0) then ret res
  else
    ' (res, namelen, name, to_parent_vnode) <- dir_namev to None ;;
    from_vnode <- deref from_vnode ;;
    if negb (res =? 0) then on_fs (vput from_vnode) ;;; ret res
    else
      _ <- lookup to_parent_vnode name namelen ;;
      parent <- deref to_parent_vnode ;;
      name <- deref name ;;
      res <- vn_call VLink parent (vn_link from_vnode parent (take (Z.to_nat namelen) name)) ;;
      on_fs (vput from_vnode) ;;;
      on_fs (vput parent) ;;;
      ret res.

Definition do_rename (oldname newname : cstring) : M (vfs F) Z :=
  res <- do_link oldname newname ;;
  if negb (res =? 0) then ret res
  else do_unlink oldname.

Definition do_chdir (path : cstring) : M (vfs F) Z :=
  ' (res, vnode) <- open_namev path 0 None ;;
  if negb (res =? 0) then ret res
  else
    vnode <- deref vnode ;;
    d <- vn_isdir vnode ;;
    if negb d then on_fs (vput vnode) ;;; ret (- ENOTDIR)
    else
      cwd <- get p_cwd ;;
      cwd <- deref cwd ;;
      on_fs (vput cwd) ;;;
      modify (λ s, Vfs (files s) (p_files s) (Some vnode) (fs s)) ;;;
      ret 0.

Definition do_stat (path : cstring) : M (vfs F) (Z * list Z) :=
  if Z.of_nat (length path) =? 0 then ret (- EINVAL, [])
  else
    ' (res, vnode) <- open_namev path 0 None ;;
    if negb (res =? 0) then ret (res, [])
    else
      vnode <- deref vnode ;;
      b <- vn_has_op VStat vnode ;;
      kassert b ;;;
      ' (res, buf) <- vn_call VStat vnode (vn_stat vnode) ;;
      on_fs (vput vnode) ;;;
      ret (res, buf).
End vfs.
