(* ===== verification/NamevProps.v ===== *)
(** * Properties of path resolution

    [dir_namev] and [open_namev] against a description of paths as lists of
    components, and the balance of vnode reference counts. *)
From Stdlib Require Import Ascii.
From S2P Require Import Prelude Headers Vfs.
Local Open Scope kernel_scope.

(** ** What file systems and vnode.c promise *)

(** The directory tree and the reference counts that vnodes have. *)
Class VnView (F : Type) := {
  vrefs : F → vnode → Z;
  child : F → vnode → cstring → option vnode;
  (** how many more vnodes the file systems have room for *)
  fs_room : F → nat
}.

(** Everything but reference counts is the same. *)
Definition same_tree {F} `{VnOps F, VnView F} (t t' : F) : Prop :=
  child t' = child t ∧ vn_has t' = vn_has t ∧ vn_mode t' = vn_mode t ∧
  vn_len t' = vn_len t ∧ vfs_root_vn t' = vfs_root_vn t ∧ vn_devid t' = vn_devid t ∧ fs_room t' = fs_room t.

(** [one o x]: 1 if [o] is the vnode [x], else 0. *)
Definition one (o : option vnode) (x : vnode) : Z := if decide (o = Some x) then 1 else 0.

Class VnLaws (F : Type) `{VnOps F, VnView F} := {
  vrefs_nonneg t v : 0 <= vrefs t v;
  vref_spec t v : 0 < vrefs t v → returns (vref v) t (λ _ t',
    same_tree t t' ∧ ∀ x, vrefs t' x = vrefs t x + one (Some v) x);
  vput_spec t v : 0 < vrefs t v → returns (vput v) t (λ _ t',
    same_tree t t' ∧ ∀ x, vrefs t' x = vrefs t x - one (Some v) x);
  (** A lookup that succeeds takes a reference to the vnode it finds. *)
  lookup_spec t d name : vn_has t VLookup d = true → 0 < vrefs t d →
    returns (vn_lookup d name) t (λ r t', same_tree t t' ∧
      match child t d name with
      | Some c => r = (0, Some c)
      | None => r.1 < 0 ∧ r.2 = None
      end ∧ ∀ x, vrefs t' x = vrefs t x + one (child t d name) x);
  (** So does a creation; one that fails changes nothing. *)
  create_spec t d name : vn_has t VCreate d = true → 0 < vrefs t d →
    returns (vn_create d name) t (λ r t',
      (∃ v, r = (0, Some v) ∧ child t' d name = Some v ∧
        (∀ x, vrefs t' x = vrefs t x + one (Some v) x) ∧
        (∀ d' n', (d', n') ≠ (d, name) → child t' d' n' = child t d' n') ∧
        vfs_root_vn t' = vfs_root_vn t) ∨
      (∃ e, r = (e, None) ∧ e < 0 ∧ same_tree t t' ∧ ∀ x, vrefs t' x = vrefs t x));
  (** A read returns at most as many bytes as asked for, or an error. *)
  read_spec t v pos n : vn_has t VRead v = true → 0 < vrefs t v → 0 <= n →
    returns (vn_read v pos n) t (λ r t', same_tree t t' ∧ (∀ x, vrefs t' x = vrefs t x) ∧
      (r.1 < 0 ∨ 0 <= r.1 <= n ∧ Z.of_nat (length r.2) = r.1))
}.

(** ** Paths *)

(** The components of a path: the non-empty runs of characters between slashes. *)
Definition emit (w : cstring) : list cstring := match w with [] => [] | _ => [w] end.
Fixpoint comps_from (w l : cstring) : list cstring :=
  match l with
  | [] => emit w
  | c :: r => if decide (c = SLASH) then emit w ++ comps_from [] r else comps_from (w ++ [c]) r
  end.
Definition components (l : cstring) : list cstring := comps_from [] l.

(** The longest prefix of slashes, or of other characters. *)
Fixpoint run (slash : bool) (l : cstring) : cstring :=
  match l with
  | [] => []
  | c :: r => if bool_decide (bool_decide (c = SLASH) = slash) then c :: run slash r else []
  end.

(** Where a walk along directories ends: at a vnode, at a name that is not there,
    or at a vnode without a lookup operation that is asked for a name. *)
Inductive walk_end := WOk (v : vnode) | WMissing | WNoLookup.

Section paths.
Implicit Types (l u w path : cstring).

Lemma run_prefix b l : take (length (run b l)) l = run b l.
Proof. induction l as [|c l IH]; [done|]. simpl. case_bool_decide; simpl; congruence. Qed.

Lemma comps_run w l :
  comps_from w l = emit (w ++ run false l) ++ components (drop (length (run false l)) l).
Proof.
  revert w. induction l as [|c l IH]; intros w; simpl; [by rewrite !app_nil_r|].
  destruct (decide (c = SLASH)) as [Hc|Hc].
  - rewrite (bool_decide_eq_true_2 _ Hc). simpl. rewrite app_nil_r.
    unfold components. simpl. by rewrite decide_True.
  - rewrite (bool_decide_eq_false_2 _ Hc). simpl. by rewrite IH, <- app_assoc.
Qed.

Lemma components_slashes l : components l = components (drop (length (run true l)) l).
Proof.
  induction l as [|c l IH]; [done|]. simpl. destruct (decide (c = SLASH)) as [Hc|Hc].
  - rewrite (bool_decide_eq_true_2 _ Hc). simpl. rewrite <- IH.
    unfold components. simpl. by rewrite decide_True.
  - by rewrite (bool_decide_eq_false_2 _ Hc).
Qed.

Lemma drop_run_head b l :
  match drop (length (run b l)) l with
  | [] => True
  | c :: _ => bool_decide (c = SLASH) ≠ b
  end.
Proof. induction l as [|c l IH]; simpl; [done|]. case_bool_decide; simpl; done. Qed.

(** A path that does not begin with a slash: its first component and the rest. *)
Lemma components_word l c r :
  l = c :: r → c ≠ SLASH →
  components l = run false l :: components (drop (length (run false l)) l) ∧ run false l ≠ [].
Proof.
  intros -> Hc. assert (run false (c :: r) ≠ []) as Hne.
  { simpl. by rewrite (bool_decide_eq_false_2 _ Hc). }
  split; [|done]. unfold components at 1. rewrite comps_run, app_nil_l.
  by destruct (run false (c :: r)).
Qed.

(** A slash at the end adds no component. *)
Lemma components_snoc l : components (l ++ [SLASH]) = components l.
Proof.
  enough (∀ w, comps_from w (l ++ [SLASH]) = comps_from w l) as Hw by apply Hw. induction l as [|c l IH]; intros w; simpl.
  - by rewrite app_nil_r.
  - by rewrite !IH.
Qed.

(** The scanning loops follow the runs of the part of the path below the limit. *)
Lemma scan_run b path limit : ∀ fuel pos,
  0 <= pos → limit <= Z.of_nat (length path) → limit - pos <= Z.of_nat fuel →
  scan fuel b path limit pos =
    pos + Z.of_nat (length (run b (drop (Z.to_nat pos) (take (Z.to_nat limit) path)))).
Proof.
  induction fuel as [|fuel IH]; intros pos Hp Hl Hf; simpl.
  { rewrite (proj2 (Z.ltb_ge _ _)) by lia. simpl. rewrite drop_ge; [simpl; lia|].
    rewrite length_take. lia. }
  destruct (Z.ltb_spec pos limit).
  2: { simpl. rewrite drop_ge; [simpl; lia|]. rewrite length_take. lia. }
  destruct (path !! Z.to_nat pos) as [c|] eqn:Hc.
  2: { apply lookup_ge_None in Hc. lia. }
  assert (drop (Z.to_nat pos) (take (Z.to_nat limit) path)
    = c :: drop (Z.to_nat (pos + 1)) (take (Z.to_nat limit) path)) as Hd.
  { replace (Z.to_nat (pos + 1)) with (S (Z.to_nat pos)) by lia.
    apply drop_S. rewrite lookup_take_lt by lia. done. }
  rewrite Hd. simpl. 
  assert (bool_decide (Some c = Some SLASH) = bool_decide (c = SLASH)) as ->
    by (apply bool_decide_ext; naive_solver).
  case_bool_decide; simpl; [|lia]. rewrite IH by lia. lia.
Qed.

Lemma take_run_drop b path (limit pos : nat) :
  take (length (run b (drop pos (take limit path)))) (drop pos path)
    = run b (drop pos (take limit path)).
Proof.
  rewrite skipn_firstn_comm. set (v := drop pos path). set (u := take (limit - pos) v).
  assert (length (run b u) <= limit - pos)%nat as Hk.
  { rewrite <- (run_prefix b u). unfold u. rewrite !length_take. lia. }
  etrans; [|apply (run_prefix b u)]. generalize dependent (length (run b u)). intros k Hk.
  unfold u. by rewrite take_take, Nat.min_l by lia.
Qed.

(** The last slash of a path splits it in directory and name. *)
Lemma last_slash_spec (dir name : cstring) :
  SLASH ∉ name → (dir = [] ∨ last dir = Some SLASH) →
  last_slash (dir ++ name) (length (dir ++ name)) = Z.of_nat (length dir) - 1.
Proof.
  intros Hn Hd.
  assert (∀ k, (k <= length name)%nat → last_slash (dir ++ name) (length dir + k)
    = last_slash (dir ++ name) (length dir)) as Hk.
  { induction k as [|k IH]; intros Hle; [by rewrite Nat.add_0_r|].
    rewrite Nat.add_succ_r. simpl. rewrite bool_decide_eq_false_2; [apply IH; lia|].
    rewrite lookup_app_r by lia. intros Hl%list_elem_of_lookup_2. done. }
  rewrite length_app, Hk by done. destruct Hd as [->|Hd]; [done|].
  apply last_Some in Hd as [d ->]. rewrite length_app. simpl. rewrite Nat.add_1_r. simpl.
  rewrite bool_decide_eq_true_2; [lia|]. rewrite <- app_assoc. by apply list_lookup_middle.
Qed.
End paths.

(** ** Resolution *)

Section namev.
Context `{HE : ErrnoH, HLM : LimitsH, HF : FcntlH} {F : Type}
  `{HV : VnOps F, HW : VnView F, HX : !VnLaws F, HFO : FileOps F}.
Implicit Types (s : vfs F) (t : F) (d v : vnode) (path dir name : cstring).

Fixpoint walk t d (cs : list cstring) : walk_end :=
  match cs with
  | [] => WOk d
  | c :: r =>
      if vn_has t VLookup d then
        match child t d c with Some v => walk t v r | None => WMissing end
      else WNoLookup
  end.

Definition set_fs t s : vfs F := Vfs (files s) (p_files s) (p_cwd s) t.

(** Only the reference counts of vnodes changed, each by [delta]. *)
Definition refs_moved s s' (delta : vnode → Z) : Prop :=
  ∃ t, s' = set_fs t s ∧ same_tree (fs s) t ∧ ∀ x, vrefs t x = vrefs (fs s) x + delta x.

(** *** Steps *)

Lemma on_fs_eq {A} (m : M F A) s a t : m (fs s) = Ret a t → on_fs m s = Ret a (set_fs t s).
Proof. unfold on_fs, zoom. by intros ->. Qed.

Lemma vn_has_op_eq s op v : vn_has_op op v s = Ret (vn_has (fs s) op v) s.
Proof. done. Qed.

Lemma deref_Some {A} (a : A) s : deref (Some a) s = Ret a s.
Proof. done. Qed.

Lemma vn_call_eq {A} (m : M F A) s op v a t :
  vn_has (fs s) op v = true → m (fs s) = Ret a t → vn_call op v m s = Ret a (set_fs t s).
Proof. intros Hh Hm. unfold vn_call, bind, get. simpl. rewrite Hh. by apply on_fs_eq. Qed.

Lemma same_tree_refl t : same_tree t t.
Proof. done. Qed.

Lemma same_tree_trans t1 t2 t3 : same_tree t1 t2 → same_tree t2 t3 → same_tree t1 t3.
Proof. unfold same_tree. naive_solver congruence. Qed.

Lemma refs_moved_refl s : refs_moved s s (λ _, 0).
Proof. exists (fs s). split; [by destruct s|]. split; [done|]. intros. lia. Qed.

Lemma refs_moved_trans s1 s2 s3 e1 e2 :
  refs_moved s1 s2 e1 → refs_moved s2 s3 e2 → refs_moved s1 s3 (λ x, e1 x + e2 x).
Proof.
  intros (t2 & -> & Ht2 & Hr2) (t3 & -> & Ht3 & Hr3). exists t3. split; [done|]. simpl in *.
  split; [by eapply same_tree_trans|]. intros x. rewrite Hr3, Hr2. lia.
Qed.

Lemma refs_moved_ext s s' e1 e2 :
  (∀ x, e1 x = e2 x) → refs_moved s s' e1 → refs_moved s s' e2.
Proof.
  intros He (t & -> & Ht & Hr). exists t. split; [done|]. split; [done|].
  intros x. by rewrite <- He.
Qed.

Lemma refs_moved_tree s s' dl : refs_moved s s' dl → same_tree (fs s) (fs s').
Proof. by intros (t & -> & Ht & _). Qed.

Lemma refs_moved_refs s s' dl x :
  refs_moved s s' dl → vrefs (fs s') x = vrefs (fs s) x + dl x.
Proof. intros (t & -> & _ & Hr). apply Hr. Qed.

Lemma one_range o x : 0 <= one o x <= 1.
Proof. unfold one. destruct (decide _); lia. Qed.

Lemma one_eq v : one (Some v) v = 1.
Proof. unfold one. by rewrite decide_True. Qed.

Lemma vput_step s v :
  0 < vrefs (fs s) v → returns (on_fs (vput v)) s (λ _ s', refs_moved s s' (λ x, - one (Some v) x)).
Proof.
  intros Hv. destruct (vput_spec (fs s) v Hv) as ([] & t & Hr & Ht & Hx).
  exists tt, (set_fs t s). split; [by apply on_fs_eq|]. exists t. split; [done|]. split; [done|].
  intros x. rewrite Hx. lia.
Qed.

Lemma vref_step s v :
  0 < vrefs (fs s) v → returns (on_fs (vref v)) s (λ _ s', refs_moved s s' (one (Some v))).
Proof.
  intros Hv. destruct (vref_spec (fs s) v Hv) as ([] & t & Hr & Ht & Hx).
  exists tt, (set_fs t s). split; [by apply on_fs_eq|]. by exists t.
Qed.

Lemma lookup_step s d name len :
  vn_has (fs s) VLookup d = true → 0 < vrefs (fs s) d →
  returns (lookup (Some d) (Some name) len) s (λ r s',
    match child (fs s) d (take (Z.to_nat len) name) with
    | Some c => r = (0, Some c)
    | None => r.1 < 0 ∧ r.2 = None
    end ∧ refs_moved s s' (one (child (fs s) d (take (Z.to_nat len) name)))).
Proof.
  intros Hh Hd. destruct (lookup_spec (fs s) d (take (Z.to_nat len) name) Hh Hd)
    as (r & t & Hr & Ht & Hc & Hx).
  exists r, (set_fs t s). split.
  - unfold lookup, vn_call, bind, deref, ret, get. simpl. rewrite Hh. by apply on_fs_eq.
  - split; [done|]. by exists t.
Qed.

Lemma lookup_panics s d name len :
  vn_has (fs s) VLookup d = false → lookup (Some d) (Some name) len s = Panic.
Proof.
  intros Hh. unfold lookup, vn_call, bind, deref, ret, get. simpl. by rewrite Hh.
Qed.

(** Giving back the reference to the directory of the round before. *)
Lemma put_held s held :
  (∀ v, held = Some v → 0 < vrefs (fs s) v) →
  returns (match held with Some p => on_fs (vput p) | None => ret tt end) s (λ _ s',
    refs_moved s s' (λ x, - one held x)).
Proof.
  intros Hh. destruct held as [v|]; [by apply vput_step, Hh|].
  exists tt, s. split; [done|]. apply (refs_moved_ext _ _ (λ _, 0)); [done|apply refs_moved_refl].
Qed.

(** One round of the loop: the lookup and the release of the last directory. *)
Lemma lookup_round s b held name len :
  vn_has (fs s) VLookup b = true → 0 < vrefs (fs s) b → (held = None ∨ held = Some b) →
  ∃ res ov s1 s2, lookup (Some b) (Some name) len s = Ret (res, ov) s1 ∧
    (match held with Some p => on_fs (vput p) | None => ret tt end) s1 = Ret tt s2 ∧
    match child (fs s) b (take (Z.to_nat len) name) with
    | Some c => res = 0 ∧ ov = Some c ∧ 0 < vrefs (fs s2) c
    | None => res < 0 ∧ ov = None
    end ∧
    refs_moved s s2 (λ x, one (child (fs s) b (take (Z.to_nat len) name)) x - one held x).
Proof.
  intros Hhas Hb Hheld. set (w := take (Z.to_nat len) name).
  destruct (lookup_step s b name len Hhas Hb) as ([res v] & s1 & Hr1 & Hres & Hm1). fold w in Hres, Hm1.
  destruct (put_held s1 held) as ([] & s2 & Hr2 & Hm2).
  { intros v' Hv'. rewrite (refs_moved_refs _ _ _ _ Hm1).
    pose proof (one_range (child (fs s) b w) v').
    destruct Hheld; [congruence|]. simplify_eq. lia. }
  pose proof (refs_moved_trans _ _ _ _ _ Hm1 Hm2) as Hm12.
  exists res, v, s1, s2. split; [done|]. split; [done|]. split; [|exact Hm12].
  destruct (child (fs s) b w) as [c|]; [|done]. injection Hres as -> ->. do 2 (split; [done|]).
  rewrite (refs_moved_refs _ _ _ _ Hm12), one_eq.
  pose proof (vrefs_nonneg (fs s) c). unfold one.
  destruct Hheld as [-> | ->]; [by rewrite decide_False by done; lia|].
  destruct (decide (Some b = Some c)); [simplify_eq; lia|lia].
Qed.

Lemma walk_same_tree t t' cs : same_tree t t' → ∀ d, walk t' d cs = walk t d cs.
Proof.
  intros (Hc & Hh & _). induction cs as [|c cs IH]; intros d; [done|]. simpl.
  rewrite Hc, Hh. destruct (vn_has t VLookup d); [|done]. by destruct (child t d c).
Qed.

(** *** The loop over the directories *)

Section loop.
Context (path : cstring) (limit : Z).
Context (Hlim : limit <= Z.of_nat (length path)).
(** What is left of the path at [pos]. *)
Definition left pos : cstring := drop (Z.to_nat pos) (take (Z.to_nat limit) path).

Lemma skip_name_run pos :
  0 <= pos → skip_name path limit pos = pos + Z.of_nat (length (run false (left pos))).
Proof. intros Hp. apply scan_run; lia. Qed.

Lemma skip_slashes_run pos :
  0 <= pos → skip_slashes path limit pos = pos + Z.of_nat (length (run true (left pos))).
Proof. intros Hp. apply scan_run; lia. Qed.

Lemma left_drop pos k : 0 <= pos → left (pos + Z.of_nat k) = drop k (left pos).
Proof. intros Hp. unfold left. rewrite drop_drop. f_equal. lia. Qed.

Lemma left_nil pos : limit <= pos → 0 <= pos → left pos = [].
Proof. intros. unfold left. apply drop_ge. rewrite length_take. lia. Qed.

Lemma left_cons pos :
  0 <= pos < limit → ∃ c r, left pos = c :: r.
Proof.
  intros Hp. destruct (left pos) as [|c r] eqn:Hl; [|by exists c, r].
  assert (length (left pos) = 0%nat) as H0 by (by rewrite Hl).
  unfold left in H0. rewrite length_drop, length_take in H0. lia.
Qed.

(** At the start of a component, or at the end. *)
Definition at_word pos : Prop := match left pos with [] => True | c :: _ => c ≠ SLASH end.

Lemma at_word_skip pos : 0 <= pos → at_word (skip_slashes path limit pos).
Proof.
  intros Hp. unfold at_word. rewrite skip_slashes_run, left_drop by lia.
  pose proof (drop_run_head true (left pos)) as Hd. destruct (drop _ _) as [|c r]; [done|].
  by rewrite bool_decide_eq_true in Hd.
Qed.

(** What the loop does when the components [cs] are left, from the directory [b]: it
    ends at the directory they name, or at the first that is missing; [held] is the
    vnode it has a reference to. *)
Definition loop_post s b (cs : list cstring) (held : option vnode)
    (prog : M (vfs F) (Z + option vnode * option vnode)) : Prop :=
  match walk (fs s) b cs with
  | WOk d => returns prog s (λ r s',
      let held' := match cs with [] => held | _ => Some d end in
      r = inr (Some d, held') ∧ refs_moved s s' (λ x, one held' x - one held x))
  | WMissing => returns prog s (λ r s',
      ∃ e, r = inl e ∧ e < 0 ∧ refs_moved s s' (λ x, - one held x))
  | WNoLookup => prog s = Panic
  end.

Lemma loop_end fuel s pos b held :
  0 <= pos → limit <= pos →
  loop_post s b (components (left pos)) held (dir_namev_loop fuel path limit pos (Some b) held held).
Proof using Hlim.
  intros Hp Hge. rewrite left_nil by lia. unfold loop_post. simpl. exists (inr (Some b, held)), s.
  split; [destruct fuel; simpl; by rewrite (proj2 (Z.ltb_ge _ _)) by lia|]. split; [done|].
  eapply refs_moved_ext; [|apply refs_moved_refl]. intros; simpl; lia.
Qed.

(** The round for [w] moved the reference to its directory [c]. *)
Lemma loop_round s s2 b w c cs held prog prog2 :
  prog s = prog2 s2 → vn_has (fs s) VLookup b = true → child (fs s) b w = Some c →
  refs_moved s s2 (λ x, one (Some c) x - one held x) →
  loop_post s2 c cs (Some c) prog2 → loop_post s b (w :: cs) held prog.
Proof.
  intros Hrun Hhas Hc Hm IH. unfold loop_post in *. simpl. rewrite Hhas, Hc. unfold returns in *. rewrite Hrun.
  rewrite (walk_same_tree (fs s) (fs s2)) in IH by (by eapply refs_moved_tree).
  destruct (walk (fs s) c cs) as [d| |] eqn:Hwk; [| |exact IH].
  - destruct IH as (r & s' & Hr & -> & Hm3). exists (inr (Some d, Some d)), s'.
    destruct cs as [|c1 cs1]; [simpl in Hwk; simplify_eq|]; (split; [done|split; [done|]]);
      (eapply refs_moved_ext; [|eapply refs_moved_trans; [exact Hm|exact Hm3]]); intros x; simpl; lia.
  - destruct IH as (r & s' & Hr & e & -> & He & Hm3). exists (inl e), s'. split; [done|].
    exists e. split; [done|]. split; [done|].
    eapply refs_moved_ext; [|eapply refs_moved_trans; [exact Hm|exact Hm3]]. intros x. simpl. lia.
Qed.

(** The next round starts behind the component and the slashes after it. *)
Lemma next_components pos w :
  0 <= pos → w = run false (left pos) →
  let pos' := skip_slashes path limit (pos + Z.of_nat (length w)) in
  pos + Z.of_nat (length w) <= pos' ∧ components (left pos') = components (drop (length w) (left pos)).
Proof using Hlim.
  intros Hp -> pos'. unfold pos'. rewrite skip_slashes_run by lia. split; [lia|].
  rewrite !left_drop by lia. by rewrite <- components_slashes.
Qed.

Lemma dir_namev_loop_spec fuel : ∀ s pos b held,
  0 <= pos → limit - pos <= Z.of_nat fuel → at_word pos → 0 < vrefs (fs s) b →
  (held = None ∨ held = Some b) →
  loop_post s b (components (left pos)) held (dir_namev_loop fuel path limit pos (Some b) held held).
Proof using All.
  induction fuel as [|fuel IH]; intros s pos b held Hp Hf Hw Hb Hheld; [apply loop_end; lia|].
  destruct (Z.ltb_spec pos limit) as [Hlt|Hge]; [|by apply loop_end].
  destruct (left_cons pos) as (c & r & Hl); [lia|].
  unfold at_word in Hw. rewrite Hl in Hw.
  destruct (components_word (left pos) c r Hl Hw) as [Hcs Hne].
  set (w := run false (left pos)) in *. set (len := Z.of_nat (length w)).
  assert (take (Z.to_nat len) (drop (Z.to_nat pos) path) = w) as Hname.
  { unfold len. rewrite Nat2Z.id. apply take_run_drop. }
  assert (0 < len) by (unfold len; destruct w; [done|simpl; lia]).
  assert (skip_name path limit pos = pos + len) as Hsk by (by apply skip_name_run).
  destruct (next_components pos w Hp eq_refl) as [Hpos' Hcs']. fold len in Hpos', Hcs'.
  rewrite Hcs. destruct (vn_has (fs s) VLookup b) eqn:Hhas.
  2: { unfold loop_post. simpl. rewrite Hhas, (proj2 (Z.ltb_lt _ _)) by lia. unfold bind at 1. by rewrite lookup_panics. }
  destruct (lookup_round s b held (drop (Z.to_nat pos) path) len)
    as (res & v & s1 & s2 & Hr1 & Hr2 & Hres & Hm12); [done|done|done|]. rewrite Hname in Hres, Hm12.
  destruct (child (fs s) b w) as [c'|] eqn:Hc'.
  - destruct Hres as (-> & -> & Hpos).
    eapply (loop_round s s2); [|done|done|exact Hm12|rewrite <- Hcs'; apply IH; [lia|lia|apply at_word_skip; lia|done|by right]].
    simpl. rewrite (proj2 (Z.ltb_lt _ _)), Hsk by lia. replace (pos + len - pos) with len by lia.
    by rewrite (bind_Ret _ _ _ _ _ Hr1), (bind_Ret _ _ _ _ _ Hr2).
  - destruct Hres as [Hneg ->]. unfold loop_post. simpl. rewrite Hhas, Hc'. exists (inl res), s2. split.
    + rewrite (proj2 (Z.ltb_lt _ _)), Hsk by lia. replace (pos + len - pos) with len by lia.
      rewrite (bind_Ret _ _ _ _ _ Hr1), (bind_Ret _ _ _ _ _ Hr2). by rewrite (proj2 (Z.ltb_lt _ _)) by done.
    + exists res. split; [done|]. split; [done|].
      eapply refs_moved_ext; [|exact Hm12]. intros x. unfold one at 1. simpl. lia.
Qed.
End loop.

(** *** [dir_namev] *)

(** Where the resolution of a path starts. *)
Definition start_dir s path (base : option vnode) : option vnode :=
  if bool_decide (head path = Some SLASH) then Some (vfs_root_vn (fs s))
  else match base with None => p_cwd s | _ => base end.

(** What [dir_namev] does with the path [dir ++ name], [name] being what follows
    its last slash, when the walk along [dir] starts at the directory [b]. *)
Definition dir_namev_post s (b : vnode) (dir name : cstring)
    (prog : M (vfs F) (Z * Z * option cstring * option vnode)) : Prop :=
  let len := Z.of_nat (length name) in
  let out := match name with [] => None | _ => Some name end in
  if NAME_LEN <? len then prog s = Ret (- ENAMETOOLONG, len, None, None) s
  else match walk (fs s) b (components dir) with
  | WOk d =>
      if bool_decide (components dir ≠ []) && negb (vn_has (fs s) VLookup d)
      then returns prog s (λ r s', r = (- ENOTDIR, len, out, None) ∧ refs_moved s s' (λ _, 0))
      else returns prog s (λ r s', r = (0, len, out, Some d) ∧ refs_moved s s' (one (Some d)))
  | WMissing => returns prog s (λ r s', ∃ e, r = (e, len, out, None) ∧ e < 0 ∧
                                        refs_moved s s' (λ _, 0))
  | WNoLookup => prog s = Panic
  end.

(** The part of the path the loop walks along has the components of [dir]. *)
Lemma dir_components dir name :
  (dir = [] ∨ last dir = Some SLASH) →
  let limit := Z.of_nat (length dir) - 1 in
  components (drop (Z.to_nat (skip_slashes (dir ++ name) limit 0))
                (take (Z.to_nat limit) (dir ++ name))) = components dir.
Proof.
  intros Hdir limit.
  rewrite skip_slashes_run by (unfold limit; rewrite ?length_app; lia). unfold left.
  rewrite Z.add_0_l, Nat2Z.id. change (Z.to_nat 0) with 0%nat. rewrite drop_0.
  rewrite <- components_slashes. destruct Hdir as [->|Hdir]; [done|].
  apply last_Some in Hdir as [d ->]. unfold limit. rewrite length_app. simpl.
  replace (Z.to_nat (Z.of_nat (length d + 1) - 1)) with (length d) by lia.
  rewrite <- app_assoc, take_app_length. by rewrite components_snoc.
Qed.

Lemma dir_namev_name (dir name : cstring) :
  let limit := Z.of_nat (length dir) - 1 in
  (if 0 <? Z.of_nat (length name) then
     Some (if 0 <=? limit then drop (Z.to_nat (limit + 1)) (dir ++ name) else dir ++ name)
   else None) = match name with [] => None | _ => Some name end.
Proof.
  intros limit. destruct name as [|c name]; [done|].
  rewrite (proj2 (Z.ltb_lt _ _)) by (simpl; lia). f_equal. unfold limit.
  destruct dir as [|x dir]; [done|]. rewrite (proj2 (Z.leb_le _ _)) by (simpl; lia).
  rewrite Z.sub_add, Nat2Z.id. apply drop_app_length.
Qed.

Lemma finish_spec s len out d (held : option vnode) :
  (held = None ∨ held = Some d) → 0 < vrefs (fs s) d →
  if bool_decide (held ≠ None) && negb (vn_has (fs s) VLookup d)
  then returns (dir_namev_finish len out (inr (Some d, held))) s (λ r s',
    r = (- ENOTDIR, len, out, None) ∧ refs_moved s s' (λ x, - one (Some d) x))
  else returns (dir_namev_finish len out (inr (Some d, held))) s (λ r s',
    r = (0, len, out, Some d) ∧ refs_moved s s' (λ x, one (Some d) x - one held x)).
Proof.
  intros Hheld Hd. destruct Hheld as [-> | ->]; simpl.
  - destruct (vref_step s d Hd) as ([] & s' & Hr & Hm). exists (0, len, out, Some d), s'. split.
    + unfold bind at 1, deref, ret at 1. simpl. by rewrite (bind_Ret _ _ _ _ _ Hr).
    + split; [done|]. eapply refs_moved_ext; [|exact Hm]. intros x. unfold one at 3.
      rewrite decide_False by done. lia.
  - destruct (vn_has (fs s) VLookup d) eqn:Hh; simpl.
    + exists (0, len, out, Some d), s. split.
      * unfold bind, deref, vn_has_op, get, ret. simpl. by rewrite Hh.
      * split; [done|]. eapply refs_moved_ext; [|apply refs_moved_refl]. intros x. simpl. lia.
    + destruct (vput_step s d Hd) as ([] & s' & Hr & Hm). exists (- ENOTDIR, len, out, None), s'.
      split; [|done]. unfold bind at 1 2, deref, vn_has_op, get, ret at 1. simpl. rewrite Hh.
      by rewrite (bind_Ret _ _ _ _ _ Hr).
Qed.

(** The directory the loop ends at has a reference, and it is the one held. *)
Lemma final_dir s s1 b cs d (held : option vnode) :
  walk (fs s) b cs = WOk d → held = match cs with [] => None | _ => Some d end → 0 < vrefs (fs s) b →
  refs_moved s s1 (λ x, one held x - one None x) →
  0 < vrefs (fs s1) d ∧ (held = None ∨ held = Some d) ∧ bool_decide (cs ≠ []) = bool_decide (held ≠ None).
Proof.
  intros Hwalk -> Hb Hm. split; [|by destruct cs; auto].
  rewrite (refs_moved_refs _ _ _ _ Hm). pose proof (vrefs_nonneg (fs s) d).
  destruct cs as [|c cs]; [simpl in Hwalk; simplify_eq; simpl; lia|].
  rewrite one_eq. unfold one. rewrite decide_False by done. lia.
Qed.

Lemma dir_namev_from_spec s dir name b :
  SLASH ∉ name → (dir = [] ∨ last dir = Some SLASH) → 0 < vrefs (fs s) b →
  dir_namev_post s b dir name (dir_namev_from (Some b) (dir ++ name)).
Proof.
  intros Hname Hdir Hb. unfold dir_namev_post, dir_namev_from.
  pose proof (dir_components dir name Hdir) as Hcs. pose proof (dir_namev_name dir name) as Hnm.
  rewrite (last_slash_spec dir name Hname Hdir). simpl in Hcs, Hnm.
  set (path := dir ++ name) in *. set (len := Z.of_nat (length name)) in *.
  set (limit := Z.of_nat (length dir) - 1) in *.
  assert (Z.of_nat (length path) - (limit + 1) = len) as ->.
  { unfold path, len, limit. rewrite length_app. lia. }
  assert (limit <= Z.of_nat (length path)) as Hlim by (unfold path, limit; rewrite length_app; lia).
  pose proof name_len_pos as HN. rewrite Hnm.
  destruct (Z.ltb_spec NAME_LEN len).
  { by rewrite (proj2 (Z.ltb_lt _ _)) by lia. }
  rewrite andb_false_r.
  pose proof (skip_slashes_run path limit Hlim 0 ltac:(lia)) as Hskip.
  assert (0 <= skip_slashes path limit 0) as Hsk0 by (rewrite Hskip; lia).
  pose proof (dir_namev_loop_spec path limit Hlim (length path) s (skip_slashes path limit 0) b None
    Hsk0 ltac:(lia) ltac:(by apply at_word_skip) Hb (or_introl eq_refl)) as Hloop.
  unfold loop_post, left in Hloop. rewrite Hcs in Hloop.
  destruct (walk (fs s) b (components dir)) as [d| | ] eqn:Hwalk.
  - destruct Hloop as (r & s1 & Hr & -> & Hm1).
    set (held := match components dir with [] => None | _ => Some d end) in *.
    destruct (final_dir s s1 b (components dir) d held Hwalk eq_refl Hb Hm1) as (Hd & Hheld & ->).
    pose proof (finish_spec s1 len (match name with [] => None | _ => Some name end) d held Hheld Hd)
      as Hfin.
    destruct (refs_moved_tree _ _ _ Hm1) as (_ & Hh1 & _). rewrite Hh1 in Hfin.
    destruct (bool_decide (held ≠ None) && _) eqn:Hb'; (apply returns_bind; eexists _, _;
      split; [exact Hr|]; eapply returns_mono; [exact Hfin|]; intros r s' [-> Hm2]; split; [done|];
      eapply refs_moved_ext; [|eapply refs_moved_trans; [exact Hm1|exact Hm2]]); intros x; simpl.
    + apply andb_true_iff in Hb' as [Hb'%bool_decide_eq_true _].
      destruct Hheld as [? | ->]; [done|]. unfold one. rewrite (decide_False (P:=None = Some x)) by done. lia.
    + unfold one at 2. rewrite (decide_False (P:=None = Some x)) by done. lia.
  - destruct Hloop as (r & s1 & Hr & e & -> & He & Hm1). apply returns_bind.
    eexists _, _. split; [exact Hr|]. eexists _, _. split; [done|]. exists e.
    split; [done|]. split; [done|]. eapply refs_moved_ext; [|exact Hm1].
    intros x. simpl. unfold one. by rewrite decide_False.
  - unfold bind at 1. by rewrite Hloop.
Qed.

Lemma dir_namev_post_ext s b dir name prog prog' :
  prog' s = prog s → dir_namev_post s b dir name prog → dir_namev_post s b dir name prog'.
Proof. unfold dir_namev_post, returns. by intros ->. Qed.

Lemma dir_namev_spec s base dir name b :
  SLASH ∉ name → (dir = [] ∨ last dir = Some SLASH) →
  start_dir s (dir ++ name) base = Some b → 0 < vrefs (fs s) b →
  dir_namev_post s b dir name (dir_namev (dir ++ name) base).
Proof.
  intros Hname Hdir Hstart Hb.
  eapply dir_namev_post_ext; [|by apply dir_namev_from_spec].
  rewrite <- Hstart. reflexivity.
Qed.

(** C11: [dir_namev] on a path [dir ++ name], [name] being what follows the last
    slash, where no component is asked for in a vnode without a lookup operation: it
    returns with [-ENAMETOOLONG] for a name longer than NAME_LEN; otherwise the
    components of [dir] are looked up one after the other from the root or the starting
    directory, and it returns 0 with the directory reached, which has one more
    reference, and the name; or a negative error if a component is missing, or
    [-ENOTDIR] if the last one is not a directory, in these three cases with every
    reference count as before. *)
Theorem dir_namev_resolves s base dir name b :
  SLASH ∉ name → (dir = [] ∨ last dir = Some SLASH) →
  start_dir s (dir ++ name) base = Some b → 0 < vrefs (fs s) b →
  walk (fs s) b (components dir) ≠ WNoLookup →
  returns (dir_namev (dir ++ name) base) s (λ r s', ∃ e res,
    r = (e, Z.of_nat (length name),
         if bool_decide (name = [] ∨ NAME_LEN < Z.of_nat (length name)) then None else Some name, res) ∧
    if decide (NAME_LEN < Z.of_nat (length name)) then e = - ENAMETOOLONG ∧ res = None ∧ s' = s
    else match walk (fs s) b (components dir) with
    | WOk d =>
        if decide (components dir = [] ∨ vn_has (fs s) VLookup d = true)
        then e = 0 ∧ res = Some d ∧ refs_moved s s' (one (Some d))
        else e = - ENOTDIR ∧ res = None ∧ refs_moved s s' (λ _, 0)
    | _ => e < 0 ∧ res = None ∧ refs_moved s s' (λ _, 0)
    end).
Proof.
  intros Hname Hdir Hstart Hb Hwalk.
  pose proof (dir_namev_spec s base dir name b Hname Hdir Hstart Hb) as Hp.
  unfold dir_namev_post in Hp. destruct (Z.ltb_spec NAME_LEN (Z.of_nat (length name))).
  { eexists _, _. split; [exact Hp|]. eexists _, _. rewrite bool_decide_true by auto.
    split; [done|]. by rewrite decide_True. }
  destruct (decide (NAME_LEN < Z.of_nat (length name))); [lia|].
  replace (if bool_decide (name = [] ∨ NAME_LEN < Z.of_nat (length name)) then None else Some name)
    with (match name with [] => None | _ => Some name end) by
    (destruct name; [by rewrite bool_decide_true by auto|]; rewrite bool_decide_false; [done|];
     intros [?|?]; [done|lia]).
  destruct (walk (fs s) b (components dir)) as [d| |] eqn:Hw; [|..|done].
  - destruct (decide (components dir = [] ∨ _)) as [Hc|Hc].
    + replace (bool_decide (components dir ≠ []) && negb (vn_has (fs s) VLookup d)) with false in Hp
        by (destruct Hc as [-> | ->]; [done|by rewrite andb_false_r]).
      eapply returns_mono; [exact Hp|]. intros r s' [-> Hm]. by eexists _, _.
    + rewrite bool_decide_true in Hp by tauto.
      destruct (vn_has (fs s) VLookup d); [tauto|]. eapply returns_mono; [exact Hp|].
      intros r s' [-> Hm]. by eexists _, _.
  - eapply returns_mono; [exact Hp|]. intros r s' (e & -> & He & Hm). by eexists _, _.
Qed.

(** A path through a vnode without a lookup operation, such as a regular file, stops
    the kernel: [lookup] calls the missing operation. *)
Theorem dir_namev_no_lookup_panics s base dir name b :
  SLASH ∉ name → (dir = [] ∨ last dir = Some SLASH) →
  start_dir s (dir ++ name) base = Some b → 0 < vrefs (fs s) b →
  Z.of_nat (length name) <= NAME_LEN → walk (fs s) b (components dir) = WNoLookup →
  dir_namev (dir ++ name) base s = Panic.
Proof.
  intros Hname Hdir Hstart Hb Hlen Hw.
  pose proof (dir_namev_spec s base dir name b Hname Hdir Hstart Hb) as Hp.
  unfold dir_namev_post in Hp. by rewrite (proj2 (Z.ltb_ge _ _)), Hw in Hp by done.
Qed.

(** *** [open_namev] *)

(** The file [name] was created in [d], with a reference for the caller, or the
    creation failed. *)
Definition created s s' d name (r : Z * option vnode) : Prop :=
  (∃ v t, r = (0, Some v) ∧ s' = set_fs t s ∧ child t d name = Some v ∧
    (∀ d' n', (d', n') ≠ (d, name) → child t d' n' = child (fs s) d' n') ∧
    ∀ x, vrefs t x = vrefs (fs s) x + one (Some v) x) ∨
  (∃ e, r = (e, None) ∧ e < 0 ∧ refs_moved s s' (λ _, 0)).

Definition open_namev_post s (b : vnode) (dir name : cstring) (flag : Z)
    (prog : M (vfs F) (Z * option vnode)) : Prop :=
  let fails := returns prog s (λ r s', ∃ e, r = (e, None) ∧ e < 0 ∧ refs_moved s s' (λ _, 0)) in
  match walk (fs s) b (components dir) with
  | WMissing => fails
  | WNoLookup => prog s = Panic
  | WOk d =>
      if vn_has (fs s) VLookup d then
        match name with
        | [] => returns prog s (λ r s', r = (0, Some d) ∧ refs_moved s s' (one (Some d)))
        | _ =>
            match child (fs s) d name with
            | Some c => returns prog s (λ r s', r = (0, Some c) ∧ refs_moved s s' (one (Some c)))
            | None =>
                if has flag O_CREAT
                then vn_has (fs s) VCreate d = true → returns prog s (λ r s', created s s' d name r)
                else fails
            end
        end
      else components dir ≠ [] → fails
  end.

Lemma lookup_name_step s d name :
  name ≠ [] → vn_has (fs s) VLookup d = true → 0 < vrefs (fs s) d →
  returns (lookup (Some d) (Some name) (Z.of_nat (length name))) s (λ r s',
    match child (fs s) d name with
    | Some c => r = (0, Some c)
    | None => r.1 < 0 ∧ r.2 = None
    end ∧ refs_moved s s' (one (child (fs s) d name))).
Proof.
  intros Hne Hh Hd. pose proof (lookup_step s d name (Z.of_nat (length name)) Hh Hd) as Hl.
  rewrite Nat2Z.id, firstn_all in Hl. exact Hl.
Qed.

(** The creation of [name] in [d], which gives back the reference to [d]. *)
Lemma create_step s1 d name :
  name ≠ [] → vn_has (fs s1) VCreate d = true → 0 < vrefs (fs s1) d →
  returns (b <- vn_has_op VCreate d ;;
    kassert b ;;;
    name' <- deref (Some name) ;;
    ' (res, v) <- vn_call VCreate d (vn_create d (take (Z.to_nat (Z.of_nat (length name))) name')) ;;
    on_fs (vput d) ;;; ret (res, v)) s1 (λ r s',
      (∃ v t, r = (0, Some v) ∧ s' = set_fs t s1 ∧ child t d name = Some v ∧
        (∀ d' n', (d', n') ≠ (d, name) → child t d' n' = child (fs s1) d' n') ∧
        ∀ x, vrefs t x = vrefs (fs s1) x + one (Some v) x - one (Some d) x) ∨
      (∃ e, r = (e, None) ∧ e < 0 ∧ refs_moved s1 s' (λ x, - one (Some d) x))).
Proof.
  intros Hne Hh Hd'.
  destruct (create_spec (fs s1) d name Hh Hd') as (r & t & Hr & Hpost).
  unfold returns. rewrite (bind_Ret _ _ _ _ _ (vn_has_op_eq _ _ _)), Hh.
  rewrite (bind_Ret _ _ s1 tt s1), (bind_Ret _ _ _ _ _ (deref_Some _ _)) by done.
  rewrite Nat2Z.id, firstn_all. rewrite (bind_Ret _ _ _ _ _ (vn_call_eq _ _ _ _ _ _ Hh Hr)).
  destruct Hpost as [(v & -> & Hc & Hx & Hoth & _)|(e & -> & He & Hst & Hx)].
  - destruct (vput_step (set_fs t s1) d) as ([] & s2 & Hr2 & (t2 & -> & (Hc2 & _) & Hx2)).
    { simpl. rewrite Hx. pose proof (one_range (Some v) d). lia. }
    rewrite (bind_Ret _ _ _ _ _ Hr2). eexists _, _. split; [done|]. left. exists v, t2.
    split; [done|]. split; [done|]. simpl in *. rewrite Hc2. split; [done|]. split; [done|].
    intros x. rewrite Hx2, Hx. lia.
  - destruct (vput_step (set_fs t s1) d) as ([] & s2 & Hr2 & Hm2).
    { simpl. by rewrite Hx. }
    rewrite (bind_Ret _ _ _ _ _ Hr2). eexists _, _. split; [done|]. right. exists e.
    split; [done|]. split; [done|].
    eapply refs_moved_ext; [|eapply (refs_moved_trans s1 (set_fs t s1)); [|exact Hm2]].
    2: { exists t. split; [done|]. split; [done|]. intros x. by rewrite Hx, Z.add_0_r. }
    intros x. simpl. lia.
Qed.

(** Two moves that cancel out. *)
Lemma refs_moved_back s1 s2 s3 e1 e2 :
  refs_moved s1 s2 e1 → refs_moved s2 s3 (λ x, e2 x - e1 x) → refs_moved s1 s3 e2.
Proof.
  intros H1 H2. eapply refs_moved_ext; [|eapply refs_moved_trans; [exact H1|exact H2]].
  intros x. simpl. lia.
Qed.

Lemma vput_moved s1 s2 v dl :
  refs_moved s1 s2 dl → 0 <= dl v → 0 < vrefs (fs s1) v →
  returns (on_fs (vput v)) s2 (λ _ s3, refs_moved s1 s3 (λ x, dl x - one (Some v) x)).
Proof.
  intros Hm Hdl Hv. eapply returns_mono.
  - apply (vput_step s2 v). rewrite (refs_moved_refs _ _ _ _ Hm). lia.
  - intros [] s3 Hm3. eapply refs_moved_back; [exact Hm|]. eapply refs_moved_ext; [|exact Hm3].
    intros x. simpl. lia.
Qed.

(** The rest of [open_namev] once the directory [d] is there, with a reference. *)
Lemma open_tail_spec s s1 d name flag :
  name ≠ [] → vn_has (fs s) VLookup d = true → refs_moved s s1 (one (Some d)) →
  let prog := (' (res, v) <- lookup (Some d) (Some name) (Z.of_nat (length name)) ;;
    dir <- deref (Some d) ;;
    if res <? 0 then
      if has flag O_CREAT then
        b <- vn_has_op VCreate dir ;;
        kassert b ;;;
        name <- deref (Some name) ;;
        ' (res, v) <- vn_call VCreate dir
            (vn_create dir (take (Z.to_nat (Z.of_nat (length name))) name)) ;;
        on_fs (vput dir) ;;;
        ret (res, v)
      else on_fs (vput dir) ;;; ret (res, None)
    else on_fs (vput dir) ;;; ret (0, v)) in
  match child (fs s) d name with
  | Some c => returns prog s1 (λ r s', r = (0, Some c) ∧ refs_moved s s' (one (Some c)))
  | None =>
      if has flag O_CREAT
      then vn_has (fs s) VCreate d = true → returns prog s1 (λ r s', created s s' d name r)
      else returns prog s1 (λ r s', ∃ e, r = (e, None) ∧ e < 0 ∧ refs_moved s s' (λ _, 0))
  end.
Proof.
  intros Hne Hh Hm1 prog. pose proof (refs_moved_tree _ _ _ Hm1) as (Hc1 & Hh1 & _).
  assert (0 < vrefs (fs s1) d) as Hd1.
  { rewrite (refs_moved_refs _ _ _ _ Hm1), one_eq. pose proof (vrefs_nonneg (fs s) d). lia. }
  destruct (lookup_name_step s1 d name Hne) as ([res v] & s2 & Hr2 & Hres & Hm2);
    [by rewrite Hh1|done|]. rewrite Hc1 in Hres, Hm2.
  unfold prog, returns. rewrite (bind_Ret _ _ _ _ _ Hr2), (bind_Ret _ _ _ _ _ (deref_Some _ _)).
  pose proof (refs_moved_trans _ _ _ _ _ Hm1 Hm2) as Hm12.
  destruct (child (fs s) d name) as [c|] eqn:Hc.
  - injection Hres as -> ->. simpl.
    destruct (vput_moved s1 s2 d _ Hm2) as ([] & s3 & Hr3 & Hm3); [apply one_range|done|].
    rewrite (bind_Ret _ _ _ _ _ Hr3). eexists _, _. split; [done|]. split; [done|].
    eapply refs_moved_back; [exact Hm1|exact Hm3].
  - destruct Hres as [Hneg _]. simpl in Hneg. rewrite (proj2 (Z.ltb_lt _ _)) by done.
    assert (∀ x, one None x = 0) as Hnone by (intros x; unfold one; by rewrite decide_False).
    assert (vrefs (fs s2) d = vrefs (fs s1) d) as Hd2.
    { rewrite (refs_moved_refs _ _ _ _ Hm2), Hnone. lia. }
    destruct (has flag O_CREAT).
    + intros Hcr. destruct (refs_moved_tree _ _ _ Hm12) as (Hc12 & Hh12 & _).
      eapply returns_mono; [apply (create_step s2 d name Hne); [by rewrite Hh12|lia]|].
      intros r s' [(v' & t & -> & -> & Hch & Hoth & Hx)|(e & -> & He & Hm3)].
      * left. exists v', t. split; [done|]. split; [by destruct Hm12 as (? & -> & _)|].
        split; [done|]. split; [intros; rewrite Hoth by done; by rewrite Hc12|].
        intros x. rewrite Hx, (refs_moved_refs _ _ _ _ Hm12), Hnone. lia.
      * right. exists e. split; [done|]. split; [done|].
        eapply refs_moved_back; [exact Hm12|]. eapply refs_moved_ext; [|exact Hm3].
        intros x. simpl. rewrite Hnone. lia.
    + destruct (vput_step s2 d) as ([] & s3 & Hr3 & Hm3); [lia|].
      rewrite (bind_Ret _ _ _ _ _ Hr3). eexists _, _. split; [done|]. exists res.
      split; [done|]. split; [done|]. eapply refs_moved_back; [exact Hm12|].
      eapply refs_moved_ext; [|exact Hm3]. intros x. simpl. rewrite Hnone. lia.
Qed.

Lemma open_namev_spec s flag base dir name b :
  SLASH ∉ name → (dir = [] ∨ last dir = Some SLASH) → Z.of_nat (length name) <= NAME_LEN →
  start_dir s (dir ++ name) base = Some b → 0 < vrefs (fs s) b →
  open_namev_post s b dir name flag (open_namev (dir ++ name) flag base).
Proof.
  intros Hname Hdir Hlen Hstart Hb. pose proof errno_pos as Herr.
  pose proof (dir_namev_spec s base dir name b Hname Hdir Hstart Hb) as Hdn.
  unfold dir_namev_post in Hdn. rewrite (proj2 (Z.ltb_ge _ _)) in Hdn by lia.
  unfold open_namev_post, open_namev.
  destruct (walk (fs s) b (components dir)) as [d| | ].
  - destruct (vn_has (fs s) VLookup d) eqn:Hh.
    + rewrite andb_false_r in Hdn. destruct Hdn as (r & s1 & Hr & -> & Hm1).
      unfold returns. rewrite (bind_Ret _ _ _ _ _ Hr). simpl.
      destruct name as [|c0 name]; [by eexists _, _|].
      rewrite (proj2 (Z.eqb_neq _ _)) by (simpl; lia).
      exact (open_tail_spec s s1 d (c0 :: name) flag ltac:(done) Hh Hm1).
    + intros Hne. rewrite bool_decide_eq_true_2 in Hdn by done. simpl in Hdn.
      destruct Hdn as (r & s1 & Hr & -> & Hm1). unfold returns.
      rewrite (bind_Ret _ _ _ _ _ Hr). errno_bounds.
      rewrite (proj2 (Z.ltb_lt _ _)) by lia. eexists _, _. split; [done|].
      eexists. split; [done|]. split; [lia|done].
  - destruct Hdn as (r & s1 & Hr & e & -> & He & Hm1). unfold returns.
    rewrite (bind_Ret _ _ _ _ _ Hr). rewrite (proj2 (Z.ltb_lt _ _)) by lia.
    eexists _, _. split; [done|]. by exists e.
  - unfold bind at 1. by rewrite Hdn.
Qed.

(** [open_namev] on a path whose name is not too long: it returns the file
    the path leads to with one more reference, the directory itself if the path
    ends in a slash; with O_CREAT a missing file is created in that directory;
    otherwise a negative error.  Apart from the reference it returns, every
    reference count is as before. *)
Theorem open_namev_resolves s flag base dir name b :
  SLASH ∉ name → (dir = [] ∨ last dir = Some SLASH) → Z.of_nat (length name) <= NAME_LEN →
  start_dir s (dir ++ name) base = Some b → 0 < vrefs (fs s) b →
  open_namev_post s b dir name flag (open_namev (dir ++ name) flag base).
Proof. apply open_namev_spec. Qed.
End namev.
