(* ===== verification/VfsProps.v ===== *)
(** * Properties of open files and of the descriptor table *)
From Stdlib Require Import Ascii.
From S2P Require Import Prelude Headers Vfs NamevProps.
Local Open Scope kernel_scope.

Definition set_files {F} (m : gmap positive file) (s : vfs F) : vfs F :=
  Vfs m (p_files s) (p_cwd s) (fs s).

(** What file.c promises: [fget] counts a reference, or makes a new file for the
    descriptor -1; [fput] gives a reference back and with the last one the file
    and its vnode. *)
Class FileLaws (F : Type) `{VnOps F, VnView F, FileOps F} := {
  fget_new_spec s : returns (fget (-1)) s (λ r s', (r = None ∧ s' = s) ∨
    ∃ f, r = Some f ∧ files s !! f = None ∧ s' = set_files (<[f := File 0 0 1 None]> (files s)) s);
  fget_open_spec s fd f x :
    0 <= fd → p_files s !! Z.to_nat fd = Some (Some f) → files s !! f = Some x →
    fget fd s = Ret (Some f) (set_files (<[f := set_f_refcount (f_refcount x + 1) x]> (files s)) s);
  fget_bad_spec s fd :
    fd < -1 ∨ Z.of_nat (length (p_files s)) <= fd ∨
    (0 <= fd ∧ p_files s !! Z.to_nat fd = Some None) → fget fd s = Ret None s;
  fput_spec s f x : files s !! f = Some x → 1 < f_refcount x →
    fput f s = Ret tt (set_files (<[f := set_f_refcount (f_refcount x - 1) x]> (files s)) s);
  fput_last_spec s f x : files s !! f = Some x → f_refcount x = 1 →
    (∀ v, f_vnode x = Some v → 0 < vrefs (fs s) v) →
    returns (fput f) s (λ _ s', ∃ t, s' = Vfs (delete f (files s)) (p_files s) (p_cwd s) t ∧
      same_tree (fs s) t ∧ ∀ v, vrefs t v = vrefs (fs s) v - one (f_vnode x) v)
}.

Section vfs.
Context `{HE : ErrnoH, HLM : LimitsH, HF : FcntlH} {F : Type}
  `{HV : VnOps F, HW : VnView F, HX : !VnLaws F, HFO : FileOps F, HFL : !FileLaws F}.
Implicit Types (s : vfs F) (fd : Z) (f : positive) (x : file).

(** ** The descriptor table *)

(** How many descriptors refer to the file at [f], and how many open files hold
    the vnode [v]. *)
Definition fd_count (l : list (option positive)) f : Z :=
  Z.of_nat (length (filter (λ o, o = Some f) l)).
Definition vn_held (m : gmap positive file) (v : vnode) : Z :=
  map_count (λ x, f_vnode x = Some v) m.

(** The table has an entry per descriptor; the reference count of a file is the
    number of descriptors of this process that refer to it, and of references from
    elsewhere; an open file holds a reference to its vnode. *)
Record table_ok (others : positive → Z) s : Prop := TableOk {
  tk_len : length (p_files s) = NFILES;
  tk_refs f x : files s !! f = Some x →
    f_refcount x = fd_count (p_files s) f + others f ∧ 0 < f_refcount x;
  tk_live (i : nat) f : p_files s !! i = Some (Some f) → is_Some (files s !! f);
  tk_others f : 0 <= others f ∧ (files s !! f = None → others f = 0);
  tk_vnode f x : files s !! f = Some x → is_Some (f_vnode x);
  tk_vnodes v : vn_held (files s) v <= vrefs (fs s) v
}.

(** *** Counting *)

Lemma fd_count_insert l (i : nat) o o' f :
  l !! i = Some o →
  fd_count (<[i := o']> l) f = fd_count l f
    - (if decide (o = Some f) then 1 else 0) + (if decide (o' = Some f) then 1 else 0).
Proof.
  intros Hi. assert (i < length l)%nat by (by apply lookup_lt_is_Some; eexists).
  unfold fd_count. rewrite insert_take_drop by done.
  rewrite <- (take_drop_middle l i o Hi) at 3.
  rewrite !filter_app, !filter_cons, !length_app.
  destruct (decide (o = Some f)), (decide (o' = Some f)); simpl; lia.
Qed.

Lemma fd_count_pos l f : 0 <= fd_count l f.
Proof. unfold fd_count. lia. Qed.

Lemma fd_count_in l i f : l !! i = Some (Some f) → 0 < fd_count l f.
Proof.
  intros Hi. unfold fd_count. destruct (filter _ l) as [|y l'] eqn:Hf; [|simpl; lia].
  assert (Some f ∈ filter (λ o, o = Some f) l) as Hin.
  { apply list_elem_of_filter. split; [done|]. by eapply list_elem_of_lookup_2. }
  rewrite Hf in Hin. by apply elem_of_nil in Hin.
Qed.

Lemma vn_held_fresh m f y v :
  m !! f = None →
  vn_held (<[f := y]> m) v = vn_held m v + (if decide (f_vnode y = Some v) then 1 else 0).
Proof. exact (map_count_fresh (λ x, f_vnode x = Some v) m f y). Qed.

Lemma vn_held_delete m f x v :
  m !! f = Some x →
  vn_held (delete f m) v = vn_held m v - (if decide (f_vnode x = Some v) then 1 else 0).
Proof. exact (map_count_delete (λ x, f_vnode x = Some v) m f x). Qed.

Lemma vn_held_insert m f x y v :
  m !! f = Some x → vn_held (<[f := y]> m) v = vn_held m v
    - (if decide (f_vnode x = Some v) then 1 else 0)
    + (if decide (f_vnode y = Some v) then 1 else 0).
Proof. exact (map_count_insert (λ x, f_vnode x = Some v) m f x y). Qed.

(** An open file holds its vnode. *)
Lemma vn_held_open m f x v : m !! f = Some x → f_vnode x = Some v → 0 < vn_held m v.
Proof.
  intros Hf Hv. pose proof (vn_held_delete m f x v Hf) as Hd. rewrite decide_True in Hd by done.
  pose proof (map_count_pos (λ x, f_vnode x = Some v) (delete f m)). unfold vn_held in *. lia.
Qed.

Lemma vn_held_same m f x y v :
  m !! f = Some x → f_vnode y = f_vnode x → vn_held (<[f := y]> m) v = vn_held m v.
Proof. intros Hf Hy. rewrite (vn_held_insert m f x y v Hf), Hy. lia. Qed.

(** *** A file that is used for the length of a call *)

(** Changing a file, not its references, keeps the table. *)
Lemma table_ok_file others s f x y :
  table_ok others s → files s !! f = Some x → f_vnode y = f_vnode x →
  f_refcount y = f_refcount x → table_ok others (set_files (<[f := y]> (files s)) s).
Proof.
  intros [Hl Hr Hv Ho Hw Hn] Hf Hy Hc. split; simpl; [done| | | | |].
  - intros g z. rewrite lookup_insert. case_decide as Hg; [intros [= <-]|apply Hr].
    subst g. rewrite Hc. by apply Hr.
  - intros i g Hi. rewrite lookup_insert. case_decide; [by eexists|by eapply Hv].
  - intros g. destruct (Ho g) as [Hg1 Hg2]. split; [done|]. rewrite lookup_insert.
    case_decide; [done|done].
  - intros g z. rewrite lookup_insert. case_decide as Hg; [intros [= <-]|apply Hw].
    rewrite Hy. by eapply Hw.
  - intros v. rewrite (vn_held_same _ f x) by done. apply Hn.
Qed.

(** A descriptor that is open. *)
Definition open_fd s fd f x : Prop :=
  0 <= fd ∧ p_files s !! Z.to_nat fd = Some (Some f) ∧ files s !! f = Some x.

Lemma fd_cases others s fd :
  table_ok others s → 0 <= fd < Z.of_nat NFILES →
  (∃ f x, open_fd s fd f x) ∨ p_files s !! Z.to_nat fd = Some None.
Proof.
  intros Hok Hfd. destruct (p_files s !! Z.to_nat fd) as [[f|]|] eqn:Hp; [|by right|].
  - left. destruct (tk_live _ _ Hok _ _ Hp) as [x Hx]. exists f, x. split; [lia|done].
  - apply lookup_ge_None in Hp. rewrite (tk_len _ _ Hok) in Hp. lia.
Qed.

Lemma open_fd_refs others s fd f x :
  table_ok others s → open_fd s fd f x → 0 < f_refcount x.
Proof. intros Hok (_ & _ & Hx). by apply (tk_refs _ _ Hok) in Hx as [_ ?]. Qed.

(** [fput] of a file that was got before and changed by [g] in between. *)
Lemma fput_got s f x y :
  files s !! f = Some x → 0 < f_refcount x → f_refcount y = f_refcount x + 1 →
  fput f (set_files (<[f := y]> (files s)) s)
    = Ret tt (set_files (<[f := set_f_refcount (f_refcount x) y]> (files s)) s).
Proof.
  intros Hf Hx Hy.
  rewrite (fput_spec _ f y) by first [apply lookup_insert_eq | lia].
  unfold set_files. simpl. rewrite insert_insert_eq. do 3 f_equal. f_equal. lia.
Qed.

Lemma file_refs_id x : set_f_refcount (f_refcount x) (set_f_refcount (f_refcount x + 1) x) = x.
Proof. by destruct x. Qed.

Lemma set_files_id s f x : files s !! f = Some x → set_files (<[f := x]> (files s)) s = s.
Proof. intros Hf. destruct s. unfold set_files. simpl in *. by rewrite insert_id. Qed.

Lemma fget_fput s f x :
  files s !! f = Some x → 0 < f_refcount x →
  fput f (set_files (<[f := set_f_refcount (f_refcount x + 1) x]> (files s)) s) = Ret tt s.
Proof.
  intros Hf Hx. rewrite (fput_got s f x) by done.
  by rewrite file_refs_id, set_files_id.
Qed.

Lemma file_get_eq s f x : files s !! f = Some x → file_get f s = Ret x s.
Proof. unfold file_get. by intros ->. Qed.

Lemma file_get_set s f x : file_get f (set_files (<[f := x]> (files s)) s)
  = Ret x (set_files (<[f := x]> (files s)) s).
Proof. apply file_get_eq, lookup_insert_eq. Qed.

Lemma file_upd_set s f x g :
  file_upd f g (set_files (<[f := x]> (files s)) s)
    = Ret tt (set_files (<[f := g x]> (files s)) s).
Proof. unfold file_upd, modify, set_files. simpl. by rewrite alter_insert_eq. Qed.

(** Whether a call that checks its descriptor accepts it. *)
Lemma fd_check fd : 0 <= fd < Z.of_nat NFILES →
  (fd <? 0) || (fd >=? Z.of_nat NFILES) = false.
Proof. intros. rewrite Z.geb_leb. destruct (Z.ltb_spec fd 0), (Z.leb_spec (Z.of_nat NFILES) fd); lia || done. Qed.

Lemma fd_check_bad fd : ¬ (0 <= fd < Z.of_nat NFILES) →
  (fd <? 0) || (fd >=? Z.of_nat NFILES) = true.
Proof. intros. rewrite Z.geb_leb. destruct (Z.ltb_spec fd 0), (Z.leb_spec (Z.of_nat NFILES) fd); lia || done. Qed.

Lemma open_fd_range others s fd f x :
  table_ok others s → open_fd s fd f x → 0 <= fd < Z.of_nat NFILES.
Proof.
  intros Hok (H0 & Hp & _). apply lookup_lt_Some in Hp. rewrite (tk_len _ _ Hok) in Hp. lia.
Qed.

Lemma fget_closed others s fd :
  table_ok others s → 0 <= fd < Z.of_nat NFILES → p_files s !! Z.to_nat fd = Some None →
  fget fd s = Ret None s.
Proof. intros Hok Hfd Hp. apply fget_bad_spec. right. right. split; [lia|done]. Qed.

(** ** Seeking *)

(** The position a seek asks for. *)
Definition seek_target s x (offset whence : Z) : option Z :=
  if whence =? SEEK_SET then Some offset
  else if whence =? SEEK_CUR then Some (s32 (f_pos x + offset))
  else if whence =? SEEK_END then
    v ← f_vnode x; Some (s32 (vn_len (fs s) v + offset))
  else None.

Lemma do_lseek_eq others s fd offset whence f x :
  table_ok others s → open_fd s fd f x →
  do_lseek fd offset whence s =
    match seek_target s x offset whence with
    | Some p => if p <? 0 then Ret (- EINVAL) s
                else Ret p (set_files (<[f := set_f_pos p x]> (files s)) s)
    | None => Ret (- EINVAL) s
    end.
Proof.
  intros Hok Hopen. pose proof (open_fd_range _ _ _ _ _ Hok Hopen) as Hfd.
  pose proof (open_fd_refs _ _ _ _ _ Hok Hopen) as Hrx.
  destruct Hopen as (H0 & Hp & Hf). destruct (tk_vnode _ _ Hok _ _ Hf) as [v Hv].
  unfold do_lseek, seek_target. rewrite (fd_check _ Hfd).
  rewrite (bind_Ret _ _ _ _ _ (fget_open_spec s fd f x H0 Hp Hf)).
  rewrite (bind_Ret _ _ _ _ _ (file_get_set _ _ _)). simpl. rewrite Hv.
  assert (∀ (p : Z), (if p <? 0 then fput f ;;; ret (- EINVAL)
      else file_upd f (set_f_pos p) ;;; fput f ;;; ret p)
    (set_files (<[f := set_f_refcount (f_refcount x + 1) x]> (files s)) s)
    = (if p <? 0 then Ret (- EINVAL) s
       else Ret p (set_files (<[f := set_f_pos p x]> (files s)) s))) as Hend.
  { intros p. destruct (p <? 0).
    - by rewrite (bind_Ret _ _ _ _ _ (fget_fput s f x Hf Hrx)).
    - rewrite (bind_Ret _ _ _ _ _ (file_upd_set _ _ _ _)).
      erewrite bind_Ret by (by apply (fput_got s f x)). by destruct x. }
  destruct (whence =? SEEK_SET); [apply Hend|]. destruct (whence =? SEEK_CUR); [apply Hend|].
  destruct (whence =? SEEK_END); [apply Hend|].
  unfold bind at 1. simpl. by rewrite (bind_Ret _ _ _ _ _ (fget_fput s f x Hf Hrx)).
Qed.

Lemma do_lseek_bad others s fd offset whence :
  table_ok others s → (¬ 0 <= fd < Z.of_nat NFILES ∨ p_files s !! Z.to_nat fd = Some None) →
  do_lseek fd offset whence s = Ret (- EBADF) s.
Proof.
  intros Hok Hbad. unfold do_lseek.
  destruct (decide (0 <= fd < Z.of_nat NFILES)) as [Hfd|Hfd].
  - rewrite (fd_check _ Hfd). destruct Hbad as [|Hp]; [done|].
    by rewrite (bind_Ret _ _ _ _ _ (fget_closed _ _ _ Hok Hfd Hp)).
  - by rewrite (fd_check_bad _ Hfd).
Qed.

(** [do_lseek] moves the position of an open file to the place asked for and
    returns it; a negative target or an unknown [whence] is -EINVAL, a descriptor
    that is not open -EBADF, and an error changes nothing, not even the reference
    count of the file. *)
Theorem do_lseek_moves others s fd offset whence :
  table_ok others s →
  do_lseek fd offset whence s =
    match (p_files s !! Z.to_nat fd : option (option positive)) with
    | Some (Some f) =>
        match files s !! f with
        | Some x =>
            if 0 <=? fd then
              match seek_target s x offset whence with
              | Some p => if p <? 0 then Ret (- EINVAL) s
                          else Ret p (set_files (<[f := set_f_pos p x]> (files s)) s)
              | None => Ret (- EINVAL) s
              end
            else Ret (- EBADF) s
        | None => Panic
        end
    | _ => Ret (- EBADF) s
    end.
Proof.
  intros Hok. destruct (p_files s !! Z.to_nat fd) as [[f|]|] eqn:Hp.
  - destruct (tk_live _ _ Hok _ _ Hp) as [x Hx]. rewrite Hx.
    destruct (Z.leb_spec 0 fd).
    + by apply (do_lseek_eq others).
    + apply (do_lseek_bad others); [done|]. left. lia.
  - apply (do_lseek_bad others); [done|]. by right.
  - apply (do_lseek_bad others); [done|]. left. apply lookup_ge_None in Hp.
    rewrite (tk_len _ _ Hok) in Hp. lia.
Qed.

(** ** Closing *)

Lemma pfiles_get_eq s fd o :
  0 <= fd → p_files s !! Z.to_nat fd = Some o → pfiles_get fd s = Ret o s.
Proof. intros H0 Hp. unfold pfiles_get. rewrite (proj2 (Z.ltb_ge _ _)) by lia. by rewrite Hp. Qed.

Lemma pfiles_set_eq s fd o :
  0 <= fd < Z.of_nat (length (p_files s)) →
  pfiles_set fd o s = Ret tt (Vfs (files s) (<[Z.to_nat fd := o]> (p_files s)) (p_cwd s) (fs s)).
Proof.
  intros Hfd. unfold pfiles_set. by rewrite (proj2 (Z.leb_le _ _)), (proj2 (Z.ltb_lt _ _)) by lia.
Qed.

Lemma pfiles_set_bad s fd o :
  ¬ (0 <= fd < Z.of_nat (length (p_files s))) → pfiles_set fd o s = Panic.
Proof.
  intros Hfd. unfold pfiles_set.
  destruct (Z.leb_spec 0 fd), (Z.ltb_spec fd (Z.of_nat (length (p_files s)))); simpl; lia || done.
Qed.

(** The state after the descriptor [fd], which refers to [f], is gone. *)
Definition closed s fd f x s' : Prop :=
  p_files s' = <[Z.to_nat fd := None]> (p_files s) ∧ p_cwd s' = p_cwd s ∧
  same_tree (fs s) (fs s') ∧
  if decide (f_refcount x = 1)
  then files s' = delete f (files s) ∧
       ∀ v, vrefs (fs s') v = vrefs (fs s) v - one (f_vnode x) v
  else files s' = <[f := set_f_refcount (f_refcount x - 1) x]> (files s) ∧
       ∀ v, vrefs (fs s') v = vrefs (fs s) v.

Lemma closed_table_ok others s fd f x s' :
  table_ok others s → open_fd s fd f x → closed s fd f x s' → table_ok others s'.
Proof.
  intros Hok Hopen (Hp' & _ & _ & Hcase). pose proof Hopen as (H0 & Hp & Hf).
  pose proof (fd_count_in _ _ _ Hp) as Hcnt.
  pose proof Hok as [Hl Hr Hv Ho Hw Hn]. destruct (Hr f x Hf) as [Hrx Hpos].
  assert (∀ g, fd_count (p_files s') g = fd_count (p_files s) g - if decide (f = g) then 1 else 0) as Hc'.
  { intros g. rewrite Hp', (fd_count_insert _ _ (Some f)) by done.
    destruct (decide (Some f = Some g)), (decide (None = Some g)), (decide (f = g)); naive_solver lia. }
  assert (length (p_files s') = NFILES) as Hl' by (by rewrite Hp', length_insert).
  assert (∀ i g, p_files s' !! i = Some (Some g) → p_files s !! i = Some (Some g)) as Hsub.
  { intros i g. rewrite Hp', list_lookup_insert_Some. naive_solver. }
  destruct (decide (f_refcount x = 1)) as [H1|H1].
  - destruct Hcase as [Hf' Hv']. assert (fd_count (p_files s) f = 1 ∧ others f = 0) as [Hone Hof].
    { destruct (Ho f). lia. }
    split; [done| | | | |].
    + intros g z. rewrite Hf', lookup_delete. case_decide; [done|]. intros Hg.
      rewrite Hc', decide_False by done. rewrite Z.sub_0_r. by apply Hr.
    + intros i g Hi. rewrite Hf', lookup_delete. case_decide as Hg; [|by eapply Hv, Hsub].
      subst g. exfalso. pose proof (fd_count_in _ _ _ Hi) as Hbad.
      rewrite Hc', decide_True in Hbad by done. lia.
    + intros g. destruct (Ho g) as [Hg1 Hg2]. split; [done|]. rewrite Hf', lookup_delete.
      case_decide; [by subst|done].
    + intros g z. rewrite Hf', lookup_delete. case_decide; [done|]. apply Hw.
    + intros v. rewrite Hf', (vn_held_delete _ f x), Hv' by done. specialize (Hn v). unfold one. lia.
  - destruct Hcase as [Hf' Hv']. split; [done| | | | |].
    + intros g z. rewrite Hf', lookup_insert, Hc'. case_decide as Hg.
      * intros [= <-]. simpl. subst g. lia.
      * intros Hgz. rewrite Z.sub_0_r. by apply Hr.
    + intros i g Hi. rewrite Hf', lookup_insert. case_decide; [by eexists|by eapply Hv, Hsub].
    + intros g. destruct (Ho g) as [Hg1 Hg2]. split; [done|]. rewrite Hf', lookup_insert.
      case_decide; done.
    + intros g z. rewrite Hf', lookup_insert. case_decide; [intros [= <-]; exact (Hw f x Hf)|apply Hw].
    + intros v. rewrite Hf', (vn_held_same _ f x), Hv' by done. apply Hn.
Qed.

Lemma do_close_open others s fd f x :
  table_ok others s → open_fd s fd f x →
  returns (do_close fd) s (λ r s', r = 0 ∧ closed s fd f x s').
Proof.
  intros Hok Hopen. pose proof (open_fd_range _ _ _ _ _ Hok Hopen) as Hfd.
  pose proof (open_fd_refs _ _ _ _ _ Hok Hopen) as Hrx. destruct Hopen as (H0 & Hp & Hf).
  unfold do_close, returns. rewrite (fd_check _ Hfd), (bind_Ret _ _ _ _ _ (pfiles_get_eq _ _ _ H0 Hp)).
  pose proof (tk_len _ _ Hok) as Hl. unfold closed. destruct (decide (f_refcount x = 1)) as [H1|H1].
  - destruct (fput_last_spec s f x Hf H1) as ([] & s' & Hr & t & -> & Ht & Hv).
    { intros v Hv. pose proof (tk_vnodes _ _ Hok v) as Hn.
      pose proof (vn_held_open _ _ _ _ Hf ltac:(done)). lia. }
    rewrite (bind_Ret _ _ _ _ _ Hr). erewrite bind_Ret by (apply pfiles_set_eq; simpl; lia).
    eexists _, _. split; [done|]. simpl. done.
  - rewrite (bind_Ret _ _ _ _ _ (fput_spec s f x Hf ltac:(lia))).
    erewrite bind_Ret by (apply pfiles_set_eq; simpl; lia).
    eexists _, _. split; [done|]. simpl. done.
Qed.

Lemma do_close_bad others s fd :
  table_ok others s → (¬ 0 <= fd < Z.of_nat NFILES ∨ p_files s !! Z.to_nat fd = Some None) →
  do_close fd s = Ret (- EBADF) s.
Proof.
  intros Hok Hbad. unfold do_close.
  destruct (decide (0 <= fd < Z.of_nat NFILES)) as [Hfd|Hfd].
  - rewrite (fd_check _ Hfd). destruct Hbad as [|Hp]; [done|].
    by rewrite (bind_Ret _ _ _ _ _ (pfiles_get_eq _ _ _ (proj1 Hfd) Hp)).
  - by rewrite (fd_check_bad _ Hfd).
Qed.

(** ** Duplicating *)

Lemma empty_fd_spec l k :
  (∃ i, l !! i = Some None ∧ (∀ j, (j < i)%nat → l !! j ≠ Some None) ∧
     empty_fd_from k l = k + Z.of_nat i) ∨
  ((∀ i, l !! i ≠ Some None) ∧ empty_fd_from k l = - EMFILE).
Proof.
  revert k. induction l as [|[f|] l IH]; intros k; simpl.
  - right. by split.
  - destruct (IH (k + 1)) as [(i & Hi & Hlow & ->)|[Hno ->]].
    + left. exists (S i). split; [done|]. split; [|lia]. intros [|j] Hj; [done|]. apply Hlow. lia.
    + right. split; [|done]. intros [|i]; [done|apply Hno].
  - left. exists 0%nat. split; [done|]. split; [lia|]. lia.
Qed.

(** One more descriptor, [i], for the file at [f]. *)
Definition shared s (i : nat) f x : vfs F :=
  Vfs (<[f := set_f_refcount (f_refcount x + 1) x]> (files s)) (<[i := Some f]> (p_files s))
      (p_cwd s) (fs s).

(** If the descriptor was in use, the reference it stood for has no descriptor any more. *)
Lemma shared_table_ok others s i f x o :
  table_ok others s → p_files s !! i = Some o → files s !! f = Some x →
  table_ok (λ g, others g + if decide (o = Some g) then 1 else 0) (shared s i f x).
Proof.
  intros [Hl Hr Hv Ho Hw Hn] Hi Hf. unfold shared.
  assert (∀ g, fd_count (<[i := Some f]> (p_files s)) g
    = fd_count (p_files s) g + (if decide (f = g) then 1 else 0) - if decide (o = Some g) then 1 else 0)
    as Hc.
  { intros g. rewrite (fd_count_insert _ _ o) by done.
    destruct (decide (Some f = Some g)), (decide (o = Some g)), (decide (f = g)); naive_solver lia. }
  split; simpl; [by rewrite length_insert| | | | |].
  - intros g z. rewrite lookup_insert, Hc. case_decide as Hg.
    + intros [= <-]. subst g. simpl. destruct (Hr f x Hf). lia.
    + intros Hgz. destruct (Hr g z Hgz). lia.
  - intros j g. rewrite list_lookup_insert_Some, lookup_insert. case_decide; [by eexists|].
    intros [(_ & [= ->] & _)|[_ Hj]]; [done|by eapply Hv].
  - intros g. destruct (Ho g) as [Hg1 Hg2]. split; [case_decide; lia|]. rewrite lookup_insert.
    case_decide; [done|]. intros Hg. rewrite (Hg2 Hg). case_decide as Ho'; [|done].
    subst o. destruct (Hv _ _ Hi). congruence.
  - intros g z. rewrite lookup_insert. case_decide; [intros [= <-]; exact (Hw f x Hf)|apply Hw].
  - intros v. rewrite (vn_held_same _ f x) by done. apply Hn.
Qed.

Lemma table_ok_ext others others' s :
  (∀ g, others g = others' g) → table_ok others s → table_ok others' s.
Proof. intros He [Hl Hr Hv Ho Hw Hn]. split; try done; intros g; rewrite <- He; by auto. Qed.

(** The references that no descriptor accounts for after [do_dup2], if it takes the
    descriptor [nfd] from the file it referred to. *)
Definition lost s (ofd nfd r : Z) (g : positive) : Z :=
  if decide (r = nfd ∧ 0 <= nfd ∧ nfd ≠ ofd ∧ p_files s !! Z.to_nat nfd = Some (Some g)) then 1 else 0.

Lemma do_dup_open others s fd f x :
  table_ok others s → open_fd s fd f x →
  (∃ i, p_files s !! i = Some None ∧ (∀ j, (j < i)%nat → p_files s !! j ≠ Some None) ∧
     do_dup fd s = Ret (Z.of_nat i) (shared s i f x)) ∨
  ((∀ i, p_files s !! i ≠ Some None) ∧ do_dup fd s = Panic).
Proof.
  intros Hok Hopen. pose proof (open_fd_range _ _ _ _ _ Hok Hopen) as Hfd.
  destruct Hopen as (H0 & Hp & Hf). unfold do_dup.
  rewrite (fd_check _ Hfd), (bind_Ret _ _ _ _ _ (fget_open_spec s fd f x H0 Hp Hf)).
  unfold get_empty_fd, bind at 1 3, get. simpl.
  destruct (empty_fd_spec (p_files s) 0) as [(i & Hi & Hlow & ->)|[Hno ->]].
  - left. exists i. split; [done|]. split; [done|]. pose proof (lookup_lt_Some _ _ _ Hi).
    erewrite bind_Ret by (apply pfiles_set_eq; simpl; lia).
    rewrite Z.add_0_l, Nat2Z.id. done.
  - right. split; [done|]. unfold bind. rewrite pfiles_set_bad; [done|].
    errno_bounds. lia.
Qed.

Lemma do_dup_bad others s fd :
  table_ok others s → (¬ 0 <= fd < Z.of_nat NFILES ∨ p_files s !! Z.to_nat fd = Some None) →
  do_dup fd s = Ret (- EBADF) s.
Proof.
  intros Hok Hbad. unfold do_dup. destruct (decide (0 <= fd < Z.of_nat NFILES)) as [Hfd|Hfd].
  - rewrite (fd_check _ Hfd). destruct Hbad as [|Hp]; [done|].
    by rewrite (bind_Ret _ _ _ _ _ (fget_closed _ _ _ Hok Hfd Hp)).
  - by rewrite (fd_check_bad _ Hfd).
Qed.

Lemma do_dup2_open others s ofd nfd f x :
  table_ok others s → open_fd s ofd f x → 0 <= nfd < Z.of_nat NFILES →
  do_dup2 ofd nfd s = Ret nfd (if nfd =? ofd then s else shared s (Z.to_nat nfd) f x).
Proof.
  intros Hok Hopen Hn. pose proof (open_fd_range _ _ _ _ _ Hok Hopen) as Hfd.
  pose proof (open_fd_refs _ _ _ _ _ Hok Hopen) as Hrx.
  destruct Hopen as (H0 & Hp & Hf). pose proof (tk_len _ _ Hok) as Hl. unfold do_dup2.
  rewrite (fd_check _ Hfd), (fd_check _ Hn).
  rewrite (bind_Ret _ _ _ _ _ (fget_open_spec s ofd f x H0 Hp Hf)).
  erewrite bind_Ret by (apply pfiles_set_eq; simpl; lia). simpl.
  destruct (Z.eqb_spec nfd ofd) as [->|]; [|done].
  rewrite (list_insert_id _ _ _ Hp). fold (set_files (F:=F) (<[f := set_f_refcount (f_refcount x + 1) x]> (files s)) s).
  by rewrite (bind_Ret _ _ _ _ _ (fget_fput s f x Hf Hrx)).
Qed.

Lemma do_dup2_bad others s ofd nfd :
  table_ok others s →
  (¬ 0 <= ofd < Z.of_nat NFILES ∨ ¬ 0 <= nfd < Z.of_nat NFILES ∨
   p_files s !! Z.to_nat ofd = Some None) →
  do_dup2 ofd nfd s = Ret (- EBADF) s.
Proof.
  intros Hok Hbad. unfold do_dup2.
  destruct (decide (0 <= ofd < Z.of_nat NFILES)) as [Hfd|Hfd]; [|by rewrite (fd_check_bad _ Hfd)].
  rewrite (fd_check _ Hfd).
  destruct (decide (0 <= nfd < Z.of_nat NFILES)) as [Hn|Hn]; [|by rewrite (fd_check_bad _ Hn)].
  rewrite (fd_check _ Hn). destruct Hbad as [|[|Hp]]; [done|done|].
  by rewrite (bind_Ret _ _ _ _ _ (fget_closed _ _ _ Hok Hfd Hp)).
Qed.

Lemma lost_none s ofd nfd r others :
  table_ok others s → (r = nfd → 0 <= nfd → nfd = ofd) → table_ok (λ g, others g + lost s ofd nfd r g) s.
Proof.
  intros Hok Hr. eapply table_ok_ext; [|exact Hok]. intros g. unfold lost.
  rewrite decide_False; [lia|]. naive_solver.
Qed.

Lemma dup2_accounts others s ofd nfd :
  table_ok others s →
  returns (do_dup2 ofd nfd) s (λ r s', table_ok (λ g, others g + lost s ofd nfd r g) s').
Proof.
  intros Hok. errno_bounds.
  assert (¬ 0 <= ofd < Z.of_nat NFILES ∨ ¬ 0 <= nfd < Z.of_nat NFILES ∨
      p_files s !! Z.to_nat ofd = Some None →
    returns (do_dup2 ofd nfd) s (λ r s', table_ok (λ g, others g + lost s ofd nfd r g) s')) as Hbad.
  { intros Hbad. eexists _, _. split; [by apply (do_dup2_bad others)|]. apply lost_none; [done|lia]. }
  destruct (decide (0 <= ofd < Z.of_nat NFILES)) as [Hfd|]; [|by auto].
  destruct (decide (0 <= nfd < Z.of_nat NFILES)) as [Hn|]; [|by auto].
  destruct (fd_cases _ _ _ Hok Hfd) as [(f & x & Hopen)|Hp]; [|by auto].
  eexists _, _. split; [by apply (do_dup2_open others _ _ _ f x)|].
  destruct (Z.eqb_spec nfd ofd); [by apply lost_none|].
  destruct (lookup_lt_is_Some_2 (p_files s) (Z.to_nat nfd)) as [o Ho];
    [pose proof (tk_len _ _ Hok); lia|].
  eapply table_ok_ext; [|apply (shared_table_ok others _ _ _ _ o); [done|done|apply Hopen]].
  intros g. unfold lost. simpl. f_equal. rewrite Ho.
  destruct (decide (o = Some g)) as [->|];
    [rewrite decide_True; [done|split_and!; try done; lia]|rewrite decide_False; [done|naive_solver]].
Qed.

(** Duplicating onto a descriptor that is in use drops that descriptor without
    giving its reference back: the file it referred to keeps one reference that no
    descriptor accounts for. *)
Theorem do_dup2_leaks others s ofd nfd f x g y :
  table_ok others s → open_fd s ofd f x → open_fd s nfd g y → nfd ≠ ofd →
  returns (do_dup2 ofd nfd) s (λ r s', r = nfd ∧ ∃ z, files s' !! g = Some z ∧
    f_refcount z = fd_count (p_files s') g + others g + 1).
Proof.
  intros Hok Hof Hog Hne. pose proof (open_fd_range _ _ _ _ _ Hok Hog) as Hn.
  eexists _, _. split; [by apply (do_dup2_open others _ _ _ f x)|]. split; [done|].
  rewrite (proj2 (Z.eqb_neq _ _)) by done. destruct Hof as (_ & _ & Hf), Hog as (_ & Hp & Hg).
  simpl. rewrite lookup_insert, (fd_count_insert _ _ (Some g)) by done.
  rewrite (decide_True (P := Some g = Some g)) by done.
  destruct (tk_refs _ _ Hok g y Hg) as [Hry _].
  destruct (decide (f = g)) as [->|Hfg].
  - simplify_eq. eexists. split; [done|]. simpl. rewrite decide_True by done. lia.
  - exists y. split; [done|]. rewrite decide_False by congruence. lia.
Qed.

(** ** Reading *)

(** A read of [n] bytes from the file at [f] whose vnode is [v]. *)
Definition read_post s f x (n : Z) (r : Z * list Z) s' : Prop :=
  ∃ t, same_tree (fs s) t ∧ (∀ v, vrefs t v = vrefs (fs s) v) ∧
    ((r.1 < 0 ∧ s' = set_fs t s) ∨
     (0 <= r.1 <= n ∧ Z.of_nat (length r.2) = r.1 ∧
      s' = set_files (<[f := set_f_pos (s32 (f_pos x + r.1)) x]> (files s)) (set_fs t s))).

Lemma do_read_open others s fd n f x v :
  table_ok others s → open_fd s fd f x → f_vnode x = Some v → 0 <= n →
  if S_ISDIR (vn_mode (fs s) v) then do_read fd n s = Ret (- EISDIR, []) s
  else if Z.land (f_mode x) FMODE_READ =? 0 then do_read fd n s = Ret (- EBADF, []) s
  else if vn_has (fs s) VRead v then returns (do_read fd n) s (read_post s f x n)
  else do_read fd n s = Panic.
Proof.
  intros Hok Hopen Hv Hn. pose proof (open_fd_refs _ _ _ _ _ Hok Hopen) as Hrx.
  destruct Hopen as (H0 & Hp & Hf). unfold do_read, returns.
  rewrite (bind_Ret _ _ _ _ _ (fget_open_spec s fd f x H0 Hp Hf)).
  rewrite (bind_Ret _ _ _ _ _ (file_get_set _ _ _)). simpl. rewrite Hv.
  set (s1 := set_files (<[f := set_f_refcount (f_refcount x + 1) x]> (files s)) s).
  change (fs s) with (fs s1) at 1.
  rewrite (bind_Ret _ _ s1 (S_ISDIR (vn_mode (fs s1) v)) s1) by done.
  destruct (S_ISDIR (vn_mode (fs s1) v)).
  { by rewrite (bind_Ret _ _ _ _ _ (fget_fput s f x Hf Hrx)). }
  destruct (Z.land (f_mode x) FMODE_READ =? 0).
  { by rewrite (bind_Ret _ _ _ _ _ (fget_fput s f x Hf Hrx)). }
  rewrite (bind_Ret _ _ s1 v s1) by done.
  destruct (vn_has (fs s) VRead v) eqn:Hh.
  2: { unfold bind at 1, vn_call, bind at 1, get. simpl. by rewrite Hh. }
  assert (0 < vrefs (fs s1) v) as Hvr.
  { pose proof (tk_vnodes _ _ Hok v) as Hn'. simpl.
    pose proof (vn_held_open _ _ _ _ Hf ltac:(done)). lia. }
  destruct (read_spec (fs s1) v (f_pos x) n Hh Hvr Hn) as ([k buf] & t & Hr & Ht & Hx & Hk).
  rewrite (bind_Ret _ _ _ _ _ (vn_call_eq _ s1 _ _ _ _ Hh Hr)). simpl in Hk.
  destruct (Z.leb_spec 0 k) as [Hk0|Hk0].
  - assert (file_upd f (λ x0, set_f_pos (s32 (f_pos x0 + k)) x0) (set_fs t s1)
      = Ret tt (set_files (<[f := set_f_pos (s32 (f_pos x + k)) (set_f_refcount (f_refcount x + 1) x)]>
          (files s)) (set_fs t s))) as Hupd
      by exact (file_upd_set (set_fs t s) f _ (λ x0, set_f_pos (s32 (f_pos x0 + k)) x0)).
    rewrite (bind_Ret _ _ _ _ _ Hupd).
    erewrite bind_Ret by (apply (fput_got (set_fs t s) f x); done).
    eexists _, _. split; [done|]. exists t. split; [done|]. split; [done|]. right.
    simpl. split; [lia|]. split; [lia|]. by destruct x.
  - rewrite (bind_Ret _ _ (set_fs t s1) tt (set_fs t s1)) by done.
    erewrite bind_Ret by (apply (fget_fput (set_fs t s) f x); done).
    eexists _, _. split; [done|]. exists t. split; [done|]. split; [done|]. by left.
Qed.

Lemma do_read_bad others s fd n :
  table_ok others s → (¬ 0 <= fd < Z.of_nat NFILES ∨ p_files s !! Z.to_nat fd = Some None) →
  Z.land 0 FMODE_READ = 0 →
  returns (do_read fd n) s (λ r s', r = (- EBADF, []) ∧ refs_moved s s' (λ _, 0)).
Proof.
  intros Hok Hbad H0. destruct (decide (fd = -1)) as [->|Hne].
  - unfold do_read, returns.
    destruct (fget_new_spec s) as (r & s1 & Hr & [[-> ->]|(f & -> & Hf & ->)]);
      rewrite (bind_Ret _ _ _ _ _ Hr).
    + eexists _, _. split; [done|]. split; [done|]. apply refs_moved_refl.
    + rewrite (bind_Ret _ _ _ _ _ (file_get_set _ _ _)). simpl.
      rewrite (bind_Ret _ _ _ false _) by done.
      destruct (fput_last_spec (set_files (<[f := File 0 0 1 None]> (files s)) s) f (File 0 0 1 None))
        as ([] & s2 & Hr2 & t & -> & Ht & Hv); [apply lookup_insert_eq|done|done|].
      rewrite (bind_Ret _ _ _ _ _ Hr2). eexists _, _. split; [done|]. split; [done|].
      exists t. simpl. rewrite delete_insert_id by done. split; [done|]. split; [done|].
      intros v. rewrite Hv. simpl. unfold one. rewrite decide_False by done. lia.
  - eexists _, _. split.
    + unfold do_read. rewrite (bind_Ret _ _ s None s); [reflexivity|]. apply fget_bad_spec.
      rewrite (tk_len _ _ Hok). destruct Hbad as [|Hp]; [lia|].
      destruct (Z.lt_ge_cases fd 0); [lia|]. right. right. done.
    + split; [done|]. apply refs_moved_refl.
Qed.

Lemma table_ok_fs others s t :
  table_ok others s → (∀ v, vrefs t v = vrefs (fs s) v) → table_ok others (set_fs t s).
Proof. intros [] Ht. split; simpl; try done. intros v. by rewrite Ht. Qed.

Lemma read_post_table_ok others s f x n r s' :
  table_ok others s → files s !! f = Some x → read_post s f x n r s' → table_ok others s'.
Proof.
  intros Hok Hf (t & _ & Ht & [[_ ->]|(_ & _ & ->)]).
  - by apply table_ok_fs.
  - apply (table_ok_file others (set_fs t s) f x); [by apply table_ok_fs|done|done|done].
Qed.


(** [do_read] on an open descriptor refuses directories with -EISDIR and files
    not open for reading with -EBADF, changing nothing; otherwise it returns the
    number of bytes read and advances the position by it, or the error of the file
    system with the position unchanged. *)
Theorem do_read_reads others s fd n f x v :
  table_ok others s → open_fd s fd f x → f_vnode x = Some v → 0 <= n →
  if S_ISDIR (vn_mode (fs s) v) then do_read fd n s = Ret (- EISDIR, []) s
  else if Z.land (f_mode x) FMODE_READ =? 0 then do_read fd n s = Ret (- EBADF, []) s
  else if vn_has (fs s) VRead v then returns (do_read fd n) s (read_post s f x n)
  else do_read fd n s = Panic.
Proof. apply do_read_open. Qed.

(** ** Opening *)

(** The file a path leads to, from the directory [d] of its last component. *)
Definition target (t : F) (d : vnode) (name : cstring) : option vnode :=
  match name with [] => Some d | _ => child t d name end.

(** [path] is [dir ++ name], split at its last slash, and the walk along [dir]
    from the directory [b] where its resolution starts ends at the directory [d]. *)
Record resolves s (dir name : cstring) (b d : vnode) : Prop := Resolves {
  rs_name : SLASH ∉ name;
  rs_dir : dir = [] ∨ last dir = Some SLASH;
  rs_len : Z.of_nat (length name) <= NAME_LEN;
  rs_start : start_dir s (dir ++ name) None = Some b;
  rs_live : 0 < vrefs (fs s) b;
  rs_walk : walk (fs s) b (components dir) = WOk d;
  rs_isdir : vn_has (fs s) VLookup d = true
}.

Lemma open_namev_target s dir name b d flag :
  resolves s dir name b d →
  match target (fs s) d name with
  | Some c => returns (open_namev (dir ++ name) flag None) s (λ r s',
      r = (0, Some c) ∧ refs_moved s s' (one (Some c)))
  | None => has flag O_CREAT = false →
      returns (open_namev (dir ++ name) flag None) s (λ r s',
        ∃ e, r = (e, None) ∧ e < 0 ∧ refs_moved s s' (λ _, 0))
  end.
Proof.
  intros [Hn Hd Hl Hs Hb Hw Hh]. pose proof (open_namev_spec s flag None dir name b Hn Hd Hl Hs Hb) as Hp.
  unfold open_namev_post in Hp. rewrite Hw, Hh in Hp. unfold target. destruct name as [|c0 name]; [done|].
  destruct (child (fs s) d (c0 :: name)); [done|]. intros Hfl. by rewrite Hfl in Hp.
Qed.

(** While the call runs: the new file is in the table and has no vnode yet. *)
Definition opening s (i : nat) f (mode : Z) : vfs F :=
  Vfs (<[f := File 0 mode 1 None]> (files s)) (<[i := Some f]> (p_files s)) (p_cwd s) (fs s).

Lemma opening_back s i f mode t dl :
  files s !! f = None → p_files s !! i = Some None →
  refs_moved (opening s i f mode) (set_fs t (opening s i f mode)) dl →
  returns (fput f ;;; pfiles_set (Z.of_nat i) None) (set_fs t (opening s i f mode)) (λ _ s',
    refs_moved s s' dl).
Proof.
  intros Hf Hi (t' & Ht' & Htree & Hx). injection Ht' as <-.
  destruct (fput_last_spec (set_fs t (opening s i f mode)) f (File 0 mode 1 None))
    as ([] & s2 & Hr & t2 & -> & Ht2 & Hv2); [apply lookup_insert_eq|done|done|].
  pose proof (lookup_lt_Some _ _ _ Hi).
  exists tt, (set_fs t2 s). split.
  - rewrite (bind_Ret _ _ _ _ _ Hr). rewrite pfiles_set_eq by (simpl; rewrite length_insert; lia).
    simpl. rewrite Nat2Z.id, delete_insert_id by done. rewrite list_insert_insert_eq.
    by rewrite (list_insert_id _ _ _ Hi).
  - exists t2. split; [done|]. simpl in *. split; [by eapply same_tree_trans|].
    intros v. rewrite Hv2, Hx. unfold one. simpl. lia.
Qed.

Lemma opened_table_ok others s i f mode t c :
  table_ok others s → files s !! f = None → p_files s !! i = Some None →
  (∀ v, vrefs t v = vrefs (fs s) v + one (Some c) v) →
  table_ok others (Vfs (<[f := File 0 mode 1 (Some c)]> (files s)) (<[i := Some f]> (p_files s))
                     (p_cwd s) t).
Proof.
  intros [Hl Hr Hv Ho Hw Hn] Hf Hi Ht.
  assert (∀ g, fd_count (<[i := Some f]> (p_files s)) g
    = fd_count (p_files s) g + if decide (f = g) then 1 else 0) as Hc.
  { intros g. rewrite (fd_count_insert _ _ None) by done.
    destruct (decide (Some f = Some g)), (decide (None = Some g)), (decide (f = g)); naive_solver lia. }
  assert (fd_count (p_files s) f = 0) as Hf0.
  { unfold fd_count. destruct (filter _ _) as [|o l] eqn:Hfl; [done|].
    assert (o ∈ filter (λ o, o = Some f) (p_files s)) as Hin by (rewrite Hfl; apply elem_of_cons; by left).
    apply list_elem_of_filter in Hin as [-> Hin]. apply list_elem_of_lookup in Hin as [j Hj].
    destruct (Hv _ _ Hj) as [y Hy]. congruence. }
  split; simpl; [by rewrite length_insert| | | | |].
  - intros g z. rewrite lookup_insert, Hc. case_decide as Hg.
    + intros [= <-]. subst g. simpl. rewrite (proj2 (Ho f) Hf). lia.
    + intros Hgz. rewrite Z.add_0_r. by apply Hr.
  - intros j g. rewrite list_lookup_insert_Some, lookup_insert. case_decide; [by eexists|].
    intros [(_ & [= ->] & _)|[_ Hj]]; [done|by eapply Hv].
  - intros g. destruct (Ho g). split; [done|]. rewrite lookup_insert. case_decide; done.
  - intros g z. rewrite lookup_insert. case_decide; [intros [= <-]; by eexists|apply Hw].
  - intros v. rewrite vn_held_fresh, Ht by done. specialize (Hn v). unfold one. simpl. lia.
Qed.

(** The start of [do_open]: a descriptor and a file for it. *)
Lemma do_open_start s i path oflags f :
  has oflags O_WRONLY && has oflags O_RDWR = false →
  p_files s !! i = Some None → (∀ j, (j < i)%nat → p_files s !! j ≠ Some None) →
  fget (-1) s = Ret (Some f) (set_files (<[f := File 0 0 1 None]> (files s)) s) →
  do_open path oflags s =
    (' (res, vnode) <- open_namev path oflags None ;;
     if res <? 0 then fput f ;;; pfiles_set (Z.of_nat i) None ;;; ret res
     else
       vnode <- deref vnode ;;
       d <- vn_isdir vnode ;;
       if (d : bool) && (has oflags O_WRONLY || has oflags O_RDWR) then
         on_fs (vput vnode) ;;; fput f ;;; pfiles_set (Z.of_nat i) None ;;; ret (- EISDIR)
       else
         file_upd f (set_f_vnode (Some vnode)) ;;;
         file_upd f (set_f_pos 0) ;;;
         ret (Z.of_nat i)) (opening s i f (open_mode oflags)).
Proof.
  intros Hfl Hi Hlow Hfg. unfold do_open. rewrite Hfl. unfold get_empty_fd, bind at 1, get. simpl.
  destruct (empty_fd_spec (p_files s) 0) as [(j & Hj & Hlowj & ->)|[Hno _]]; [|by destruct (Hno i)].
  assert (j = i) as ->.
  { destruct (Nat.lt_trichotomy i j) as [Hlt|[->|Hlt]]; [|done|].
    - by destruct (Hlowj i Hlt).
    - by destruct (Hlow j Hlt). }
  rewrite Z.add_0_l, (bind_Ret _ _ _ _ _ Hfg). pose proof (lookup_lt_Some _ _ _ Hi).
  erewrite bind_Ret by (apply pfiles_set_eq; simpl; lia).
  rewrite (bind_Ret _ _ _ _ _ (deref_Some _ _)). rewrite Nat2Z.id. simpl.
  erewrite bind_Ret by (apply file_get_eq; simpl; apply lookup_insert_eq).
  unfold file_upd at 1, bind at 1, modify. simpl. rewrite alter_insert_eq. done.
Qed.

Lemma resolves_opening s dir name b d i f mode :
  resolves s dir name b d → resolves (opening s i f mode) dir name b d.
Proof. by intros []. Qed.

Section open_theorem.
Context (others : positive → Z) s (dir name : cstring) (b d : vnode) (oflags : Z) (i : nat).
Context (Hok : table_ok others s) (Hres : resolves s dir name b d)
  (Hfl : has oflags O_WRONLY && has oflags O_RDWR = false)
  (Hi : p_files s !! i = Some None) (Hlow : ∀ j, (j < i)%nat → p_files s !! j ≠ Some None)
  (Hmem : ∀ s', fget (-1) s = Ret None s' → False).

Lemma fget_new_file :
  ∃ f, files s !! f = None ∧
    fget (-1) s = Ret (Some f) (set_files (<[f := File 0 0 1 None]> (files s)) s).
Proof using Hmem HFL.
  destruct (fget_new_spec s) as (r & s1 & Hr & [[-> ->]|(f & -> & Hf & ->)]); [|by exists f].
  by destruct (Hmem _ Hr).
Qed.

Lemma do_open_found c :
  target (fs s) d name = Some c →
  if S_ISDIR (vn_mode (fs s) c) && (has oflags O_WRONLY || has oflags O_RDWR)
  then returns (do_open (dir ++ name) oflags) s (λ r s',
    r = - EISDIR ∧ refs_moved s s' (λ _, 0))
  else returns (do_open (dir ++ name) oflags) s (λ r s',
    r = Z.of_nat i ∧ table_ok others s' ∧ ∃ f t, files s !! f = None ∧
      s' = Vfs (<[f := File 0 (open_mode oflags) 1 (Some c)]> (files s))
             (<[i := Some f]> (p_files s)) (p_cwd s) t ∧
      same_tree (fs s) t ∧ ∀ v, vrefs t v = vrefs (fs s) v + one (Some c) v).
Proof using All.
  intros Hc. destruct fget_new_file as (f & Hf & Hfg).
  set (s1 := opening s i f (open_mode oflags)).
  pose proof (open_namev_target s1 dir name b d oflags (resolves_opening _ _ _ _ _ _ _ _ Hres)) as Ho.
  change (fs s1) with (fs s) in Ho. rewrite Hc in Ho.
  destruct Ho as (r & s2 & Hr & -> & (t & -> & Ht & Hx)). change (fs s1) with (fs s) in *.
  unfold returns. rewrite (do_open_start s i _ oflags f) by done.
  fold s1. rewrite (bind_Ret _ _ _ _ _ Hr). simpl.
  rewrite (bind_Ret _ _ (set_fs t s1) c (set_fs t s1)) by done.
  rewrite (bind_Ret _ _ _ (S_ISDIR (vn_mode (fs s) c)) (set_fs t s1)).
  2: { unfold vn_isdir, get. simpl. by destruct Ht as (_ & _ & -> & _). }
  cbv beta. destruct (S_ISDIR (vn_mode (fs s) c) && _) eqn:Hcond.
  - destruct (vput_step (set_fs t s1) c) as ([] & s3 & Hr3 & (t3 & -> & Ht3 & Hx3)).
    { simpl. rewrite Hx, one_eq. pose proof (vrefs_nonneg (fs s) c). lia. }
    rewrite (bind_Ret _ _ _ _ _ Hr3).
    destruct (opening_back s i f (open_mode oflags) t3 (λ _, 0) Hf Hi) as ([] & s4 & Hr4 & Hm4).
    { exists t3. split; [done|]. split; [by eapply same_tree_trans|].
      intros v. simpl in *. rewrite Hx3, Hx. lia. }
    apply bind_ret_inv in Hr4 as ([] & s5 & Hr5 & Hr6).
    change (set_fs t3 (set_fs t s1)) with (set_fs t3 s1).
    rewrite (bind_Ret _ _ _ _ _ Hr5), (bind_Ret _ _ _ _ _ Hr6).
    eexists _, _. split; [done|]. done.
  - eexists _, _. split; [reflexivity|]. split; [done|]. simpl. rewrite !alter_insert_eq.
    unfold set_f_pos, set_f_vnode. simpl. split; [by apply opened_table_ok|].
    exists f, t. split; [done|]. split; [done|]. by split.
Qed.

Lemma do_open_missing :
  target (fs s) d name = None → has oflags O_CREAT = false →
  returns (do_open (dir ++ name) oflags) s (λ r s', r < 0 ∧ refs_moved s s' (λ _, 0)).
Proof using All.
  intros Hc Hcr. destruct fget_new_file as (f & Hf & Hfg).
  set (s1 := opening s i f (open_mode oflags)).
  pose proof (open_namev_target s1 dir name b d oflags (resolves_opening _ _ _ _ _ _ _ _ Hres)) as Ho.
  change (fs s1) with (fs s) in Ho. rewrite Hc in Ho.
  destruct (Ho Hcr) as (r & s2 & Hr & e & -> & He & (t & -> & Ht & Hx)).
  unfold returns. rewrite (do_open_start s i _ oflags f) by done.
  fold s1. rewrite (bind_Ret _ _ _ _ _ Hr), (proj2 (Z.ltb_lt _ _)) by done.
  destruct (opening_back s i f (open_mode oflags) t (λ _, 0) Hf Hi) as ([] & s4 & Hr4 & Hm4).
  { by exists t. }
  apply bind_ret_inv in Hr4 as ([] & s5 & Hr5 & Hr6).
  rewrite (bind_Ret _ _ _ _ _ Hr5), (bind_Ret _ _ _ _ _ Hr6).
  eexists _, _. split; [done|]. done.
Qed.

End open_theorem.

(** *** Access modes *)

(** The access asked for, with [O_APPEND] and [O_CREAT] or without. *)
Inductive access := ReadOnly | WriteOnly | ReadWrite.
#[export] Instance access_eq_dec : EqDecision access.
Proof. solve_decision. Defined.
Definition access_flag (a : access) : Z :=
  match a with ReadOnly => O_RDONLY | WriteOnly => O_WRONLY | ReadWrite => O_RDWR end.
Definition open_flag (a : access) (append creat : bool) : Z :=
  Z.lor (access_flag a) (Z.lor (if append then O_APPEND else 0) (if creat then O_CREAT else 0)).

(** The mode of the open file that they stand for. *)
Definition access_mode (a : access) (append : bool) : Z :=
  Z.lor (match a with
         | ReadOnly => FMODE_READ
         | WriteOnly => FMODE_WRITE
         | ReadWrite => Z.lor FMODE_READ FMODE_WRITE
         end) (if append then FMODE_APPEND else 0).
Definition writes (a : access) : bool := match a with ReadOnly => false | _ => true end.

Lemma open_flag_has `{HB : !FlagBits} a append creat :
  has (open_flag a append creat) O_WRONLY = bool_decide (a = WriteOnly) ∧
  has (open_flag a append creat) O_RDWR = bool_decide (a = ReadWrite) ∧
  has (open_flag a append creat) O_APPEND = append ∧
  has (open_flag a append creat) O_CREAT = creat.
Proof.
  destruct HB as [H0 Hb Hd]. unfold open_flags in *. rewrite !NoDup_cons, !not_elem_of_cons in Hd.
  destruct_and! Hd. rewrite !Forall_cons in Hb. destruct_and! Hb.
  unfold open_flag, access_flag. rewrite H0.
  destruct a, append, creat; rewrite ?has_lor, ?has_0;
    repeat match goal with H : has _ _ = bool_decide _ |- _ => rewrite ?H; clear H end;
    split_and!; repeat case_bool_decide; congruence || done.
Qed.

Lemma open_mode_access `{HB : !FlagBits} a append creat :
  (a = ReadOnly → append = false ∧ creat = false) →
  open_mode (open_flag a append creat) = access_mode a append.
Proof.
  intros Hro. destruct (open_flag_has a append creat) as (H1 & H2 & H3 & H4).
  pose proof (has_0 O_WRONLY) as Hw0. pose proof (has_0 O_RDWR) as Hr0. pose proof o_rdonly as H0.
  unfold open_mode, access_mode. rewrite H1, H2, H3. destruct a.
  - destruct (Hro eq_refl) as [-> ->]. unfold open_flag, access_flag. rewrite !Z.lor_0_r, Z.eqb_refl. done.
  - destruct (Z.eqb_spec (open_flag WriteOnly append creat) O_RDONLY) as [E|_];
      [rewrite E, H0, Hw0 in H1; done|]. by destruct append; rewrite ?Z.lor_0_r.
  - destruct (Z.eqb_spec (open_flag ReadWrite append creat) O_RDONLY) as [E|_];
      [rewrite E, H0, Hr0 in H2; done|]. by destruct append; rewrite ?Z.lor_0_r.
Qed.

End vfs.
