(* ===== verification/VfsNames.v ===== *)
(** * Properties of the calls that change names

    Directories, links and the working directory: results on every branch, the
    balance of vnode references, and where the code loses it or stops. *)
From Stdlib Require Import Ascii.
From S2P Require Import Prelude Headers Vfs NamevProps VfsProps.
Local Open Scope kernel_scope.

(** What the operations that change a directory promise: they keep reference
    counts and the vnodes' types; if they return 0 they did what they are for, and
    nothing else; if they fail they changed nothing. *)
Definition child_set {F} `{VnView F} (t t' : F) (d : vnode) (name : cstring) (c : option vnode)
    : Prop :=
  child t' d name = c ∧ ∀ d' n', (d', n') ≠ (d, name) → child t' d' n' = child t d' n'.

Definition same_refs {F} `{VnView F} (t t' : F) : Prop := ∀ x, vrefs t' x = vrefs t x.

Class VnMutLaws (F : Type) `{VnOps F, VnView F} := {
  unlink_spec t d name : vn_has t VUnlink d = true → 0 < vrefs t d →
    returns (vn_unlink d name) t (λ z t', same_refs t t' ∧
      ((z = 0 ∧ child_set t t' d name None) ∨ (z < 0 ∧ same_tree t t')));
  link_spec t from d name : vn_has t VLink d = true → 0 < vrefs t d → 0 < vrefs t from →
    returns (vn_link from d name) t (λ z t', same_refs t t' ∧
      ((z = 0 ∧ child_set t t' d name (Some from)) ∨ (z < 0 ∧ same_tree t t')))
}.

(** The vnode [c] is new and entered in [d] under [name]; the other vnodes and their
    entries are as before. *)
Record new_entry {F} `{VnOps F, VnView F} (t t' : F) (d : vnode) (name : cstring) (c : vnode) : Prop := {
  ne_child : child t' d name = Some c;
  ne_unused : vrefs t c = 0;
  ne_new d' n' : child t d' n' ≠ Some c;
  ne_children d' n' : d' ≠ c → (d', n') ≠ (d, name) → child t' d' n' = child t d' n';
  ne_has op x : x ≠ c → vn_has t' op x = vn_has t op x;
  ne_mode x : x ≠ c → vn_mode t' x = vn_mode t x;
  ne_devid x : x ≠ c → vn_devid t' x = vn_devid t x;
  ne_root : vfs_root_vn t' = vfs_root_vn t
}.

(** What an operation that makes the vnode [name] in [d] did: it returned 0 and made a
    vnode as [Q] says, or an error and nothing; it fails only for lack of room. *)
Record made {F} `{VnOps F, VnView F} (d : vnode) (name : cstring) (Q : F → vnode → Prop)
    (z : Z) (t t' : F) : Prop := {
  md_case : (z = 0 ∧ ∃ c, new_entry t t' d name c ∧ Q t' c) ∨ (z < 0 ∧ same_tree t t');
  md_room : (0 < fs_room t)%nat → z = 0;
  md_used : (fs_room t <= S (fs_room t'))%nat
}.

(** An empty directory, and the special file of a device. *)
Definition empty_dir {F} `{VnOps F, VnView F} (t : F) (c : vnode) : Prop :=
  vn_has t VLookup c = true ∧ vn_has t VMknod c = true ∧
  ∀ n, n ≠ DOT → n ≠ DOTDOT → child t c n = None.
Definition special_file {F} `{VnOps F} (mode devid : Z) (t : F) (c : vnode) : Prop :=
  vn_mode t c = mode ∧ vn_devid t c = devid.

(** What making a directory or a special file under a free name promises. *)
Class VnNewLaws (F : Type) `{VnOps F, VnView F} := {
  mkdir_spec t d name : vn_has t VMkdir d = true → 0 < vrefs t d → child t d name = None →
    returns (vn_mkdir d name) t (λ z t', same_refs t t' ∧ made d name empty_dir z t t');
  mknod_spec t d name mode devid : vn_has t VMknod d = true → 0 < vrefs t d → child t d name = None →
    returns (vn_mknod d name mode devid) t (λ z t', same_refs t t' ∧
      made d name (special_file mode devid) z t t')
}.

Section names.
Context `{HE : ErrnoH, HLM : LimitsH, HF : FcntlH} {F : Type}
  `{HV : VnOps F, HW : VnView F, HX : !VnLaws F, HFO : FileOps F, HFL : !FileLaws F,
    HML : !VnMutLaws F, HNL : !VnNewLaws F}.
Implicit Types (s : vfs F) (t : F) (d b c : vnode) (dir name : cstring).

Lemma dir_namev_resolved s dir name b d :
  resolves s dir name b d →
  returns (dir_namev (dir ++ name) None) s (λ r s',
    r = (0, Z.of_nat (length name), match name with [] => None | _ => Some name end, Some d) ∧
    refs_moved s s' (one (Some d))).
Proof.
  intros [Hn Hd Hl Hs Hb Hw Hh].
  pose proof (dir_namev_spec s None dir name b Hn Hd Hs Hb) as Hp. unfold dir_namev_post in Hp.
  rewrite (proj2 (Z.ltb_ge _ _)), Hw, Hh, andb_false_r in Hp by lia. exact Hp.
Qed.

(** The state after [dir_namev]: the directory holds one more reference. *)
Lemma held_dir s s1 d :
  refs_moved s s1 (one (Some d)) → vn_has (fs s) VLookup d = true →
  vn_has (fs s1) VLookup d = true ∧ 0 < vrefs (fs s1) d ∧ child (fs s1) = child (fs s).
Proof.
  intros Hm Hh. pose proof (refs_moved_tree _ _ _ Hm) as (Hc & Hh1 & _).
  split; [by rewrite Hh1|]. split; [|done].
  rewrite (refs_moved_refs _ _ _ _ Hm), one_eq. pose proof (vrefs_nonneg (fs s) d). lia.
Qed.

(** Only the file system below changed, with the same reference counts. *)
Definition fs_moved s s' (P : F → F → Prop) : Prop :=
  ∃ t, s' = set_fs t s ∧ same_refs (fs s) t ∧ P (fs s) t.

(** Operating on the directory and giving it back. *)
Lemma op_vput_step {A} (m : M F A) s s1 d op (P : A → F → F → Prop) (k : A → Z) :
  refs_moved s s1 (one (Some d)) → vn_has (fs s1) op d = true →
  (∀ a t t' t'', P a t t' → same_tree t' t'' → P a t t'') →
  (∀ a t0 t t', P a t t' → same_tree t0 t → (∀ x, vrefs t0 x <= vrefs t x) → P a t0 t') →
  returns m (fs s1) (λ a t, same_refs (fs s1) t ∧ P a (fs s1) t) →
  returns (a <- vn_call op d m ;; on_fs (vput d) ;;; ret (k a)) s1 (λ z s', ∃ a,
    z = k a ∧ fs_moved s s' (P a)).
Proof.
  intros Hm1 Hh HP1 HP2 (a & t & Hr & Hrefs & HP). unfold returns.
  assert (0 < vrefs (fs s1) d) as Hd.
  { rewrite (refs_moved_refs _ _ _ _ Hm1), one_eq. pose proof (vrefs_nonneg (fs s) d). lia. }
  rewrite (bind_Ret _ _ _ _ _ (vn_call_eq _ _ _ _ _ _ Hh Hr)).
  destruct (vput_step (set_fs t s1) d) as ([] & s2 & Hr2 & (t2 & -> & Ht2 & Hx2)).
  { simpl. by rewrite Hrefs. }
  rewrite (bind_Ret _ _ _ _ _ Hr2). eexists _, _. split; [done|]. exists a. split; [done|].
  exists t2. destruct Hm1 as (t1 & -> & Ht1 & Hx1). simpl in *. split; [done|]. split.
  - intros x. rewrite Hx2, Hrefs, Hx1. lia.
  - eapply HP2; [by eapply HP1|exact Ht1|]. intros x. rewrite Hx1. pose proof (one_range (Some d) x). lia.
Qed.

Lemma child_set_trans t t' t'' d name oc :
  child_set t t' d name oc → same_tree t' t'' → child_set t t'' d name oc.
Proof. intros [Hc Ho] (Hcc & _). split; rewrite Hcc; auto. Qed.

Lemma child_set_from t0 t t' d name oc :
  child_set t t' d name oc → same_tree t0 t → child_set t0 t' d name oc.
Proof. intros [Hc Ho] (Hcc & _). split; [done|]. intros. rewrite Ho by done. by rewrite Hcc. Qed.

(** What a call that sets the entry [name] of [d] did: it returned 0 and did it, or
    an error and did nothing. *)
Definition entry_set (z : Z) (d : vnode) (name : cstring) (Q : option vnode → Prop) (t t' : F) : Prop :=
  (z = 0 ∧ ∃ oc, Q oc ∧ child_set t t' d name oc) ∨ (z < 0 ∧ same_tree t t').

Lemma entry_set_trans z d name Q t t' t'' :
  entry_set z d name Q t t' → same_tree t' t'' → entry_set z d name Q t t''.
Proof.
  intros [(-> & oc & HQ & Hc)|[Hz Ht]] Ht'.
  - left. split; [done|]. exists oc. split; [done|]. by eapply child_set_trans.
  - right. split; [done|]. by eapply same_tree_trans.
Qed.

Lemma entry_set_from z d name Q t0 t t' :
  entry_set z d name Q t t' → same_tree t0 t → entry_set z d name Q t0 t'.
Proof.
  intros [(-> & oc & HQ & Hc)|[Hz Ht]] Ht'.
  - left. split; [done|]. exists oc. split; [done|]. by eapply child_set_from.
  - right. split; [done|]. by eapply same_tree_trans.
Qed.

Lemma name_len_nonzero name : name ≠ [] → Z.of_nat (length name) =? 0 = false.
Proof. intros. apply Z.eqb_neq. destruct name; [done|simpl; lia]. Qed.

Lemma out_name name : name ≠ [] → match name with [] => None | _ => Some name end = Some name.
Proof. by destruct name. Qed.

(** After a lookup of [name] in the held directory [d]. *)
Lemma resolved_lookup s s1 dir name b d :
  resolves s dir name b d → name ≠ [] → refs_moved s s1 (one (Some d)) →
  returns (lookup (Some d) (Some name) (Z.of_nat (length name))) s1 (λ r s2,
    match child (fs s) d name with
    | Some c => r = (0, Some c)
    | None => r.1 < 0 ∧ r.2 = None
    end ∧ refs_moved s s2 (λ x, one (Some d) x + one (child (fs s) d name) x)).
Proof.
  intros Hres Hne Hm1.
  destruct (held_dir s s1 d Hm1 (rs_isdir _ _ _ _ _ Hres)) as (Hh1 & Hd1 & Hc1).
  destruct (lookup_name_step s1 d name Hne Hh1 Hd1) as (r & s2 & Hr2 & Hres2 & Hm2).
  rewrite Hc1 in Hres2, Hm2. exists r, s2. split; [done|]. split; [done|].
  by eapply refs_moved_trans.
Qed.

(** [do_mkdir] and [do_mknod] of a name that is not taken do what the operation of the
    directory does and return its result; they give back the references they took. *)
Lemma free_name_run {A} s s1 dir name b d op (m : M F A) (P : A → F → F → Prop) (k : A → Z) :
  resolves s dir name b d → name ≠ [] → refs_moved s s1 (one (Some d)) →
  child (fs s) d name = None → vn_has (fs s) op d = true →
  (∀ a t t' t'', P a t t' → same_tree t' t'' → P a t t'') →
  (∀ a t0 t t', P a t t' → same_tree t0 t → (∀ x, vrefs t0 x <= vrefs t x) → P a t0 t') →
  (∀ t, vn_has t op d = true → 0 < vrefs t d → child t d name = None → same_tree (fs s) t →
    (∀ x, 0 < vrefs (fs s) x → 0 < vrefs t x) →
    returns m t (λ a t', same_refs t t' ∧ P a t t')) →
  ∃ r s2, lookup (Some d) (Some name) (Z.of_nat (length name)) s1 = Ret (r, None) s2 ∧ r < 0 ∧
    vn_has (fs s2) op d = true ∧
    returns (a <- vn_call op d m ;; on_fs (vput d) ;;; ret (k a)) s2 (λ z s', ∃ a,
      z = k a ∧ fs_moved s s' (P a)).
Proof.
  intros Hres Hne Hm1 Hc Hop HP1 HP2 Hm.
  destruct (resolved_lookup s s1 dir name b d Hres Hne Hm1) as ([res v] & s2 & Hr2 & Hres2 & Hm2).
  rewrite Hc in Hres2, Hm2. destruct Hres2 as [Hneg Hv]. simpl in Hneg, Hv. subst v.
  assert (refs_moved s s2 (one (Some d))) as Hm2'.
  { eapply refs_moved_ext; [|exact Hm2]. intros x. simpl. unfold one at 2.
    rewrite (decide_False (P := None = Some x)) by done. lia. }
  pose proof (refs_moved_tree _ _ _ Hm2') as Ht. pose proof Ht as (Hc2 & Hh2 & _).
  destruct (held_dir s s2 d Hm2' (rs_isdir _ _ _ _ _ Hres)) as (_ & Hd2 & _).
  exists res, s2. split; [done|]. split; [done|]. split; [by rewrite Hh2|].
  eapply op_vput_step; [exact Hm2'|by rewrite Hh2|done|done|].
  apply Hm; [by rewrite Hh2|done|by rewrite Hc2|done|].
  intros x Hx. rewrite (refs_moved_refs _ _ _ _ Hm2'). pose proof (one_range (Some d) x). lia.
Qed.

Lemma new_entry_from t0 t t' d name c :
  new_entry t t' d name c → same_tree t0 t → (∀ x, vrefs t0 x <= vrefs t x) → new_entry t0 t' d name c.
Proof.
  intros [Ech Eu En Ecs Eh Em Ed Er] (Hc & Hh & Hm & _ & Hr & Hd & _) Hx.
  rewrite ?Hc, ?Hh, ?Hm, ?Hr, ?Hd in *. split; try done.
  pose proof (vrefs_nonneg t0 c). specialize (Hx c). lia.
Qed.

Lemma new_entry_trans t t' t'' d name c :
  new_entry t t' d name c → same_tree t' t'' → new_entry t t'' d name c.
Proof.
  intros [Ech Eu En Ecs Eh Em Ed Er] (Hc & Hh & Hm & _ & Hr & Hd & _).
  split; try done; rewrite ?Hc, ?Hh, ?Hm, ?Hr, ?Hd; auto.
Qed.

Lemma made_from z t0 t t' d name Q :
  made d name Q z t t' → same_tree t0 t → (∀ x, vrefs t0 x <= vrefs t x) → made d name Q z t0 t'.
Proof.
  intros [Hcase Hroom Hused] Ht Hx. pose proof Ht as (_ & _ & _ & _ & _ & _ & Hr). rewrite Hr in *. split; try done.
  destruct Hcase as [(-> & c & Hc & HQ)|[Hz Ht']]; [left|right].
  - split; [done|]. exists c. split; [by eapply new_entry_from|done].
  - split; [done|]. by eapply same_tree_trans.
Qed.

Lemma made_trans z t t' t'' d name Q :
  (∀ t t' c, Q t c → same_tree t t' → Q t' c) →
  made d name Q z t t' → same_tree t' t'' → made d name Q z t t''.
Proof.
  intros HQ [Hcase Hroom Hused] Ht. pose proof Ht as (_ & _ & _ & _ & _ & _ & Hr). split; [|done|by rewrite Hr].
  destruct Hcase as [(-> & c & Hc & HQc)|[Hz Ht']]; [left|right].
  - split; [done|]. exists c. split; [by eapply new_entry_trans|by eapply HQ].
  - split; [done|]. by eapply same_tree_trans.
Qed.

Lemma empty_dir_tree t t' c : empty_dir t c → same_tree t t' → empty_dir t' c.
Proof. intros (Hl & Hm & Hc) (Ec & Eh & _). unfold empty_dir. by rewrite Ec, Eh. Qed.

Lemma special_file_tree mode devid t t' c :
  special_file mode devid t c → same_tree t t' → special_file mode devid t' c.
Proof. intros [Hm Hd] (_ & _ & Em & _ & _ & Ed & _). unfold special_file. by rewrite Em, Ed. Qed.

Section free_name.
Context s (dir name : cstring) (b d : vnode) (P : Z → F → F → Prop).
Context (Hres : resolves s dir name b d) (Hne : name ≠ []) (Hc : child (fs s) d name = None)
  (HP1 : ∀ a t t' t'', P a t t' → same_tree t' t'' → P a t t'')
  (HP2 : ∀ a t0 t t', P a t t' → same_tree t0 t → (∀ x, vrefs t0 x <= vrefs t x) → P a t0 t').

Definition does (op : vop) (m : M F Z) : Prop := ∀ t, vn_has t op d = true → 0 < vrefs t d →
  child t d name = None → same_tree (fs s) t → (∀ x, 0 < vrefs (fs s) x → 0 < vrefs t x) →
  returns m t (λ z t', same_refs t t' ∧ P z t t').

Lemma do_mkdir_run : vn_has (fs s) VMkdir d = true → does VMkdir (vn_mkdir d name) →
  returns (do_mkdir (dir ++ name)) s (λ z s', fs_moved s s' (P z)).
Proof using HX HF HFO Hne Hres Hc HP1 HP2.
  intros Hop Hm. destruct (dir_namev_resolved s dir name b d Hres) as (r & s1 & Hr & -> & Hm1).
  rewrite (out_name name Hne) in Hr.
  destruct (free_name_run s s1 dir name b d VMkdir _ P (λ z, z) Hres Hne Hm1 Hc Hop HP1 HP2 Hm)
    as (res & s2 & Hr2 & Hneg & Hop2 & Hrun).
  unfold do_mkdir, returns. rewrite (bind_Ret _ _ _ _ _ Hr).
  rewrite (bind_Ret _ _ s1 (vfs_root_vn (fs s1)) s1) by done. cbv beta.
  rewrite (name_len_nonzero name Hne). cbn [andb negb Z.eqb].
  rewrite !(bind_Ret _ _ _ _ _ (deref_Some _ _)), (bind_Ret _ _ _ _ _ Hr2).
  rewrite (proj2 (Z.eqb_neq _ _)) by lia.
  rewrite (bind_Ret _ _ _ _ _ (vn_has_op_eq _ _ _)), Hop2, (bind_Ret _ _ s2 tt s2) by done.
  rewrite Nat2Z.id, firstn_all. eapply returns_mono; [exact Hrun|]. by intros z s' (a & -> & Hfs).
Qed.

Lemma do_mknod_run mode devid : S_ISCHR mode || S_ISBLK mode = true → vn_has (fs s) VMknod d = true →
  does VMknod (vn_mknod d name mode devid) →
  returns (do_mknod (dir ++ name) mode devid) s (λ z s', fs_moved s s' (P z)).
Proof using HX HF HFO Hne Hres Hc HP1 HP2.
  intros Hmode Hop Hm. destruct (dir_namev_resolved s dir name b d Hres) as (r & s1 & Hr & -> & Hm1).
  rewrite (out_name name Hne) in Hr.
  destruct (free_name_run s s1 dir name b d VMknod _ P (λ z, z) Hres Hne Hm1 Hc Hop HP1 HP2 Hm)
    as (res & s2 & Hr2 & Hneg & Hop2 & Hrun).
  unfold do_mknod, returns. rewrite Hmode, (bind_Ret _ _ s tt s) by done. rewrite (bind_Ret _ _ _ _ _ Hr).
  rewrite !(bind_Ret _ _ _ _ _ (deref_Some _ _)), (bind_Ret _ _ _ _ _ Hr2).
  rewrite (bind_Ret _ _ _ _ _ (vn_has_op_eq _ _ _)), Hop2, (bind_Ret _ _ s2 tt s2) by done.
  rewrite (bind_Ret _ _ _ _ _ (deref_Some _ _)), Nat2Z.id, firstn_all.
  eapply returns_mono; [exact Hrun|]. by intros z s' (a & -> & Hfs).
Qed.
End free_name.

(** With the operations of the interface. *)
Lemma do_mkdir_free s dir name b d :
  resolves s dir name b d → name ≠ [] → child (fs s) d name = None → vn_has (fs s) VMkdir d = true →
  returns (do_mkdir (dir ++ name)) s (λ z s', fs_moved s s' (made d name empty_dir z)).
Proof.
  intros Hres Hne Hc Hop. apply (do_mkdir_run s dir name b d (made d name empty_dir)); try done.
  - intros z t t' t''. apply made_trans, empty_dir_tree.
  - intros z t0 t t'. apply made_from.
  - intros t Hh Hd Hct _ _. by apply mkdir_spec.
Qed.

Lemma do_mknod_free s dir name b d mode devid :
  resolves s dir name b d → name ≠ [] → child (fs s) d name = None → vn_has (fs s) VMknod d = true →
  S_ISCHR mode || S_ISBLK mode = true →
  returns (do_mknod (dir ++ name) mode devid) s (λ z s', fs_moved s s' (made d name (special_file mode devid) z)).
Proof.
  intros Hres Hne Hc Hop Hmode. apply (do_mknod_run s dir name b d (made d name (special_file mode devid))); try done.
  - intros z t t' t''. apply made_trans, special_file_tree.
  - intros z t0 t t'. apply made_from.
  - intros t Hh Hd Hct _ _. by apply mknod_spec.
Qed.

(** [do_mkdir] of a name in a directory: -EEXIST if the name is taken;
    otherwise the file system's result, with a new directory entered under the
    name and nothing else changed exactly if that result is 0; every vnode
    reference count is as before on every branch. *)
Theorem do_mkdir_makes s dir name b d :
  resolves s dir name b d → name ≠ [] →
  match child (fs s) d name with
  | Some _ => returns (do_mkdir (dir ++ name)) s (λ z s', z = - EEXIST ∧ refs_moved s s' (λ _, 0))
  | None => vn_has (fs s) VMkdir d = true →
      returns (do_mkdir (dir ++ name)) s (λ z s', fs_moved s s' (made d name empty_dir z))
  end.
Proof.
  intros Hres Hne. destruct (child (fs s) d name) as [c|] eqn:Hc.
  2: { intros Hmk. by apply (do_mkdir_free s dir name b d). }
  destruct (dir_namev_resolved s dir name b d Hres) as (r & s1 & Hr & -> & Hm1).
  destruct (held_dir s s1 d Hm1 (rs_isdir _ _ _ _ _ Hres)) as (Hh1 & Hd1 & Hc1).
  rewrite (out_name name Hne) in Hr.
  destruct (lookup_name_step s1 d name Hne Hh1 Hd1) as ([res v] & s2 & Hr2 & Hres2 & Hm2).
  rewrite Hc1, Hc in Hres2, Hm2. unfold do_mkdir, returns. rewrite (bind_Ret _ _ _ _ _ Hr).
  rewrite (bind_Ret _ _ s1 (vfs_root_vn (fs s1)) s1) by done. cbv beta.
  rewrite (name_len_nonzero name Hne). cbn [andb negb Z.eqb].
  rewrite !(bind_Ret _ _ _ _ _ (deref_Some _ _)), (bind_Ret _ _ _ _ _ Hr2).
  injection Hres2 as -> ->. cbn [Z.eqb].
  destruct (vput_moved s1 s2 d _ Hm2) as ([] & s3 & Hr3 & Hm3); [apply one_range|done|].
  rewrite (bind_Ret _ _ _ _ _ Hr3), (bind_Ret _ _ _ _ _ (deref_Some _ _)).
  assert (refs_moved s s3 (one (Some c))) as Hm3' by (eapply refs_moved_back; [exact Hm1|exact Hm3]).
  destruct (vput_step s3 c) as ([] & s4 & Hr4 & Hm4).
  { rewrite (refs_moved_refs _ _ _ _ Hm3'), one_eq. pose proof (vrefs_nonneg (fs s) c). lia. }
  rewrite (bind_Ret _ _ _ _ _ Hr4). eexists _, _. split; [done|]. split; [done|].
  eapply refs_moved_back; [exact Hm3'|exact Hm4].
Qed.

(** Giving back one of the references that a call holds. *)
Lemma vput_held s s1 v dl :
  refs_moved s s1 dl → (∀ x, 0 <= dl x) → 0 < dl v →
  returns (on_fs (vput v)) s1 (λ _ s2, refs_moved s s2 (λ x, dl x - one (Some v) x)).
Proof.
  intros Hm Hdl Hv. eapply returns_mono; [apply (vput_step s1 v)|].
  - rewrite (refs_moved_refs _ _ _ _ Hm). pose proof (vrefs_nonneg (fs s) v). lia.
  - intros [] s2 Hm2. eapply refs_moved_back; [exact Hm|]. eapply refs_moved_ext; [|exact Hm2].
    intros x. simpl. lia.
Qed.

Lemma one_pos v x : 0 <= one (Some v) x.
Proof. apply one_range. Qed.

(** The end of [do_unlink]: the entry goes, and the references to the directory and
    to the vnode are given back. *)
Lemma unlink_tail s s2 d c name :
  refs_moved s s2 (λ x, one (Some d) x + one (Some c) x) → vn_has (fs s) VUnlink d = true →
  returns (res <- vn_call VUnlink d (vn_unlink d name) ;;
           on_fs (vput d) ;;; on_fs (vput c) ;;; ret res) s2 (λ z s',
    fs_moved s s' (entry_set z d name (λ oc, oc = None))).
Proof.
  intros Hm2 Hun. pose proof (one_pos c d) as Hp2.
  pose proof (refs_moved_tree _ _ _ Hm2) as (_ & Hh2 & _).
  assert (vn_has (fs s2) VUnlink d = true) as Hun2 by (by rewrite Hh2).
  assert (0 < vrefs (fs s2) d) as Hd2.
  { rewrite (refs_moved_refs _ _ _ _ Hm2), one_eq. pose proof (vrefs_nonneg (fs s) d). lia. }
  destruct (unlink_spec (fs s2) d name Hun2 Hd2) as (z & t & Hru & Hrf & Hcase).
  unfold returns. rewrite (bind_Ret _ _ _ _ _ (vn_call_eq _ _ _ _ _ _ Hun2 Hru)).
  destruct (vput_step (set_fs t s2) d) as ([] & s3 & Hr3 & (t3 & -> & Ht3 & Hx3)).
  { simpl. by rewrite Hrf. }
  simpl in Ht3, Hx3. rewrite (bind_Ret _ _ _ _ _ Hr3).
  destruct (vput_step (set_fs t3 (set_fs t s2)) c) as ([] & s4 & Hr4 & (t4 & -> & Ht4 & Hx4)).
  { simpl. rewrite Hx3, Hrf, (refs_moved_refs _ _ _ _ Hm2), one_eq.
    pose proof (vrefs_nonneg (fs s) c). lia. }
  simpl in Ht4, Hx4. rewrite (bind_Ret _ _ _ _ _ Hr4).
  eexists _, _. split; [done|]. exists t4. destruct Hm2 as (t2 & -> & Ht2 & Hx2). simpl in *.
  split; [done|]. split.
  - intros x. rewrite Hx4, Hx3, Hrf, Hx2. lia.
  - eapply entry_set_from; [|exact Ht2]. eapply entry_set_trans; [|exact Ht4].
    eapply entry_set_trans; [|exact Ht3]. destruct Hcase as [[-> Hset]|[Hz Ht]]; [|by right].
    left. split; [done|]. by exists None.
Qed.

(** C25: [do_unlink] of a name in a directory: an error if there is no such name,
    -EPERM if it is a directory; otherwise the file system's result, the entry
    being gone and nothing else changed exactly if that result is 0; every vnode
    reference count is as before on every branch. *)
Theorem do_unlink_removes s dir name b d :
  resolves s dir name b d → name ≠ [] →
  match child (fs s) d name with
  | None => returns (do_unlink (dir ++ name)) s (λ z s', z < 0 ∧ refs_moved s s' (λ _, 0))
  | Some c =>
      if S_ISDIR (vn_mode (fs s) c)
      then returns (do_unlink (dir ++ name)) s (λ z s', z = - EPERM ∧ refs_moved s s' (λ _, 0))
      else vn_has (fs s) VUnlink d = true →
        returns (do_unlink (dir ++ name)) s (λ z s', fs_moved s s' (entry_set z d name (λ oc, oc = None)))
  end.
Proof.
  intros Hres Hne. pose proof (one_pos d) as Hp1.
  destruct (dir_namev_resolved s dir name b d Hres) as (r & s1 & Hr & -> & Hm1).
  rewrite (out_name name Hne) in Hr.
  destruct (resolved_lookup s s1 dir name b d Hres Hne Hm1) as ([res v] & s2 & Hr2 & Hres2 & Hm2).
  unfold do_unlink, returns. rewrite (bind_Ret _ _ _ _ _ Hr). cbn [negb Z.eqb].
  rewrite (bind_Ret _ _ _ _ _ (deref_Some _ _)), (bind_Ret _ _ _ _ _ Hr2).
  destruct (child (fs s) d name) as [c|] eqn:Hc.
  2: { destruct Hres2 as [Hneg _]. simpl in Hneg. rewrite (proj2 (Z.eqb_neq _ _)) by lia.
    assert (refs_moved s s2 (one (Some d))) as Hm2'.
    { eapply refs_moved_ext; [|exact Hm2]. intros x. simpl. unfold one at 2.
      rewrite (decide_False (P := None = Some x)) by done. lia. }
    destruct (vput_held s s2 d _ Hm2') as ([] & s3 & Hr3 & Hm3); [done|rewrite one_eq; lia|].
    cbn [negb]. rewrite (bind_Ret _ _ _ _ _ Hr3). eexists _, _. split; [done|]. split; [done|].
    eapply refs_moved_ext; [|exact Hm3]. intros x. simpl. lia. }
  injection Hres2 as -> ->. cbn [negb Z.eqb]. pose proof (one_pos c) as Hp2.
  rewrite (bind_Ret _ _ _ _ _ (deref_Some _ _)).
  pose proof (refs_moved_tree _ _ _ Hm2) as (Hc2 & Hh2 & Hmo2 & _).
  rewrite (bind_Ret _ _ s2 (S_ISDIR (vn_mode (fs s) c)) s2) by (unfold vn_isdir, get; by rewrite Hmo2).
  cbv beta. destruct (S_ISDIR (vn_mode (fs s) c)).
  - destruct (vput_held s s2 d _ Hm2) as ([] & s3 & Hr3 & Hm3);
      [intros x; specialize (Hp1 x); specialize (Hp2 x); simpl; lia
      |rewrite one_eq; specialize (Hp2 d); lia|].
    rewrite (bind_Ret _ _ _ _ _ Hr3).
    destruct (vput_held s s3 c (one (Some c))) as ([] & s4 & Hr4 & Hm4);
      [eapply refs_moved_ext; [|exact Hm3]; intros x; simpl; lia|done|rewrite one_eq; lia|].
    rewrite (bind_Ret _ _ _ _ _ Hr4). eexists _, _. split; [done|]. split; [done|].
    eapply refs_moved_ext; [|exact Hm4]. intros x. simpl. lia.
  - intros Hun. rewrite (bind_Ret _ _ _ _ _ (vn_has_op_eq _ _ _)), Hh2, Hun.
    rewrite (bind_Ret _ _ s2 tt s2), (bind_Ret _ _ _ _ _ (deref_Some _ _)) by done.
    rewrite Nat2Z.id, firstn_all.
    by apply unlink_tail.
Qed.

(** ** Links *)

(** References that the call holds do not change how a path resolves. *)
Lemma resolves_moved s s' dl dir name b d :
  refs_moved s s' dl → (∀ x, 0 <= dl x) → resolves s dir name b d → resolves s' dir name b d.
Proof.
  intros (t & -> & Ht & Hx) Hdl [Hn Hd Hl Hs Hb Hw Hh]. pose proof Ht as (_ & Hh' & _ & _ & Hroot & _).
  split; try done; simpl.
  - unfold start_dir in *. simpl. by rewrite Hroot.
  - rewrite Hx. specialize (Hdl b). lia.
  - by rewrite (walk_same_tree (fs s)).
  - by rewrite Hh'.
Qed.

Lemma link_tail s s3 d from name extra :
  refs_moved s s3 (λ x, one (Some from) x + one (Some d) x + one extra x) →
  vn_has (fs s) VLink d = true →
  returns (res <- vn_call VLink d (vn_link from d name) ;;
           on_fs (vput from) ;;; on_fs (vput d) ;;; ret res) s3 (λ z s', ∃ t, s' = set_fs t s ∧
    entry_set z d name (λ oc, oc = Some from) (fs s) t ∧
    ∀ x, vrefs t x = vrefs (fs s) x + one extra x).
Proof.
  intros Hm Hlk. pose proof (refs_moved_tree _ _ _ Hm) as (_ & Hh3 & _).
  assert (vn_has (fs s3) VLink d = true) as Hlk3 by (by rewrite Hh3).
  assert (∀ v, (v = from ∨ v = d) → 0 < vrefs (fs s3) v) as Hpos.
  { intros v Hv. rewrite (refs_moved_refs _ _ _ _ Hm). pose proof (vrefs_nonneg (fs s) v).
    pose proof (one_pos from v). pose proof (one_pos d v). pose proof (one_range extra v).
    destruct Hv as [-> | ->]; rewrite one_eq in *; lia. }
  destruct (link_spec (fs s3) from d name Hlk3) as (z & t & Hrl & Hrf & Hcase); [auto|auto|].
  unfold returns. rewrite (bind_Ret _ _ _ _ _ (vn_call_eq _ _ _ _ _ _ Hlk3 Hrl)).
  destruct (vput_step (set_fs t s3) from) as ([] & s4 & Hr4 & (t4 & -> & Ht4 & Hx4)).
  { simpl. rewrite Hrf. auto. }
  simpl in Ht4, Hx4. rewrite (bind_Ret _ _ _ _ _ Hr4).
  destruct (vput_step (set_fs t4 (set_fs t s3)) d) as ([] & s5 & Hr5 & (t5 & -> & Ht5 & Hx5)).
  { simpl. rewrite Hx4, Hrf, (refs_moved_refs _ _ _ _ Hm), one_eq.
    pose proof (vrefs_nonneg (fs s) d). pose proof (one_range extra d). lia. }
  simpl in Ht5, Hx5. rewrite (bind_Ret _ _ _ _ _ Hr5).
  eexists _, _. split; [done|]. exists t5. destruct Hm as (t3 & -> & Ht3 & Hx3). simpl in *.
  split; [done|]. split.
  - eapply entry_set_from; [|exact Ht3]. eapply entry_set_trans; [|exact Ht5].
    eapply entry_set_trans; [|exact Ht4]. destruct Hcase as [[-> Hset]|[Hz Ht]]; [|by right].
    left. split; [done|]. by exists (Some from).
  - intros x. rewrite Hx5, Hx4, Hrf, Hx3. lia.
Qed.

(** [do_link] enters the file [from] under the new name exactly if the file
    system's link returns 0, and returns its result.  It does not check whether the
    name is taken, and if it is, the reference that the lookup took to the old file
    is never given back; otherwise the reference counts are as before. *)
Theorem do_link_links s fdir fname fb fd from tdir tname tb td :
  resolves s fdir fname fb fd → target (fs s) fd fname = Some from →
  resolves s tdir tname tb td → tname ≠ [] → vn_has (fs s) VLink td = true →
  returns (do_link (fdir ++ fname) (tdir ++ tname)) s (λ z s', ∃ t, s' = set_fs t s ∧
    entry_set z td tname (λ oc, oc = Some from) (fs s) t ∧
    ∀ x, vrefs t x = vrefs (fs s) x + one (child (fs s) td tname) x).
Proof.
  intros Hrf Htf Hrt Hne Hlk. pose proof (one_pos from) as Hpf. pose proof (one_pos td) as Hpt.
  pose proof (open_namev_target s fdir fname fb fd 0 Hrf) as Ho. rewrite Htf in Ho.
  destruct Ho as (r & s1 & Hr & -> & Hm1).
  assert (resolves s1 tdir tname tb td) as Hrt1 by (by eapply resolves_moved).
  destruct (dir_namev_resolved s1 tdir tname tb td Hrt1) as (r & s2 & Hr2 & -> & Hm2).
  rewrite (out_name tname Hne) in Hr2.
  destruct (resolved_lookup s1 s2 tdir tname tb td Hrt1 Hne Hm2) as (r3 & s3 & Hr3 & _ & Hm3).
  pose proof (refs_moved_tree _ _ _ Hm1) as (Hc1 & _). rewrite Hc1 in Hm3.
  unfold do_link, returns. rewrite (bind_Ret _ _ _ _ _ Hr). cbn [negb Z.eqb].
  rewrite (bind_Ret _ _ _ _ _ Hr2), (bind_Ret _ _ _ _ _ (deref_Some _ _)). cbn [negb Z.eqb].
  rewrite (bind_Ret _ _ _ _ _ Hr3), !(bind_Ret _ _ _ _ _ (deref_Some _ _)).
  rewrite Nat2Z.id, firstn_all. eapply link_tail; [|done].
  eapply refs_moved_ext; [|eapply refs_moved_trans; [exact Hm1|exact Hm3]]. intros x. simpl. lia.
Qed.

(** The calls that change names stop the kernel on a path that ends in a
    slash after a directory that exists: the path then has no name, and
    [do_mkdir] (unless it is the root), [do_rmdir], [do_unlink] and [do_mknod] use
    the null pointer that stands for it. *)
Theorem trailing_slash_panics s dir b d mode devid :
  resolves s dir [] b d → d ≠ vfs_root_vn (fs s) → S_ISCHR mode || S_ISBLK mode = true →
  do_mkdir dir s = Panic ∧ do_rmdir dir s = Panic ∧ do_unlink dir s = Panic ∧
  do_mknod dir mode devid s = Panic.
Proof.
  intros Hres Hroot Hmode.
  destruct (dir_namev_resolved s dir [] b d Hres) as (r & s1 & Hr & -> & Hm1).
  rewrite app_nil_r in Hr. simpl in Hr.
  pose proof (refs_moved_tree _ _ _ Hm1) as (_ & _ & _ & _ & Hroot1 & _).
  split; [|split; [|split]].
  - unfold do_mkdir. rewrite (bind_Ret _ _ _ _ _ Hr).
    rewrite (bind_Ret _ _ s1 (vfs_root_vn (fs s1)) s1) by done. cbv beta.
    rewrite bool_decide_eq_false_2 by (rewrite Hroot1; congruence). done.
  - unfold do_rmdir. by rewrite (bind_Ret _ _ _ _ _ Hr).
  - unfold do_unlink. by rewrite (bind_Ret _ _ _ _ _ Hr).
  - unfold do_mknod. rewrite Hmode, (bind_Ret _ _ s tt s) by done. by rewrite (bind_Ret _ _ _ _ _ Hr).
Qed.

(** [do_chdir] to a directory makes it the working directory, with one more
    reference to it and one less to the old one; a path to something else gives
    -ENOTDIR and changes nothing. *)
Theorem do_chdir_changes s dir name b d c old :
  resolves s dir name b d → target (fs s) d name = Some c → p_cwd s = Some old →
  0 < vrefs (fs s) old →
  returns (do_chdir (dir ++ name)) s (λ z s',
    if S_ISDIR (vn_mode (fs s) c)
    then z = 0 ∧ p_cwd s' = Some c ∧ files s' = files s ∧ p_files s' = p_files s ∧
      same_tree (fs s) (fs s') ∧
      ∀ x, vrefs (fs s') x = vrefs (fs s) x + one (Some c) x - one (Some old) x
    else z = - ENOTDIR ∧ refs_moved s s' (λ _, 0)).
Proof.
  intros Hres Ht Hcwd Hold. pose proof (one_pos c) as Hpc.
  pose proof (open_namev_target s dir name b d 0 Hres) as Ho. rewrite Ht in Ho.
  destruct Ho as (r & s1 & Hr & -> & Hm1). unfold do_chdir, returns.
  rewrite (bind_Ret _ _ _ _ _ Hr). cbn [negb Z.eqb]. rewrite (bind_Ret _ _ _ _ _ (deref_Some _ _)).
  pose proof (refs_moved_tree _ _ _ Hm1) as (_ & _ & Hmo & _).
  rewrite (bind_Ret _ _ s1 (S_ISDIR (vn_mode (fs s) c)) s1) by (unfold vn_isdir, get; by rewrite Hmo).
  destruct (S_ISDIR (vn_mode (fs s) c)); cbn [negb].
  - rewrite (bind_Ret _ _ s1 (Some old) s1) by (destruct Hm1 as (t1 & -> & _); unfold get; simpl; by rewrite Hcwd).
    rewrite (bind_Ret _ _ _ _ _ (deref_Some _ _)).
    destruct (vput_step s1 old) as ([] & s2 & Hr2 & Hm2).
    { rewrite (refs_moved_refs _ _ _ _ Hm1). specialize (Hpc old). lia. }
    rewrite (bind_Ret _ _ _ _ _ Hr2).
    pose proof (refs_moved_trans _ _ _ _ _ Hm1 Hm2) as (t & -> & Htree & Hx).
    eexists _, _. split; [reflexivity|]. simpl. repeat (split; [done|]).
    intros x. rewrite Hx. lia.
  - destruct (vput_held s s1 c _ Hm1) as ([] & s2 & Hr2 & Hm2); [done|rewrite one_eq; lia|].
    rewrite (bind_Ret _ _ _ _ _ Hr2). eexists _, _. split; [done|]. split; [done|].
    eapply refs_moved_ext; [|exact Hm2]. intros x. simpl. lia.
Qed.
End names.
