(* ===== verification/VfsEx.v ===== *)
(** * The virtual file system at work

    A small file system and file table that keep the promises of the interfaces,
    and the theorems on paths and descriptors applied to concrete calls. *)
From Stdlib Require Import Ascii String.
From S2P Require Import Prelude Headers Vfs NamevProps VfsProps VfsNames.
Local Open Scope kernel_scope.

#[local] Existing Instance errno_ex.
#[local] Existing Instance limits_ex.
#[local] Existing Instance fcntl_ex.
#[local] Existing Instance fcntl_ex_bits.

(** Reference counts and directory entries.  Vnode 1 is the root and vnode 2 a
    directory; all others are regular files. *)
Record exfs := ExFs { e_refs : positive → Z; e_child : positive → cstring → option positive }.

Definition e_isdir (v : positive) : bool := (v <=? 2)%positive.
Definition e_vrefs (t : exfs) (v : positive) : Z := Z.max 0 (e_refs t v).
Definition e_move (dl : positive → Z) (t : exfs) : exfs :=
  ExFs (λ x, e_vrefs t x + dl x) (e_child t).
Definition e_set (d : positive) (name : cstring) (oc : option positive) (t : exfs) : exfs :=
  ExFs (e_refs t) (λ d' n', if decide ((d', n') = (d, name)) then oc else e_child t d' n').

#[local] Instance ex_vnops : VnOps exfs := {|
  vfs_root_vn _ := 1%positive;
  vn_mode _ v := if e_isdir v then 2 else 4;
  vn_len _ _ := 10;
  vn_devid _ _ := 0;
  vn_has _ op v := match op with VRead | VWrite | VStat => true | _ => e_isdir v end;
  vref v := modify (e_move (one (Some v)));
  vput v := modify (e_move (λ x, - one (Some v) x));
  vn_lookup d name := λ t,
    Ret (if e_child t d name is Some c then (0, Some c) else (- ENOENT, None))
        (e_move (one (e_child t d name)) t);
  vn_create d name := λ t, Ret (0, Some 77%positive)
    (e_move (one (Some 77%positive)) (e_set d name (Some 77%positive) t));
  vn_mknod _ _ _ _ := ret 0;
  vn_mkdir d name := modify (e_set d name (Some 2%positive)) ;;; ret 0;
  vn_rmdir _ _ := ret 0;
  vn_unlink d name := modify (e_set d name None) ;;; ret 0;
  vn_link from d name := modify (e_set d name (Some from)) ;;; ret 0;
  vn_readdir _ _ := ret (0, []);
  vn_stat _ := ret (0, []);
  vn_read _ _ n := ret (Z.min n 3, replicate (Z.to_nat (Z.min n 3)) 65);
  vn_write _ _ _ := ret 0
|}.
#[local] Instance ex_view : VnView exfs := {| vrefs := e_vrefs; child := e_child; fs_room _ := 1%nat |}.

Lemma e_move_refs t dl :
  (∀ x, 0 <= e_vrefs t x + dl x) → ∀ x, e_vrefs (e_move dl t) x = e_vrefs t x + dl x.
Proof. intros Hd x. specialize (Hd x). unfold e_vrefs at 1. simpl. lia. Qed.

Lemma e_vrefs_nonneg t v : 0 <= e_vrefs t v.
Proof. unfold e_vrefs. lia. Qed.

Lemma e_move_one t oc x : e_vrefs (e_move (one oc) t) x = e_vrefs t x + one oc x.
Proof.
  apply e_move_refs. intros y. pose proof (e_vrefs_nonneg t y). pose proof (one_range oc y). lia.
Qed.

#[local] Instance ex_laws : VnLaws exfs.
Proof.
  split.
  - apply e_vrefs_nonneg.
  - intros t v Hv. eexists _, _. split; [reflexivity|]. split; [done|]. apply e_move_one.
  - intros t v Hv. eexists _, _. split; [reflexivity|]. split; [done|].
    apply e_move_refs. intros x. pose proof (e_vrefs_nonneg t x). unfold one.
    destruct (decide (Some v = Some x)); [simplify_eq; simpl in Hv; lia|lia].
  - intros t d name _ _. eexists _, _. split; [reflexivity|]. split; [done|].
    simpl. split; [by destruct (e_child t d name)|]. apply e_move_one.
  - intros t d name _ _. eexists _, _. split; [reflexivity|]. left. exists 77%positive.
    split; [done|]. simpl. split; [by rewrite decide_True|].
    split; [exact (e_move_one (e_set d name (Some 77%positive) t) (Some 77%positive))|].
    split; [|done]. intros d' n' Hne. by rewrite decide_False.
  - intros t v pos n _ _ Hn. eexists _, _. split; [reflexivity|]. split; [done|]. split; [done|].
    right. simpl. rewrite length_replicate. lia.
Qed.

Lemma e_child_set d name oc t : child_set t (e_set d name oc t) d name oc.
Proof. split; simpl; [by rewrite decide_True|]. intros. by rewrite decide_False. Qed.

#[local] Instance ex_mut : VnMutLaws exfs.
Proof.
  split.
  - intros t d name _ _. eexists _, _. split; [reflexivity|]. split; [done|]. left.
    split; [done|]. apply e_child_set.
  - intros t from d name _ _ _. eexists _, _. split; [reflexivity|]. split; [done|]. left.
    split; [done|]. apply e_child_set.
Qed.

#[local] Instance ex_files : FileOps exfs := {|
  fget fd := λ s,
    if fd =? -1 then
      let f := fresh (dom (files s)) in
      Ret (Some f) (set_files (<[f := File 0 0 1 None]> (files s)) s)
    else if fd <? 0 then Ret None s
    else match p_files s !! Z.to_nat fd with
    | Some (Some f) =>
        match files s !! f with
        | Some x =>
            Ret (Some f) (set_files (<[f := set_f_refcount (f_refcount x + 1) x]> (files s)) s)
        | None => Panic
        end
    | _ => Ret None s
    end;
  fput f := λ s,
    match files s !! f with
    | None => Panic
    | Some x =>
        if f_refcount x =? 1 then
          Ret tt (Vfs (delete f (files s)) (p_files s) (p_cwd s)
                    (e_move (λ v, - one (f_vnode x) v) (fs s)))
        else Ret tt (set_files (<[f := set_f_refcount (f_refcount x - 1) x]> (files s)) s)
    end
|}.

#[local] Instance ex_file_laws : FileLaws exfs.
Proof.
  split.
  - intros s. eexists _, _. split; [reflexivity|]. right. eexists. split; [done|].
    split; [|done]. apply not_elem_of_dom, is_fresh.
  - intros s fd f x H0 Hp Hf. simpl. rewrite (proj2 (Z.eqb_neq _ _)) by lia.
    rewrite (proj2 (Z.ltb_ge _ _)) by lia. by rewrite Hp, Hf.
  - intros s fd Hbad. simpl. rewrite (proj2 (Z.eqb_neq _ _)) by lia.
    destruct (Z.ltb_spec fd 0); [done|]. destruct Hbad as [|[Hlen|[_ Hp]]]; [lia| |by rewrite Hp].
    by rewrite lookup_ge_None_2 by lia.
  - intros s f x Hf Hx. simpl. rewrite Hf. by rewrite (proj2 (Z.eqb_neq _ _)) by lia.
  - intros s f x Hf Hx Hv. eexists _, _. split; [simpl; rewrite Hf, Hx; reflexivity|].
    eexists. split; [done|]. split; [done|]. intros v. simpl.
    rewrite e_move_refs; [lia|]. intros y. pose proof (e_vrefs_nonneg (fs s) y). unfold one.
    destruct (decide (f_vnode x = Some y)) as [Hy|]; [|lia]. specialize (Hv y Hy). simpl in Hv. lia.
Qed.

(** The root has the entries "bin", a directory, and "etc", a file; "bin" has the
    entry "ls".  Descriptor 0 refers to the file at address 5, open on "ls". *)
Definition str (x : string) : cstring := list_ascii_of_string x.
Definition ex_tree : exfs := ExFs (λ _, 1) (λ d name,
  if decide ((d, name) = (1%positive, str "bin")) then Some 2%positive
  else if decide ((d, name) = (1%positive, str "etc")) then Some 3%positive
  else if decide ((d, name) = (2%positive, str "ls")) then Some 4%positive
  else None).
Definition ex_vfs : vfs exfs :=
  Vfs {[5%positive := File 0 1 1 (Some 4%positive)]}
      (Some 5%positive :: replicate 31 None) (Some 1%positive) ex_tree.

Lemma ex_table_ok : table_ok (λ _, 0) ex_vfs.
Proof.
  split.
  - reflexivity.
  - intros f x. simpl. rewrite lookup_singleton_Some. intros [<- <-]. by vm_compute.
  - intros i f Hi. destruct i as [|i].
    + simpl in Hi. injection Hi as <-. by eexists.
    + change (replicate 31 (@None positive) !! i = Some (Some f)) in Hi.
      apply lookup_replicate in Hi as [? _]. done.
  - done.
  - intros f x. simpl. rewrite lookup_singleton_Some. intros [<- <-]. by eexists.
  - intros v. simpl. unfold e_vrefs. simpl. unfold vn_held, map_count. simpl.
    rewrite map_filter_singleton. case_decide; simpl; [rewrite map_size_singleton|rewrite map_size_empty]; lia.
Qed.

Lemma not_in_name (l : cstring) : forallb (λ c, negb (Ascii.eqb c SLASH)) l = true → SLASH ∉ l.
Proof.
  intros Hl Hin. rewrite forallb_forall in Hl.
  specialize (Hl SLASH (proj1 (list_elem_of_In _ _) Hin)). discriminate.
Qed.

Lemma ex_resolves_ls : resolves ex_vfs (str "/bin/") (str "ls") 1 2.
Proof. split; try reflexivity; [by apply not_in_name|by right|by vm_compute]. Qed.
Lemma ex_resolves_new : resolves ex_vfs (str "/bin//") (str "cat") 1 2.
Proof. split; try reflexivity; [by apply not_in_name|by right|by vm_compute]. Qed.
Lemma ex_resolves_dir : resolves ex_vfs (str "bin/") [] 1 2.
Proof. split; try reflexivity; [by apply not_elem_of_nil|by right|by vm_compute]. Qed.

(** ** The theorems at work *)

Lemma dir_namev_resolves_witness :
  returns (dir_namev (str "/bin/" ++ str "ls") None) ex_vfs (λ r s',
    r = (0, 2, Some (str "ls"), Some 2%positive) ∧ vrefs (fs s') 2 = 2).
Proof.
  pose proof (dir_namev_resolves ex_vfs None (str "/bin/") (str "ls") 1
    ltac:(by apply not_in_name) ltac:(by right) eq_refl ltac:(by vm_compute) ltac:(done)) as Hp.
  eapply returns_mono; [exact Hp|]. intros r s' (e & res & -> & Hcase).
  change (e = 0 ∧ res = Some 2%positive ∧ refs_moved ex_vfs s' (one (Some 2%positive))) in Hcase.
  destruct Hcase as (-> & -> & Hm). split; [done|]. by rewrite (refs_moved_refs _ _ _ _ Hm).
Defined.

Lemma open_namev_resolves_witness :
  returns (open_namev (str "/bin/" ++ str "new") O_CREAT None) ex_vfs (λ r s', r.1 <= 0).
Proof.
  pose proof (open_namev_resolves ex_vfs O_CREAT None (str "/bin/") (str "new") 1
    ltac:(by apply not_in_name) ltac:(by right) ltac:(by vm_compute) eq_refl ltac:(by vm_compute)) as Hp.
  eapply returns_mono; [exact (Hp eq_refl)|].
  intros r s' [(v & t & -> & _)|(e & -> & He & _)]; simpl; lia.
Defined.



Lemma do_lseek_moves_witness :
  do_lseek 0 (-3) SEEK_END ex_vfs
    = Ret 7 (set_files {[5%positive := File 7 1 1 (Some 4%positive)]} ex_vfs).
Proof. rewrite (do_lseek_moves (λ _, 0) ex_vfs 0 (-3) SEEK_END ex_table_ok). reflexivity. Defined.

(** Descriptors 0 and 1 refer to different files. *)
Definition ex_vfs2 : vfs exfs :=
  Vfs {[5%positive := File 0 1 1 (Some 4%positive); 6%positive := File 0 1 1 (Some 3%positive)]}
      (Some 5%positive :: Some 6%positive :: replicate 30 None) (Some 1%positive) ex_tree.

Lemma ex_table_ok2 : table_ok (λ _, 0) ex_vfs2.
Proof.
  change ex_vfs2 with (Vfs {[5%positive := File 0 1 1 (Some 4%positive);
      6%positive := File 0 1 1 (Some 3%positive)]}
    (<[1%nat := Some 6%positive]> (p_files ex_vfs)) (p_cwd ex_vfs) ex_tree).
  replace ({[5%positive := File 0 1 1 (Some 4%positive); 6%positive := File 0 1 1 (Some 3%positive)]}
    : gmap positive file) with (<[6%positive := File 0 1 1 (Some 3%positive)]> (files ex_vfs))
    by reflexivity.
  set (t := ex_tree). 
  assert (table_ok (λ _, 0) (Vfs (<[6%positive := File 0 1 1 (Some 3%positive)]> (files ex_vfs))
    (<[1%nat := Some 6%positive]> (p_files ex_vfs)) (p_cwd ex_vfs) (e_move (one (Some 3%positive)) ex_tree)))
    as [Hl Hr Hv Ho Hw _].
  { apply (opened_table_ok (λ _, 0) ex_vfs 1 6 1 (e_move (one (Some 3%positive)) ex_tree) 3);
      [apply ex_table_ok|done|done|apply e_move_one]. }
  split; try done. intros v. simpl. rewrite vn_held_fresh by done. simpl.
  unfold e_vrefs. simpl. unfold vn_held, map_count. rewrite map_filter_singleton. simpl.
  destruct (decide (Some 4%positive = Some v)), (decide (Some 3%positive = Some v));
    simplify_eq; rewrite ?map_size_singleton, ?map_size_empty; simpl; lia.
Qed.

Lemma do_dup2_leaks_witness :
  returns (do_dup2 0 1) ex_vfs2 (λ r s', r = 1 ∧ ∃ z, files s' !! 6%positive = Some z ∧
    f_refcount z = fd_count (p_files s') 6 + 1).
Proof.
  eapply returns_mono.
  - apply (do_dup2_leaks (λ _, 0) ex_vfs2 0 1 5 (File 0 1 1 (Some 4%positive)) 6
      (File 0 1 1 (Some 3%positive)) ex_table_ok2); [by split; [|split]|by split; [|split]|done].
  - intros r s' (-> & z & Hz & Hc). split; [done|]. exists z. split; [done|]. rewrite Hc. lia.
Defined.

Lemma do_read_reads_witness :
  returns (do_read 0 100) ex_vfs (λ r s', r.1 < 0 ∨ r.1 <= 100).
Proof.
  pose proof (do_read_reads (λ _, 0) ex_vfs 0 100 5 (File 0 1 1 (Some 4%positive)) 4 ex_table_ok
    ltac:(by split; [|split]) eq_refl ltac:(lia)) as Hp.
  eapply returns_mono; [exact Hp|]. intros r s' (t & _ & _ & [[? _]|[? _]]); lia.
Defined.

Lemma do_unlink_removes_witness :
  returns (do_unlink (str "/bin/" ++ str "ls")) ex_vfs (λ z s',
    fs_moved ex_vfs s' (entry_set z 2 (str "ls") (λ oc, oc = None))).
Proof.
  exact (do_unlink_removes ex_vfs (str "/bin/") (str "ls") 1 2 ex_resolves_ls ltac:(done) eq_refl).
Defined.

Lemma ex_resolves_etc : resolves ex_vfs [] (str "etc") 1 1.
Proof. split; try reflexivity; [by apply not_in_name|by left|by vm_compute]. Qed.

(** Linking "etc" over "/bin/ls" leaks a reference to the vnode of "ls". *)
Lemma do_link_links_witness :
  returns (do_link ([] ++ str "etc") (str "/bin/" ++ str "ls")) ex_vfs (λ _ s',
    vrefs (fs s') 4 = vrefs ex_tree 4 + 1).
Proof.
  eapply returns_mono.
  - apply (do_link_links ex_vfs [] (str "etc") 1 1 3 (str "/bin/") (str "ls") 1 2
      ex_resolves_etc eq_refl ex_resolves_ls); done.
  - intros z s' (t & -> & _ & Hx). apply (Hx 4%positive).
Defined.

Lemma trailing_slash_panics_witness :
  do_mkdir (str "bin/") ex_vfs = Panic ∧ do_mknod (str "bin/") 1 0 ex_vfs = Panic.
Proof.
  destruct (trailing_slash_panics ex_vfs (str "bin/") 1 2 1 0 ex_resolves_dir) as (H1 & _ & _ & H4);
    [done|reflexivity|]. by split.
Defined.

Lemma do_chdir_changes_witness :
  returns (do_chdir (str "bin/" ++ [])) ex_vfs (λ z s', z = 0 ∧ p_cwd s' = Some 2%positive).
Proof.
  eapply returns_mono.
  - apply (do_chdir_changes ex_vfs (str "bin/") [] 1 2 2 1 ex_resolves_dir); [reflexivity|reflexivity|].
    by vm_compute.
  - intros z s' (-> & Hc & _). done.
Defined.
