(* ===== verification/Proc.v ===== *)
(** * Processes and threads: proc/proc.c and proc/kthread.c

    The process table, the process tree and the life of threads, on top of the
    scheduler's state.  What the code calls of the virtual file system, the address
    spaces, the page allocator and the page tables is the interface [ProcOps]. *)
From S2P Require Import Prelude Headers Sched.
Local Open Scope kernel_scope.

(** ** Data *)

Inductive pstate : Set := PROC_RUNNING | PROC_DEAD.

#[export] Instance pstate_eq_dec : EqDecision pstate.
Proof. solve_decision. Defined.

(** A list of children.  [Stale] is the list head of a process whose children were
    linked into another list without being unlinked from this one: its pointers
    lead into the other list, and to use it is undefined. *)
Inductive children := Linked (l : list procp) | Stale.

(** [proc_t].  The links [p_list_link] and [p_child_link] are membership in
    [_proc_list] and in the list of children of a process; the queue [p_wait] lives
    in the scheduler's state, at the address [p_wait p]. *)
Record proc := Proc {
  p_pid : Z;
  p_comm : list Z;
  p_threads : list tid;
  p_children : children;
  p_pproc : option procp;
  p_status : Z;
  p_state : pstate;
  p_pagedir : option positive;
  p_cwd : option positive;
  p_files : list (option positive);
  p_vmmap : option positive;
  p_brk : Z;
  p_start_brk : Z
}.

Definition set_p_pid v p := Proc v (p_comm p) (p_threads p) (p_children p) (p_pproc p)
  (p_status p) (p_state p) (p_pagedir p) (p_cwd p) (p_files p) (p_vmmap p) (p_brk p) (p_start_brk p).
Definition set_p_comm v p := Proc (p_pid p) v (p_threads p) (p_children p) (p_pproc p)
  (p_status p) (p_state p) (p_pagedir p) (p_cwd p) (p_files p) (p_vmmap p) (p_brk p) (p_start_brk p).
Definition set_p_threads v p := Proc (p_pid p) (p_comm p) v (p_children p) (p_pproc p)
  (p_status p) (p_state p) (p_pagedir p) (p_cwd p) (p_files p) (p_vmmap p) (p_brk p) (p_start_brk p).
Definition set_p_children v p := Proc (p_pid p) (p_comm p) (p_threads p) v (p_pproc p)
  (p_status p) (p_state p) (p_pagedir p) (p_cwd p) (p_files p) (p_vmmap p) (p_brk p) (p_start_brk p).
Definition set_p_pproc v p := Proc (p_pid p) (p_comm p) (p_threads p) (p_children p) v
  (p_status p) (p_state p) (p_pagedir p) (p_cwd p) (p_files p) (p_vmmap p) (p_brk p) (p_start_brk p).
Definition set_p_status v p := Proc (p_pid p) (p_comm p) (p_threads p) (p_children p)
  (p_pproc p) v (p_state p) (p_pagedir p) (p_cwd p) (p_files p) (p_vmmap p) (p_brk p) (p_start_brk p).
Definition set_p_state v p := Proc (p_pid p) (p_comm p) (p_threads p) (p_children p)
  (p_pproc p) (p_status p) v (p_pagedir p) (p_cwd p) (p_files p) (p_vmmap p) (p_brk p) (p_start_brk p).
Definition set_p_pagedir v p := Proc (p_pid p) (p_comm p) (p_threads p) (p_children p)
  (p_pproc p) (p_status p) (p_state p) v (p_cwd p) (p_files p) (p_vmmap p) (p_brk p) (p_start_brk p).
Definition set_p_cwd v p := Proc (p_pid p) (p_comm p) (p_threads p) (p_children p)
  (p_pproc p) (p_status p) (p_state p) (p_pagedir p) v (p_files p) (p_vmmap p) (p_brk p) (p_start_brk p).
Definition set_p_files v p := Proc (p_pid p) (p_comm p) (p_threads p) (p_children p)
  (p_pproc p) (p_status p) (p_state p) (p_pagedir p) (p_cwd p) v (p_vmmap p) (p_brk p) (p_start_brk p).
Definition set_p_vmmap v p := Proc (p_pid p) (p_comm p) (p_threads p) (p_children p)
  (p_pproc p) (p_status p) (p_state p) (p_pagedir p) (p_cwd p) (p_files p) v (p_brk p) (p_start_brk p).
Definition set_p_brk v p := Proc (p_pid p) (p_comm p) (p_threads p) (p_children p)
  (p_pproc p) (p_status p) (p_state p) (p_pagedir p) (p_cwd p) (p_files p) (p_vmmap p) v (p_start_brk p).
Definition set_p_start_brk v p := Proc (p_pid p) (p_comm p) (p_threads p) (p_children p)
  (p_pproc p) (p_status p) (p_state p) (p_pagedir p) (p_cwd p) (p_files p) (p_vmmap p) (p_brk p) v.

(** What [memset(p, 0, sizeof(proc_t))] leaves; the lists are initialised later. *)
Definition proc_zero : proc :=
  Proc 0 [] [] (Linked []) None 0 PROC_RUNNING None None [] None 0 0.

(** The rest of [kthread_t]: stack, context (of type [X]) and the link in the list
    of the threads of its process. *)
Record kt_mem (X : Type) := KtMem {
  kt_kstack : option positive;
  kt_ctx : option X;
  kt_plink : bool
}.
Arguments KtMem {X} kt_kstack kt_ctx kt_plink.
Arguments kt_kstack {X} _.
Arguments kt_ctx {X} _.
Arguments kt_plink {X} _.

Definition set_kt_proc v t := Kthread (kt_state t) (kt_wchan t) (kt_qlink t)
  (kt_cancelled t) (kt_retval t) (kt_errno t) v.
Definition kthread_zero : kthread := Kthread KT_NO_STATE None false 0 0 0 None.

(** The scheduler's state, the processes by address, [_proc_list], [next_pid] and
    [proc_initproc], the rest of the threads, and the rest of the kernel [E]. *)
Record kernel (E X : Type) := Kernel {
  sch : sched;
  procs : gmap procp proc;
  proc_list : list procp;
  next_pid : Z;
  proc_initproc : option procp;
  kt_mems : gmap tid (kt_mem X);
  ext : E
}.
Arguments Kernel {E X} sch procs proc_list next_pid proc_initproc kt_mems ext.
Arguments sch {E X} _.
Arguments procs {E X} _.
Arguments proc_list {E X} _.
Arguments next_pid {E X} _.
Arguments proc_initproc {E X} _.
Arguments kt_mems {E X} _.
Arguments ext {E X} _.

(** proc/proc.h, config.h and the layout of [proc_t]: the address of the field
    [p_wait].  [wait_turns] bounds how often the model lets a waiting parent be
    woken before it gives up. *)
Class ProcH := {
  PROC_NAME_LEN : nat;
  DEFAULT_STACK_SIZE : Z;
  p_wait : procp → qid;
  wait_turns : nat;
  p_wait_inj p q : p_wait p = p_wait q → p = q;
  p_wait_runq p : p_wait p ≠ kt_runq
}.

(** What the code calls.  The slab allocators give an address that is not in use,
    or [NULL]. *)
Class ProcOps (E X : Type) `{ProcH} := {
  proc_slab : kernel E X → option procp;
  kthread_slab : kernel E X → option tid;
  page_alloc_n : Z → M E (option positive);
  page_free_n : positive → Z → M E unit;
  (** [context_setup(ctx, func, arg1, arg2, kstack, kstacksz, pdptr)] *)
  context_setup : option positive → Z → Z → option positive → Z → option positive → M E X;
  pt_create_pagedir : M E (option positive);
  pt_destroy_pagedir : positive → M E unit;
  vfs_root_vn : E → option positive;
  vref : positive → M E unit;
  vput : positive → M E unit;
  fput : positive → M E unit;
  vmmap_create : M E (option positive);
  (** [map->vmm_proc = p] *)
  vmm_set_proc : positive → procp → M E unit;
  vmmap_destroy : option positive → M E unit;
  proc_slab_fresh s p : proc_slab s = Some p →
    procs s !! p = None ∧ queues (sch s) !! p_wait p = None;
  kthread_slab_fresh s t : kthread_slab s = Some t →
    threads (sch s) !! t = None ∧ kt_mems s !! t = None
}.

Section proc.
Context `{HE : ErrnoH, HI : IntrH, HP : PageH, HL : LimitsH, HH : ProcH}.
Context {E X : Type} `{HO : !ProcOps E X}.
Local Abbreviation K := (kernel E X).
Implicit Types (p c : procp) (t : tid).

(** ** Reading and writing through pointers *)

Definition on_sch {A} (m : M sched A) : M K A :=
  zoom sch (λ x s, Kernel x (procs s) (proc_list s) (next_pid s) (proc_initproc s)
                     (kt_mems s) (ext s)) m.
Definition on_ext {A} (m : M E A) : M K A :=
  zoom ext (λ x s, Kernel (sch s) (procs s) (proc_list s) (next_pid s) (proc_initproc s)
                     (kt_mems s) x) m.
Definition proc_get p : M K proc := λ s, deref (procs s !! p) s.
Definition proc_upd p (f : proc → proc) : M K unit :=
  modify (λ s, Kernel (sch s) (alter f p (procs s)) (proc_list s) (next_pid s)
                 (proc_initproc s) (kt_mems s) (ext s)).
Definition procs_set (f : gmap procp proc → gmap procp proc) : M K unit :=
  modify (λ s, Kernel (sch s) (f (procs s)) (proc_list s) (next_pid s)
                 (proc_initproc s) (kt_mems s) (ext s)).
Definition proc_list_set (f : list procp → list procp) : M K unit :=
  modify (λ s, Kernel (sch s) (procs s) (f (proc_list s)) (next_pid s)
                 (proc_initproc s) (kt_mems s) (ext s)).
Definition next_pid_set (v : Z) : M K unit :=
  modify (λ s, Kernel (sch s) (procs s) (proc_list s) v
                 (proc_initproc s) (kt_mems s) (ext s)).
Definition initproc_set (v : option procp) : M K unit :=
  modify (λ s, Kernel (sch s) (procs s) (proc_list s) (next_pid s)
                 v (kt_mems s) (ext s)).
Definition kt_mems_set (f : gmap tid (kt_mem X) → gmap tid (kt_mem X)) : M K unit :=
  modify (λ s, Kernel (sch s) (procs s) (proc_list s) (next_pid s)
                 (proc_initproc s) (f (kt_mems s)) (ext s)).
Definition threads_set (f : gmap tid kthread → gmap tid kthread) : M K unit :=
  on_sch (modify (λ s, Sched (f (threads s)) (queues s) (curthr s) (curproc s) (ipl s))).
Definition queues_set (f : gmap qid ktqueue → gmap qid ktqueue) : M K unit :=
  on_sch (modify (λ s, Sched (threads s) (f (queues s)) (curthr s) (curproc s) (ipl s))).
Definition curproc_ptr : M K procp := λ s, deref (curproc (sch s)) s.
(** [*curproc] *)
Definition curproc_get : M K proc := cur <- curproc_ptr ;; proc_get cur.
Definition curproc_upd (f : proc → proc) : M K unit :=
  cur <- curproc_ptr ;; proc_get cur ;;; proc_upd cur f.

(** The children lists: reading one, [list_insert_tail] and [list_remove]. *)
Definition children_get p : M K (list procp) :=
  P <- proc_get p ;;
  match p_children P with Linked l => ret l | Stale => panic end.
Definition children_insert_tail p c : M K unit :=
  l <- children_get p ;; proc_upd p (set_p_children (Linked (l ++ [c]))).
Definition children_remove p c : M K unit :=
  l <- children_get p ;; proc_upd p (set_p_children (Linked (filter (λ x, x ≠ c) l))).

(** ** proc.c: looking up and numbering processes *)

(** [list_iterate_begin(l, p, ...) if (f p) ...]: the first process that passes. *)
Fixpoint first_proc (f : proc → bool) (l : list procp) : M K (option procp) :=
  match l with
  | [] => ret None
  | p :: l => P <- proc_get p ;; if f P then ret (Some p) else first_proc f l
  end.

Definition proc_lookup (pid : Z) : M K (option procp) :=
  l <- get proc_list ;; first_proc (λ P, p_pid P =? pid) l.

Fixpoint proc_getid_loop (n : nat) (pid : Z) : M K Z :=
  l <- get proc_list ;;
  r <- first_proc (λ P, p_pid P =? pid) l ;;
  match r with
  | Some _ =>
      next <- get next_pid ;;
      let pid := Z.rem (pid + 1) PROC_MAX_COUNT in
      if pid =? next then ret (-1)
      else match n with O => out_of_fuel | S n => proc_getid_loop n pid end
  | None => next_pid_set (Z.rem (pid + 1) PROC_MAX_COUNT) ;;; ret pid
  end.

(** A turn per process number is enough. *)
Definition _proc_getid : M K Z :=
  pid <- get next_pid ;; proc_getid_loop (Z.to_nat PROC_MAX_COUNT) pid.

(** ** proc.c: creating processes *)

(** The bytes of [p_comm]: at most [PROC_NAME_LEN - 1] characters of the name, the
    rest zero. *)
Definition comm_of (name : list Z) : list Z :=
  let n := take (PROC_NAME_LEN - 1) name in
  n ++ replicate (PROC_NAME_LEN - length n) 0.

Definition proc_create (name : list Z) : M K procp :=
  p <- (λ s, deref (proc_slab s) s) ;;
  procs_set (insert p proc_zero) ;;;
  pid <- _proc_getid ;;
  proc_upd p (set_p_pid pid) ;;;
  l <- get proc_list ;;
  kassert (negb (PID_IDLE =? pid) || bool_decide (l = [])) ;;;
  (if PID_INIT =? pid then C <- curproc_get ;; kassert (PID_IDLE =? p_pid C) else ret tt) ;;;
  proc_upd p (set_p_comm (comm_of name)) ;;;
  proc_upd p (set_p_threads []) ;;;
  proc_upd p (set_p_children (Linked [])) ;;;
  cur <- on_sch (get curproc) ;;
  proc_upd p (set_p_pproc cur) ;;;
  proc_upd p (set_p_status 0) ;;;
  proc_upd p (set_p_state PROC_RUNNING) ;;;
  on_sch (sched_queue_init (p_wait p)) ;;;
  pd <- on_ext pt_create_pagedir ;;
  proc_upd p (set_p_pagedir pd) ;;;
  match cur with Some cur => children_insert_tail cur p | None => ret tt end ;;;
  proc_list_set (λ l, l ++ [p]) ;;;
  root <- get (λ s, vfs_root_vn (ext s)) ;;
  proc_upd p (set_p_cwd root) ;;;
  match root with Some v => on_ext (vref v) | None => ret tt end ;;;
  proc_upd p (set_p_files (replicate NFILES None)) ;;;
  map <- on_ext vmmap_create ;;
  proc_upd p (set_p_vmmap map) ;;;
  map <- deref map ;;
  on_ext (vmm_set_proc map p) ;;;
  (if pid =? PID_INIT then initproc_set (Some p) else ret tt) ;;;
  ret p.

(** ** kthread.c: creating and destroying threads *)

Definition stack_pages : Z := 1 + Z.shiftr DEFAULT_STACK_SIZE PAGE_SHIFT.
Definition alloc_stack : M K (option positive) := on_ext (page_alloc_n stack_pages).
Definition free_stack (stack : positive) : M K unit := on_ext (page_free_n stack stack_pages).

Definition kt_mem_get t : M K (kt_mem X) := λ s, deref (kt_mems s !! t) s.

Definition kthread_destroy (thr : option tid) : M K unit :=
  t <- deref thr ;;
  th <- on_sch (thr_get t) ;;
  m <- kt_mem_get t ;;
  stack <- deref (kt_kstack m) ;;
  free_stack stack ;;;
  (if kt_plink m then
     p <- deref (kt_proc th) ;;
     proc_get p ;;;
     proc_upd p (λ P, set_p_threads (filter (λ x, x ≠ t) (p_threads P)) P)
   else ret tt) ;;;
  threads_set (delete t) ;;;
  kt_mems_set (delete t).

Definition kthread_create (p : option procp) (func : positive) (arg1 arg2 : Z) : M K tid :=
  p <- deref p ;;
  t <- (λ s, deref (kthread_slab s) s) ;;
  threads_set (insert t kthread_zero) ;;;
  stack <- alloc_stack ;;
  P <- proc_get p ;;
  ctx <- on_ext (context_setup (Some func) arg1 arg2 stack DEFAULT_STACK_SIZE (p_pagedir P)) ;;
  kt_mems_set (insert t (KtMem stack (Some ctx) false)) ;;;
  on_sch (thr_upd t (set_kt_proc (Some p))) ;;;
  on_sch (thr_upd t (set_kt_cancelled 0)) ;;;
  on_sch (thr_upd t (set_kt_retval 0)) ;;;
  on_sch (thr_upd t (set_kt_wchan None)) ;;;
  on_sch (thr_upd t (set_kt_state KT_RUN)) ;;;
  (if negb (p_pid P =? PID_IDLE) then on_sch (thr_upd t (set_kt_state KT_NO_STATE))
   else ret tt) ;;;
  on_sch (thr_upd t (set_kt_errno 0)) ;;;
  on_sch (thr_upd t (set_kt_qlink false)) ;;;
  proc_upd p (λ P, set_p_threads (p_threads P ++ [t]) P) ;;;
  kt_mems_set (alter (λ m, KtMem (kt_kstack m) (kt_ctx m) true) t) ;;;
  ret t.

Definition copy_thread_values (cloned_thread : tid) (thr : tid) : M K unit :=
  th <- on_sch (thr_get thr) ;;
  on_sch (thr_upd cloned_thread (set_kt_wchan (kt_wchan th))) ;;;
  on_sch (thr_upd cloned_thread (set_kt_state (kt_state th))) ;;;
  on_sch (thr_upd cloned_thread (set_kt_errno (kt_errno th))) ;;;
  on_sch (thr_upd cloned_thread (set_kt_retval (kt_retval th))) ;;;
  on_sch (thr_upd cloned_thread (set_kt_cancelled (kt_cancelled th))).

Definition kthread_clone (thr : tid) : M K tid :=
  th <- on_sch (thr_get thr) ;;
  kassert (bool_decide (KT_RUN = kt_state th)) ;;;
  newthr <- (λ s, deref (kthread_slab s) s) ;;
  threads_set (insert newthr kthread_zero) ;;;
  stack <- alloc_stack ;;
  p <- deref (kt_proc th) ;;
  P <- proc_get p ;;
  ctx <- on_ext (context_setup None 0 0 stack DEFAULT_STACK_SIZE (p_pagedir P)) ;;
  kt_mems_set (insert newthr (KtMem stack (Some ctx) false)) ;;;
  copy_thread_values newthr thr ;;;
  on_sch (thr_upd newthr (set_kt_qlink false)) ;;;
  on_sch (thr_upd newthr (set_kt_proc None)) ;;;
  new <- on_sch (thr_get newthr) ;;
  kassert (bool_decide (KT_RUN = kt_state new)) ;;;
  ret newthr.

(** ** proc.c and kthread.c: exiting *)

(** Hands the children over to the init process.  Their links are put into its list
    without being taken out of the list of the current process. *)
Fixpoint reparent (l : list procp) : M K unit :=
  match l with
  | [] => ret tt
  | c :: l =>
      init <- (λ s, deref (proc_initproc s) s) ;;
      proc_get c ;;;
      proc_upd c (set_p_pproc (Some init)) ;;;
      children_insert_tail init c ;;;
      reparent l
  end.

(** [for (int a = 0; a < NFILES; a++) ...] from [a] on, [n] turns. *)
Fixpoint close_files (n a : nat) : M K unit :=
  match n with
  | O => ret tt
  | S n =>
      C <- curproc_get ;;
      f <- deref (p_files C !! a) ;;
      match f with Some f => on_ext (fput f) | None => ret tt end ;;;
      curproc_upd (λ C, set_p_files (<[a := None]> (p_files C)) C) ;;;
      close_files n (Datatypes.S a)
  end.

Definition proc_cleanup (status : Z) : M K unit :=
  init <- get proc_initproc ;;
  kassert (bool_decide (init ≠ None)) ;;;
  C <- curproc_get ;;
  kassert (bool_decide (p_pproc C ≠ None)) ;;;
  kassert (1 <=? p_pid C) ;;;
  curproc_upd (set_p_state PROC_DEAD) ;;;
  curproc_upd (set_p_status status) ;;;
  cur <- curproc_ptr ;;
  l <- children_get cur ;;
  (if bool_decide (l = []) then ret tt
   else proc_upd cur (set_p_children Stale) ;;; reparent l) ;;;
  C <- curproc_get ;;
  match p_cwd C with Some v => on_ext (vput v) | None => ret tt end ;;;
  close_files NFILES 0 ;;;
  C <- curproc_get ;;
  on_ext (vmmap_destroy (p_vmmap C)) ;;;
  C <- curproc_get ;;
  parent <- deref (p_pproc C) ;;
  proc_get parent ;;;
  e <- on_sch (sched_queue_empty (p_wait parent)) ;;
  (if (e : bool) then ret tt
   else
     on_sch (sched_broadcast_on (p_wait parent)) ;;;
     t <- on_sch curthr_get ;;
     on_sch (thr_get t) ;;;
     on_sch (thr_upd t (set_kt_state KT_EXITED))) ;;;
  curproc_upd (set_p_state PROC_DEAD) ;;;
  C <- curproc_get ;;
  kassert (bool_decide (p_pproc C ≠ None)) ;;;
  t <- on_sch curthr_get ;;
  th <- on_sch (thr_get t) ;;
  kassert (bool_decide (KT_EXITED = kt_state th)).

Definition proc_thread_exited (retval : Z) : M K unit :=
  proc_cleanup retval ;;;
  on_sch sched_switch.

Definition kthread_exit (retval : Z) : M K unit :=
  t <- on_sch curthr_get ;;
  on_sch (thr_get t) ;;;
  on_sch (thr_upd t (set_kt_retval retval)) ;;;
  on_sch (thr_upd t (set_kt_state KT_EXITED)) ;;;
  th <- on_sch (thr_get t) ;;
  kassert (bool_decide (kt_wchan th = None)) ;;;
  kassert (negb (kt_qlink th)) ;;;
  cur <- on_sch (get curproc) ;;
  kassert (bool_decide (kt_proc th = cur)) ;;;
  proc_thread_exited retval.

Definition kthread_cancel (kthr : tid) (retval : Z) : M K unit :=
  cur <- on_sch (get curthr) ;;
  if bool_decide (Some kthr = cur) then kthread_exit retval
  else
    on_sch (thr_get kthr) ;;;
    on_sch (thr_upd kthr (set_kt_cancelled 1)) ;;;
    on_sch (thr_upd kthr (set_kt_retval retval)) ;;;
    on_sch (sched_cancel kthr).

(** [list_iterate_begin(&p->p_threads, ...) kthread_cancel(thread, status)] *)
Fixpoint cancel_all (l : list tid) (status : Z) : M K unit :=
  match l with
  | [] => ret tt
  | t :: l => kthread_cancel t status ;;; cancel_all l status
  end.

Definition do_exit (status : Z) : M K unit :=
  C <- curproc_get ;; cancel_all (p_threads C) status.

Definition proc_kill (p : procp) (status : Z) : M K unit :=
  cur <- on_sch (get curproc) ;;
  if bool_decide (Some p = cur) then do_exit status
  else P <- proc_get p ;; cancel_all (p_threads P) status.

Fixpoint kill_others (l : list procp) : M K unit :=
  match l with
  | [] => ret tt
  | p :: l =>
      P <- proc_get p ;;
      cur <- on_sch (get curproc) ;;
      (if negb (p_pid P =? PID_IDLE) && negb (bool_decide (Some p = cur))
            && negb (p_pid P =? PID_INIT) && negb (p_pid P =? 2)
       then proc_kill p (p_status P) else ret tt) ;;;
      kill_others l
  end.

Definition proc_kill_all : M K unit :=
  l <- get proc_list ;;
  kill_others l ;;;
  cur <- curproc_ptr ;;
  C <- proc_get cur ;;
  if negb (p_pid C =? PID_INIT) && negb (p_pid C =? PID_IDLE) && negb (p_pid C =? 2)
  then proc_kill cur (p_status C) else ret tt.

(** ** proc.c: waiting for children *)

(** The part of [do_waitpid] that disposes of a dead child, in both of its
    branches: what it returns and what it stores in [*status]. *)
Definition reap (pid : Z) (status : bool) c : M K (Z * option Z) :=
  C <- proc_get c ;;
  let st := if status then Some (p_status C) else None in
  let res_pid := p_pid C in
  t <- deref (last (p_threads C)) ;;
  kthread_destroy (Some t) ;;;
  proc_upd c (set_p_pproc None) ;;;
  proc_list_set (filter (λ x, x ≠ c)) ;;;
  cur <- curproc_ptr ;;
  children_remove cur c ;;;
  kassert ((-1 =? pid) || (p_pid C =? pid)) ;;;
  C <- proc_get c ;;
  pd <- deref (p_pagedir C) ;;
  on_ext (pt_destroy_pagedir pd) ;;;
  procs_set (delete c) ;;;
  queues_set (delete (p_wait c)) ;;;
  ret (res_pid, st).

(** [while (tmp_proc->p_state != PROC_DEAD) sched_sleep_on(&curproc->p_wait)] *)
Fixpoint wait_dead (n : nat) c : M K unit :=
  C <- proc_get c ;;
  if bool_decide (p_state C = PROC_DEAD) then ret tt
  else
    match n with
    | O => out_of_fuel
    | S n => cur <- curproc_ptr ;; on_sch (sched_sleep_on (p_wait cur)) ;;; wait_dead n c
    end.

(** [while (1)] of the branch for any child. *)
Fixpoint wait_any (n : nat) (status : bool) : M K (Z * option Z) :=
  cur <- curproc_ptr ;;
  l <- children_get cur ;;
  r <- first_proc (λ C, bool_decide (p_state C = PROC_DEAD)) l ;;
  match r with
  | Some c => reap (-1) status c
  | None =>
      on_sch (sched_sleep_on (p_wait cur)) ;;;
      match n with O => out_of_fuel | S n => wait_any n status end
  end.

(** [status] tells whether the pointer is not [NULL]; the result is the value
    returned and what is stored through the pointer. *)
Definition do_waitpid (pid : Z) (options : Z) (status : bool) : M K (Z * option Z) :=
  cur <- curproc_ptr ;;
  l <- children_get cur ;;
  if bool_decide (l = []) then ret (- ECHILD, None)
  else if 0 <? pid then
    r <- first_proc (λ C, p_pid C =? pid) l ;;
    match r with
    | Some c => wait_dead wait_turns c ;;; reap pid status c
    | None => ret (- ECHILD, None)
    end
  else if pid =? -1 then wait_any wait_turns status
  else ret (0, None).
End proc.
