(* ===== verification/ProcProps.v ===== *)
(** * Properties of processes: numbering, creation

    The laws of the interface, the invariant of the process table and tree, and
    what numbering and creating processes and threads does. *)
From S2P Require Import Prelude Headers Sched SchedProps Proc.
Local Open Scope kernel_scope.

(** ** What the rest of the kernel promises *)

(** What the theorems observe of it: reference counts of open files, and the
    address spaces, page directories and kernel stacks in use. *)
Class ProcView (E : Type) := {
  f_refs : E → positive → Z;
  maps_live : E → gset positive;
  pds_live : E → gset positive;
  stacks_live : E → gset positive
}.

Section view.
Context {E : Type} `{ProcView E}.
(** Only what is named differs between two states. *)
Definition same_files (e e' : E) : Prop := ∀ f, f_refs e' f = f_refs e f.
Definition same_maps (e e' : E) : Prop := maps_live e' = maps_live e.
Definition same_pds (e e' : E) : Prop := pds_live e' = pds_live e.
Definition same_stacks (e e' : E) : Prop := stacks_live e' = stacks_live e.
Definition same_view (e e' : E) : Prop :=
  same_files e e' ∧ same_maps e e' ∧ same_pds e e' ∧ same_stacks e e'.
End view.

(** Every operation runs to completion and does what its name says. *)
Class ProcLaws (E X : Type) `{ProcH, !ProcView E, !ProcOps E X} := {
  page_alloc_n_ok n e : ∃ r e', page_alloc_n n e = Ret r e' ∧
    same_files e e' ∧ same_maps e e' ∧ same_pds e e' ∧
    match r with
    | Some a => a ∉ stacks_live e ∧ stacks_live e' = {[a]} ∪ stacks_live e
    | None => same_stacks e e'
    end;
  page_free_n_ok a n e : a ∈ stacks_live e → ∃ e', page_free_n a n e = Ret tt e' ∧
    same_files e e' ∧ same_maps e e' ∧ same_pds e e' ∧
    stacks_live e' = stacks_live e ∖ {[a]};
  context_setup_ok f a b st n pd e : ∃ x e',
    context_setup f a b st n pd e = Ret x e' ∧ same_view e e';
  pt_create_pagedir_ok e : ∃ r e', pt_create_pagedir e = Ret r e' ∧
    vfs_root_vn e' = vfs_root_vn e ∧
    same_files e e' ∧ same_maps e e' ∧ same_stacks e e' ∧
    match r with
    | Some a => a ∉ pds_live e ∧ pds_live e' = {[a]} ∪ pds_live e
    | None => same_pds e e'
    end;
  pt_destroy_pagedir_ok a e : a ∈ pds_live e → ∃ e', pt_destroy_pagedir a e = Ret tt e' ∧
    same_files e e' ∧ same_maps e e' ∧ same_stacks e e' ∧
    pds_live e' = pds_live e ∖ {[a]};
  vref_ok v e : ∃ e', vref v e = Ret tt e' ∧ same_view e e';
  vput_ok v e : ∃ e', vput v e = Ret tt e' ∧ same_view e e';
  fput_ok f e : 0 < f_refs e f → ∃ e', fput f e = Ret tt e' ∧
    (∀ g, f_refs e' g = f_refs e g - (if decide (g = f) then 1 else 0)) ∧
    same_maps e e' ∧ same_pds e e' ∧ same_stacks e e';
  vmmap_create_ok e : ∃ r e', vmmap_create e = Ret r e' ∧
    same_files e e' ∧ same_pds e e' ∧ same_stacks e e' ∧
    match r with
    | Some a => a ∉ maps_live e ∧ maps_live e' = {[a]} ∪ maps_live e
    | None => same_maps e e'
    end;
  vmm_set_proc_ok m p e : m ∈ maps_live e → ∃ e', vmm_set_proc m p e = Ret tt e' ∧
    same_view e e';
  vmmap_destroy_ok m e : m ∈ maps_live e → ∃ e', vmmap_destroy (Some m) e = Ret tt e' ∧
    same_files e e' ∧ same_pds e e' ∧ same_stacks e e' ∧
    maps_live e' = maps_live e ∖ {[m]}
}.

(** ** The process table and the process tree *)

(** The children a process has: a stale list holds none of its own. *)
Definition child_list (P : proc) : list procp :=
  match p_children P with Linked l => l | Stale => [] end.

Section props.
Context `{HE : ErrnoH, HI : IntrH, HP : PageH, HL : LimitsH, HH : ProcH}.
Context {E X : Type} `{HO : !ProcOps E X}.
Local Abbreviation K := (kernel E X).
Implicit Types (p c : procp) (t : tid) (s : K).

(** Process numbers in use. *)
Definition used s (pid : Z) : Prop :=
  ∃ p P, p ∈ proc_list s ∧ procs s !! p = Some P ∧ p_pid P = pid.
(** What numbering relies on. *)
Definition listed s : Prop :=
  (∀ p, p ∈ proc_list s → is_Some (procs s !! p)) ∧ 0 <= next_pid s < PROC_MAX_COUNT.

(** [_proc_list] lists the processes once each, process numbers are unique, and
    every process has a full descriptor table. *)
Record table_wf s : Prop := {
  pw_nodup : NoDup (proc_list s);
  pw_dom p : p ∈ proc_list s ↔ is_Some (procs s !! p);
  pw_next : 0 <= next_pid s < PROC_MAX_COUNT;
  pw_pid p P : procs s !! p = Some P → -1 <= p_pid P < PROC_MAX_COUNT;
  pw_uniq p q P Q : procs s !! p = Some P → procs s !! q = Some Q →
    0 <= p_pid P → p_pid P = p_pid Q → p = q;
  pw_files p P : procs s !! p = Some P → length (p_files P) = NFILES
}.

(** The children of a process are the processes that have it as their parent; a dead
    process has none. *)
Record tree_wf s : Prop := {
  pw_nodup_children p P : procs s !! p = Some P → NoDup (child_list P);
  pw_children p P c : procs s !! p = Some P →
    c ∈ child_list P ↔ ∃ C, procs s !! c = Some C ∧ p_pproc C = Some p;
  pw_parent c C p : procs s !! c = Some C → p_pproc C = Some p →
    p ≠ c ∧ is_Some (procs s !! p);
  pw_dead p P : procs s !! p = Some P → p_state P = PROC_DEAD → child_list P = [];
  pw_stale p P : procs s !! p = Some P → p_children P = Stale → p_state P = PROC_DEAD
}.

(** Every process has a wait queue, and its threads belong to it. *)
Record kt_wf s : Prop := {
  pw_wait p : is_Some (procs s !! p) → is_Some (queues (sch s) !! p_wait p);
  pw_nodup_threads p P : procs s !! p = Some P → NoDup (p_threads P);
  pw_threads p P t : procs s !! p = Some P → t ∈ p_threads P →
    ∃ th m, threads (sch s) !! t = Some th ∧ kt_proc th = Some p ∧
      kt_mems s !! t = Some m ∧ kt_plink m = true
}.

Record boot_wf s : Prop := {
  wf_table :> table_wf s;
  wf_tree :> tree_wf s;
  wf_kt :> kt_wf s
}.

(** From [sched_init] on there is a run queue. *)
Record proc_wf s : Prop := {
  wf_boot :> boot_wf s;
  pw_runq : is_Some (queues (sch s) !! kt_runq)
}.

(** ** Numbering processes *)

Definition passes s (f : proc → bool) p : bool :=
  match procs s !! p with Some P => f P | None => false end.

Lemma first_proc_run f l s :
  (∀ p, p ∈ l → is_Some (procs s !! p)) →
  first_proc f l s = Ret (head (filter (λ p, passes s f p = true) l)) s.
Proof.
  induction l as [|p l IH]; intros Hl; [done|]. simpl. unfold bind, proc_get.
  destruct (Hl p) as [P HP']; [set_solver|]. rewrite HP'. simpl.
  assert (passes s f p = f P) as Hp by (unfold passes; by rewrite HP').
  rewrite filter_cons, Hp. destruct (f P); simpl; [done|]. rewrite IH by set_solver. done.
Qed.

(** The first that passes, if any does. *)
Lemma head_filter_None {A} (P : A → Prop) `{!∀ x, Decision (P x)} l :
  head (filter P l) = None ↔ ∀ x, x ∈ l → ¬ P x.
Proof.
  split.
  - intros Hh x Hx HPx. destruct (filter P l) eqn:Hf; [|done].
    apply (not_elem_of_nil x). rewrite <- Hf. by apply list_elem_of_filter.
  - intros Hn. destruct (filter P l) as [|x l'] eqn:Hf; [done|].
    assert (x ∈ filter P l) as [? ?]%list_elem_of_filter by (rewrite Hf; set_solver).
    by destruct (Hn x).
Qed.

Lemma head_filter_Some {A} (P : A → Prop) `{!∀ x, Decision (P x)} l x :
  head (filter P l) = Some x → x ∈ l ∧ P x.
Proof.
  intros Hh. destruct (filter P l) as [|y l'] eqn:Hf; [done|]. simpl in Hh. simplify_eq.
  assert (x ∈ filter P l) as [? ?]%list_elem_of_filter by (rewrite Hf; set_solver). done.
Qed.

Lemma used_search s pid :
  listed s →
  ∃ r, first_proc (λ P, p_pid P =? pid) (proc_list s) s = Ret r s ∧
    (r ≠ None ↔ used s pid).
Proof.
  intros [Hl _]. eexists. split; [by apply first_proc_run|]. split.
  - intros Hne. destruct (head _) as [p|] eqn:Hh; [|done].
    apply head_filter_Some in Hh as [Hin Hp]. unfold passes in Hp.
    destruct (procs s !! p) as [P|] eqn:HP'; [|done]. exists p, P. zbool. done.
  - intros (p & P & Hin & HP' & Hpid) Hh. rewrite head_filter_None in Hh.
    apply (Hh p Hin). unfold passes. rewrite HP'. by apply Z.eqb_eq.
Qed.

(** The state after [next_pid] was set. *)
Definition with_next (v : Z) s : K :=
  Kernel (sch s) (procs s) (proc_list s) v (proc_initproc s) (kt_mems s) (ext s).

(** What [_proc_getid] is to find: the first unused number from [next_pid] on,
    going around at [PROC_MAX_COUNT]; -1 if all are used. *)
Definition pid_spec s (pid : Z) : Prop :=
  (pid = -1 ∧ ∀ i, 0 <= i < PROC_MAX_COUNT → used s i) ∨
  (∃ k, 0 <= k < PROC_MAX_COUNT ∧ pid = (next_pid s + k) mod PROC_MAX_COUNT ∧
     ¬ used s pid ∧ ∀ j, 0 <= j < k → used s ((next_pid s + j) mod PROC_MAX_COUNT)).

Definition numbered (pid : Z) s : K :=
  if pid =? -1 then s else with_next ((pid + 1) mod PROC_MAX_COUNT) s.

Lemma mod_all_used s :
  0 <= next_pid s < PROC_MAX_COUNT →
  (∀ j, 0 <= j < PROC_MAX_COUNT → used s ((next_pid s + j) mod PROC_MAX_COUNT)) →
  ∀ i, 0 <= i < PROC_MAX_COUNT → used s i.
Proof.
  intros Hn Hall i Hi. destruct (Z.le_gt_cases (next_pid s) i).
  - specialize (Hall (i - next_pid s)).
    replace (next_pid s + (i - next_pid s)) with i in Hall by lia.
    rewrite Z.mod_small in Hall by lia. apply Hall. lia.
  - specialize (Hall (i + PROC_MAX_COUNT - next_pid s)).
    replace (next_pid s + (i + PROC_MAX_COUNT - next_pid s))
      with (i + 1 * PROC_MAX_COUNT) in Hall by lia.
    rewrite Z_mod_plus_full, Z.mod_small in Hall by lia. apply Hall. lia.
Qed.

Lemma max_pos : 0 < PROC_MAX_COUNT.
Proof. pose proof proc_max_count_pos. lia. Qed.

(** The successor of the number [k] places after [next_pid]. *)
Lemma pid_succ next k :
  0 <= next < PROC_MAX_COUNT → 0 <= k < PROC_MAX_COUNT →
  Z.rem ((next + k) mod PROC_MAX_COUNT + 1) PROC_MAX_COUNT
    = (next + (k + 1)) mod PROC_MAX_COUNT ∧
  ((next + (k + 1)) mod PROC_MAX_COUNT = next ↔ k + 1 = PROC_MAX_COUNT).
Proof.
  intros Hn Hk. pose proof proc_max_count_pos.
  pose proof (Z.mod_pos_bound (next + k) PROC_MAX_COUNT max_pos).
  rewrite Z.rem_mod_nonneg by lia. rewrite Zplus_mod_idemp_l.
  split; [f_equal; lia|]. split.
  - intros Heq. destruct (Z.lt_ge_cases (next + (k + 1)) PROC_MAX_COUNT).
    + rewrite Z.mod_small in Heq by lia. lia.
    + destruct (Z.lt_ge_cases (next + (k + 1) - PROC_MAX_COUNT) PROC_MAX_COUNT); [|lia].
      replace (next + (k + 1)) with (next + (k + 1) - PROC_MAX_COUNT + 1 * PROC_MAX_COUNT)
        in Heq by lia. rewrite Z_mod_plus_full, Z.mod_small in Heq by lia. lia.
  - intros ->. rewrite <- (Z.mul_1_l PROC_MAX_COUNT) at 1.
    rewrite Z_mod_plus_full, Z.mod_small; lia.
Qed.

Lemma getid_loop_run s n : ∀ k,
  listed s → 0 <= k < PROC_MAX_COUNT → PROC_MAX_COUNT <= k + Z.of_nat n + 1 →
  (∀ j, 0 <= j < k → used s ((next_pid s + j) mod PROC_MAX_COUNT)) →
  ∃ pid, proc_getid_loop n ((next_pid s + k) mod PROC_MAX_COUNT) s =
    Ret pid (numbered pid s) ∧ pid_spec s pid.
Proof.
  pose proof proc_max_count_pos as Hmax.
  induction n as [|n IH]; intros k Hwf Hk Hfuel Hused;
    pose proof (proj2 Hwf) as Hnext;
    set (pid := (next_pid s + k) mod PROC_MAX_COUNT);
    pose proof (Z.mod_pos_bound (next_pid s + k) PROC_MAX_COUNT max_pos) as Hpid;
    fold pid in Hpid;
    destruct (used_search s pid Hwf) as (r & Hr & Hru);
    destruct (pid_succ (next_pid s) k Hnext Hk) as [Hsucc Hwrap]; fold pid in Hsucc;
    simpl; (erewrite bind_Ret by done); rewrite (bind_Ret _ _ _ _ _ Hr).
  all: destruct r as [p|].
  2, 4: exists pid; (split; [|right; exists k; naive_solver]);
    unfold numbered; rewrite (proj2 (Z.eqb_neq _ _)) by lia;
    rewrite <- Z.rem_mod_nonneg by lia; done.
  all: erewrite bind_Ret by done; rewrite Hsucc; cbv zeta.
  all: assert (∀ j, 0 <= j < k + 1 → used s ((next_pid s + j) mod PROC_MAX_COUNT)) as Hu'
    by (intros j Hj; destruct (decide (j = k)) as [->|]; [by apply Hru|apply Hused; lia]).
  all: destruct (_ =? next_pid s) eqn:Heq; zbool.
  2: { exfalso. apply Heq, Hwrap. lia. }
  3: { apply IH; [done| |lia|done]. split; [lia|].
       destruct (decide (k + 1 = PROC_MAX_COUNT)) as [He|]; [|lia].
       exfalso. apply Heq, Hwrap, He. }
  all: exists (-1); split; [done|]; left; (split; [done|]); apply mod_all_used; [done|].
  all: intros j Hj; apply Hu'; rewrite (proj1 Hwrap Heq); done.
Qed.

Lemma proc_getid_run s :
  listed s → ∃ pid, _proc_getid s = Ret pid (numbered pid s) ∧ pid_spec s pid.
Proof.
  intros Hwf. pose proof (proj2 Hwf) as Hn. pose proof proc_max_count_pos.
  destruct (getid_loop_run s (Z.to_nat PROC_MAX_COUNT) 0 Hwf) as (pid & Hrun & Hspec);
    [lia|lia|lia|].
  exists pid. split; [|done]. unfold _proc_getid. erewrite bind_Ret by done.
  by rewrite Z.add_0_r, Z.mod_small in Hrun by lia.
Qed.

Lemma proc_wf_listed s : boot_wf s → listed s.
Proof. intros Hwf. split; [intros p; apply Hwf|apply Hwf]. Qed.

(** [_proc_getid] terminates, and gives the first process number from [next_pid]
    on, going around after the largest, that no process has, moving [next_pid]
    behind it; it gives -1, and changes nothing, exactly when every number is
    taken. *)
Theorem proc_getid_unused s :
  proc_wf s →
  ∃ pid, _proc_getid s = Ret pid (numbered pid s) ∧ pid_spec s pid ∧ ¬ (0 <= pid ∧ used s pid) ∧
    (pid = -1 ↔ ∀ i, 0 <= i < PROC_MAX_COUNT → used s i).
Proof.
  intros Hwf. destruct (proc_getid_run s (proc_wf_listed s Hwf)) as (pid & Hrun & Hspec).
  exists pid. do 2 (split; [done|]). pose proof proc_max_count_pos.
  destruct Hspec as [[-> Hall]|(k & Hk & -> & Hnu & _)].
  - split; [lia|]. by split.
  - pose proof (Z.mod_pos_bound (next_pid s + k) PROC_MAX_COUNT max_pos).
    split; [naive_solver|]. split; [lia|]. intros Hall. by destruct Hnu; apply Hall.
Qed.

(** ** Creating processes *)

Definition with_ext (e : E) s : K :=
  Kernel (sch s) (procs s) (proc_list s) (next_pid s) (proc_initproc s) (kt_mems s) e.
Definition with_sch (x : sched) s : K :=
  Kernel x (procs s) (proc_list s) (next_pid s) (proc_initproc s) (kt_mems s) (ext s).
Definition with_procs (ps : gmap procp proc) s : K :=
  Kernel (sch s) ps (proc_list s) (next_pid s) (proc_initproc s) (kt_mems s) (ext s).

Lemma on_ext_run {A} (m : M E A) s a e :
  m (ext s) = Ret a e → on_ext m s = Ret a (with_ext e s).
Proof. unfold on_ext, zoom. by intros ->. Qed.

Lemma on_sch_run {A} (m : M sched A) s a x :
  m (sch s) = Ret a x → on_sch m s = Ret a (with_sch x s).
Proof. unfold on_sch, zoom. by intros ->. Qed.

Lemma opt_ext_exec (f : positive → M E unit) (o : option positive) s e :
  from_option f (ret tt) o (ext s) = Ret tt e →
  (match o with Some v => on_ext (f v) | None => ret tt end) s = Ret tt (with_ext e s).
Proof.
  destruct o; simpl; [apply on_ext_run|]. intros [= <-]. by destruct s.
Qed.

Definition new_proc (pid : Z) (name : list Z) (parent : option procp)
    (pd root map : option positive) : proc :=
  Proc pid (comm_of name) [] (Linked []) parent 0 PROC_RUNNING pd root
       (replicate NFILES None) map 0 0.

(** A process with one more child at the end of its list. *)
Definition add_child c (P : proc) : proc := set_p_children (Linked (child_list P ++ [c])) P.

(** The state after [p] was made by the current process. *)
Definition created s p pid (P : proc) (e : E) : K :=
  Kernel (Sched (threads (sch s)) (<[p_wait p := Ktqueue [] 0]> (queues (sch s)))
                (curthr (sch s)) (curproc (sch s)) (ipl (sch s)))
         (<[p := P]> (from_option (alter (add_child p)) id (curproc (sch s)) (procs s)))
         (proc_list s ++ [p]) (next_pid (numbered pid s))
         (if pid =? PID_INIT then Some p else proc_initproc s) (kt_mems s) e.

(** The current process is there, and its list of children can be used. *)
Definition parent_ok s : Prop :=
  ∀ cur, curproc (sch s) = Some cur → ∃ C, procs s !! cur = Some C ∧ p_state C = PROC_RUNNING.

Lemma numbered_fields pid s :
  numbered pid s = with_next (next_pid (numbered pid s)) s.
Proof. unfold numbered. destruct s. by case_match. Qed.

Lemma children_get_run s p P :
  boot_wf s → procs s !! p = Some P → p_state P = PROC_RUNNING →
  p_children P = Linked (child_list P).
Proof.
  intros Hwf HP' Hst. unfold child_list. destruct (p_children P) eqn:He; [done|].
  pose proof (pw_stale _ Hwf _ _ HP' He). congruence.
Qed.

(** [_proc_getid] does not see a process that is not in [_proc_list] yet. *)
Lemma listed_new s p P :
  p ∉ proc_list s → listed s → listed (with_procs (<[p := P]> (procs s)) s).
Proof.
  intros Hp [Hl Hn]. split; [|done]. intros q Hq. simpl.
  rewrite lookup_insert_ne by set_solver. auto.
Qed.

Lemma used_new s p P pid :
  p ∉ proc_list s → used (with_procs (<[p := P]> (procs s)) s) pid ↔ used s pid.
Proof.
  intros Hp. unfold used. simpl. split; intros (q & Q & Hq & HQ & Hpid); exists q, Q;
    (rewrite lookup_insert_ne in * by set_solver); done.
Qed.

Lemma pid_spec_new s p P pid :
  p ∉ proc_list s → pid_spec (with_procs (<[p := P]> (procs s)) s) pid → pid_spec s pid.
Proof.
  intros Hp. pose proof (λ i, used_new s p P i Hp) as Hu. unfold pid_spec. simpl.
  intros [[-> Ha]|(k & Hk & Hpid & Hnu & Ha)].
  - left. split; [done|]. intros i Hi. by apply Hu, Ha.
  - right. exists k. do 2 (split; [done|]). split; [by rewrite <- Hu|].
    intros j Hj. by apply Hu, Ha.
Qed.

Lemma pid_spec_unique s pid pid' : pid_spec s pid → pid_spec s pid' → pid = pid'.
Proof.
  pose proof max_pos as Hmax.
  intros [[-> Ha]|(k & Hk & -> & Hnu & Hb)] [[-> Ha']|(k' & Hk' & -> & Hnu' & Hb')].
  - done.
  - destruct Hnu'. apply Ha. by apply Z.mod_pos_bound.
  - destruct Hnu. apply Ha'. by apply Z.mod_pos_bound.
  - destruct (Z.lt_trichotomy k k') as [?|[->|?]]; [|done|].
    + destruct Hnu. apply Hb'. lia.
    + destruct Hnu'. apply Hb. lia.
Qed.

(** The assertions of [proc_create] on the new process number. *)
Definition pid_allowed s (pid : Z) : Prop :=
  (pid = PID_IDLE → proc_list s = []) ∧
  (pid = PID_INIT → ∃ cur C, curproc (sch s) = Some cur ∧ procs s !! cur = Some C ∧
                             p_pid C = PID_IDLE).

(** Updates of a process that is at hand. *)
Lemma proc_upd_run s p P f :
  procs s !! p = Some P → proc_upd p f s = Ret tt (with_procs (<[p := f P]> (procs s)) s).
Proof. intros HP'. unfold proc_upd, modify. by erewrite alter_lookup_insert by done. Qed.

Lemma curproc_get_run s p C :
  curproc (sch s) = Some p → procs s !! p = Some C → curproc_get s = Ret C s.
Proof.
  intros Hc HC. unfold curproc_get, curproc_ptr, proc_get, bind. rewrite Hc. simpl.
  by rewrite HC.
Qed.

Lemma curproc_upd_run s p C f :
  curproc (sch s) = Some p → procs s !! p = Some C →
  curproc_upd f s = Ret tt (with_procs (<[p := f C]> (procs s)) s).
Proof.
  intros Hc HC. unfold curproc_upd, curproc_ptr, bind. rewrite Hc. simpl.
  unfold proc_get. rewrite HC. simpl. by apply proc_upd_run.
Qed.

(** Two updates of a process in a row are one. *)
Lemma proc_upd_upd {A} p f g (k : M K A) s :
  (proc_upd p f ;;; proc_upd p g ;;; k) s = (proc_upd p (λ P, g (f P)) ;;; k) s.
Proof. unfold proc_upd, modify, bind. simpl. by rewrite alter_twice. Qed.

Lemma children_insert_tail_run s p P l c :
  procs s !! p = Some P → p_children P = Linked l →
  children_insert_tail p c s =
    Ret tt (with_procs (alter (set_p_children (Linked (l ++ [c]))) p (procs s)) s).
Proof.
  intros HP' Hl. unfold children_insert_tail, children_get, bind, proc_get.
  rewrite HP'. simpl. by rewrite Hl.
Qed.

Ltac knorm := cbn [procs sch proc_list next_pid proc_initproc kt_mems ext threads queues
  curthr curproc ipl with_procs with_ext with_sch with_next].
Ltac pstep p :=
  erewrite (bind_Ret (proc_upd p _)) by (apply proc_upd_run, lookup_insert_eq);
  knorm; rewrite ?insert_insert_eq.

(** The assertion about the number 1, once the new process [p] is there. *)
Lemma pid_init_assert s s' p pid :
  pid_allowed s pid → procs s !! p = None → curproc (sch s') = curproc (sch s) →
  (∀ q, q ≠ p → procs s' !! q = procs s !! q) →
  (if PID_INIT =? pid then C <- curproc_get ;; kassert (PID_IDLE =? p_pid C) else ret tt) s' = Ret tt s'.
Proof.
  intros [_ Hinit] Hp Hcp Hps. destruct (PID_INIT =? pid) eqn:He; [|done]. zbool.
  destruct (Hinit (eq_sym He)) as (cur & C & Hcur & HC & Hpid).
  unfold curproc_get, curproc_ptr, proc_get, bind. rewrite Hcp, Hcur. simpl.
  rewrite Hps, HC by congruence. simpl. by rewrite Hpid, Z.eqb_refl.
Qed.

(** The new process joins the children of the current one, if there is one. *)
Lemma join_parent_run s s' p P :
  boot_wf s → parent_ok s → procs s !! p = None → procs s' = <[p := P]> (procs s) →
  match curproc (sch s) with Some cur => children_insert_tail cur p | None => ret tt end s' =
    Ret tt (with_procs (<[p := P]> (from_option (alter (add_child p)) id (curproc (sch s)) (procs s))) s').
Proof.
  intros Hwf Hpar Hp Hps. destruct (curproc (sch s)) as [cur|] eqn:Hcur.
  2: { destruct s'. simpl in *. by subst. }
  destruct (Hpar cur Hcur) as (C & HC & Hst). assert (p ≠ cur) as Hne by congruence.
  erewrite children_insert_tail_run.
  2: { rewrite Hps. by rewrite lookup_insert_ne. }
  2: { eapply children_get_run; [exact Hwf|exact HC|done]. }
  rewrite Hps, alter_insert_ne by done. do 3 f_equal. simpl. by rewrite !(alter_lookup_insert _ _ _ _ HC).
Qed.

(** [proc_create], given what the calls it makes return. *)
Lemma proc_create_exec s p pid name pd map e1 e2 e3 e4 :
  boot_wf s → parent_ok s → proc_slab s = Some p → pid_spec s pid → pid_allowed s pid →
  pt_create_pagedir (ext s) = Ret pd e1 →
  from_option vref (ret tt) (vfs_root_vn e1) e1 = Ret tt e2 →
  vmmap_create e2 = Ret (Some map) e3 → vmm_set_proc map p e3 = Ret tt e4 →
  proc_create name s =
    Ret p (created s p pid (new_proc pid name (curproc (sch s)) pd (vfs_root_vn e1) (Some map)) e4).
Proof.
  intros Hwf Hpar Hp Hspec Hal Hpd Hv Hmap Hset. pose proof Hal as [Hidle _].
  destruct (proc_slab_fresh s p Hp) as [Hfresh _].
  assert (p ∉ proc_list s) as Hnl.
  { intros Hin. apply Hwf in Hin as [??]. congruence. }
  unfold proc_create. erewrite bind_Ret by (by rewrite Hp). kstep.
  destruct (proc_getid_run _ (listed_new s p proc_zero Hnl (proc_wf_listed _ Hwf)))
    as (pid' & Hgetid & Hspec').
  apply pid_spec_new in Hspec'; [|done].
  rewrite (pid_spec_unique s pid' pid) in Hgetid by done. clear pid' Hspec'.
  rewrite (bind_Ret _ _ _ _ _ Hgetid). rewrite numbered_fields.
  set (np := next_pid (numbered pid _)).
  assert (np = next_pid (numbered pid s)) as Hnp.
  { subst np. unfold numbered. by case_match. }
  clearbody np. destruct s as [[ths qs ct cp ip] ps pl n0 ini ms e0]. simpl in *.
  unfold with_next, with_procs. simpl.
  rewrite (bind_Ret _ _ _ tt _ (proc_upd_run _ p _ _ (lookup_insert_eq _ _ _))).
  kstep. erewrite (bind_Ret (kassert _)).
  2: { apply kassert_true. destruct (PID_IDLE =? pid) eqn:He; [|done]. zbool. simpl.
       apply bool_decide_eq_true_2. auto. }
  erewrite (bind_Ret (if PID_INIT =? pid then _ else _)).
  2: { eapply (pid_init_assert _ _ p pid); [done|done|done|]. intros q Hq. simpl. by rewrite !lookup_insert_ne. }
  do 3 (pstep p). kstep. do 3 (pstep p). kstep.
  erewrite (bind_Ret (on_ext _)) by (apply on_ext_run; exact Hpd). pstep p.
  set (ps1 := from_option (alter (add_child p)) id cp ps).
  set (P1 := set_p_pagedir _ _).
  erewrite (bind_Ret (match cp with Some _ => _ | None => _ end) _ _ tt
    (Kernel (Sched ths (<[p_wait p := Ktqueue [] 0]> qs) ct cp ip)
            (<[p := P1]> ps1) pl np ini ms e1)).
  2: { exact (join_parent_run _ (Kernel (Sched ths (<[p_wait p := Ktqueue [] 0]> qs) ct cp ip)
         (<[p := P1]> ps) pl np ini ms e1) p P1 Hwf Hpar Hfresh eq_refl). }
  kstep. kstep. knorm. pstep p.
  erewrite (bind_Ret (match vfs_root_vn e1 with Some _ => _ | None => _ end))
    by (apply opt_ext_exec; exact Hv).
  pstep p.
  erewrite (bind_Ret (on_ext _)) by (apply on_ext_run; exact Hmap). pstep p. kstep.
  erewrite (bind_Ret (on_ext _)) by (apply on_ext_run; exact Hset). knorm.
  subst np. unfold created. simpl. destruct (pid =? PID_INIT); kstep; reflexivity.
Qed.

(** The processes after a creation: the new one, and the old ones, its parent with
    one more child. *)
Lemma created_lookup s p pid P e q Q :
  procs s !! p = None →
  procs (created s p pid P e) !! q = Some Q ↔
  (q = p ∧ Q = P) ∨
  (q ≠ p ∧ ∃ Q0, procs s !! q = Some Q0 ∧
     Q = if bool_decide (curproc (sch s) = Some q) then add_child p Q0 else Q0).
Proof.
  intros Hp. simpl. rewrite lookup_insert_Some. 
  assert (from_option (alter (add_child p)) id (curproc (sch s)) (procs s) !! q =
    (if bool_decide (curproc (sch s) = Some q) then add_child p else id) <$> procs s !! q) as ->.
  { destruct (curproc (sch s)) as [cur|]; simpl.
    - rewrite lookup_alter. case_decide; case_bool_decide; simplify_eq; try done.
      by rewrite option_fmap_id.
    - by rewrite option_fmap_id. }
  rewrite fmap_Some. case_bool_decide; naive_solver.
Qed.

(** A process that may have gained a child is otherwise the same. *)
Lemma child_list_add c P : child_list (add_child c P) = child_list P ++ [c].
Proof. done. Qed.
Lemma apid (b : bool) c P : p_pid (if b then add_child c P else P) = p_pid P.
Proof. by destruct b. Qed.
Lemma approc (b : bool) c P : p_pproc (if b then add_child c P else P) = p_pproc P.
Proof. by destruct b. Qed.
Lemma apstate (b : bool) c P : p_state (if b then add_child c P else P) = p_state P.
Proof. by destruct b. Qed.
Lemma apfiles (b : bool) c P : p_files (if b then add_child c P else P) = p_files P.
Proof. by destruct b. Qed.
Lemma apthreads (b : bool) c P : p_threads (if b then add_child c P else P) = p_threads P.
Proof. by destruct b. Qed.

Lemma pid_spec_range s pid :
  pid_spec s pid → -1 <= pid < PROC_MAX_COUNT ∧ (0 <= pid → ¬ used s pid).
Proof.
  pose proof proc_max_count_pos.
  intros [[-> _]|(k & Hk & -> & Hnu & _)]; [lia|].
  pose proof (Z.mod_pos_bound (next_pid s + k) PROC_MAX_COUNT max_pos). split; [lia|done].
Qed.

Lemma numbered_next pid s :
  boot_wf s → -1 <= pid < PROC_MAX_COUNT → 0 <= next_pid (numbered pid s) < PROC_MAX_COUNT.
Proof.
  intros Hwf Hpid. unfold numbered. case_match; [apply Hwf|]. simpl.
  apply Z.mod_pos_bound, max_pos.
Qed.

Section created.
Context s p (pid : Z) (name : list Z) (pd root map : option positive) (e : E)
  (Hwf : boot_wf s) (Hpar : parent_ok s)
  (Hslab : proc_slab s = Some p) (Hspec : pid_spec s pid).
Local Abbreviation P := (new_proc pid name (curproc (sch s)) pd root map).
Local Abbreviation s' := (created s p pid P e).

Lemma created_inv q Q :
  procs s' !! q = Some Q ↔
  (q = p ∧ Q = P) ∨
  (q ≠ p ∧ ∃ Q0, procs s !! q = Some Q0 ∧
     Q = if bool_decide (curproc (sch s) = Some q) then add_child p Q0 else Q0).
Proof. apply created_lookup, (proc_slab_fresh s p Hslab). Qed.

Lemma created_table : table_wf s'.
Proof.
  destruct (proc_slab_fresh s p Hslab) as [Hp _].
  destruct (pid_spec_range s pid Hspec) as [Hpid Hnu].
  assert (∀ q Q, procs s !! q = Some Q → 0 <= pid → p_pid Q ≠ pid) as Hnu'.
  { intros q Q HQ Hpos <-. apply Hnu; [done|]. exists q, Q. split; [apply Hwf|]; eauto. }
  pose proof created_inv as Hlk. split.
  - simpl. apply NoDup_app. split; [apply Hwf|]. split; [|apply NoDup_singleton].
    intros q Hin ->%list_elem_of_singleton. apply Hwf in Hin as [??]. congruence.
  - intros q. simpl. rewrite elem_of_app, list_elem_of_singleton, (pw_dom _ Hwf).
    split.
    + intros Hor. destruct (decide (q = p)) as [->|Hne].
      * exists P. apply Hlk. by left.
      * destruct Hor as [[Q0 HQ0]|?]; [|done]. eexists. apply Hlk. right. eauto.
    + intros [Q [[-> _]|(_ & Q0 & HQ0 & _)]%Hlk]; eauto.
  - by apply numbered_next.
  - intros q Q [[_ ->]|(_ & Q0 & HQ0 & ->)]%Hlk; [done|].
    rewrite apid. by apply (pw_pid _ Hwf) in HQ0.
  - intros q1 q2 Q1 Q2 [[-> ->]|(Hne1 & Q1' & HQ1 & ->)]%Hlk
      [[-> ->]|(Hne2 & Q2' & HQ2 & ->)]%Hlk; rewrite ?apid; simpl; intros Hpos Heq.
    + done.
    + exfalso. by apply (Hnu' q2 Q2').
    + exfalso. apply (Hnu' q1 Q1' HQ1); [lia|done].
    + by apply (pw_uniq _ Hwf q1 q2 Q1' Q2').
  - intros q Q [[-> ->]|(Hne & Q0 & HQ0 & ->)]%Hlk; [apply length_replicate|].
    rewrite apfiles. by eapply (pw_files _ Hwf).
Qed.

Lemma created_tree : tree_wf s'.
Proof.
  destruct (proc_slab_fresh s p Hslab) as [Hp _].
  assert (∀ q Q, procs s !! q = Some Q → p_pproc Q ≠ Some p) as Hnop.
  { intros q Q HQ Hpp. destruct (pw_parent _ Hwf _ _ _ HQ Hpp) as [_ [??]]. congruence. }
  pose proof created_inv as Hlk. split.
  - intros q Q [[-> ->]|(Hne & Q0 & HQ0 & ->)]%Hlk; [apply NoDup_nil_2|].
    pose proof (pw_nodup_children _ Hwf _ _ HQ0). case_bool_decide; [|done].
    apply NoDup_app. split; [done|]. split; [|apply NoDup_singleton].
    intros x Hx ->%list_elem_of_singleton.
    apply (pw_children _ Hwf _ _ _ HQ0) in Hx as (? & ? & _). congruence.
  - intros q Q c HQ. split.
    + intros Hc. apply Hlk in HQ as [[-> ->]|(Hne & Q0 & HQ0 & ->)]; [by apply not_elem_of_nil in Hc|].
      assert (c ∈ child_list Q0 ∨ c = p ∧ curproc (sch s) = Some q) as [Hc'|[-> Hcur]].
      { case_bool_decide; [|by left]. rewrite child_list_add in Hc. set_solver. }
      * apply (pw_children _ Hwf _ _ _ HQ0) in Hc' as (C & HC & Hpp).
        eexists. split; [apply Hlk; right; split; [congruence|]; by eauto|]. by rewrite approc.
      * exists P. split; [apply Hlk; by left|done].
    + intros (C & [[-> ->]|(Hcne & C0 & HC0 & ->)]%Hlk & Hpp); rewrite ?approc in Hpp.
      * simpl in Hpp. apply Hlk in HQ as [[-> ->]|(Hne & Q0 & HQ0 & ->)].
        { destruct (Hpar p Hpp) as (? & ? & _). congruence. }
        rewrite bool_decide_eq_true_2 by done. rewrite child_list_add. set_solver.
      * apply Hlk in HQ as [[-> ->]|(Hne & Q0 & HQ0 & ->)]; [by apply Hnop in HC0|].
        assert (c ∈ child_list Q0) by (apply (pw_children _ Hwf _ _ _ HQ0); eauto).
        case_bool_decide; [rewrite child_list_add; set_solver|done].
  - intros c C q [[-> ->]|(Hne & C0 & HC0 & ->)]%Hlk Hpp; rewrite ?approc in Hpp.
    + simpl in Hpp. destruct (Hpar q Hpp) as (C & HC & _). split; [congruence|].
      eexists. apply Hlk. right. split; [congruence|eauto].
    + destruct (pw_parent _ Hwf _ _ _ HC0 Hpp) as [? [Q0 HQ0]]. split; [done|].
      eexists. apply Hlk. right. split; [congruence|eauto].
  - intros q Q [[-> ->]|(Hne & Q0 & HQ0 & ->)]%Hlk Hst; [done|]. rewrite apstate in Hst.
    case_bool_decide as Hcur; [|by eapply (pw_dead _ Hwf)].
    destruct (Hpar q Hcur) as (? & ? & ?). congruence.
  - intros q Q [[-> ->]|(Hne & Q0 & HQ0 & ->)]%Hlk Hst; [done|].
    case_bool_decide; [done|]. by eapply (pw_stale _ Hwf).
Qed.

Lemma created_kt : kt_wf s'.
Proof.
  pose proof created_inv as Hlk. split.
  - intros q [Q HQ]. simpl. destruct (decide (p_wait p = p_wait q)) as [->|Hne];
      [rewrite lookup_insert_eq; eauto|]. rewrite lookup_insert_ne by done.
    apply Hlk in HQ as [[-> _]|(_ & Q0 & HQ0 & _)]; [done|]. apply Hwf. eauto.
  - intros q Q [[-> ->]|(Hne & Q0 & HQ0 & ->)]%Hlk; [apply NoDup_nil_2|].
    rewrite apthreads. by eapply (pw_nodup_threads _ Hwf).
  - intros q Q t [[-> ->]|(Hne & Q0 & HQ0 & ->)]%Hlk Ht; [by apply not_elem_of_nil in Ht|].
    rewrite apthreads in Ht. by apply (pw_threads _ Hwf _ _ _ HQ0 Ht).
Qed.

Lemma created_wf : boot_wf s'.
Proof.
  split; [apply created_table|apply created_tree|apply created_kt].
Qed.

Lemma created_proc_wf : is_Some (queues (sch s) !! kt_runq) → proc_wf s'.
Proof.
  intros Hq. split; [apply created_wf|]. simpl. by rewrite lookup_insert_ne by apply p_wait_runq.
Qed.
End created.

(** A queue at a fresh address. *)
Lemma sched_wf_new_queue x q :
  sched_wf x → queues x !! q = None →
  sched_wf (Sched (threads x) (<[q := Ktqueue [] 0]> (queues x)) (curthr x) (curproc x) (ipl x)).
Proof.
  intros [[Hsz Hnd Hon Hch Hli] [Hw Hc]] Hq. split; [|by split]. split; simpl.
  - intros q' Q [[<- <-]|[??]]%lookup_insert_Some; by eauto.
  - intros q' Q [[<- <-]|[??]]%lookup_insert_Some; [apply NoDup_nil_2|by eauto].
  - intros q' Q t [[<- <-]|[??]]%lookup_insert_Some Hin; [by apply not_elem_of_nil in Hin|eauto].
  - intros t th q' Ht Hwc. destruct (Hch _ _ _ Ht Hwc) as (Q & HQ & Hin).
    rewrite lookup_insert_ne by congruence. eauto.
  - done.
Qed.

End props.

(** ** What creating a process does, by the laws of the interface *)

Section make.
Context `{HE : ErrnoH, HI : IntrH, HP : PageH, HL : LimitsH, HH : ProcH}.
Context {E X : Type} `{HV : !ProcView E, HO : !ProcOps E X, HW : !ProcLaws E X}.
Local Abbreviation K := (kernel E X).
Implicit Types (p c : procp) (t : tid) (s : K).

Lemma opt_ext_run (f : positive → M E unit) (o : option positive) s :
  (∀ v e, ∃ e', f v e = Ret tt e' ∧ same_view e e') →
  ∃ e, (match o with Some v => on_ext (f v) | None => ret tt end) s = Ret tt (with_ext e s) ∧
    same_view (ext s) e.
Proof.
  intros Hf. destruct o as [v|].
  - destruct (Hf v (ext s)) as (e & Hv & Hs). exists e. split; [by apply on_ext_run|done].
  - exists (ext s). split; [by destruct s|by repeat split].
Qed.

Lemma same_view_refl (e : E) : same_view e e.
Proof. by repeat split. Qed.

(** What the rest of the kernel has gained: a page directory, unless there was no
    memory for it, and an address space. *)
Definition ext_created (e e' : E) (pd : option positive) (map : positive) : Prop :=
  same_files e e' ∧ same_stacks e e' ∧
  map ∉ maps_live e ∧ maps_live e' = {[map]} ∪ maps_live e ∧
  match pd with
  | Some a => a ∉ pds_live e ∧ pds_live e' = {[a]} ∪ pds_live e
  | None => same_pds e e'
  end.

(** There is memory for an address space. *)
Definition map_memory (e : E) : Prop :=
  ∀ e1, same_maps e e1 → ∃ m e2, vmmap_create e1 = Ret (Some m) e2.

Lemma proc_create_run s p pid name :
  boot_wf s → parent_ok s → proc_slab s = Some p → pid_spec s pid → pid_allowed s pid →
  map_memory (ext s) →
  ∃ pd map e, proc_create name s =
      Ret p (created s p pid
               (new_proc pid name (curproc (sch s)) pd (vfs_root_vn (ext s)) (Some map)) e) ∧
    ext_created (ext s) e pd map.
Proof.
  intros Hwf Hpar Hp Hspec Hall Hmem.
  destruct (pt_create_pagedir_ok (ext s)) as (pd & e1 & Hpd & Hroot & Hf1 & Hmaps & Hs1 & Hpds).
  assert (∃ e2, from_option vref (ret tt) (vfs_root_vn e1) e1 = Ret tt e2 ∧ same_view e1 e2)
    as (e2 & Hv & Hf2 & Hm2 & Hp2 & Hs2).
  { destruct (vfs_root_vn e1) as [v|]; [apply vref_ok|]. by exists e1. }
  destruct (Hmem e2) as (map & e3 & Hmap); [unfold same_maps in *; simpl; congruence|].
  destruct (vmmap_create_ok e2) as (r & ? & Hm & Hf3 & Hp3 & Hs3 & Hin). rewrite Hmap in Hm.
  symmetry in Hm. simplify_eq. destruct Hin as [Hni Hm3].
  destruct (vmm_set_proc_ok map p e3) as (e4 & Hset & Hf4 & Hm4 & Hp4 & Hs4); [set_solver|].
  exists pd, map, e4. split.
  - rewrite <- Hroot. by eapply proc_create_exec.
  - simpl. unfold ext_created, same_files, same_maps, same_pds, same_stacks in *.
    split; [congruence|]. split; [congruence|]. rewrite Hm4, Hm3, Hm2, Hmaps.
    rewrite Hm2, Hmaps in Hni. do 2 (split; [done|]).
    destruct pd; rewrite Hp4, Hp3, Hp2; done.
Qed.

(** C29: [proc_create] gives the new process the next free process number and enters
    it at the end of the process list and, as the last child, under the current
    process; the new process runs, with no threads, children or open files, the root
    as its working directory, an empty wait queue, a page directory and an address
    space of its own. Process table, tree and queues stay consistent and no other
    process changes; process 1 becomes the init process. With every number taken the
    process is made all the same, with the number -1. *)
Theorem proc_create_registers s p pid name :
  proc_wf s → sched_wf (sch s) → parent_ok s → proc_slab s = Some p →
  pid_spec s pid → pid_allowed s pid →
  map_memory (ext s) →
  ∃ pd map s', proc_create name s = Ret p s' ∧ proc_wf s' ∧ sched_wf (sch s') ∧
    procs s' !! p = Some (new_proc pid name (curproc (sch s)) pd
                            (vfs_root_vn (ext s)) (Some map)) ∧
    proc_list s' = proc_list s ++ [p] ∧ next_pid s' = next_pid (numbered pid s) ∧
    (∀ q Q, procs s !! q = Some Q →
       procs s' !! q =
         Some (if bool_decide (curproc (sch s) = Some q) then add_child p Q else Q)) ∧
    waiting (sch s') (p_wait p) = [] ∧
    proc_initproc s' = (if pid =? PID_INIT then Some p else proc_initproc s) ∧
    ext_created (ext s) (ext s') pd map.
Proof.
  intros Hwf Hsw Hpar Hslab Hspec Hall Hmem.
  destruct (proc_create_run s p pid name Hwf Hpar Hslab Hspec Hall Hmem)
    as (pd & map & e & Hrun & Hext).
  destruct (proc_slab_fresh s p Hslab) as [Hp Hq].
  exists pd, map, (created s p pid (new_proc pid name (curproc (sch s)) pd
    (vfs_root_vn (ext s)) (Some map)) e).
  split; [done|]. split; [apply created_proc_wf; [apply Hwf|done..|apply (pw_runq _ Hwf)]|]. split; [by apply sched_wf_new_queue|].
  split; [by apply created_lookup; [|left]|]. do 2 (split; [done|]). split; [|split; [|done]].
  - intros q Q HQ. apply created_lookup; [done|]. right. split; [congruence|eauto].
  - unfold waiting. simpl. by rewrite lookup_insert_eq.
Qed.
End make.
