(* ===== verification/ProcExit.v ===== *)
(** * Properties of processes: exiting and waiting

    What [proc_cleanup] does to the process tree, the open files, the address space
    and the waiting parent, and how [do_waitpid] disposes of dead children. *)
From S2P Require Import Prelude Headers Sched SchedProps Proc ProcProps.
Local Open Scope kernel_scope.

Ltac knorm := cbn [procs sch proc_list next_pid proc_initproc kt_mems ext threads queues
  curthr curproc ipl with_procs with_ext with_sch with_next].

Section exit.
Context `{HE : ErrnoH, HI : IntrH, HP : PageH, HL : LimitsH, HH : ProcH}.
Context {E X : Type} `{HV : !ProcView E, HO : !ProcOps E X, HW : !ProcLaws E X}.
Local Abbreviation K := (kernel E X).
Implicit Types (p c me i : procp) (t : tid) (s : K).

(** ** Handing over the children *)

Lemma reparent_run i l : ∀ s I lI,
  proc_initproc s = Some i → procs s !! i = Some I → p_children I = Linked lI →
  NoDup l → i ∉ l → (∀ c, c ∈ l → is_Some (procs s !! c)) →
  ∃ ps, reparent l s = Ret tt (with_procs ps s) ∧
    ps !! i = Some (set_p_children (Linked (lI ++ l)) I) ∧
    (∀ c C, c ∈ l → procs s !! c = Some C → ps !! c = Some (set_p_pproc (Some i) C)) ∧
    (∀ q, q ∉ l → q ≠ i → ps !! q = procs s !! q).
Proof.
  induction l as [|c l IH]; intros s I lI Hi HI' HlI Hnd Hil Hex.
  - exists (procs s). split; [by destruct s|]. rewrite app_nil_r.
    split; [|by split; [set_solver|]]. rewrite HI'. rewrite <- HlI. by destruct I.
  - apply NoDup_cons in Hnd as [Hcl Hnd]. apply not_elem_of_cons in Hil as [Hic Hil].
    destruct (Hex c) as [C HC]; [set_solver|].
    set (s1 := with_procs (<[c := set_p_pproc (Some i) C]> (procs s)) s).
    set (I1 := set_p_children (Linked (lI ++ [c])) I).
    set (s2 := with_procs (<[i := I1]> (procs s1)) s1).
    destruct (IH s2 I1 (lI ++ [c])) as (ps & Hrun & Hpi & Hpc & Hpo); try done.
    { simpl. by rewrite lookup_insert_eq. }
    { intros q Hq. simpl. rewrite !lookup_insert_ne by set_solver. apply Hex. set_solver. }
    exists ps. simpl. erewrite bind_Ret by (by rewrite Hi).
    erewrite (bind_Ret (proc_get c)) by (unfold proc_get; by rewrite HC).
    erewrite (bind_Ret (proc_upd c _)) by (by apply proc_upd_run). fold s1.
    erewrite (bind_Ret (children_insert_tail i c)).
    2: { erewrite children_insert_tail_run; [done|simpl; by rewrite lookup_insert_ne|done]. }
    rewrite (alter_lookup_insert _ _ _ I) by (simpl; by rewrite lookup_insert_ne).
    fold I1 s2. split; [done|]. split; [by rewrite Hpi, <- app_assoc|]. split.
    + intros q Q [->|Hq]%elem_of_cons HQ.
      * rewrite Hpo by done. simpl. rewrite lookup_insert_ne, lookup_insert_eq by done.
        congruence.
      * apply Hpc; [done|]. simpl. by rewrite !lookup_insert_ne by set_solver.
    + intros q Hq Hqi. rewrite Hpo by set_solver. simpl.
      by rewrite !lookup_insert_ne by set_solver.
Qed.

(** ** Closing the files *)

(** How many descriptors refer to an open file. *)
Definition fd_count (fs : list (option positive)) (f : positive) : Z :=
  Z.of_nat (length (filter (λ o, o = Some f) fs)).

Lemma fd_count_cons o fs f :
  fd_count (o :: fs) f = (if decide (o = Some f) then 1 else 0) + fd_count fs f.
Proof. unfold fd_count. rewrite filter_cons. case_decide; simpl; lia. Qed.

Definition set_files_of me (C : proc) (fs : list (option positive)) s : K :=
  with_procs (<[me := set_p_files fs C]> (procs s)) s.

Lemma opt_fput_run (o : option positive) s :
  (∀ f, o = Some f → 0 < f_refs (ext s) f) →
  ∃ e, (match o with Some f => on_ext (fput f) | None => ret tt end) s =
      Ret tt (with_ext e s) ∧
    (∀ f, f_refs e f = f_refs (ext s) f - (if decide (o = Some f) then 1 else 0)) ∧
    same_maps (ext s) e ∧ same_pds (ext s) e ∧ same_stacks (ext s) e.
Proof.
  intros Hpos. destruct o as [f|].
  - destruct (fput_ok f (ext s)) as (e1 & Hrun & Hf & Hr); [by apply Hpos|].
    exists e1. split; [by apply on_ext_run|]. split; [|done].
    intros g. rewrite Hf. repeat case_decide; simplify_eq; lia.
  - exists (ext s). split; [by destruct s|]. split; [|done]. intros. simpl. lia.
Qed.

Lemma close_files_run me n : ∀ a C s,
  curproc (sch s) = Some me → procs s !! me = Some C →
  length (p_files C) = (a + n)%nat →
  (∀ f, fd_count (drop a (p_files C)) f <= f_refs (ext s) f) →
  ∃ e, close_files n a s =
      Ret tt (with_ext e (set_files_of me C (take a (p_files C) ++ replicate n None) s)) ∧
    (∀ f, f_refs e f = f_refs (ext s) f - fd_count (drop a (p_files C)) f) ∧
    same_maps (ext s) e ∧ same_pds (ext s) e ∧ same_stacks (ext s) e.
Proof.
  induction n as [|n IH]; intros a C s Hcur HC Hlen Hrefs.
  - exists (ext s). rewrite drop_ge, take_ge, app_nil_r by lia. split; [|by split; [intros; unfold fd_count; simpl; lia|]].
    simpl. unfold set_files_of. destruct s, C. unfold with_ext, with_procs; simpl in *.
    rewrite insert_id by done. done.
  - destruct (p_files C !! a) as [o|] eqn:Ho.
    2: { apply lookup_ge_None in Ho. lia. }
    rewrite (drop_S _ _ _ Ho) in Hrefs |- *.
    destruct (opt_fput_run o s) as (e1 & Hput & Hf1 & Hm1 & Hp1 & Hs1).
    { intros f ->. specialize (Hrefs f). rewrite fd_count_cons, decide_True in Hrefs by done.
      unfold fd_count in Hrefs. lia. }
    set (C1 := set_p_files (<[a := None]> (p_files C)) C).
    set (s1 := with_ext e1 (with_procs (<[me := C1]> (procs s)) s)).
    destruct (IH (S a) C1 s1) as (e & Hrun & Hf & Hm & Hp & Hs).
    { done. }
    { simpl. by rewrite lookup_insert_eq. }
    { simpl. rewrite length_insert. lia. }
    { intros f. simpl. rewrite drop_insert_lt, Hf1 by lia. specialize (Hrefs f).
      rewrite fd_count_cons in Hrefs. lia. }
    exists e. split; [|split].
    + simpl. unfold curproc_get, curproc_upd, curproc_ptr.
      erewrite bind_Ret by (unfold bind, proc_get; rewrite Hcur; simpl; by rewrite HC).
      rewrite Ho. kstep. erewrite bind_Ret by exact Hput.
      erewrite (bind_Ret (bind _ _)).
      2: { unfold bind, proc_get. simpl. rewrite Hcur. simpl. rewrite HC. simpl.
           apply proc_upd_run. done. }
      etrans; [exact Hrun|]. unfold set_files_of. simpl. rewrite insert_insert_eq.
      rewrite (take_S_r _ _ None) by (apply list_lookup_insert_eq, (lookup_lt_Some _ _ _ Ho)).
      by rewrite take_insert_ge, <- app_assoc by done.
    + intros f. simpl in Hf. rewrite Hf, Hf1, fd_count_cons, drop_insert_lt by lia. lia.
    + unfold same_maps, same_pds, same_stacks in *. simpl in *. naive_solver congruence.
Qed.

(** ** What becomes of the processes *)

(** The process [q] after [me], with children [l], handed these over to [i]... *)
Definition handed me i l status q (Q : proc) : proc :=
  if decide (q = me) then
    set_p_children (match l with [] => Linked [] | _ => Stale end)
      (set_p_status status (set_p_state PROC_DEAD Q))
  else if decide (q ∈ l) then set_p_pproc (Some i) Q
  else if decide (q = i) then set_p_children (Linked (child_list Q ++ l)) Q
  else Q.

(** ... and closed its files. *)
Definition exited me i l status q (Q : proc) : proc :=
  let Q' := handed me i l status q Q in
  if decide (q = me) then set_p_files (replicate NFILES None) Q' else Q'.

(** The state in which a thread exits: the current process has a parent, a process
    other than itself and its children is init, the current thread is marked and in
    no queue, and the references the process holds are counted. *)
Record exiting s me (C : proc) parent i (I : proc) t (th : kthread) map : Prop := {
  ex_cur : curproc (sch s) = Some me;
  ex_me : procs s !! me = Some C;
  ex_running : p_state C = PROC_RUNNING;
  ex_parent : p_pproc C = Some parent;
  ex_pid : 1 <= p_pid C;
  ex_init : proc_initproc s = Some i;
  ex_i : procs s !! i = Some I;
  ex_ne : i ≠ me;
  ex_i_running : p_state I = PROC_RUNNING;
  ex_i_parent : p_pproc I ≠ Some me;
  ex_curthr : curthr (sch s) = Some t;
  ex_th : threads (sch s) !! t = Some th;
  ex_exited : kt_state th = KT_EXITED;
  ex_wchan : kt_wchan th = None;
  ex_refs f : fd_count (p_files C) f <= f_refs (ext s) f;
  ex_map : p_vmmap C = Some map;
  ex_map_live : map ∈ maps_live (ext s)
}.

Lemma set_p_children_id P l : p_children P = l → set_p_children l P = P.
Proof. intros <-. by destruct P. Qed.

Lemma hand_over_run s me C parent i I t th map status :
  proc_wf s → exiting s me C parent i I t th map →
  let C1 := set_p_status status (set_p_state PROC_DEAD C) in
  let l := child_list C in
  ∃ ps, (if bool_decide (l = []) then ret tt
         else proc_upd me (set_p_children Stale) ;;; reparent l)
          (with_procs (<[me := C1]> (procs s)) s) = Ret tt (with_procs ps s) ∧
    ∀ q, ps !! q = handed me i l status q <$> procs s !! q.
Proof.
  intros Hwf Hx C1 l.
  pose proof (children_get_run _ _ _ Hwf (ex_i _ _ _ _ _ _ _ _ _ Hx)
    (ex_i_running _ _ _ _ _ _ _ _ _ Hx)) as HlI.
  pose proof (children_get_run _ _ _ Hwf (ex_me _ _ _ _ _ _ _ _ _ Hx)
    (ex_running _ _ _ _ _ _ _ _ _ Hx)) as HlC. fold l in HlC.
  assert (∀ c, c ∈ l ↔ ∃ Q, procs s !! c = Some Q ∧ p_pproc Q = Some me) as Hl.
  { intros c. apply (pw_children _ Hwf). apply Hx. }
  assert (i ∉ l ∧ me ∉ l) as [Hil Hml].
  { rewrite !Hl. destruct Hx. split; intros (? & ? & ?); [congruence|].
    destruct (pw_parent _ Hwf me C me); congruence. }
  destruct Hx as [? Hme Hrun ? ? Hini HI' Hne HrI ? ? ? ? ? ? ? ?].
  case_bool_decide as Hnil.
  - exists (<[me := C1]> (procs s)). split; [done|]. intros q. rewrite Hnil. unfold handed.
    destruct (decide (q = me)) as [->|]; [|rewrite lookup_insert_ne by done].
    { rewrite lookup_insert_eq, Hme. simpl. rewrite set_p_children_id; [done|].
      simpl. congruence. }
    destruct (decide (q ∈ [])) as [[]%not_elem_of_nil|_].
    destruct (decide (q = i)) as [->|]; [|by rewrite option_fmap_id].
    rewrite HI'. simpl. by rewrite app_nil_r, set_p_children_id.
  - set (C2 := set_p_children Stale C1).
    erewrite (bind_Ret (proc_upd me _)).
    2: { apply proc_upd_run. simpl. apply lookup_insert_eq. }
    destruct (reparent_run i l (with_procs (<[me := C2]> (procs s)) s) I (child_list I))
      as (ps & Hre & Hpi & Hpc & Hpo); try done.
    { simpl. by rewrite lookup_insert_ne. }
    { by apply (pw_nodup_children _ Hwf me). }
    { intros c Hc. simpl. rewrite lookup_insert_ne by set_solver.
      apply Hl in Hc as (? & ? & ?). eauto. }
    exists ps. split; [simpl; rewrite insert_insert_eq; exact Hre|]. simpl in Hpc, Hpo.
    intros q. unfold handed. destruct (decide (q = me)) as [->|Hqm].
    { rewrite Hpo, lookup_insert_eq, Hme by done. simpl. by destruct l. }
    destruct (decide (q ∈ l)) as [Hq|Hq].
    { pose proof Hq as (Q & HQ & _)%Hl. rewrite HQ. apply Hpc; [done|].
      by rewrite lookup_insert_ne. }
    destruct (decide (q = i)) as [->|]; [by rewrite Hpi, HI'|].
    by rewrite Hpo, lookup_insert_ne, option_fmap_id by done.
Qed.

(** What an exit leaves as it is, and the lists of children after it. *)
Lemma exited_pid me i l status q Q : p_pid (exited me i l status q Q) = p_pid Q.
Proof. unfold exited, handed. by repeat case_decide. Qed.
Lemma exited_threads me i l status q Q : p_threads (exited me i l status q Q) = p_threads Q.
Proof. unfold exited, handed. by repeat case_decide. Qed.
Lemma exited_pproc me i l status q Q :
  p_pproc (exited me i l status q Q) =
    if bool_decide (q ≠ me ∧ q ∈ l) then Some i else p_pproc Q.
Proof. unfold exited, handed. repeat case_decide; case_bool_decide; naive_solver. Qed.
Lemma exited_children me i l status q Q :
  i ∉ l → i ≠ me →
  child_list (exited me i l status q Q) =
    if decide (q = me) then [] else if decide (q = i) then child_list Q ++ l else child_list Q.
Proof.
  intros Hi Hne. unfold exited, handed. repeat case_decide; subst; try done. by destruct l.
Qed.
Lemma exited_files me i l status q Q :
  length (p_files Q) = NFILES → length (p_files (exited me i l status q Q)) = NFILES.
Proof.
  intros Hq. unfold exited, handed. repeat case_decide; try done. apply length_replicate.
Qed.

Section exited.
Context s s' me (C : proc) parent i (I : proc) t (th : kthread) map (status : Z)
  (Hwf : proc_wf s) (Hx : exiting s me C parent i I t th map)
  (Hps : ∀ q, procs s' !! q = exited me i (child_list C) status q <$> procs s !! q)
  (Hpl : proc_list s' = proc_list s) (Hnp : next_pid s' = next_pid s)
  (Hkm : kt_mems s' = kt_mems s) (Hsf : sched_frame (sch s) (sch s')).

Lemma exited_inv q Q' :
  procs s' !! q = Some Q' → ∃ Q, procs s !! q = Some Q ∧
    Q' = exited me i (child_list C) status q Q.
Proof using Hps. rewrite Hps. intros (Q & ? & ?)%fmap_Some. eauto. Qed.

Lemma exited_dom q : is_Some (procs s' !! q) ↔ is_Some (procs s !! q).
Proof using Hps. rewrite Hps. apply fmap_is_Some. Qed.

Lemma exiting_child c Q :
  procs s !! c = Some Q → c ∈ child_list C ↔ p_pproc Q = Some me.
Proof using Hwf Hx.
  intros HQ. rewrite (pw_children _ Hwf me C) by apply Hx.
  split; [|by eauto]. intros (? & ? & ?). congruence.
Qed.

Lemma exiting_init : i ∉ child_list C.
Proof using Hwf Hx. rewrite (exiting_child i I) by apply Hx. apply Hx. Qed.

Lemma exited_parent q Q :
  procs s !! q = Some Q →
  p_pproc (exited me i (child_list C) status q Q) =
    if decide (p_pproc Q = Some me) then Some i else p_pproc Q.
Proof using Hwf Hx.
  intros HQ. rewrite exited_pproc. pose proof (exiting_child _ _ HQ).
  case_bool_decide; case_decide as Hd; try done; [naive_solver|].
  destruct (decide (q = me)) as [->|]; [|naive_solver].
  by destruct (pw_parent _ Hwf me Q me HQ Hd).
Qed.

(** The children of [q] after the exit, by their parents before it. *)
Lemma exited_child_iff q c :
  (∃ C', procs s' !! c = Some C' ∧ p_pproc C' = Some q) ↔
  ∃ C0, procs s !! c = Some C0 ∧
    (if decide (p_pproc C0 = Some me) then Some i else p_pproc C0) = Some q.
Proof using Hwf Hx Hps.
  split.
  - intros (? & (C0 & HC0 & ->)%exited_inv & Hq). rewrite (exited_parent _ _ HC0) in Hq. eauto.
  - intros (C0 & HC0 & Hq). eexists. rewrite Hps, HC0. split; [done|].
    by rewrite (exited_parent _ _ HC0).
Qed.

Lemma exited_table : table_wf s'.
Proof using Hwf Hps Hpl Hnp.
  pose proof exited_inv as Hinv. pose proof exited_dom as Hdom. split.
  - rewrite Hpl. apply Hwf.
  - intros q. rewrite Hpl, Hdom. apply Hwf.
  - rewrite Hnp. apply Hwf.
  - intros q ? (Q & HQ & ->)%Hinv. rewrite exited_pid. by eapply (pw_pid _ Hwf).
  - intros q1 q2 ? ? (Q1 & HQ1 & ->)%Hinv (Q2 & HQ2 & ->)%Hinv. rewrite !exited_pid.
    by eapply (pw_uniq _ Hwf).
  - intros q ? (Q & HQ & ->)%Hinv. eapply exited_files. by eapply (pw_files _ Hwf).
Qed.

Lemma exited_tree : tree_wf s'.
Proof using Hwf Hx Hps.
  pose proof exited_inv as Hinv. pose proof exited_dom as Hdom.
  pose proof exiting_child as Hl. pose proof exiting_init as Hil.
  pose proof exited_parent as Hpp.
  pose proof Hx as [_ Hme _ Hpar _ _ HI' Hne HrI Hip _ _ _ _ _ _ _].
  split.
  - intros q ? (Q & HQ & ->)%Hinv. rewrite exited_children by done.
    pose proof (pw_nodup_children _ Hwf _ _ HQ).
    repeat case_decide; [apply NoDup_nil_2| |done]. subst. simplify_eq.
    apply NoDup_app. split; [done|]. split; [|by apply (pw_nodup_children _ Hwf me)].
    intros c (Q & HQ1 & Hi)%(pw_children _ Hwf i I c HI') Hc.
    apply (Hl _ _ HQ1) in Hc. congruence.
  - intros q ? c (Q & HQ & ->)%Hinv. rewrite exited_children by done.
    rewrite exited_child_iff.
    pose proof (pw_children _ Hwf _ _ c HQ) as Hc.
    destruct (decide (q = me)) as [->|Hqm].
    { split; [by intros ?%not_elem_of_nil|]. intros (C0 & HC0 & Hq).
      case_decide; congruence. }
    destruct (decide (q = i)) as [->|Hqi].
    + rewrite elem_of_app, Hc. split.
      * intros [(C0 & HC0 & Hq)|Hcl].
        -- exists C0. split; [done|]. case_decide; congruence.
        -- apply (pw_children _ Hwf me C c Hme) in Hcl as (C0 & HC0 & Hq).
           exists C0. by rewrite decide_True.
      * intros (C0 & HC0 & Hq). case_decide as Hd; [right; by apply (Hl _ _ HC0)|left; eauto].
    + rewrite Hc. split; intros (C0 & HC0 & Hq); exists C0; (split; [done|]).
      * rewrite decide_False; congruence.
      * case_decide; congruence.
  - intros c ? q (C0 & HC0 & ->)%Hinv. rewrite Hdom, (Hpp _ _ HC0). case_decide as Hd.
    + intros [= <-]. split; [|eauto]. intros ->. apply Hil, (Hl _ _ HC0), Hd.
    + by apply (pw_parent _ Hwf).
  - intros q ? (Q & HQ & ->)%Hinv. rewrite exited_children by done.
    repeat case_decide; [done| |]; subst; simplify_eq; unfold exited, handed;
      repeat case_decide; simplify_eq; simpl; try congruence; by eapply (pw_dead _ Hwf).
  - intros q ? (Q & HQ & ->)%Hinv. unfold exited, handed.
    repeat case_decide; simplify_eq; simpl; try done; by eapply (pw_stale _ Hwf).
Qed.

Lemma exited_kt : kt_wf s'.
Proof using Hwf Hps Hkm Hsf.
  pose proof exited_inv as Hinv. pose proof exited_dom as Hdom. split.
  - intros q. rewrite Hdom. intros Hq. by apply Hsf, Hwf.
  - intros q ? (Q & HQ & ->)%Hinv. rewrite exited_threads. by eapply (pw_nodup_threads _ Hwf).
  - intros q ? t' (Q & HQ & ->)%Hinv. rewrite exited_threads, Hkm. intros Ht.
    destruct (pw_threads _ Hwf _ _ _ HQ Ht) as (th0 & m & Hth & Hp & Hm).
    destruct (sf_threads _ _ Hsf _ _ Hth) as (th1 & Hth1 & ?).
    exists th1, m. split; [done|]. split; [congruence|done].
Qed.

Lemma exited_wf : proc_wf s'.
Proof using Hwf Hx Hps Hpl Hnp Hkm Hsf.
  split; [split; [apply exited_table|apply exited_tree|apply exited_kt]|apply Hsf, (pw_runq _ Hwf)].
Qed.
End exited.

(** ** Waking the parent *)

(** A thread in no queue is untouched by a broadcast; the thread's state stays
    [KT_EXITED], and the code that follows sets it again. *)
Lemma wake_parent_run {A} (k : M K A) s t th parent :
  sched_wf (sch s) → is_Some (queues (sch s) !! kt_runq) →
  is_Some (queues (sch s) !! p_wait parent) →
  curthr (sch s) = Some t → threads (sch s) !! t = Some th →
  kt_state th = KT_EXITED → kt_wchan th = None →
  let q := p_wait parent in
  ∃ x, (e <- on_sch (sched_queue_empty q) ;;
        (if (e : bool) then ret tt
         else on_sch (sched_broadcast_on q) ;;;
              t <- on_sch curthr_get ;;
              on_sch (thr_get t) ;;;
              on_sch (thr_upd t (set_kt_state KT_EXITED))) ;;; k) s = k (with_sch x s) ∧
    sched_wf x ∧ sched_frame (sch s) x ∧ threads x !! t = Some th ∧
    waiting x q = [] ∧ waiting x kt_runq = waiting (sch s) kt_runq ++ waiting (sch s) q ∧
    (∀ t1, t1 ∈ waiting (sch s) q → ∃ th1, threads x !! t1 = Some th1 ∧ kt_state th1 = KT_RUN) ∧
    same_queues_but [q; kt_runq] (sch s) x.
Proof.
  intros Hwf Hrq [Q HQ] Hcur Ht Hst Hwc q.
  erewrite (bind_Ret (on_sch (sched_queue_empty q)))
    by (apply on_sch_run; rewrite sched_queue_empty_eq; unfold q; by rewrite HQ).
  destruct (tq_list Q) as [|t0 ts] eqn:Hl.
  - exists (sch s). split; [by destruct s|].
    assert (waiting (sch s) q = []) as Hw by (unfold waiting, q; by rewrite HQ, Hl).
    rewrite Hw, app_nil_r. do 5 (split; [done || apply sched_frame_refl|]).
    split; [set_solver|done].
  - destruct (broadcast_on_run (sch s) q Hwf (p_wait_runq _) Hrq) as
      (u & x & Hrun & Hw1 & Hw2 & Hst1 & Hst2 & Hsq & Hsf); [eauto|].
    assert (threads x !! t = Some th) as Htx.
    { rewrite Hst2; [done|]. eapply not_waiting; [apply Hwf|done|congruence]. }
    assert (sched_wf x) as Hwx.
    { pose proof (broadcast_on_keeps q (sch s) Hwf) as Hk. by rewrite Hrun in Hk. }
    exists x. split; [|done]. rewrite (bind_Ret _ _ _ tt (with_sch x s)); [done|].
    destruct u. erewrite bind_Ret by (apply on_sch_run; exact Hrun).
    erewrite bind_Ret.
    2: { apply on_sch_run. unfold curthr_get. simpl. by rewrite (sf_curthr _ _ Hsf), Hcur. }
    erewrite bind_Ret by (apply on_sch_run; unfold thr_get; simpl; by rewrite Htx).
    erewrite on_sch_run; [|reflexivity]. simpl.
    rewrite (alter_lookup_insert _ _ _ _ Htx).
    rewrite insert_id; [by destruct x|]. rewrite Htx. f_equal.
    destruct th. simpl in *. by subst.
Qed.

(** ** Exiting *)

(** What an exit achieves. *)
Record exit_done s s' me (C : proc) parent i t (th : kthread) map status : Prop := {
  ed_procs q : procs s' !! q = exited me i (child_list C) status q <$> procs s !! q;
  ed_list : proc_list s' = proc_list s;
  ed_next : next_pid s' = next_pid s;
  ed_init : proc_initproc s' = proc_initproc s;
  ed_mems : kt_mems s' = kt_mems s;
  (** The threads of the parent that wait for it are runnable, in their order. *)
  ed_woken : waiting (sch s') (p_wait parent) = [];
  ed_runq : waiting (sch s') kt_runq =
    waiting (sch s) kt_runq ++ waiting (sch s) (p_wait parent);
  ed_awake t1 : t1 ∈ waiting (sch s) (p_wait parent) →
    ∃ th1, threads (sch s') !! t1 = Some th1 ∧ kt_state th1 = KT_RUN;
  ed_queues : same_queues_but [p_wait parent; kt_runq] (sch s) (sch s');
  ed_thread : threads (sch s') !! t = Some th;
  ed_frame : sched_frame (sch s) (sch s');
  (** Every descriptor and the address space are given back. *)
  ed_files f : f_refs (ext s') f = f_refs (ext s) f - fd_count (p_files C) f;
  ed_maps : maps_live (ext s') = maps_live (ext s) ∖ {[map]};
  ed_pds : same_pds (ext s) (ext s');
  ed_stacks : same_stacks (ext s) (ext s')
}.

(** Giving back the working directory, the open files and the address space. *)
Lemma release_run {A} (k : M K A) s me C map :
  curproc (sch s) = Some me → procs s !! me = Some C → length (p_files C) = NFILES →
  (∀ f, fd_count (p_files C) f <= f_refs (ext s) f) →
  p_vmmap C = Some map → map ∈ maps_live (ext s) →
  ∃ e, (C <- curproc_get ;;
        match p_cwd C with Some v => on_ext (vput v) | None => ret tt end ;;;
        close_files NFILES 0 ;;;
        C <- curproc_get ;;
        on_ext (vmmap_destroy (p_vmmap C)) ;;; k) s =
      k (with_ext e (set_files_of me C (replicate NFILES None) s)) ∧
    (∀ f, f_refs e f = f_refs (ext s) f - fd_count (p_files C) f) ∧
    maps_live e = maps_live (ext s) ∖ {[map]} ∧ same_pds (ext s) e ∧ same_stacks (ext s) e.
Proof.
  intros Hcur HC Hlen Hrefs Hmap Hlive.
  erewrite bind_Ret by (by eapply curproc_get_run).
  destruct (opt_ext_run vput (p_cwd C) s vput_ok) as (e1 & Hv & Hf1 & Hm1 & Hp1 & Hs1).
  erewrite bind_Ret by exact Hv.
  destruct (close_files_run me NFILES 0 C (with_ext e1 s))
    as (e2 & Hcl & Hf2 & Hm2 & Hp2 & Hs2); [done|done|done| |].
  { intros f. simpl. rewrite drop_0, Hf1. apply Hrefs. }
  erewrite bind_Ret by exact Hcl.
  erewrite bind_Ret by (apply (curproc_get_run _ me); [done|apply lookup_insert_eq]).
  destruct (vmmap_destroy_ok map e2) as (e3 & Hd & Hf3 & Hp3 & Hs3 & Hm3).
  { unfold same_maps in *. simpl in *. by rewrite Hm2, Hm1. }
  erewrite bind_Ret by (apply on_ext_run; simpl; rewrite Hmap; exact Hd).
  exists e3. split; [done|]. unfold same_files, same_maps, same_pds, same_stacks in *.
  simpl in *. split; [|split; [|by split; congruence]].
  - intros f. rewrite Hf3, Hf2, Hf1, drop_0. done.
  - by rewrite Hm3, Hm2, Hm1.
Qed.

(** The end of [proc_cleanup]. *)
Definition cleanup_tail : M K unit :=
  C <- curproc_get ;;
  parent <- deref (p_pproc C) ;;
  proc_get parent ;;;
  e <- on_sch (sched_queue_empty (p_wait parent)) ;;
  (if (e : bool) then ret tt
   else
     on_sch (sched_broadcast_on (p_wait parent)) ;;;
     t <- on_sch curthr_get ;;
     on_sch (thr_get t) ;;;
     on_sch (thr_upd t (set_kt_state KT_EXITED))) ;;;
  curproc_upd (set_p_state PROC_DEAD) ;;;
  C <- curproc_get ;;
  kassert (bool_decide (p_pproc C ≠ None)) ;;;
  t <- on_sch curthr_get ;;
  th <- on_sch (thr_get t) ;;
  kassert (bool_decide (KT_EXITED = kt_state th)).

Lemma cleanup_tail_run s me C t th parent :
  curproc (sch s) = Some me → procs s !! me = Some C → p_state C = PROC_DEAD →
  p_pproc C = Some parent → is_Some (procs s !! parent) →
  sched_wf (sch s) → is_Some (queues (sch s) !! kt_runq) →
  is_Some (queues (sch s) !! p_wait parent) →
  curthr (sch s) = Some t → threads (sch s) !! t = Some th →
  kt_state th = KT_EXITED → kt_wchan th = None →
  let q := p_wait parent in
  ∃ x, cleanup_tail s = Ret tt (with_sch x s) ∧
    sched_wf x ∧ sched_frame (sch s) x ∧ threads x !! t = Some th ∧
    waiting x q = [] ∧ waiting x kt_runq = waiting (sch s) kt_runq ++ waiting (sch s) q ∧
    (∀ t1, t1 ∈ waiting (sch s) q → ∃ th1, threads x !! t1 = Some th1 ∧ kt_state th1 = KT_RUN) ∧
    same_queues_but [q; kt_runq] (sch s) x.
Proof.
  intros Hcur HC Hdead Hpar [P HP'] Hwf Hrq Hq Hct Ht Hst Hwc.
  unfold cleanup_tail. erewrite bind_Ret by (by eapply curproc_get_run). rewrite Hpar. kstep.
  erewrite bind_Ret by (unfold proc_get; by rewrite HP').
  edestruct (λ A k, @wake_parent_run A k s t th parent) as (x & Hrun & Hr); try done.
  rewrite Hrun. clear Hrun. exists x. split; [|done]. destruct Hr as (_ & Hsf & Htx & _).
  pose proof (sf_curproc _ _ Hsf) as Hcx. rewrite Hcur in Hcx.
  erewrite bind_Ret by (by eapply curproc_upd_run). simpl.
  assert (set_p_state PROC_DEAD C = C) as -> by (rewrite <- Hdead; by destruct C).
  rewrite insert_id by done.
  change (with_procs (procs s) (with_sch x s)) with (with_sch x s).
  erewrite bind_Ret by (by eapply curproc_get_run). rewrite Hpar. kstep.
  erewrite bind_Ret.
  2: { apply on_sch_run. unfold curthr_get. simpl. by rewrite (sf_curthr _ _ Hsf), Hct. }
  erewrite bind_Ret by (apply on_sch_run; unfold thr_get; simpl; by rewrite Htx).
  rewrite Hst. done.
Qed.

Lemma proc_cleanup_run s me C parent i I t th map status :
  proc_wf s → sched_wf (sch s) → exiting s me C parent i I t th map →
  ∃ s', proc_cleanup status s = Ret tt s' ∧ proc_wf s' ∧ sched_wf (sch s') ∧
    exit_done s s' me C parent i t th map status.
Proof.
  intros Hwf Hsw Hx.
  destruct (hand_over_run s me C parent i I t th map status Hwf Hx) as (ps & Hho & Hps).
  pose proof (children_get_run _ _ _ Hwf (ex_me _ _ _ _ _ _ _ _ _ Hx)
    (ex_running _ _ _ _ _ _ _ _ _ Hx)) as HlC.
  pose proof Hx as [Hcur Hme Hrun Hpar Hpid Hini HI' Hne HrI Hip Hct Hth Hex Hwc Hrefs Hmap Hlive].
  set (C1 := handed me i (child_list C) status me C).
  assert (ps !! me = Some C1) as HC1 by (by rewrite Hps, Hme).
  assert (p_files C1 = p_files C ∧ p_vmmap C1 = p_vmmap C ∧ p_pproc C1 = p_pproc C ∧
    p_state C1 = PROC_DEAD) as (Hfs & Hvm & Hpp & Hd)
    by (unfold C1, handed; by rewrite decide_True).
  destruct (release_run cleanup_tail (with_procs ps s) me C1 map)
    as (e & Hrel & Hf & Hm & Hp & Hs); simpl; rewrite ?Hfs, ?Hvm; try done.
  { by apply (pw_files _ Hwf me). }
  set (C2 := set_p_files (replicate NFILES None) C1).
  set (s1 := with_ext e _) in Hrel.
  destruct (pw_parent _ Hwf me C parent Hme Hpar) as [Hnep [P HP']].
  destruct (cleanup_tail_run s1 me C2 t th parent)
    as (x & Htail & Hwx & Hsf & Htx & Hw1 & Hw2 & Hw3 & Hsq); try done.
  { simpl. apply lookup_insert_eq. }
  { simpl. congruence. }
  { simpl. rewrite lookup_insert_ne by done. rewrite Hps, HP'. eauto. }
  { apply (pw_runq _ Hwf). }
  { apply (pw_wait _ Hwf). eauto. }
  assert (∀ q, procs s1 !! q = exited me i (child_list C) status q <$> procs s !! q) as Hps1.
  { intros q. simpl. unfold exited. destruct (decide (q = me)) as [->|].
    - by rewrite lookup_insert_eq, Hme.
    - by rewrite lookup_insert_ne, Hps by done. }
  exists (with_sch x s1). split; [|split; [|split; [done|]]].
  - unfold proc_cleanup. kstep. erewrite (bind_Ret (kassert _)) by (by rewrite Hini).
    erewrite bind_Ret by (by eapply curproc_get_run).
    erewrite (bind_Ret (kassert _)) by (by rewrite Hpar).
    erewrite (bind_Ret (kassert _)) by (by apply kassert_true, Z.leb_le).
    erewrite bind_Ret by (by eapply curproc_upd_run).
    erewrite bind_Ret by (apply (curproc_upd_run _ me); [done|apply lookup_insert_eq]).
    erewrite (bind_Ret curproc_ptr) by (unfold curproc_ptr; simpl; by rewrite Hcur).
    erewrite (bind_Ret (children_get me)).
    2: { unfold children_get, bind, proc_get. simpl. rewrite lookup_insert_eq. simpl.
         by rewrite HlC. }
    knorm. rewrite insert_insert_eq. erewrite bind_Ret by exact Hho.
    rewrite <- Htail. exact Hrel.
  - by apply (exited_wf s _ me C parent i I t th map status).
  - rewrite Hfs in Hf. by split.
Qed.

(** C13: When a thread exits, [proc_cleanup] runs to completion: the process is dead
    with the given status and holds no open file; each descriptor gives back one
    reference and the address space is destroyed; its children, in their order, become
    the last children of the init process; the threads of the parent that wait become
    runnable, in their order. Other processes, threads and queues are unchanged, so
    init is not told of dead children it inherits. Process table, tree and queues stay
    consistent. *)
Theorem proc_cleanup_exits s me C parent i I t th map status :
  proc_wf s → sched_wf (sch s) → exiting s me C parent i I t th map →
  ∃ s', proc_cleanup status s = Ret tt s' ∧ proc_wf s' ∧ sched_wf (sch s') ∧
    exit_done s s' me C parent i t th map status.
Proof. apply proc_cleanup_run. Qed.

(** The state after the exiting thread was marked. *)
Definition marked t (th : kthread) retval s : K :=
  with_sch (put_thr t (set_kt_state KT_EXITED (set_kt_retval retval th)) (sch s)) s.

Lemma marked_wf t th retval s :
  proc_wf s → threads (sch s) !! t = Some th → proc_wf (marked t th retval s).
Proof.
  intros Hwf Ht. split; [split|apply (pw_runq _ Hwf)]; [by destruct (wf_table _ Hwf)|by destruct (wf_tree _ Hwf)|].
  destruct (wf_kt _ Hwf) as [? ? Hths]. split; try done.
  intros p P t1 HP' Ht1. destruct (Hths p P t1 HP' Ht1) as (th1 & m & Hth1 & Hp & Hm).
  simpl. destruct (decide (t = t1)) as [->|].
  - rewrite lookup_insert_eq. eexists _, m. split; [done|]. simpl. split; [congruence|done].
  - rewrite lookup_insert_ne by done. eauto.
Qed.

Lemma marked_sched_wf t th retval s :
  sched_wf (sch s) → threads (sch s) !! t = Some th → kt_wchan th = None →
  sched_wf (sch (marked t th retval s)).
Proof.
  intros [Hc [Hw Hs]] Ht Hn. split; [by eapply core_put_thr|]. split; simpl.
  - intros t1 th1 q [[<- <-]|[??]]%lookup_insert_Some; [simpl; congruence|by eauto].
  - intros t1 th1 [[<- <-]|[??]]%lookup_insert_Some; [done|by eauto].
Qed.

(** The first steps of [kthread_exit]. *)
Lemma kthread_exit_prefix s me t th retval :
  sched_wf (sch s) → curproc (sch s) = Some me → curthr (sch s) = Some t →
  threads (sch s) !! t = Some th → kt_wchan th = None → kt_proc th = Some me →
  kthread_exit retval s = proc_thread_exited retval (marked t th retval s).
Proof.
  intros Hwf Hcur Hct Ht Hn Hp. unfold kthread_exit.
  erewrite bind_Ret by (apply on_sch_run; unfold curthr_get; by rewrite Hct).
  erewrite bind_Ret by (apply on_sch_run; unfold thr_get; simpl; by rewrite Ht).
  erewrite bind_Ret by (apply on_sch_run; done).
  erewrite bind_Ret by (apply on_sch_run; done).
  simpl. rewrite alter_twice. erewrite alter_lookup_insert by done.
  erewrite bind_Ret by (apply on_sch_run; unfold thr_get; simpl; by rewrite lookup_insert_eq).
  simpl. rewrite Hn. kstep.
  rewrite (core_link _ (wf_core _ Hwf) _ _ Ht), Hn. kstep. kstep.
  simpl. rewrite Hp, bool_decide_eq_true_2 by done. kstep. done.
Qed.

(** [kthread_exit], when closing files and giving up the working directory do not block:
    after the process was cleaned up it hands the processor to the thread that has been
    runnable longest, the woken threads of the parent being the last, and the exiting
    thread, marked [KT_EXITED] with its return value, is in no queue. *)
Theorem kthread_exit_switches s me C parent i I t th map retval next rest :
  proc_wf s → sched_wf (sch s) → threads (sch s) !! t = Some th → kt_proc th = Some me →
  kt_wchan th = None →
  exiting (marked t th retval s) me C parent i I t
    (set_kt_state KT_EXITED (set_kt_retval retval th)) map →
  waiting (sch s) kt_runq ++ waiting (sch s) (p_wait parent) = next :: rest →
  ∃ s1 s' k, kthread_exit retval s = Block ContextSwitch s' k ∧
    exit_done (marked t th retval s) s1 me C parent i t
      (set_kt_state KT_EXITED (set_kt_retval retval th)) map retval ∧
    s' = with_sch (sch s') s1 ∧ curthr (sch s') = Some next ∧
    waiting (sch s') kt_runq = rest ∧
    threads (sch s') !! t = Some (set_kt_state KT_EXITED (set_kt_retval retval th)) ∧
    ∀ q, t ∉ waiting (sch s') q.
Proof.
  intros Hwf Hsw Ht Hp Hn Hx Hw. pose proof (ex_cur _ _ _ _ _ _ _ _ _ Hx) as Hcur.
  pose proof (ex_curthr _ _ _ _ _ _ _ _ _ Hx) as Hct. simpl in Hcur, Hct.
  set (th' := set_kt_state KT_EXITED (set_kt_retval retval th)) in *.
  destruct (proc_cleanup_run (marked t th retval s) me C parent i I t th' map retval)
    as (s1 & Hrun & Hwf1 & Hsw1 & Hdone); [by apply marked_wf|by apply marked_sched_wf|done|].
  assert (waiting (sch s1) kt_runq = next :: rest) as Hrq.
  { rewrite <- Hw. apply (ed_runq _ _ _ _ _ _ _ _ _ _ Hdone). }
  pose proof (ed_thread _ _ _ _ _ _ _ _ _ _ Hdone) as Ht1.
  destruct (sched_switch_dispatch (sch s1) t next rest Hsw1)
    as (x & tn & Hsx & Htn & Htn' & Hcx & _ & Hwx & Hstx & Hsqx); [|done|].
  { by rewrite (sf_curthr _ _ (ed_frame _ _ _ _ _ _ _ _ _ _ Hdone)). }
  assert (∀ q, t ∉ waiting (sch s1) q) as Hnw.
  { intros q. eapply not_waiting; [apply Hsw1|done|]. simpl. congruence. }
  exists s1, (with_sch x s1). eexists. split.
  { rewrite (kthread_exit_prefix s me t th) by done. unfold proc_thread_exited.
    erewrite bind_Ret by exact Hrun. unfold on_sch, zoom. rewrite Hsx. simpl. done. }
  do 4 (split; [done|]). split.
  - simpl. rewrite Hstx; [done|]. apply not_elem_of_cons. split; [|apply not_elem_of_nil].
    intros ->. apply (Hnw kt_runq). rewrite Hrq. set_solver.
  - intros q. simpl. destruct (decide (q = kt_runq)) as [->|Hq].
    + rewrite Hwx. specialize (Hnw kt_runq). rewrite Hrq in Hnw. set_solver.
    + unfold waiting. rewrite Hsqx by set_solver. apply Hnw.
Qed.
End exit.
