(* ===== verification/ProcWait.v ===== *)
(** * Properties of processes: waiting for children

    How [do_waitpid] finds a child, sleeps until it is dead, and disposes of it. *)
From S2P Require Import Prelude Headers Sched SchedProps Proc ProcProps.
Local Open Scope kernel_scope.

Section wait.
Context `{HE : ErrnoH, HI : IntrH, HP : PageH, HL : LimitsH, HH : ProcH}.
Context {E X : Type} `{HV : !ProcView E, HO : !ProcOps E X, HW : !ProcLaws E X}.
Local Abbreviation K := (kernel E X).
Implicit Types (p c me : procp) (t : tid) (s : K).

(** ** Disposing of a dead child *)

(** [c] is a child of the current process [me] that can be disposed of: it is dead,
    its last thread [t] has a stack, it has a page directory, and neither its thread
    nor its wait queue is in use. *)
Record reapable s me (M : proc) c (C : proc) t (th : kthread) (m : kt_mem X) st pd : Prop := {
  re_cur : curproc (sch s) = Some me;
  re_me : procs s !! me = Some M;
  re_running : p_state M = PROC_RUNNING;
  re_child : c ∈ child_list M;
  re_c : procs s !! c = Some C;
  re_dead : p_state C = PROC_DEAD;
  re_last : last (p_threads C) = Some t;
  re_th : threads (sch s) !! t = Some th;
  re_wchan : kt_wchan th = None;
  re_mem : kt_mems s !! t = Some m;
  re_stack : kt_kstack m = Some st;
  re_stack_live : st ∈ stacks_live (ext s);
  re_pd : p_pagedir C = Some pd;
  re_pd_live : pd ∈ pds_live (ext s);
  re_wait : waiting (sch s) (p_wait c) = []
}.

(** The state without the child, its thread, its wait queue. *)
Definition reaped s me c t (e : E) : K :=
  Kernel (Sched (delete t (threads (sch s))) (delete (p_wait c) (queues (sch s)))
                (curthr (sch s)) (curproc (sch s)) (ipl (sch s)))
         (delete c (alter (λ M, set_p_children
                       (Linked (filter (λ x, x ≠ c) (child_list M))) M) me (procs s)))
         (filter (λ x, x ≠ c) (proc_list s)) (next_pid s) (proc_initproc s)
         (delete t (kt_mems s)) e.

Definition ext_reaped (e e' : E) st pd : Prop :=
  same_files e e' ∧ same_maps e e' ∧
  stacks_live e' = stacks_live e ∖ {[st]} ∧ pds_live e' = pds_live e ∖ {[pd]}.

Lemma kthread_destroy_run s t th m st c C :
  threads (sch s) !! t = Some th → kt_mems s !! t = Some m → kt_kstack m = Some st →
  st ∈ stacks_live (ext s) → kt_plink m = true → kt_proc th = Some c → procs s !! c = Some C →
  ∃ e, kthread_destroy (Some t) s =
      Ret tt (Kernel (Sched (delete t (threads (sch s))) (queues (sch s)) (curthr (sch s))
                        (curproc (sch s)) (ipl (sch s)))
                (<[c := set_p_threads (filter (λ x, x ≠ t) (p_threads C)) C]> (procs s))
                (proc_list s) (next_pid s) (proc_initproc s) (delete t (kt_mems s)) e) ∧
    same_files (ext s) e ∧ same_maps (ext s) e ∧ same_pds (ext s) e ∧
    stacks_live e = stacks_live (ext s) ∖ {[st]}.
Proof.
  intros Ht Hm Hst Hlive Hpl Hp HC. unfold kthread_destroy. kstep.
  erewrite bind_Ret by (apply on_sch_run; unfold thr_get; by rewrite Ht).
  erewrite bind_Ret by (unfold kt_mem_get; simpl; by rewrite Hm). rewrite Hst. kstep.
  destruct (page_free_n_ok st stack_pages (ext s) Hlive) as (e & Hfree & Hv).
  erewrite bind_Ret by (unfold free_stack; apply on_ext_run; exact Hfree).
  rewrite Hpl, Hp. exists e. split; [|done].
  erewrite (bind_Ret (bind _ _)).
  2: { kstep. erewrite bind_Ret by (unfold proc_get; simpl; by rewrite HC).
       by apply proc_upd_run. }
  done.
Qed.

Lemma reap_run s me M c C t th m st pd pid status :
  proc_wf s → reapable s me M c C t th m st pd → pid = -1 ∨ p_pid C = pid →
  ∃ e, reap pid status c s =
      Ret (p_pid C, if status then Some (p_status C) else None) (reaped s me c t e) ∧
    ext_reaped (ext s) e st pd.
Proof.
  intros Hwf [Hcur Hme Hrun Hch HC Hdead Hlast Hth Hwc Hm Hst Hsl Hpd Hpl Hw] Hpid.
  pose proof (children_get_run _ _ _ Hwf Hme Hrun) as HlM.
  assert (t ∈ p_threads C) as Hin.
  { apply last_Some in Hlast as [l ->]. set_solver. }
  destruct (pw_threads _ Hwf _ _ _ HC Hin) as (? & ? & ? & Hproc & ? & Hlink). simplify_eq.
  assert (me ≠ c) as Hne by (intros ->; congruence).
  unfold reap. erewrite bind_Ret by (unfold proc_get; by rewrite HC). cbv zeta.
  rewrite Hlast. kstep.
  destruct (kthread_destroy_run s t th m st c C) as (e1 & Hd & Hf1 & Hm1 & Hp1 & Hs1); try done.
  erewrite bind_Ret by exact Hd.
  erewrite bind_Ret by (apply proc_upd_run; simpl; apply lookup_insert_eq).
  kstep. simpl. rewrite insert_insert_eq.
  erewrite bind_Ret by (unfold curproc_ptr; simpl; by rewrite Hcur).
  erewrite (bind_Ret (children_remove me c)).
  2: { unfold children_remove, children_get, bind, proc_get. simpl.
       rewrite lookup_insert_ne, Hme by done. simpl. rewrite HlM. done. }
  erewrite (bind_Ret (kassert _)).
  2: { apply kassert_true, orb_true_iff. destruct Hpid as [-> | ->]; [by left|right].
       apply Z.eqb_refl. }
  simpl. rewrite alter_insert_ne by done.
  erewrite bind_Ret by (unfold proc_get; simpl; by rewrite lookup_insert_eq).
  simpl. rewrite Hpd. kstep.
  destruct (pt_destroy_pagedir_ok pd e1) as (e2 & Hdp & Hf2 & Hm2 & Hs2 & Hp2).
  { unfold same_pds in *. by rewrite Hp1. }
  erewrite bind_Ret by (apply on_ext_run; exact Hdp). kstep. kstep.
  exists e2. split.
  - unfold reaped. unfold ret. simpl. rewrite delete_insert_eq.
    by rewrite !(alter_lookup_insert _ _ _ _ Hme), Hcur.
  - unfold ext_reaped, same_files, same_maps, same_pds, same_stacks in *.
    split; [congruence|]. split; [congruence|]. split; congruence.
Qed.

(** The processes that are left: [me] with one child less, the others as they were. *)
Definition without c me q (Q : proc) : proc :=
  if decide (q = me)
  then set_p_children (Linked (filter (λ x, x ≠ c) (child_list Q))) Q else Q.

Section reaped.
Context s me (M : proc) c (C : proc) t (th : kthread) (m : kt_mem X) st pd (e : E)
  (Hwf : proc_wf s) (Hre : reapable s me M c C t th m st pd).
Local Abbreviation s' := (reaped s me c t e).

Lemma reaped_inv q Q' :
  procs s' !! q = Some Q' ↔
  q ≠ c ∧ ∃ Q, procs s !! q = Some Q ∧ Q' = without c me q Q.
Proof using.
  clear Hwf Hre. simpl. rewrite lookup_delete_Some, lookup_alter. unfold without.
  repeat case_decide; subst; try done; rewrite ?fmap_Some; naive_solver.
Qed.

Lemma without_same q Q :
  let Q' := without c me q Q in
  p_pid Q' = p_pid Q ∧ p_pproc Q' = p_pproc Q ∧ p_state Q' = p_state Q ∧
  p_files Q' = p_files Q ∧ p_threads Q' = p_threads Q.
Proof using. unfold without. by case_decide. Qed.

Lemma reaped_dom q : is_Some (procs s' !! q) ↔ q ≠ c ∧ is_Some (procs s !! q).
Proof using.
  split.
  - intros [Q (Hne & Q0 & HQ & _)%reaped_inv]. eauto.
  - intros [Hne [Q HQ]]. eexists. apply reaped_inv. eauto.
Qed.

(** Nobody has the dead child as parent. *)
Lemma reaped_no_child q Q : procs s !! q = Some Q → p_pproc Q ≠ Some c.
Proof using Hwf Hre.
  intros HQ Hp. apply (not_elem_of_nil q).
  rewrite <- (pw_dead _ Hwf c C (re_c _ _ _ _ _ _ _ _ _ _ Hre) (re_dead _ _ _ _ _ _ _ _ _ _ Hre)).
  apply (pw_children _ Hwf c C); [apply Hre|eauto].
Qed.

Lemma reaped_table : table_wf s'.
Proof using Hwf.
  split.
  - apply NoDup_filter, Hwf.
  - intros q. rewrite reaped_dom. simpl. rewrite list_elem_of_filter.
    by rewrite (pw_dom _ Hwf).
  - apply Hwf.
  - intros q ? (_ & Q & HQ & ->)%reaped_inv. destruct (without_same q Q) as (-> & _).
    by apply (pw_pid _ Hwf q).
  - intros q1 q2 ? ? (_ & Q1 & HQ1 & ->)%reaped_inv (_ & Q2 & HQ2 & ->)%reaped_inv.
    destruct (without_same q1 Q1) as (-> & _). destruct (without_same q2 Q2) as (-> & _).
    by apply (pw_uniq _ Hwf q1 q2 Q1 Q2).
  - intros q ? (_ & Q & HQ & ->)%reaped_inv. destruct (without_same q Q) as (_ & _ & _ & -> & _).
    by apply (pw_files _ Hwf q).
Qed.

Lemma reaped_tree : tree_wf s'.
Proof using Hwf Hre.
  pose proof reaped_no_child as Hno.
  pose proof Hre as [_ Hme Hrun Hch HC Hdead _ _ _ _ _ _ _ _ _].
  assert (∀ q Q, procs s !! q = Some Q → q ≠ c → ∀ x,
    x ∈ child_list (without c me q Q) ↔ x ≠ c ∧ x ∈ child_list Q) as Hcl.
  { intros q Q HQ Hqc x. unfold without. case_decide as Hq; simpl.
    - unfold child_list at 1. simpl. by rewrite list_elem_of_filter.
    - split; [|by intros []]. intros Hx. split; [|done]. intros ->.
      apply (pw_children _ Hwf _ _ _ HQ) in Hx as (? & ? & Hp1).
      apply (pw_children _ Hwf _ _ _ Hme) in Hch as (? & ? & Hp2). congruence. }
  split.
  - intros q ? (_ & Q & HQ & ->)%reaped_inv. pose proof (pw_nodup_children _ Hwf _ _ HQ).
    unfold without. case_decide; [|done]. unfold child_list at 1. simpl. by apply NoDup_filter.
  - intros q ? x (Hne & Q & HQ & ->)%reaped_inv. rewrite (Hcl _ _ HQ Hne).
    rewrite (pw_children _ Hwf _ _ _ HQ). split.
    + intros [Hx (D & HD & Hp)]. eexists. split; [apply reaped_inv; eauto|].
      by destruct (without_same x D) as (_ & -> & _).
    + intros (? & (Hx & D & HD & ->)%reaped_inv & Hp). split; [done|].
      destruct (without_same x D) as (_ & Hpp & _). rewrite Hpp in Hp. eauto.
  - intros x ? q (Hx & D & HD & ->)%reaped_inv. destruct (without_same x D) as (_ & -> & _).
    intros Hp. destruct (pw_parent _ Hwf _ _ _ HD Hp) as [Hne Hex]. split; [done|].
    apply reaped_dom. split; [|done]. intros ->. by apply (Hno x D).
  - intros q ? (_ & Q & HQ & ->)%reaped_inv. destruct (without_same q Q) as (_ & _ & -> & _).
    intros Hd. unfold without. case_decide; [|by apply (pw_dead _ Hwf q)].
    unfold child_list at 1. simpl. by rewrite (pw_dead _ Hwf q).
  - intros q ? (_ & Q & HQ & ->)%reaped_inv. unfold without. case_decide; [done|].
    by apply (pw_stale _ Hwf q).
Qed.

Lemma reaped_kt : kt_wf s'.
Proof.
  pose proof Hre as [_ _ _ _ HC _ Hlast Hth _ _ _ _ _ _ _]. split.
  - intros q [Hne Hq]%reaped_dom. simpl. rewrite lookup_delete_ne; [by apply (pw_wait _ Hwf)|].
    intros Heq. by apply Hne, eq_sym, p_wait_inj.
  - intros q ? (_ & Q & HQ & ->)%reaped_inv.
    destruct (without_same q Q) as (_ & _ & _ & _ & ->). by apply (pw_nodup_threads _ Hwf q).
  - intros q ? t1 (Hne & Q & HQ & ->)%reaped_inv.
    destruct (without_same q Q) as (_ & _ & _ & _ & ->). intros Ht1.
    destruct (pw_threads _ Hwf _ _ _ HQ Ht1) as (th1 & m1 & Hth1 & Hp1 & Hm1).
    assert (t ≠ t1) as Hnt.
    { intros <-. destruct (pw_threads _ Hwf c C t HC) as (? & ? & ? & ? & _); [|congruence].
      apply last_Some in Hlast as [l ->]. set_solver. }
    simpl. rewrite !lookup_delete_ne by done. eauto.
Qed.

Lemma reaped_wf : proc_wf s'.
Proof.
  split; [split; [apply reaped_table|apply reaped_tree|apply reaped_kt]|].
  simpl. rewrite lookup_delete_ne by apply p_wait_runq. apply (pw_runq _ Hwf).
Qed.

Lemma reaped_sched_wf : sched_wf (sch s) → sched_wf (sch s').
Proof.
  pose proof Hre as [_ _ _ _ _ _ _ Hth Hwc _ _ _ _ _ Hw].
  intros [[Hsz Hnd Hon Hch Hli] [Hsl Hsc]]. split; split; simpl.
  - intros q Q [_ ?]%lookup_delete_Some. eauto.
  - intros q Q [_ ?]%lookup_delete_Some. eauto.
  - intros q Q t1 [_ HQ]%lookup_delete_Some Hin. destruct (Hon _ _ _ HQ Hin) as (th1 & Ht1 & Hq).
    exists th1. rewrite lookup_delete_ne by congruence. eauto.
  - intros t1 th1 q [_ Ht1]%lookup_delete_Some Hq. destruct (Hch _ _ _ Ht1 Hq) as (Q & HQ & Hin).
    exists Q. split; [|done]. rewrite lookup_delete_ne; [done|]. intros <-.
    unfold waiting in Hw. rewrite HQ in Hw. rewrite <- elem_of_reverse, Hw in Hin. set_solver.
  - intros t1 th1 [_ ?]%lookup_delete_Some. eauto.
  - intros t1 th1 q [_ ?]%lookup_delete_Some. eauto.
  - intros t1 th1 [_ ?]%lookup_delete_Some. eauto.
Qed.
End reaped.

(** ** Waiting *)

(** What there is to do for a waiting parent: there is no such child, the child [c]
    can be disposed of, the parent has to sleep (for the child [c], or for any), or
    the number is not supported. *)
Inductive wait_case := NoChild | DeadChild c | Sleep (c : option procp) | Unsupported.

Definition is_dead (C : proc) : bool := bool_decide (p_state C = PROC_DEAD).
(** The first of the processes [l] that passes. *)
Definition first_of s (f : proc → bool) (l : list procp) : option procp :=
  head (filter (λ c, passes s f c = true) l).

Definition wait_case_of s (M : proc) (pid : Z) : wait_case :=
  if bool_decide (child_list M = []) then NoChild
  else if 0 <? pid then
    match first_of s (λ C, p_pid C =? pid) (child_list M) with
    | None => NoChild
    | Some c => if passes s is_dead c then DeadChild c else Sleep (Some c)
    end
  else if pid =? -1 then
    match first_of s is_dead (child_list M) with
    | Some c => DeadChild c
    | None => Sleep None
    end
  else Unsupported.

Lemma children_exist s me M c :
  proc_wf s → procs s !! me = Some M → c ∈ child_list M → is_Some (procs s !! c).
Proof. intros Hwf HM Hc. apply (pw_children _ Hwf _ _ _ HM) in Hc as (? & ? & _). eauto. Qed.

Lemma wait_prefix s me M :
  proc_wf s → curproc (sch s) = Some me → procs s !! me = Some M → p_state M = PROC_RUNNING →
  curproc_ptr s = Ret me s ∧ children_get me s = Ret (child_list M) s ∧
  ∀ f, first_proc f (child_list M) s = Ret (first_of s f (child_list M)) s.
Proof.
  intros Hwf Hcur HM Hrun. split; [unfold curproc_ptr; by rewrite Hcur|]. split.
  - unfold children_get, bind, proc_get. rewrite HM. simpl.
    by rewrite (children_get_run _ _ _ Hwf HM Hrun).
  - intros f. apply first_proc_run. intros c Hc. by eapply children_exist.
Qed.

(** What [do_waitpid] runs in each case. *)
Lemma do_waitpid_case s me M pid options status :
  proc_wf s → curproc (sch s) = Some me → procs s !! me = Some M → p_state M = PROC_RUNNING →
  do_waitpid pid options status s =
    match wait_case_of s M pid with
    | NoChild => Ret (- ECHILD, None) s
    | Unsupported => Ret (0, None) s
    | DeadChild c => reap pid status c s
    | Sleep (Some c) => (wait_dead wait_turns c ;;; reap pid status c) s
    | Sleep None => wait_any wait_turns status s
    end.
Proof.
  intros Hwf Hcur HM Hrun.
  destruct (wait_prefix s me M Hwf Hcur HM Hrun) as (Hp & Hc & Hf).
  unfold do_waitpid, wait_case_of. rewrite (bind_Ret _ _ _ _ _ Hp), (bind_Ret _ _ _ _ _ Hc).
  case_bool_decide; [done|]. destruct (0 <? pid).
  - rewrite (bind_Ret _ _ _ _ _ (Hf _)). destruct (first_of _ _ _) as [c|] eqn:Hh; [|done].
    apply head_filter_Some in Hh as [Hin _]. destruct (passes s is_dead c) eqn:Hd; [|done].
    rewrite (bind_Ret _ _ _ tt s); [done|]. unfold passes, is_dead in Hd. destruct wait_turns; simpl;
      unfold bind, proc_get; destruct (procs s !! c); try done; simpl; by rewrite Hd.
  - destruct (pid =? -1) eqn:Hpid; [|done]. zbool. subst.
    destruct (first_of s is_dead (child_list M)) as [c|] eqn:Hh; [|done].
    destruct wait_turns; simpl; rewrite (bind_Ret _ _ _ _ _ Hp), (bind_Ret _ _ _ _ _ Hc);
      rewrite (bind_Ret _ _ _ _ _ (Hf _)); fold is_dead; by rewrite Hh.
Qed.

(** The child a waiting parent disposes of has the number it asked for. *)
Lemma wait_case_pid s M pid c C :
  wait_case_of s M pid = DeadChild c → procs s !! c = Some C →
  pid = -1 ∨ p_pid C = pid.
Proof.
  unfold wait_case_of. intros Hw HC. case_bool_decide; [done|]. destruct (0 <? pid).
  - destruct (first_of _ _ _) as [c'|] eqn:Hh; [|done]. destruct (passes _ _ c'); [|done].
    simplify_eq. apply head_filter_Some in Hh as [_ Hp]. unfold passes in Hp.
    rewrite HC in Hp. zbool. by right.
  - destruct (pid =? -1) eqn:Hpid; [|done]. zbool. by left.
Qed.

(** C17: [do_waitpid] returns at once when there is nothing to wait for. Without
    children, or without a child of the number asked for, it gives [-ECHILD]. If the
    child asked for, or for -1 some child, is dead, it gives the number of the first
    such child and stores its exit status if a place for it is given, frees the
    thread, its stack, the page directory and the process, and takes the process out
    of the process list and the parent's list of children, leaving everything else as
    it was and table, tree and queues consistent. Other numbers give 0. *)
Theorem do_waitpid_reaps s me M pid options status :
  proc_wf s → sched_wf (sch s) → curproc (sch s) = Some me → procs s !! me = Some M →
  p_state M = PROC_RUNNING →
  match wait_case_of s M pid with
  | NoChild => do_waitpid pid options status s = Ret (- ECHILD, None) s
  | Unsupported => do_waitpid pid options status s = Ret (0, None) s
  | Sleep _ => True
  | DeadChild c => ∀ C t th m st pd, reapable s me M c C t th m st pd →
      ∃ s', do_waitpid pid options status s =
          Ret (p_pid C, if status then Some (p_status C) else None) s' ∧
        s' = reaped s me c t (ext s') ∧ ext_reaped (ext s) (ext s') st pd ∧
        proc_wf s' ∧ sched_wf (sch s')
  end.
Proof.
  intros Hwf Hsw Hcur HM Hrun.
  pose proof (do_waitpid_case s me M pid options status Hwf Hcur HM Hrun) as Hdo.
  destruct (wait_case_of s M pid) as [|c|[c|]|] eqn:Hcase; try done.
  intros C t th m st pd Hre.
  destruct (reap_run s me M c C t th m st pd pid status Hwf Hre) as (e & Hrp & Hext).
  { eapply wait_case_pid; [done|]. apply Hre. }
  exists (reaped s me c t e). rewrite Hdo. do 3 (split; [done|]).
  split; [by eapply reaped_wf|by eapply reaped_sched_wf].
Qed.

(** The scheduler's part of going to sleep. *)
Lemma sleep_on_blocks x q Q cur th next rest :
  sched_wf x → curthr x = Some cur → threads x !! cur = Some th → kt_wchan th = None →
  queues x !! q = Some Q → q ≠ kt_runq → waiting x kt_runq = next :: rest →
  ∃ x', sched_sleep_on q x = Block ContextSwitch x' (intr_setipl (ipl x)) ∧
    waiting x' q = waiting x q ++ [cur] ∧ curthr x' = Some next ∧ waiting x' kt_runq = rest ∧
    threads x' !! cur = Some (linked q (set_kt_state KT_SLEEP th)).
Proof.
  intros Hwf Hcur Ht Hn HQ Hq Hw. unfold sched_sleep_on.
  erewrite (bind_Ret curthr_get) by (unfold curthr_get; by rewrite Hcur).
  erewrite (bind_Ret (thr_get cur)) by (unfold thr_get; by rewrite Ht).
  kstep. erewrite alter_lookup_insert by done. erewrite bind_Ret.
  2: { rewrite ktqueue_enqueue_eq. simpl. rewrite lookup_insert_eq, HQ.
       by rewrite bool_decide_eq_true_2. }
  destruct (sleep_switches x q Q cur th KT_SLEEP next rest) as (x' & Hsw & Hr); auto.
  exists x'. by split.
Qed.

(** The state in which a resumed thread goes on: with its own interrupt level. *)
Definition resume (i : Z) s : K :=
  with_sch (Sched (threads (sch s)) (queues (sch s)) (curthr (sch s)) (curproc (sch s)) i) s.

(** What the parent runs once it is awake. *)
Definition waking (pid : Z) (status : bool) (o : option procp) (n : nat) : M K (Z * option Z) :=
  match o with
  | Some c => wait_dead n c ;;; reap pid status c
  | None => wait_any n status
  end.

Lemma wait_blocks s me M pid options status o t th next rest :
  proc_wf s → sched_wf (sch s) → curproc (sch s) = Some me → procs s !! me = Some M →
  p_state M = PROC_RUNNING → wait_case_of s M pid = Sleep o → (0 < wait_turns)%nat →
  curthr (sch s) = Some t → threads (sch s) !! t = Some th → kt_wchan th = None →
  waiting (sch s) kt_runq = next :: rest →
  ∃ x k, do_waitpid pid options status s = Block ContextSwitch (with_sch x s) k ∧
    waiting x (p_wait me) = waiting (sch s) (p_wait me) ++ [t] ∧ curthr x = Some next ∧
    waiting x kt_runq = rest ∧
    threads x !! t = Some (linked (p_wait me) (set_kt_state KT_SLEEP th)) ∧
    ∀ s', k s' = waking pid status o (pred wait_turns) (resume (ipl (sch s)) s').
Proof.
  intros Hwf Hsw Hcur HM Hrun Hcase Hn Hct Hth Hwc Hw.
  destruct (pw_wait _ Hwf me) as [Q HQ]; [eauto|].
  destruct (sleep_on_blocks (sch s) (p_wait me) Q t th next rest)
    as (x & Hsl & Hx); try done; [apply p_wait_runq|].
  rewrite (do_waitpid_case s me M) by done. rewrite Hcase.
  destruct (wait_prefix s me M Hwf Hcur HM Hrun) as (Hp & Hc & Hf).
  destruct wait_turns as [|n]; [lia|]. simpl pred.
  assert (∀ {A} (f : unit → K → res K A), bind (on_sch (sched_sleep_on (p_wait me))) f s =
    Block ContextSwitch (with_sch x s) (λ s', f tt (resume (ipl (sch s)) s'))) as Hblk.
  { intros A f. unfold bind, on_sch, zoom. rewrite Hsl. done. }
  exists x. unfold wait_case_of in Hcase. case_bool_decide as Hnil; [done|].
  destruct (0 <? pid).
  - destruct (first_of _ _ _) as [c|] eqn:Hh; [|done].
    destruct (passes s is_dead c) eqn:Hd; [done|]. simplify_eq.
    apply head_filter_Some in Hh as [Hin _].
    destruct (children_exist s me M c Hwf HM Hin) as [C HC].
    unfold passes, is_dead in Hd. rewrite HC in Hd.
    eexists. split; [|split; [apply Hx|split; [apply Hx|split; [apply Hx|split; [apply Hx|]]]]].
    + unfold bind at 1. simpl. unfold bind at 1, proc_get. rewrite HC. simpl. rewrite Hd.
      rewrite (bind_Ret _ _ _ _ _ Hp), Hblk. simpl. reflexivity.
    + done.
  - destruct (pid =? -1); [|done]. destruct (first_of _ _ _) as [c|] eqn:Hh; [done|].
    simplify_eq. eexists. split; [|split; [apply Hx|split; [apply Hx|split; [apply Hx|split; [apply Hx|]]]]].
    + simpl. rewrite (bind_Ret _ _ _ _ _ Hp), (bind_Ret _ _ _ _ _ Hc).
      rewrite (bind_Ret _ _ _ _ _ (Hf _)). fold is_dead. rewrite Hh. apply Hblk.
    + done.
Qed.

(** Once awake with the child dead, the parent disposes of it. *)
Lemma waking_reaps s me M c C t th m st pd pid status o n :
  proc_wf s → reapable s me M c C t th m st pd →
  match o with
  | Some c' => c' = c ∧ p_pid C = pid
  | None => first_of s is_dead (child_list M) = Some c
  end →
  ∃ e, waking pid status o n s =
      Ret (p_pid C, if status then Some (p_status C) else None) (reaped s me c t e) ∧
    ext_reaped (ext s) e st pd.
Proof.
  intros Hwf Hre Ho. pose proof Hre as [Hcur HM Hrun Hch HC Hdead _ _ _ _ _ _ _ _ _].
  destruct o as [c'|]; simpl.
  - destruct Ho as [-> Hpid].
    destruct (reap_run s me M c C t th m st pd pid status Hwf Hre) as (e & Hr & He); [by right|].
    exists e. split; [|done]. rewrite <- Hr. rewrite (bind_Ret _ _ _ tt s); [done|].
    destruct n; simpl; unfold bind, proc_get; rewrite HC; simpl; by rewrite Hdead.
  - destruct (reap_run s me M c C t th m st pd (-1) status Hwf Hre) as (e & Hr & He); [by left|].
    exists e. split; [|done]. rewrite <- Hr.
    destruct (wait_prefix s me M Hwf Hcur HM Hrun) as (Hp & Hc & Hf).
    destruct n; simpl; rewrite (bind_Ret _ _ _ _ _ Hp), (bind_Ret _ _ _ _ _ Hc);
      rewrite (bind_Ret _ _ _ _ _ (Hf _)); fold is_dead; by rewrite Ho.
Qed.

(** The interrupt level plays no part. *)
Lemma resume_wf i s : proc_wf s → proc_wf (resume i s).
Proof. by intros [[[] [] []] ?]. Qed.

Lemma resume_reapable i s me M c C t th m st pd :
  reapable s me M c C t th m st pd → reapable (resume i s) me M c C t th m st pd.
Proof. by intros []. Qed.

(** If the child asked for is alive, or for -1 no child is dead, [do_waitpid] puts
    the thread to sleep at the end of the parent's own wait queue and hands over the
    processor, changing no process; when the thread runs again and finds the child it
    waits for dead, or for -1 some child, it disposes of the child and returns its
    number and exit status. *)
Theorem do_waitpid_sleeps s me M pid options status o t th next rest :
  proc_wf s → sched_wf (sch s) → curproc (sch s) = Some me → procs s !! me = Some M →
  p_state M = PROC_RUNNING → wait_case_of s M pid = Sleep o → (0 < wait_turns)%nat →
  curthr (sch s) = Some t → threads (sch s) !! t = Some th → kt_wchan th = None →
  waiting (sch s) kt_runq = next :: rest →
  ∃ x k, do_waitpid pid options status s = Block ContextSwitch (with_sch x s) k ∧
    waiting x (p_wait me) = waiting (sch s) (p_wait me) ++ [t] ∧ curthr x = Some next ∧
    waiting x kt_runq = rest ∧
    threads x !! t = Some (linked (p_wait me) (set_kt_state KT_SLEEP th)) ∧
    ∀ s' M' c C t' th' m st pd,
      proc_wf s' → reapable s' me M' c C t' th' m st pd →
      match o with
      | Some c' => c' = c ∧ p_pid C = pid
      | None => first_of s' is_dead (child_list M') = Some c
      end →
      ∃ s'', k s' = Ret (p_pid C, if status then Some (p_status C) else None) s'' ∧
        s'' = reaped (resume (ipl (sch s)) s') me c t' (ext s'') ∧
        ext_reaped (ext s') (ext s'') st pd ∧ proc_wf s''.
Proof.
  intros Hwf Hsw Hcur HM Hrun Hcase Hn Hct Hth Hwc Hw.
  destruct (wait_blocks s me M pid options status o t th next rest)
    as (x & k & Hdo & Hx1 & Hx2 & Hx2' & Hx3 & Hk); try done.
  exists x, k. do 5 (split; [done|]). intros s' M' c C t' th' m st pd Hwf' Hre Ho.
  set (s1 := resume (ipl (sch s)) s').
  assert (proc_wf s1 ∧ reapable s1 me M' c C t' th' m st pd) as [Hwf1 Hre1]
    by (split; [by apply resume_wf|by apply resume_reapable]).
  destruct (waking_reaps s1 me M' c C t' th' m st pd pid status o (pred wait_turns))
    as (e & Hr & He); [done|done|done|].
  exists (reaped s1 me c t' e). rewrite Hk. do 3 (split; [done|]). by eapply reaped_wf.
Qed.
End wait.
