(* ===== verification/ProcThread.v ===== *)
(** * Properties of threads: creating and cloning

    What [kthread_create] enters in the process and the scheduler, and when
    [kthread_clone] can copy a thread. *)
From S2P Require Import Prelude Headers Sched SchedProps Proc ProcProps.
Local Open Scope kernel_scope.

Section threads.
Context `{HE : ErrnoH, HI : IntrH, HP : PageH, HL : LimitsH, HH : ProcH}.
Context {E X : Type} `{HO : !ProcOps E X}.
Local Abbreviation K := (kernel E X).
Implicit Types (p c : procp) (t : tid) (s : K).

(** A new thread of process [p], and the process with it. *)
Definition new_thread (P : proc) p : kthread :=
  Kthread (if p_pid P =? PID_IDLE then KT_RUN else KT_NO_STATE) None false 0 0 0 (Some p).
Definition with_thread t (P : proc) : proc := set_p_threads (p_threads P ++ [t]) P.

Definition threaded s p (P : proc) t (m : kt_mem X) (e : E) : K :=
  Kernel (Sched (<[t := new_thread P p]> (threads (sch s))) (queues (sch s))
                (curthr (sch s)) (curproc (sch s)) (ipl (sch s)))
         (<[p := with_thread t P]> (procs s)) (proc_list s) (next_pid s)
         (proc_initproc s) (<[t := m]> (kt_mems s)) e.

Lemma sched_wf_new_thread x t th :
  sched_wf x → threads x !! t = None → kt_wchan th = None → kt_qlink th = false →
  kt_state th ≠ KT_SLEEP_CANCELLABLE →
  sched_wf (Sched (<[t := th]> (threads x)) (queues x) (curthr x) (curproc x) (ipl x)).
Proof.
  intros [[Hsz Hnd Hon Hch Hli] [Hw Hc]] Ht Hn Hl Hs. split; split; simpl; try done.
  - intros q Q t1 HQ Hin. destruct (Hon _ _ _ HQ Hin) as (th1 & Ht1 & ?).
    rewrite lookup_insert_ne by congruence. eauto.
  - intros t1 th1 q [[<- <-]|[??]]%lookup_insert_Some; [congruence|by eauto].
  - intros t1 th1 [[<- <-]|[??]]%lookup_insert_Some; [by rewrite Hn|by eauto].
  - intros t1 th1 q [[<- <-]|[??]]%lookup_insert_Some; [congruence|by eauto].
  - intros t1 th1 [[<- <-]|[??]]%lookup_insert_Some; [done|by eauto].
Qed.

Section threaded.
Context s p (P : proc) t (m : kt_mem X) (e : E) (Hwf : boot_wf s)
  (HP' : procs s !! p = Some P) (Ht : threads (sch s) !! t = None) (Hm : kt_plink m = true).
Local Abbreviation s' := (threaded s p P t m e).

Lemma threaded_inv q Q' :
  procs s' !! q = Some Q' ↔
  ∃ Q, procs s !! q = Some Q ∧ Q' = if bool_decide (q = p) then with_thread t Q else Q.
Proof.
  simpl. rewrite lookup_insert_Some. case_bool_decide; naive_solver.
Qed.

Lemma threaded_dom q : is_Some (procs s' !! q) ↔ is_Some (procs s !! q).
Proof.
  split; [intros [? (Q & ? & _)%threaded_inv]; eauto|intros [Q HQ]].
  eexists. apply threaded_inv. eauto.
Qed.

Lemma with_thread_same (b : bool) Q :
  let Q' := if b then with_thread t Q else Q in
  p_pid Q' = p_pid Q ∧ p_pproc Q' = p_pproc Q ∧ p_state Q' = p_state Q ∧
  p_files Q' = p_files Q ∧ p_children Q' = p_children Q ∧ child_list Q' = child_list Q.
Proof. by destruct b. Qed.

Lemma threaded_table : table_wf s'.
Proof.
  split.
  - apply Hwf.
  - intros q. rewrite threaded_dom. apply Hwf.
  - apply Hwf.
  - intros q ? (Q & HQ & ->)%threaded_inv. destruct (with_thread_same (bool_decide (q = p)) Q) as (-> & _).
    by apply (pw_pid _ Hwf q).
  - intros q1 q2 ? ? (Q1 & HQ1 & ->)%threaded_inv (Q2 & HQ2 & ->)%threaded_inv.
    destruct (with_thread_same (bool_decide (q1 = p)) Q1) as (-> & _).
    destruct (with_thread_same (bool_decide (q2 = p)) Q2) as (-> & _).
    by apply (pw_uniq _ Hwf q1 q2 Q1 Q2).
  - intros q ? (Q & HQ & ->)%threaded_inv.
    destruct (with_thread_same (bool_decide (q = p)) Q) as (_ & _ & _ & -> & _).
    by apply (pw_files _ Hwf q).
Qed.

Lemma threaded_tree : tree_wf s'.
Proof.
  split.
  - intros q ? (Q & HQ & ->)%threaded_inv.
    destruct (with_thread_same (bool_decide (q = p)) Q) as (_ & _ & _ & _ & _ & ->).
    by apply (pw_nodup_children _ Hwf q).
  - intros q ? c (Q & HQ & ->)%threaded_inv.
    destruct (with_thread_same (bool_decide (q = p)) Q) as (_ & _ & _ & _ & _ & ->).
    rewrite (pw_children _ Hwf _ _ c HQ). split.
    + intros (C & HC & Hpp). eexists. split; [apply threaded_inv; eauto|].
      by destruct (with_thread_same (bool_decide (c = p)) C) as (_ & -> & _).
    + intros (? & (C & HC & ->)%threaded_inv & Hpp). exists C. split; [done|].
      by destruct (with_thread_same (bool_decide (c = p)) C) as (_ & <- & _).
  - intros c ? q (C & HC & ->)%threaded_inv. rewrite threaded_dom.
    destruct (with_thread_same (bool_decide (c = p)) C) as (_ & -> & _).
    by apply (pw_parent _ Hwf).
  - intros q ? (Q & HQ & ->)%threaded_inv.
    destruct (with_thread_same (bool_decide (q = p)) Q) as (_ & _ & -> & _ & _ & ->).
    by apply (pw_dead _ Hwf q).
  - intros q ? (Q & HQ & ->)%threaded_inv.
    destruct (with_thread_same (bool_decide (q = p)) Q) as (_ & _ & -> & _ & -> & _).
    by apply (pw_stale _ Hwf q).
Qed.

Lemma threaded_kt : kt_wf s'.
Proof.
  assert (∀ q Q, procs s !! q = Some Q → t ∉ p_threads Q) as Hfresh.
  { intros q Q HQ Hin. destruct (pw_threads _ Hwf _ _ _ HQ Hin) as (? & ? & ? & _). congruence. }
  split.
  - intros q Hq%threaded_dom. by apply (pw_wait _ Hwf).
  - intros q ? (Q & HQ & ->)%threaded_inv. pose proof (pw_nodup_threads _ Hwf _ _ HQ).
    case_bool_decide; [|done]. apply NoDup_app. split; [done|].
    split; [|apply NoDup_singleton]. intros t1 Ht1 ->%list_elem_of_singleton.
    by apply (Hfresh q Q).
  - intros q ? t1 (Q & HQ & ->)%threaded_inv Ht1. simpl.
    destruct (decide (t1 = t)) as [->|Hne].
    + rewrite !lookup_insert_eq. case_bool_decide; [subst; by eexists _, _|].
      by destruct (Hfresh q Q).
    + rewrite !lookup_insert_ne by done. apply (pw_threads _ Hwf q Q); [done|].
      case_bool_decide; [|done]. simpl in Ht1. set_solver.
Qed.

Lemma threaded_wf : boot_wf s'.
Proof. split; [apply threaded_table|apply threaded_tree|apply threaded_kt]. Qed.
End threaded.

(** ** Cloning *)

(** The clone of a thread: in no queue and of no process yet. *)
Definition cloned (th : kthread) : kthread :=
  Kthread KT_RUN (kt_wchan th) false (kt_cancelled th) (kt_retval th) (kt_errno th) None.

(** [kthread_clone], given what the calls it makes return. *)
Lemma kthread_clone_exec s t th p P t' st x e1 e2 :
  threads (sch s) !! t = Some th → kt_state th = KT_RUN → kthread_slab s = Some t' →
  page_alloc_n stack_pages (ext s) = Ret st e1 → kt_proc th = Some p → procs s !! p = Some P →
  context_setup None 0 0 st DEFAULT_STACK_SIZE (p_pagedir P) e1 = Ret x e2 →
  kthread_clone t s = Ret t'
    (Kernel (Sched (<[t' := cloned th]> (threads (sch s))) (queues (sch s)) (curthr (sch s))
                   (curproc (sch s)) (ipl (sch s)))
            (procs s) (proc_list s) (next_pid s) (proc_initproc s)
            (<[t' := KtMem st (Some x) false]> (kt_mems s)) e2).
Proof.
  intros Ht Hst Hslab Hal Hp HP' Hcs. destruct (kthread_slab_fresh s t' Hslab) as [Ht' _].
  assert (t' ≠ t) as Hne by congruence. unfold kthread_clone.
  erewrite bind_Ret by (apply on_sch_run; unfold thr_get; by rewrite Ht).
  rewrite (bind_Ret _ _ _ tt (with_sch (sch s) s)) by (apply kassert_true, bool_decide_eq_true_2; congruence).
  erewrite bind_Ret by (destruct s; simpl; unfold with_sch; simpl; by rewrite Hslab). kstep.
  erewrite bind_Ret by (unfold alloc_stack; apply on_ext_run; exact Hal).
  rewrite Hp. kstep. erewrite bind_Ret by (unfold proc_get; simpl; by rewrite HP').
  erewrite bind_Ret by (apply on_ext_run; exact Hcs). kstep. simpl.
  erewrite bind_Ret.
  2: { unfold copy_thread_values. erewrite bind_Ret.
       2: { apply on_sch_run. unfold thr_get. simpl. by rewrite lookup_insert_ne, Ht by done. }
       unfold on_sch, zoom, thr_upd, modify, bind. simpl. reflexivity. }
  do 2 kstep. simpl. rewrite !alter_insert_eq. simpl.
  erewrite bind_Ret by (apply on_sch_run; unfold thr_get; simpl; by rewrite lookup_insert_eq).
  rewrite Hst. done.
Qed.

(** Only a thread marked [KT_RUN] can be cloned. *)
Lemma kthread_clone_panics s t th :
  threads (sch s) !! t = Some th → kt_state th ≠ KT_RUN → kthread_clone t s = Panic.
Proof.
  intros Ht Hst. unfold kthread_clone.
  erewrite bind_Ret by (apply on_sch_run; unfold thr_get; by rewrite Ht).
  unfold bind at 1, kassert. rewrite bool_decide_eq_false_2 by congruence. done.
Qed.

End threads.

(** ** Creating *)

Section make.
Context `{HE : ErrnoH, HI : IntrH, HP : PageH, HL : LimitsH, HH : ProcH}.
Context {E X : Type} `{HV : !ProcView E, HO : !ProcOps E X, HW : !ProcLaws E X}.
Local Abbreviation K := (kernel E X).
Implicit Types (p c : procp) (t : tid) (s : K).

Lemma kthread_create_run s p P t func arg1 arg2 :
  procs s !! p = Some P → kthread_slab s = Some t →
  ∃ st x e, kthread_create (Some p) func arg1 arg2 s =
      Ret t (threaded s p P t (KtMem st (Some x) true) e) ∧
    same_files (ext s) e ∧ same_maps (ext s) e ∧ same_pds (ext s) e ∧
    match st with
    | Some a => a ∉ stacks_live (ext s) ∧ stacks_live e = {[a]} ∪ stacks_live (ext s)
    | None => same_stacks (ext s) e
    end.
Proof.
  intros HP' Hslab. unfold kthread_create. kstep.
  erewrite bind_Ret by (by rewrite Hslab). kstep.
  destruct (page_alloc_n_ok stack_pages (ext s)) as (st & e1 & Hal & Hf1 & Hm1 & Hp1 & Hs1).
  erewrite bind_Ret by (unfold alloc_stack; apply on_ext_run; exact Hal).
  erewrite bind_Ret by (unfold proc_get; simpl; by rewrite HP').
  destruct (context_setup_ok (Some func) arg1 arg2 st DEFAULT_STACK_SIZE (p_pagedir P) e1)
    as (x & e2 & Hcs & Hf2 & Hm2 & Hp2 & Hs2).
  erewrite bind_Ret by (apply on_ext_run; exact Hcs).
  exists st, x, e2. split.
  - unfold proc_upd, kt_mems_set, thr_upd, on_sch, zoom, modify, ret, bind. simpl.
    unfold threaded, new_thread. destruct (p_pid P =? PID_IDLE); simpl;
      by rewrite (alter_lookup_insert _ _ _ _ HP'), !alter_insert_eq.
  - unfold same_files, same_maps, same_pds, same_stacks in *.
    do 3 (split; [congruence|]). destruct st; rewrite Hs2; done.
Qed.

(** [kthread_create] makes a thread of the process: it is the last in the
    process's list of threads, in no queue, not cancelled, with a kernel stack of its
    own unless memory is short; table, tree and queues stay consistent and nothing else
    changes. Only a thread of the idle process starts as [KT_RUN]; any other has no
    state, and [kthread_clone] stops the kernel on it. *)
Theorem kthread_create_adds s p P t func arg1 arg2 :
  proc_wf s → sched_wf (sch s) → procs s !! p = Some P → kthread_slab s = Some t →
  ∃ st x s', kthread_create (Some p) func arg1 arg2 s = Ret t s' ∧
    s' = threaded s p P t (KtMem st (Some x) true) (ext s') ∧
    proc_wf s' ∧ sched_wf (sch s') ∧
    same_files (ext s) (ext s') ∧ same_maps (ext s) (ext s') ∧ same_pds (ext s) (ext s') ∧
    match st with
    | Some a => a ∉ stacks_live (ext s) ∧ stacks_live (ext s') = {[a]} ∪ stacks_live (ext s)
    | None => same_stacks (ext s) (ext s')
    end ∧
    (p_pid P ≠ PID_IDLE → kthread_clone t s' = Panic).
Proof.
  intros Hwf Hsw HP' Hslab.
  destruct (kthread_create_run s p P t func arg1 arg2 HP' Hslab) as (st & x & e & Hrun & Hf & Hm & Hp & Hs).
  eexists st, x, _. split; [exact Hrun|]. split; [done|].
  split; [split; [apply threaded_wf; [apply Hwf|done|by apply kthread_slab_fresh|done]|apply (pw_runq _ Hwf)]|]. split.
  { apply sched_wf_new_thread; try done; [by destruct (kthread_slab_fresh s t Hslab)|].
    simpl. by destruct (_ =? _). }
  do 3 (split; [done|]). split; [by destruct st|].
  intros Hid. eapply kthread_clone_panics; [apply lookup_insert_eq|].
  simpl. by rewrite (proj2 (Z.eqb_neq _ _) Hid).
Qed.
End make.
