(* ===== verification/ProcLinks.v ===== *)
(** * Changes that keep the process table, tree and threads in order

    Updates of fields of a process that are no links, new states of threads and new
    entries of queues: the invariant of processes does not depend on them. *)
From S2P Require Import Prelude Headers Sched SchedProps Proc ProcProps.
Local Open Scope kernel_scope.

Section links.
Context `{HE : ErrnoH, HI : IntrH, HP : PageH, HL : LimitsH, HH : ProcH}.
Context {E X : Type} `{HO : !ProcOps E X}.
Local Abbreviation K := (kernel E X).
Implicit Types (p q : procp) (t : tid) (s : K).

Definition same_links (P P' : proc) : Prop :=
  p_pid P' = p_pid P ∧ p_pproc P' = p_pproc P ∧ p_state P' = p_state P ∧
  p_children P' = p_children P ∧ p_threads P' = p_threads P ∧
  length (p_files P') = length (p_files P).

Record relinked s s' : Prop := {
  rl_list : proc_list s' = proc_list s;
  rl_next : next_pid s' = next_pid s;
  rl_mems : kt_mems s' = kt_mems s;
  rl_queues q : is_Some (queues (sch s) !! q) → is_Some (queues (sch s') !! q);
  rl_threads t th : threads (sch s) !! t = Some th →
    ∃ th', threads (sch s') !! t = Some th' ∧ kt_proc th' = kt_proc th;
  rl_procs q : option_Forall2 same_links (procs s !! q) (procs s' !! q)
}.

Lemma relinked_fwd s s' q Q : relinked s s' → procs s !! q = Some Q →
  ∃ Q', procs s' !! q = Some Q' ∧ same_links Q Q'.
Proof. intros Hr HQ. pose proof (rl_procs _ _ Hr q) as Ho. rewrite HQ in Ho. inversion Ho; eauto. Qed.
Lemma relinked_back s s' q Q' : relinked s s' → procs s' !! q = Some Q' →
  ∃ Q, procs s !! q = Some Q ∧ same_links Q Q'.
Proof. intros Hr HQ. pose proof (rl_procs _ _ Hr q) as Ho. rewrite HQ in Ho. inversion Ho; eauto. Qed.

Lemma same_child_list P P' : same_links P P' → child_list P' = child_list P.
Proof. intros (_ & _ & _ & Hc & _). unfold child_list. by rewrite Hc. Qed.

Lemma relinked_dom s s' q : relinked s s' → is_Some (procs s' !! q) ↔ is_Some (procs s !! q).
Proof.
  intros Hr. split; intros [Q HQ].
  - destruct (relinked_back _ _ _ _ Hr HQ) as (? & ? & _). by eexists.
  - destruct (relinked_fwd _ _ _ _ Hr HQ) as (? & ? & _). by eexists.
Qed.

Lemma relinked_table s s' : relinked s s' → table_wf s → table_wf s'.
Proof.
  intros Hr Hwf. destruct Hwf as [Hnd Hdom Hnx Hpid Huq Hfl]. split; rewrite ?(rl_list _ _ Hr), ?(rl_next _ _ Hr).
  - done.
  - intros p. by rewrite Hdom, (relinked_dom _ _ _ Hr).
  - done.
  - intros p ? (P & HP' & -> & _)%(relinked_back _ _ _ _ Hr). by eapply Hpid.
  - intros p q ? ? (P & HP' & -> & _)%(relinked_back _ _ _ _ Hr) (Q & HQ & -> & _)%(relinked_back _ _ _ _ Hr).
    by eapply Huq.
  - intros p ? (P & HP' & _ & _ & _ & _ & _ & ->)%(relinked_back _ _ _ _ Hr). by eapply Hfl.
Qed.

Lemma relinked_tree s s' : relinked s s' → tree_wf s → tree_wf s'.
Proof.
  intros Hr [Hnd Hch Hpar Hdead Hst]. split.
  - intros p ? (P & HP' & Hs)%(relinked_back _ _ _ _ Hr). rewrite (same_child_list _ _ Hs). by eapply Hnd.
  - intros p ? c (P & HP' & Hs)%(relinked_back _ _ _ _ Hr). rewrite (same_child_list _ _ Hs), (Hch _ _ _ HP').
    split; [intros (C & HC & Hp)|intros (C' & HC' & Hp)].
    + destruct (relinked_fwd _ _ _ _ Hr HC) as (C' & ? & _ & Hpp & _). exists C'. split; congruence.
    + destruct (relinked_back _ _ _ _ Hr HC') as (C & ? & _ & Hpp & _). exists C. split; congruence.
  - intros c ? p (C & HC & _ & -> & _)%(relinked_back _ _ _ _ Hr) Hp. rewrite (relinked_dom _ _ _ Hr).
    by eapply Hpar.
  - intros p ? (P & HP' & Hs)%(relinked_back _ _ _ _ Hr). rewrite (same_child_list _ _ Hs).
    destruct Hs as (_ & _ & -> & _). by eapply Hdead.
  - intros p ? (P & HP' & _ & _ & -> & -> & _)%(relinked_back _ _ _ _ Hr). by eapply Hst.
Qed.

Lemma relinked_wf s s' : relinked s s' → proc_wf s → proc_wf s'.
Proof.
  intros Hr [[Hta Htr [Hw Hnd Hth]] Hq]. split; [split|by apply (rl_queues _ _ Hr)].
  - by eapply relinked_table.
  - by eapply relinked_tree.
  - split.
    + intros p. rewrite (relinked_dom _ _ _ Hr). intros Hp. by apply (rl_queues _ _ Hr), Hw.
    + intros p ? (P & HP' & _ & _ & _ & _ & -> & _)%(relinked_back _ _ _ _ Hr). by eapply Hnd.
    + intros p ? t (P & HP' & _ & _ & _ & _ & -> & _)%(relinked_back _ _ _ _ Hr) Ht.
      destruct (Hth p P t HP' Ht) as (th & m & Htt & Hkp & Hm). rewrite (rl_mems _ _ Hr).
      destruct (rl_threads _ _ Hr _ _ Htt) as (th' & ? & ?). exists th', m. split; [done|]. split; [congruence|done].
Qed.

Lemma same_links_refl P : same_links P P.
Proof. by repeat split. Qed.

Lemma relinked_procs s p f e :
  (∀ P, procs s !! p = Some P → same_links P (f P)) →
  relinked s (with_ext e (with_procs (alter f p (procs s)) s)).
Proof.
  intros Hf. split; simpl; try done; [by eauto|]. intros q. rewrite lookup_alter. case_decide as Heq.
  - subst q. destruct (procs s !! p) as [P|] eqn:HP'; constructor. by apply Hf.
  - destruct (procs s !! q); constructor. apply same_links_refl.
Qed.

Lemma relinked_enqueue s t th Q :
  threads (sch s) !! t = Some th → queues (sch s) !! kt_runq = Some Q →
  relinked s (with_sch (enqueued kt_runq t th Q (sch s)) s).
Proof.
  intros Ht HQ. split; simpl; try done.
  - intros q Hq. destruct (decide (kt_runq = q)) as [<-|Hne]; [rewrite lookup_insert_eq; eauto|by rewrite lookup_insert_ne].
  - intros t1 th1 Ht1. destruct (decide (t = t1)) as [<-|Hne].
    + rewrite lookup_insert_eq. eexists. split; [done|]. by simplify_eq.
    + rewrite lookup_insert_ne by done. eauto.
  - intros q. destruct (procs s !! q); constructor. apply same_links_refl.
Qed.

Lemma relinked_trans s1 s2 s3 : relinked s1 s2 → relinked s2 s3 → relinked s1 s3.
Proof.
  intros [L1 N1 M1 Q1 T1 P1] [L2 N2 M2 Q2 T2 P2]. split; [congruence..| | |].
  - auto.
  - intros t th (th' & Ht' & Hk)%T1. destruct (T2 _ _ Ht') as (th'' & ? & ?). exists th''. split; congruence.
  - intros q. specialize (P1 q). specialize (P2 q). inversion P1 as [P P' HPP He1 He2|He1 He2]; rewrite <- He2 in P2;
      inversion P2 as [? P'' HPP2|]; constructor.
    destruct HPP as (?&?&?&?&?&?), HPP2 as (?&?&?&?&?&?). repeat split; congruence.
Qed.
End links.
