(* ===== verification/ProcInfo.v ===== *)
(** * Processes as text: proc_info and proc_list_info

    The debugging routines of proc/proc.c that print a process and the table of
    processes.  They print with [iprintf], which moves the pointer to the buffer and
    the size that is left; it is the interface [IprintfOps]. *)
From Stdlib Require Import String.
From S2P Require Import Prelude Headers Text Sched Proc ProcProps VmmapInfo.
Local Open Scope kernel_scope.

(** The caller's buffer, the offset of the pointer in it and the size left. *)
Record out := Out { o_buf : list Z; o_pos : Z; o_size : Z }.

(** The values of [p_state], and [iprintf(&buf, &size, ...)] where the format makes the
    text it is given. *)
Class IprintfOps := {
  pstate_num : pstate → Z;
  iprintf : list Z → M out unit
}.

(** What is left after a text that was printed from [w] on and fits. *)
Definition printed_out (text : list Z) (w : out) : out :=
  Out (take (Z.to_nat (o_pos w)) (o_buf w) ++ text ++ [0] ++
       drop (Z.to_nat (o_pos w) + length text + 1) (o_buf w))
      (o_pos w + Z.of_nat (length text)) (o_size w - Z.of_nat (length text)).
Definition has_room (text : list Z) (w : out) : Prop :=
  0 <= o_pos w ∧ o_pos w + o_size w = Z.of_nat (length (o_buf w)) ∧
  Z.of_nat (length text) < o_size w.

(** [iprintf] prints like [snprintf] and goes on behind the text. *)
Class IprintfLaws `{IprintfOps} := {
  iprintf_fits text w : has_room text w → iprintf text w = Ret tt (printed_out text w)
}.

Section info.
Context `{HE : ErrnoH, HI : IntrH, HP : PageH, HL : LimitsH, HH : ProcH, HT : PointerText, HIP : IprintfOps}.
Context {E X : Type} `{HO : !ProcOps E X}.
Local Abbreviation K := (kernel E X).
Implicit Types (p c : procp).

Definition on_kernel {A} (m : M K A) : M (K * out) A := zoom fst (λ k s, (k, s.2)) m.
Definition on_out {A} (m : M out A) : M (K * out) A := zoom snd (λ w s, (s.1, w)) m.
Definition print (text : list Z) : M (K * out) unit := on_out (iprintf text).

(** ** proc_info *)

Definition pid_name (P : proc) : list Z := dec (p_pid P) ++ bytes_of " (" ++ cstr (p_comm P) ++ bytes_of ")".

Fixpoint print_children (l : list procp) : M (K * out) unit :=
  match l with
  | [] => ret tt
  | c :: l =>
      C <- on_kernel (proc_get c) ;;
      print (bytes_of "     " ++ pid_name C ++ [10]) ;;;
      print_children l
  end.

(** [buf] is not null; the state has the buffer and [osize]. *)
Definition proc_info p : M (K * out) Z :=
  P <- on_kernel (proc_get p) ;;
  print (bytes_of "pid:          " ++ dec (p_pid P) ++ [10]) ;;;
  print (bytes_of "name:         " ++ cstr (p_comm P) ++ [10]) ;;;
  match p_pproc P with
  | Some q => Q <- on_kernel (proc_get q) ;; print (bytes_of "parent:       " ++ pid_name Q ++ [10])
  | None => print (bytes_of "parent:       -" ++ [10])
  end ;;;
  l <- on_kernel (children_get p) ;;
  (if bool_decide (l = []) then print (bytes_of "children:     -" ++ [10])
   else print (bytes_of "children:" ++ [10])) ;;;
  print_children l ;;;
  print (bytes_of "status:       " ++ dec (p_status P) ++ [10]) ;;;
  print (bytes_of "state:        " ++ dec (pstate_num (p_state P)) ++ [10]) ;;;
  print (bytes_of "start brk:    0x" ++ fmt_p (p_start_brk P) ++ [10]) ;;;
  print (bytes_of "brk:          0x" ++ fmt_p (p_brk P) ++ [10]) ;;;
  get (λ s, o_size s.2).

(** ** proc_list_info *)

(** [char parent[64]] after [snprintf]: what fits of the text. *)
Definition parent_text (text : list Z) : list Z := take 63 text.

Fixpoint print_procs (l : list procp) : M (K * out) unit :=
  match l with
  | [] => ret tt
  | p :: l =>
      P <- on_kernel (proc_get p) ;;
      parent <- match p_pproc P with
                | Some q =>
                    Q <- on_kernel (proc_get q) ;;
                    ret (parent_text (pad_left 3 (dec (p_pid Q)) ++ bytes_of " (" ++ cstr (p_comm Q) ++ bytes_of ")"))
                | None => ret (parent_text (bytes_of "  -"))
                end ;;
      print (bytes_of " " ++ pad_left 3 (dec (p_pid P)) ++ bytes_of "  " ++ pad_right 13 (cstr (p_comm P)) ++
             bytes_of " " ++ parent ++ [10]) ;;;
      print_procs l
  end.

(** [arg] tells whether the argument is not null, which is not allowed. *)
Definition proc_list_info (arg : bool) : M (K * out) Z :=
  kassert (negb arg) ;;;
  print (pad_left 5 (bytes_of "PID") ++ bytes_of " " ++ pad_right 13 (bytes_of "NAME") ++ bytes_of " " ++
         bytes_of "PARENT" ++ [10]) ;;;
  l <- on_kernel (get proc_list) ;;
  print_procs l ;;;
  get (λ s, o_size s.2).
End info.

(** ** Printing texts one after the other *)

Lemma has_room_app t1 t2 w :
  has_room (t1 ++ t2) w → has_room t1 w ∧ has_room t2 (printed_out t1 w).
Proof.
  unfold has_room. rewrite length_app. intros (? & ? & ?). split; [lia|]. simpl.
  rewrite !length_app, length_take, length_cons, length_drop. lia.
Qed.

Lemma printed_out_app t1 t2 w :
  has_room (t1 ++ t2) w → printed_out t2 (printed_out t1 w) = printed_out (t1 ++ t2) w.
Proof.
  destruct w as [b pos size]. intros (Hpos & Hsz & Hlen). simpl in *. rewrite length_app in Hlen.
  assert (∃ pre post, b = pre ++ post ∧ pos = Z.of_nat (length pre)) as (pre & post & -> & ->).
  { exists (take (Z.to_nat pos) b), (drop (Z.to_nat pos) b). rewrite take_drop, length_take. split; [done|lia]. }
  unfold printed_out. simpl. rewrite <- Nat2Z.inj_add, !Nat2Z.id, !length_app. f_equal; [|lia|lia].
  rewrite <- !Nat.add_assoc, !take_app_length, !drop_app_add, take_app_add, take_app_length.
  rewrite <- !(assoc_L (++)). do 4 f_equal. rewrite Nat.add_comm. simpl. rewrite drop_drop. f_equal. lia.
Qed.

Section props.
Context `{HE : ErrnoH, HI : IntrH, HP : PageH, HL : LimitsH, HH : ProcH, HT : PointerText, HIL : IprintfLaws}.
Context {E X : Type} `{HV : !ProcView E, HO : !ProcOps E X, HW : !ProcLaws E X}.
Local Abbreviation K := (kernel E X).
Implicit Types (p c : procp) (k : K).

(** [m] prints the texts [ts] and returns [a], if there is room for them. *)
Definition prints {A} (m : M (K * out) A) k (ts : list (list Z)) (a : A) : Prop :=
  ∀ w, has_room (concat ts) w → m (k, w) = Ret a (k, foldl (flip printed_out) w ts).

Lemma printed_outs t ts w :
  has_room (concat (t :: ts)) w →
  foldl (flip printed_out) (printed_out t w) ts = printed_out (concat (t :: ts)) w.
Proof.
  revert t. induction ts as [|t' ts IH]; intros t Hr; simpl.
  - by rewrite app_nil_r.
  - simpl in Hr. rewrite (assoc_L (++)) in Hr. rewrite printed_out_app, IH; simpl.
    + by rewrite <- (assoc_L (++)).
    + done.
    + by apply has_room_app in Hr as [? _].
Qed.

Lemma has_room_outs ts us w :
  has_room (concat (ts ++ us)) w → has_room (concat us) (foldl (flip printed_out) w ts).
Proof.
  revert w. induction ts as [|t ts IH]; intros w Hr; [done|]. simpl in *. apply IH.
  by apply has_room_app in Hr as [_ ?].
Qed.

Lemma prints_ret {A} k (a : A) : prints (ret a) k [] a.
Proof. by intros w _. Qed.
Lemma prints_bind {A B} (m : M (K * out) A) (f : A → M (K * out) B) k ts us a b :
  prints m k ts a → prints (f a) k us b → prints (bind m f) k (ts ++ us) b.
Proof.
  intros Hm Hf w Hr. erewrite bind_Ret.
  2: { apply Hm. rewrite concat_app in Hr. by apply has_room_app in Hr as [? _]. }
  rewrite foldl_app. apply Hf. by apply has_room_outs.
Qed.
Lemma prints_print k t : prints (print t) k [t] tt.
Proof.
  intros w Hr. simpl in Hr. rewrite app_nil_r in Hr. unfold print, on_out, zoom. simpl.
  by rewrite iprintf_fits.
Qed.
Lemma prints_kernel {A} (m : M K A) k a : m k = Ret a k → prints (on_kernel m) k [] a.
Proof. intros Hm w _. unfold on_kernel, zoom. simpl. by rewrite Hm. Qed.
Lemma prints_get p P k : procs k !! p = Some P → prints (on_kernel (proc_get p)) k [] P.
Proof. intros Hp. apply prints_kernel. unfold proc_get. by rewrite Hp. Qed.

(** [m] prints the texts [ts] and returns the room that is left. *)
Definition reports (m : M (K * out) Z) k (ts : list (list Z)) : Prop :=
  ∀ w, has_room (concat ts) w → let w' := foldl (flip printed_out) w ts in
  m (k, w) = Ret (o_size w') (k, w').

Lemma reports_size k : reports (get (λ s, o_size s.2)) k [].
Proof. by intros w _. Qed.
Lemma reports_bind {A} (m : M (K * out) A) (f : A → M (K * out) Z) k ts us a :
  prints m k ts a → reports (f a) k us → reports (bind m f) k (ts ++ us).
Proof.
  intros Hm Hf w Hr w'. erewrite bind_Ret.
  2: { apply Hm. rewrite concat_app in Hr. by apply has_room_app in Hr as [? _]. }
  unfold w'. rewrite foldl_app. apply Hf. by apply has_room_outs.
Qed.
Lemma reports_print (f : unit → M (K * out) Z) k t us :
  reports (f tt) k us → reports (bind (print t) f) k (t :: us).
Proof. apply (reports_bind _ _ _ [t]), prints_print. Qed.
Lemma reports_get (f : proc → M (K * out) Z) k p P us :
  procs k !! p = Some P → reports (f P) k us → reports (bind (on_kernel (proc_get p)) f) k us.
Proof. intros Hp. by apply (reports_bind _ _ _ []), prints_get. Qed.

(** What it means for a buffer whose size the caller gives. *)
Lemma reports_fills m k t ts b :
  reports m k (t :: ts) → let text := concat (t :: ts) in (length text < length b)%nat →
  m (k, Out b 0 (Z.of_nat (length b))) =
  Ret (Z.of_nat (length b) - Z.of_nat (length text)) (k, Out (text ++ [0] ++ drop (length text + 1) b)
    (Z.of_nat (length text)) (Z.of_nat (length b) - Z.of_nat (length text))).
Proof.
  intros Hm text Hl. assert (has_room text (Out b 0 (Z.of_nat (length b)))) as Hr
    by (repeat split; simpl in *; lia).
  rewrite (Hm _ Hr). change (foldl _ _ (t :: ts)) with
    (foldl (flip printed_out) (printed_out t (Out b 0 (Z.of_nat (length b)))) ts).
  by rewrite (printed_outs _ _ _ Hr).
Qed.

(** ** The reports *)

(** The line of a process in the table, and its parts in the report on one process. *)
Definition list_parent k (P : proc) : list Z :=
  match p_pproc P ≫= (procs k !!.) with
  | Some Q => pad_left 3 (dec (p_pid Q)) ++ bytes_of " (" ++ cstr (p_comm Q) ++ bytes_of ")"
  | None => bytes_of "  -"
  end.
Definition list_line k (P : proc) : list Z :=
  bytes_of " " ++ pad_left 3 (dec (p_pid P)) ++ bytes_of "  " ++ pad_right 13 (cstr (p_comm P)) ++
  bytes_of " " ++ take 63 (list_parent k P) ++ [10].
Definition procs_of k (l : list procp) : list proc := omap (procs k !!.) l.
Definition list_header : list Z := bytes_of "  PID NAME          PARENT" ++ [10].

Definition info_parent k (P : proc) : list Z :=
  match p_pproc P ≫= (procs k !!.) with
  | Some Q => bytes_of "parent:       " ++ pid_name Q ++ [10]
  | None => bytes_of "parent:       -" ++ [10]
  end.
Definition info_children k (P : proc) : list (list Z) :=
  (if bool_decide (child_list P = []) then bytes_of "children:     -" ++ [10]
   else bytes_of "children:" ++ [10]) ::
  ((λ C, bytes_of "     " ++ pid_name C ++ [10]) <$> procs_of k (child_list P)).
Definition info_report k (P : proc) : list (list Z) :=
  [bytes_of "pid:          " ++ dec (p_pid P) ++ [10]; bytes_of "name:         " ++ cstr (p_comm P) ++ [10];
   info_parent k P] ++ info_children k P ++
  [bytes_of "status:       " ++ dec (p_status P) ++ [10];
   bytes_of "state:        " ++ dec (pstate_num (p_state P)) ++ [10];
   bytes_of "start brk:    0x" ++ fmt_p (p_start_brk P) ++ [10];
   bytes_of "brk:          0x" ++ fmt_p (p_brk P) ++ [10]].

Lemma print_children_prints k l :
  (∀ c, c ∈ l → is_Some (procs k !! c)) →
  prints (print_children l) k ((λ C, bytes_of "     " ++ pid_name C ++ [10]) <$> procs_of k l) tt.
Proof.
  induction l as [|c l IH]; intros Hl; [apply prints_ret|]. destruct (Hl c) as [C HC]; [set_solver|].
  unfold procs_of. simpl. rewrite HC. apply (prints_bind _ _ _ [] _ C); [by apply prints_get|].
  eapply (prints_bind _ _ _ [_]); [apply prints_print|]. apply IH. set_solver.
Qed.

Lemma print_procs_prints k l :
  boot_wf k → (∀ p, p ∈ l → is_Some (procs k !! p)) →
  prints (print_procs l) k (list_line k <$> procs_of k l) tt.
Proof.
  intros Hwf. induction l as [|p l IH]; intros Hl; [apply prints_ret|].
  destruct (Hl p) as [P HP']; [set_solver|].
  unfold procs_of. simpl. rewrite HP'. apply (prints_bind _ _ _ [] _ P); [by apply prints_get|].
  eapply (prints_bind _ _ _ [] _ (take 63 (list_parent k P))).
  - unfold list_parent, parent_text. destruct (p_pproc P) as [q|] eqn:Hq; simpl; [|apply prints_ret].
    destruct (pw_parent _ Hwf _ _ _ HP' Hq) as [_ [Q HQ]]. rewrite HQ.
    apply (prints_bind _ _ _ [] [] Q); [by apply prints_get|apply prints_ret].
  - eapply (prints_bind _ _ _ [_]); [apply prints_print|]. apply IH. set_solver.
Qed.

(** [proc_list_info] prints a header and then one line for every process of the
    table, in the order of the table, with the parent cut to 63 characters; it returns
    the room that is left. *)
Theorem proc_list_info_prints k b :
  boot_wf k →
  let text := concat (list_header :: (list_line k <$> procs_of k (proc_list k))) in
  (length text < length b)%nat →
  proc_list_info false (k, Out b 0 (Z.of_nat (length b))) =
  Ret (Z.of_nat (length b) - Z.of_nat (length text)) (k, Out (text ++ [0] ++ drop (length text + 1) b)
    (Z.of_nat (length text)) (Z.of_nat (length b) - Z.of_nat (length text))).
Proof.
  intros Hwf text Hl. apply reports_fills; [|done]. apply reports_print.
  rewrite <- (app_nil_r (_ <$> _)). apply (reports_bind _ _ _ [] _ (proc_list k)); [by apply prints_kernel|].
  eapply reports_bind; [|apply reports_size]. apply print_procs_prints; [done|].
  intros p. apply (pw_dom _ Hwf).
Qed.

(** [proc_info] prints the report on a process that is not a zombie. *)
Lemma proc_info_prints k p P b :
  boot_wf k → procs k !! p = Some P → p_state P = PROC_RUNNING →
  let text := concat (info_report k P) in
  (length text < length b)%nat →
  proc_info p (k, Out b 0 (Z.of_nat (length b))) =
  Ret (Z.of_nat (length b) - Z.of_nat (length text)) (k, Out (text ++ [0] ++ drop (length text + 1) b)
    (Z.of_nat (length text)) (Z.of_nat (length b) - Z.of_nat (length text))).
Proof.
  intros Hwf HP' Hst text Hl. apply reports_fills; [|done].
  assert (children_get p k = Ret (child_list P) k) as Hch.
  { unfold children_get, bind, proc_get. rewrite HP'. simpl. by rewrite (children_get_run k p P). }
  apply (reports_get _ _ _ P); [done|]. do 2 apply reports_print.
  eapply (reports_bind _ _ _ [_]).
  { unfold info_parent. destruct (p_pproc P) as [q|] eqn:Hq; simpl; [|apply prints_print].
    destruct (pw_parent _ Hwf _ _ _ HP' Hq) as [_ [Q HQ]]. rewrite HQ.
    apply (prints_bind _ _ _ [] [_] Q); [by apply prints_get|apply prints_print]. }
  apply (reports_bind _ _ _ [] _ (child_list P)); [by apply prints_kernel|].
  eapply (reports_bind _ _ _ [_]); [case_bool_decide; apply prints_print|].
  eapply (reports_bind _ _ _ (_ <$> _)).
  { apply print_children_prints. intros c Hc. apply (pw_children _ Hwf _ _ _ HP') in Hc as (C & HC & _). by eexists. }
  do 4 apply reports_print. apply reports_size.
Qed.
End props.
