(* ===== verification/ProcEx.v ===== *)
(** * The process theorems at work

    A small kernel: the idle process, init, a shell and its child, on an explicit
    model of files, address spaces, page directories and stacks. *)
From Stdlib Require Import Ascii.
From S2P Require Import Prelude Headers Sched SchedProps Proc ProcProps ProcExit ProcWait ProcThread.
Local Open Scope kernel_scope.

#[local] Existing Instance errno_ex.
#[local] Existing Instance intr_ex.
#[local] Existing Instance page_ex.
#[local] Existing Instance limits_ex.

(** ** The rest of the kernel *)

(** A file system: reference counts, directory entries, and the mode and device number
    of each vnode. *)
Record xfs := XFs {
  xr : gmap positive N;
  xe : gmap (positive * list ascii) positive;
  xn : gmap positive (Z * Z)
}.
Definition xrefs (t : xfs) (v : positive) : N := default 0%N (xr t !! v).
Definition xvref (v : positive) (t : xfs) : xfs := XFs (<[v := (xrefs t v + 1)%N]> (xr t)) (xe t) (xn t).

Record xk := Xk {
  xf : gmap positive Z;
  xm : gset positive;
  xp : gset positive;
  xs : gset positive;
  xv : xfs
}.

Definition proc_ex : ProcH.
Proof.
  refine {| PROC_NAME_LEN := 256; DEFAULT_STACK_SIZE := 56 * 1024; p_wait := xO;
            wait_turns := 2 |}; [by intros ?? [=]|done].
Defined.
#[local] Existing Instance proc_ex.

(** One object of each kind can be allocated. *)
Definition xalloc (x : gset positive) : option positive :=
  if decide (9%positive ∈ x) then None else Some 9%positive.
Definition xadd (o : option positive) (x : gset positive) : gset positive :=
  match o with Some a => {[a]} ∪ x | None => x end.

Definition procops_ex : ProcOps xk unit.
Proof.
  refine {|
    proc_slab s :=
      if decide (procs s !! 9%positive = None ∧ queues (sch s) !! 18%positive = None)
      then Some 9%positive else None;
    kthread_slab s :=
      if decide (threads (sch s) !! 9%positive = None ∧ kt_mems s !! 9%positive = None)
      then Some 9%positive else None;
    page_alloc_n n e := Ret (xalloc (xs e)) (Xk (xf e) (xm e) (xp e) (xadd (xalloc (xs e)) (xs e)) (xv e));
    page_free_n a n e := Ret tt (Xk (xf e) (xm e) (xp e) (xs e ∖ {[a]}) (xv e));
    context_setup _ _ _ _ _ _ e := Ret tt e;
    pt_create_pagedir e :=
      Ret (xalloc (xp e)) (Xk (xf e) (xm e) (xadd (xalloc (xp e)) (xp e)) (xs e) (xv e));
    pt_destroy_pagedir a e := Ret tt (Xk (xf e) (xm e) (xp e ∖ {[a]}) (xs e) (xv e));
    vfs_root_vn e := Some 1%positive;
    vref v e := Ret tt (Xk (xf e) (xm e) (xp e) (xs e) (xvref v (xv e)));
    vput v e := Ret tt e;
    fput f e := Ret tt (Xk (alter Z.pred f (xf e)) (xm e) (xp e) (xs e) (xv e));
    vmmap_create e :=
      Ret (xalloc (xm e)) (Xk (xf e) (xadd (xalloc (xm e)) (xm e)) (xp e) (xs e) (xv e));
    vmm_set_proc m p e := Ret tt e;
    vmmap_destroy m e :=
      Ret tt (Xk (xf e) (match m with Some m => xm e ∖ {[m]} | None => xm e end) (xp e) (xs e) (xv e))
  |}; intros s p; case_decide; naive_solver.
Defined.
#[local] Existing Instance procops_ex.

Definition procview_ex : ProcView xk :=
  {| f_refs e f := default 0 (xf e !! f); maps_live := xm; pds_live := xp; stacks_live := xs |}.
#[local] Existing Instance procview_ex.

Lemma xalloc_ok x :
  match xalloc x with
  | Some a => a ∉ x ∧ xadd (xalloc x) x = {[a]} ∪ x
  | None => xadd (xalloc x) x = x
  end.
Proof. unfold xalloc. by case_decide. Qed.

Ltac view := by repeat split.

#[local] Instance proclaws_ex : ProcLaws xk unit.
Proof.
  split.
  - intros n e. eexists _, _. split; [done|]. do 3 (split; [view|]). apply xalloc_ok.
  - intros a n e _. eexists. split; [done|]. view.
  - intros. exists tt, e. split; [done|]. view.
  - intros e. eexists _, _. split; [done|]. do 4 (split; [view|]). apply xalloc_ok.
  - intros a e _. eexists. split; [done|]. view.
  - intros v e. eexists. split; [done|]. view.
  - intros v e. eexists. split; [done|]. view.
  - intros f e Hpos. eexists. split; [done|]. split; [|view]. intros g. simpl in *.
    destruct (decide (g = f)) as [->|Hne]; [|rewrite lookup_alter_ne by done; lia].
    rewrite lookup_alter_eq. destruct (xf e !! f); simpl in *; lia.
  - intros e. eexists _, _. split; [done|]. do 3 (split; [view|]). apply xalloc_ok.
  - intros m p e _. eexists. split; [done|]. view.
  - intros m e _. eexists. split; [done|]. view.
Qed.

(** ** A kernel with four processes *)

(** A kernel with one process and one thread. *)
Lemma single_wf {E X} (x : sched) p P t th (m : kt_mem X) n ini (e : E) :
  -1 <= p_pid P < PROC_MAX_COUNT → 0 <= n < PROC_MAX_COUNT → length (p_files P) = NFILES →
  p_children P = Linked [] → p_pproc P = None → p_threads P = [t] →
  is_Some (queues x !! p_wait p) → threads x !! t = Some th → kt_proc th = Some p → kt_plink m = true →
  boot_wf (Kernel x {[p := P]} [p] n ini {[t := m]} e).
Proof.
  intros Hpid Hn Hf Hch Hpp Hths Hq Ht Hkp Hm. split; split; simpl; try done.
  - apply NoDup_singleton.
  - intros q. rewrite list_elem_of_singleton. split; [intros ->; rewrite lookup_singleton_eq; by eexists|].
    by intros [? [<- _]%lookup_singleton_Some].
  - by intros q Q [_ <-]%lookup_singleton_Some.
  - by intros q q' Q Q' [<- _]%lookup_singleton_Some [<- _]%lookup_singleton_Some.
  - by intros q Q [_ <-]%lookup_singleton_Some.
  - intros q Q [_ <-]%lookup_singleton_Some. unfold child_list. rewrite Hch. apply NoDup_nil_2.
  - intros q Q c [_ <-]%lookup_singleton_Some. unfold child_list. rewrite Hch.
    split; [by intros Hc%elem_of_nil|]. intros (C & [_ <-]%lookup_singleton_Some & ?). congruence.
  - intros c C q [_ <-]%lookup_singleton_Some. congruence.
  - intros q Q [_ <-]%lookup_singleton_Some _. unfold child_list. by rewrite Hch.
  - intros q Q [_ <-]%lookup_singleton_Some. congruence.
  - by intros q [Q [<- _]%lookup_singleton_Some].
  - intros q Q [_ <-]%lookup_singleton_Some. rewrite Hths. apply NoDup_singleton.
  - intros q Q t1 [<- <-]%lookup_singleton_Some. rewrite Hths. intros ->%list_elem_of_singleton.
    exists th, m. by rewrite lookup_singleton_eq.
Qed.

(** Process addresses 1 to 4 have the numbers 0 to 3 and the threads 1 to 4.  Idle
    waits for init, init for the shell; the shell (process 3) runs and has two open
    files; its child (process 4) is runnable, or dead with status 42. *)
Definition ex_thread (st : ktstate) (w : option qid) (p : procp) : kthread :=
  Kthread st w (bool_decide (w ≠ None)) 0 0 0 (Some p).

Definition ex_proc (pid : Z) t (ch : list procp) (pp : option procp) (st : pstate) (status : Z)
    (fs : list (option positive)) : proc :=
  Proc pid [] [t] (Linked ch) pp status st (Some t) (Some 1%positive) fs (Some t) 0 0.

Definition no_files : list (option positive) := replicate 32 None.
Definition sh_files : list (option positive) :=
  [Some 1%positive; Some 1%positive; Some 2%positive] ++ replicate 29 None.

Definition ex_procs (dead : bool) : gmap procp proc :=
  <[1%positive := ex_proc 0 1 [2%positive] None PROC_RUNNING 0 no_files]>
  (<[2%positive := ex_proc 1 2 [3%positive] (Some 1%positive) PROC_RUNNING 0 no_files]>
  (<[3%positive := ex_proc 2 3 [4%positive] (Some 2%positive) PROC_RUNNING 0 sh_files]>
  (<[4%positive := ex_proc 3 4 [] (Some 3%positive) (if dead then PROC_DEAD else PROC_RUNNING)
       (if dead then 42 else 0) no_files]> ∅))).

Definition ex_sch (dead : bool) : sched :=
  Sched
    (<[1%positive := ex_thread KT_SLEEP (Some 2%positive) 1]>
    (<[2%positive := ex_thread KT_SLEEP (Some 4%positive) 2]>
    (<[3%positive := ex_thread KT_RUN None 3]>
    (<[4%positive := if dead then ex_thread KT_EXITED None 4
                     else ex_thread KT_RUN (Some kt_runq) 4]> ∅))))
    (<[kt_runq := if dead then Ktqueue [] 0 else Ktqueue [4%positive] 1]>
    (<[2%positive := Ktqueue [1%positive] 1]>
    (<[4%positive := Ktqueue [2%positive] 1]>
    (<[6%positive := Ktqueue [] 0]> (<[8%positive := Ktqueue [] 0]> ∅)))))
    (Some 3%positive) (Some 3%positive) 0.

Definition ex_mems : gmap tid (kt_mem unit) :=
  let m t := KtMem (Some t) (Some tt) true in
  <[1%positive := m 1%positive]> (<[2%positive := m 2%positive]>
  (<[3%positive := m 3%positive]> (<[4%positive := m 4%positive]> ∅))).

Definition ex_live : gset positive := list_to_set [1; 2; 3; 4]%positive.

Definition ex_kernel (dead : bool) : kernel xk unit :=
  Kernel (ex_sch dead) (ex_procs dead) [1; 2; 3; 4]%positive 4 (Some 2%positive) ex_mems
    (Xk (<[1%positive := 2]> (<[2%positive := 5]> ∅))
        ex_live ex_live ex_live (XFs {[1%positive := 4%N]} ∅ {[1%positive := (2, 0)]})).

Lemma ex_sch_wf dead : sched_wf (ex_sch dead).
Proof. apply sched_wfb_wf. destruct dead; vm_compute; reflexivity. Qed.

(** Goes through the processes of the example. *)
Ltac each_proc :=
  repeat match goal with
  | H : <[_ := _]> _ !! _ = Some _ |- _ =>
      apply lookup_insert_Some in H as [[<- <-]|[_ H]]
  | H : ∅ !! _ = Some _ |- _ => by rewrite lookup_empty in H
  end.

(** Looks up the processes a list names. *)
Ltac named := repeat match goal with
  | H : _ ∈ _ :: _ |- _ => apply elem_of_cons in H as [-> | H]
  | H : _ ∈ [] |- _ => by apply not_elem_of_nil in H
  end.

Lemma ex_table dead : table_wf (ex_kernel dead).
Proof.
  split; simpl; unfold ex_procs.
  - apply (bool_decide_unpack _). vm_compute. done.
  - intros p. split.
    + intros Hp. named; by eexists.
    + intros [P HP]. each_proc; set_solver.
  - lia.
  - intros p P HP. each_proc; simpl; lia.
  - intros p q P Q HP HQ. each_proc; simpl; lia.
  - intros p P HP. each_proc; done.
Qed.

Lemma ex_tree dead : tree_wf (ex_kernel dead).
Proof.
  split; simpl; unfold ex_procs.
  - intros p P HP. each_proc; simpl; apply (bool_decide_unpack _); vm_compute; done.
  - intros p P c HP. split.
    + intros Hc. each_proc; unfold child_list in Hc; simpl in Hc; named; by eexists.
    + intros (C & HC & Hp). each_proc; simpl in Hp; simplify_eq; unfold child_list; simpl; set_solver.
  - intros c C p HC Hp. each_proc; simpl in Hp; simplify_eq; (split; [done|by eexists]).
  - intros p P HP. each_proc; simpl; done.
  - intros p P HP. each_proc; simpl; done.
Qed.

Lemma ex_kt dead : kt_wf (ex_kernel dead).
Proof.
  split; simpl; unfold ex_procs.
  - intros p [P HP]. each_proc; by eexists.
  - intros p P HP. each_proc; simpl; apply NoDup_singleton.
  - intros p P t HP Ht. each_proc; simpl in Ht; named;
      (eexists _, _; split; [reflexivity|]; split; [by destruct dead|]; split; [reflexivity|done]).
Qed.

Lemma ex_kernel_wf dead : proc_wf (ex_kernel dead).
Proof. split; [split; [apply ex_table|apply ex_tree|apply ex_kt]|by eexists]. Qed.

(** ** Witnesses *)

Lemma ex_used i : used (ex_kernel false) i ↔ 0 <= i < 4.
Proof.
  split.
  - intros (p & P & _ & HP & <-). unfold ex_kernel, ex_procs in HP. simpl in HP.
    each_proc; simpl; lia.
  - intros Hi. assert (i = 0 ∨ i = 1 ∨ i = 2 ∨ i = 3) as [-> | [-> | [-> | ->]]] by lia;
      [exists 1%positive|exists 2%positive|exists 3%positive|exists 4%positive];
      eexists; (split; [set_solver|]); split; reflexivity.
Qed.

Lemma ex_pid_spec : pid_spec (ex_kernel false) 4.
Proof.
  right. exists 0. split; [done|]. split; [done|]. rewrite ex_used. split; [lia|]. lia.
Qed.

Lemma proc_getid_unused_witness :
  ∃ pid, _proc_getid (ex_kernel false) = Ret pid (numbered pid (ex_kernel false)) ∧ pid = 4.
Proof.
  destruct (proc_getid_unused (ex_kernel false) (ex_kernel_wf false)) as (pid & Hrun & Hspec & _).
  exists pid. split; [exact Hrun|]. exact (pid_spec_unique _ _ _ Hspec ex_pid_spec).
Defined.

Lemma proc_create_registers_witness :
  ∃ s', proc_create [115; 104] (ex_kernel false) = Ret 9%positive s' ∧
    proc_list s' = [1; 2; 3; 4; 9]%positive.
Proof.
  destruct (proc_create_registers (ex_kernel false) 9 4 [115; 104])
    as (pd & map & s' & Hrun & _ & _ & _ & Hl & _).
  - apply ex_kernel_wf.
  - apply ex_sch_wf.
  - intros cur [= <-]. eexists. split; reflexivity.
  - reflexivity.
  - apply ex_pid_spec.
  - split; [intros He|intros He]; vm_compute in He; congruence.
  - intros e1 He. exists 9%positive. unfold same_maps in He. simpl in He.
    eexists. simpl. unfold xalloc. rewrite He. reflexivity.
  - exists s'. split; [exact Hrun|exact Hl].
Defined.

(** The shell's thread, about to exit with 7. *)
Definition ex_exit : kernel xk unit := marked 3 (ex_thread KT_RUN None 3) 7 (ex_kernel false).
Definition ex_exit_th : kthread :=
  set_kt_state KT_EXITED (set_kt_retval 7 (ex_thread KT_RUN None 3)).

Lemma ex_exiting :
  exiting ex_exit 3 (ex_proc 2 3 [4%positive] (Some 2%positive) PROC_RUNNING 0 sh_files) 2 2
    (ex_proc 1 2 [3%positive] (Some 1%positive) PROC_RUNNING 0 no_files) 3 ex_exit_th 3.
Proof.
  split; try reflexivity; try done.
  - intros f. simpl. unfold fd_count.
    destruct (decide (f = 1%positive)) as [->|H1]; [vm_compute; done|].
    destruct (decide (f = 2%positive)) as [->|H2]; [vm_compute; done|].
    rewrite !lookup_insert_ne by done. unfold sh_files. simpl.
    rewrite !filter_cons_False by congruence. done.
Qed.

Lemma proc_cleanup_exits_witness :
  ∃ s', proc_cleanup 7 ex_exit = Ret tt s' ∧
    waiting (sch s') kt_runq = [4; 2]%positive ∧
    f_refs (ext s') 1 = 0 ∧ f_refs (ext s') 2 = 4.
Proof.
  destruct (proc_cleanup_exits ex_exit 3
    (ex_proc 2 3 [4%positive] (Some 2%positive) PROC_RUNNING 0 sh_files) 2 2
    (ex_proc 1 2 [3%positive] (Some 1%positive) PROC_RUNNING 0 no_files) 3 ex_exit_th 3 7)
    as (s' & Hrun & _ & _ & Hdone).
  - apply marked_wf; [apply ex_kernel_wf|reflexivity].
  - apply marked_sched_wf; [apply ex_sch_wf|reflexivity|reflexivity].
  - exact ex_exiting.
  - exists s'. split; [exact Hrun|]. split; [by rewrite (ed_runq _ _ _ _ _ _ _ _ _ _ Hdone)|].
    split; rewrite (ed_files _ _ _ _ _ _ _ _ _ _ Hdone); vm_compute; reflexivity.
Defined.

Lemma kthread_exit_switches_witness :
  ∃ s' k, kthread_exit 7 (ex_kernel false) = Block ContextSwitch s' k ∧
    curthr (sch s') = Some 4%positive.
Proof.
  destruct (kthread_exit_switches (ex_kernel false) 3
    (ex_proc 2 3 [4%positive] (Some 2%positive) PROC_RUNNING 0 sh_files) 2 2
    (ex_proc 1 2 [3%positive] (Some 1%positive) PROC_RUNNING 0 no_files) 3
    (ex_thread KT_RUN None 3) 3 7 4 [2%positive])
    as (s1 & s' & k & Hrun & _ & _ & Hc & _).
  - apply ex_kernel_wf.
  - apply ex_sch_wf.
  - reflexivity.
  - reflexivity.
  - reflexivity.
  - exact ex_exiting.
  - reflexivity.
  - exists s', k. split; [exact Hrun|exact Hc].
Defined.

Lemma do_waitpid_reaps_witness :
  ∃ s', do_waitpid (-1) 0 true (ex_kernel true) = Ret (3, Some 42) s' ∧ proc_wf s'.
Proof.
  pose proof (do_waitpid_reaps (ex_kernel true) 3
    (ex_proc 2 3 [4%positive] (Some 2%positive) PROC_RUNNING 0 sh_files) (-1) 0 true
    (ex_kernel_wf true) (ex_sch_wf true) eq_refl eq_refl eq_refl) as Hw.
  destruct (Hw (ex_proc 3 4 [] (Some 3%positive) PROC_DEAD 42 no_files) 4%positive
    (ex_thread KT_EXITED None 4) (KtMem (Some 4%positive) (Some tt) true) 4%positive 4%positive)
    as (s' & Hrun & _ & _ & Hwf & _).
  - split; try reflexivity; try done; set_solver.
  - exists s'. split; [exact Hrun|exact Hwf].
Defined.

Lemma do_waitpid_sleeps_witness :
  ∃ x k, do_waitpid 3 0 true (ex_kernel false) =
      Block ContextSwitch (with_sch x (ex_kernel false)) k ∧
    waiting x 6 = [3%positive].
Proof.
  destruct (do_waitpid_sleeps (ex_kernel false) 3
    (ex_proc 2 3 [4%positive] (Some 2%positive) PROC_RUNNING 0 sh_files) 3 0 true
    (Some 4%positive) 3 (ex_thread KT_RUN None 3) 4 [] (ex_kernel_wf false) (ex_sch_wf false))
    as (x & k & Hrun & Hw & _); try reflexivity; [simpl; lia|].
  exists x, k. split; [exact Hrun|exact Hw].
Defined.

Lemma kthread_create_adds_witness :
  ∃ s', kthread_create (Some 3%positive) 1 0 0 (ex_kernel false) = Ret 9%positive s' ∧
    kthread_clone 9 s' = Panic.
Proof.
  destruct (kthread_create_adds (ex_kernel false) 3
    (ex_proc 2 3 [4%positive] (Some 2%positive) PROC_RUNNING 0 sh_files) 9 1 0 0)
    as (st & x & s' & Hrun & _ & _ & _ & _ & _ & _ & _ & Hcl).
  - apply ex_kernel_wf.
  - apply ex_sch_wf.
  - reflexivity.
  - reflexivity.
  - exists s'. split; [exact Hrun|]. apply Hcl. simpl. lia.
Defined.
