(* ===== verification/InfoEx.v ===== *)
(** * The printing routines at work *)
From S2P Require Import Prelude Headers Text Vmmap VmmapInfo VmmapEx Sched Proc ProcProps ProcInfo ProcEx.
Local Open Scope kernel_scope.

#[local] Existing Instance errno_ex.
#[local] Existing Instance page_ex.
#[local] Existing Instance mman_ex.
#[local] Existing Instance limits_ex.
#[local] Existing Instance proc_ex.
#[local] Existing Instance procops_ex.
#[local] Existing Instance procview_ex.
#[local] Existing Instance proclaws_ex.

#[local] Instance pointer_ex : PointerText := {| fmt_p z := hex_digits 8 z |}.

(** Two areas: in 400 bytes there is room for all, in 100 bytes the first line of an area is cut
    and the zero is stored past the end. *)
Definition ex_lines : list (list Z) := default [] (lines_of ex_vm [1; 2]%positive).
Lemma vmmap_mapping_info_prints_witness :
  vmmap_mapping_info 1 400 (ex_vm, replicate 400 0) =
    Ret 133 (ex_vm, printed (concat (info_header :: ex_lines)) (replicate 400 0)) ∧
  vmmap_mapping_info 1 100 (ex_vm, replicate 100 0) = Panic.
Proof.
  split.
  - pose proof (vmmap_mapping_info_prints ex_vm 1 (Vmmap [1; 2]%positive (Some 9%positive)) ex_lines
      (replicate 400 0) eq_refl eq_refl (conj eq_refl eq_refl)) as H.
    etransitivity; [exact H|]. by vm_compute.
  - pose proof (vmmap_mapping_info_prints ex_vm 1 (Vmmap [1; 2]%positive (Some 9%positive)) ex_lines
      (replicate 100 0) eq_refl eq_refl (conj eq_refl eq_refl)) as H.
    etransitivity; [exact H|]. by vm_compute.
Defined.

(** An [iprintf] that prints nothing where there is no room. *)
#[local] Instance iprintf_ex : IprintfOps := {|
  pstate_num st := match st with PROC_RUNNING => 1 | PROC_DEAD => 2 end;
  iprintf text w := Ret tt (if decide (has_room text w) then printed_out text w else w) |}.
#[local] Instance iprintf_laws_ex : IprintfLaws.
Proof. split. intros text w Hr. simpl. by rewrite decide_True. Qed.

Lemma proc_list_info_prints_witness :
  ∃ w, proc_list_info false (ex_kernel false, Out (replicate 500 0) 0 500) = Ret 368 (ex_kernel false, w).
Proof.
  eexists. apply (proc_list_info_prints (ex_kernel false) (replicate 500 0)).
  - apply ex_kernel_wf.
  - apply Nat.ltb_lt. by vm_compute.
Defined.
