(* ===== verification/Fork.v ===== *)
(** * Fork: proc/fork.c

    [do_fork] makes a process, gives it a copy of the address space of the current
    one with copy-on-write, and a thread that returns to user mode with 0.  It runs
    on the processes of Proc over the address spaces of Vmmap: the operations on
    address spaces that proc.c uses are those of vmmap.c, and only what lies beneath
    both is an interface, [KernOps]. *)
From S2P Require Import Prelude Headers Sched Vmmap Proc.
Local Open Scope kernel_scope.

(** The registers of a thread that is not running, as far as the code sets them. *)
Record context := Context {
  c_pdptr : option positive;
  c_esp : Z;
  c_eip : Z;
  c_kstacksz : Z;
  c_kstack : Z
}.
Definition set_c_pdptr v c := Context v (c_esp c) (c_eip c) (c_kstacksz c) (c_kstack c).
Definition set_c_esp v c := Context (c_pdptr c) v (c_eip c) (c_kstacksz c) (c_kstack c).
Definition set_c_eip v c := Context (c_pdptr c) (c_esp c) v (c_kstacksz c) (c_kstack c).
Definition set_c_kstacksz v c := Context (c_pdptr c) (c_esp c) (c_eip c) v (c_kstack c).
Definition set_c_kstack v c := Context (c_pdptr c) (c_esp c) (c_eip c) (c_kstacksz c) v.

(** [sizeof(regs_t)] and the address of [userland_entry]. *)
Class ForkH := { sizeof_regs : Z; userland_entry : Z }.

(** What lies beneath processes and address spaces: allocators, page directories,
    vnodes, files, and the memory that the saved registers and kernel stacks are in. *)
Class KernOps (S : Type) `{ProcH} := {
  k_proc_slab : kernel (vm S) context → option procp;
  k_kthread_slab : kernel (vm S) context → option tid;
  k_page_alloc_n : Z → M S (option positive);
  k_page_free_n : positive → Z → M S unit;
  k_context_setup : option positive → Z → Z → option positive → Z → option positive → M S context;
  k_pt_create_pagedir : M S (option positive);
  k_pt_destroy_pagedir : positive → M S unit;
  k_vfs_root_vn : S → option positive;
  k_vref : positive → M S unit;
  k_vput : positive → M S unit;
  k_fput : positive → M S unit;
  fref : positive → M S unit;
  (** [regs->r_eax = v] *)
  set_r_eax : positive → Z → M S unit;
  (** storing a pointer, and the [memcpy] of [*regs], at an address *)
  store_word : Z → Z → M S unit;
  copy_regs : Z → positive → M S unit;
  k_proc_slab_fresh s p : k_proc_slab s = Some p →
    procs s !! p = None ∧ queues (sch s) !! p_wait p = None;
  k_kthread_slab_fresh s t : k_kthread_slab s = Some t →
    threads (sch s) !! t = None ∧ kt_mems s !! t = None
}.

Section ops.
Context `{HP : PageH, HM : MmanH, HH : ProcH} {S : Type}.
Context `{HO : !MmOps S, HS : !SlabOps S, HK : !KernOps S}.

(** The operations that proc.c calls, with the address spaces of vmmap.c. *)
#[export] Instance vm_proc_ops : ProcOps (vm S) context := {|
  proc_slab := k_proc_slab;
  kthread_slab := k_kthread_slab;
  page_alloc_n n := on_mm (k_page_alloc_n n);
  page_free_n a n := on_mm (k_page_free_n a n);
  context_setup f a b st n pd := on_mm (k_context_setup f a b st n pd);
  pt_create_pagedir := on_mm k_pt_create_pagedir;
  pt_destroy_pagedir pd := on_mm (k_pt_destroy_pagedir pd);
  vfs_root_vn e := k_vfs_root_vn (mm e);
  vref v := on_mm (k_vref v);
  vput v := on_mm (k_vput v);
  fput f := on_mm (k_fput f);
  Proc.vmmap_create := (m <- Vmmap.vmmap_create ;; ret (Some m));
  vmm_set_proc m p := map_upd m (λ m, Vmmap (vmm_list m) (Some p));
  Proc.vmmap_destroy o := (m <- deref o ;; Vmmap.vmmap_destroy m);
  proc_slab_fresh := k_proc_slab_fresh;
  kthread_slab_fresh := k_kthread_slab_fresh
|}.
End ops.

Section fork.
Context `{HE : ErrnoH, HI : IntrH, HP : PageH, HM : MmanH, HL : LimitsH, HH : ProcH, HF : ForkH}.
Context {S : Type} `{HO : !MmOps S, HS : !SlabOps S, HK : !KernOps S}.
Local Abbreviation K := (kernel (vm S) context).

(** ** Memory *)

(** The object behind both areas is put beneath two new shadow objects, one for each,
    unless the mapping is shared. *)
Definition handle_memory_object (childVmArea parentVmArea : positive) : M (vm S) unit :=
  c <- vma_get childVmArea ;;
  (if negb (MAP_SHARED =? Z.land (vma_flags c) MAP_TYPE) then
     parentSO <- on_mm shadow_create ;;
     parentSO <- deref parentSO ;;
     p <- vma_get parentVmArea ;;
     o <- deref (vma_obj p) ;;
     on_mm (mmo_set_shadowed parentSO o) ;;;
     b <- on_mm (mmobj_bottom_obj o) ;;
     on_mm (mmo_set_bottom_obj parentSO b) ;;;
     childSO <- on_mm shadow_create ;;
     childSO <- deref childSO ;;
     on_mm (mmo_set_shadowed childSO o) ;;;
     on_mm (mmo_ref o) ;;;
     b' <- on_mm (mmobj_bottom_obj o) ;;
     on_mm (mmo_set_bottom_obj childSO b') ;;;
     on_mm (mmo_ref b') ;;;
     vma_upd childVmArea (set_vma_obj (Some childSO)) ;;;
     on_mm (mmo_ref b) ;;;
     vma_upd parentVmArea (set_vma_obj (Some parentSO))
   else
     p <- vma_get parentVmArea ;;
     vma_upd childVmArea (set_vma_obj (vma_obj p)) ;;;
     o <- deref (vma_obj p) ;;
     on_mm (mmo_ref o)) ;;;
  p <- vma_get parentVmArea ;;
  o <- deref (vma_obj p) ;;
  b <- on_mm (mmobj_bottom_obj o) ;;
  on_mm (mmo_vmas_insert_tail b childVmArea) ;;;
  vma_upd childVmArea (set_vma_olink LIn).

(** The loop of [do_fork] over the areas of the new map. *)
Definition fork_area map (childVmArea : positive) : M (vm S) unit :=
  c <- vma_get childVmArea ;;
  parentVmArea <- vmmap_lookup map (vma_start c) ;;
  parentVmArea <- deref parentVmArea ;;
  handle_memory_object childVmArea parentVmArea.
Definition fork_areas (map newmap : positive) : M (vm S) unit :=
  m <- map_get newmap ;;
  vmm_iterate (length (vmm_list m)) newmap (fork_area map) (head (vmm_list m)).

(** ** Processes and threads *)

(** The characters of the string childProcess *)
Definition child_name : list Z := [99; 104; 105; 108; 100; 80; 114; 111; 99; 101; 115; 115].

Definition create_child_process : M K procp :=
  child <- proc_create child_name ;;
  C <- curproc_get ;;
  map <- deref (p_vmmap C) ;;
  newmap <- on_ext (vmmap_clone map) ;;
  proc_upd child (set_p_vmmap (Some newmap)) ;;;
  on_ext (map_upd newmap (λ m, Vmmap (vmm_list m) (Some child))) ;;;
  ret child.

Definition stack_addr (kstack : option positive) : Z :=
  match kstack with Some a => Z.pos a | None => 0 end.

Definition fork_setup_stack (regs : positive) (kstack : option positive) : M K Z :=
  let esp := u32 (u32 (stack_addr kstack + DEFAULT_STACK_SIZE) - u32 (sizeof_regs + 12)) in
  on_ext (on_mm (store_word (u32 (esp + 4)) (u32 (esp + 8)))) ;;;
  on_ext (on_mm (copy_regs (u32 (esp + 8)) regs)) ;;;
  ret esp.

Definition ctx_upd (t : tid) (f : context → context) : M K unit :=
  kt_mems_set (alter (λ m, KtMem (kt_kstack m) (f <$> kt_ctx m) (kt_plink m)) t).

Definition setup_process_context (childThread : tid) (childProcess : procp) (regs : positive) : M K unit :=
  on_ext (on_mm (set_r_eax regs 0)) ;;;
  P <- proc_get childProcess ;;
  ctx_upd childThread (set_c_pdptr (p_pagedir P)) ;;;
  m <- kt_mem_get childThread ;;
  esp <- fork_setup_stack regs (kt_kstack m) ;;
  ctx_upd childThread (set_c_esp esp) ;;;
  ctx_upd childThread (set_c_eip userland_entry) ;;;
  ctx_upd childThread (set_c_kstacksz DEFAULT_STACK_SIZE) ;;;
  ctx_upd childThread (set_c_kstack (stack_addr (kt_kstack m))) ;;;
  P <- proc_get childProcess ;;
  on_ext (on_mm (set_r_eax regs (p_pid P))).

(** [for (int i = 0; i < NFILES; i++)], [n] turns from [i] on. *)
Fixpoint copy_files_loop (n i : nat) (childProcess : procp) : M K unit :=
  match n with
  | O => ret tt
  | Datatypes.S n =>
      C <- curproc_get ;;
      f <- deref (p_files C !! i) ;;
      proc_upd childProcess (λ P, set_p_files (<[i := f]> (p_files P)) P) ;;;
      match f with Some f => on_ext (on_mm (fref f)) | None => ret tt end ;;;
      copy_files_loop n (i + 1) childProcess
  end.

Definition copy_parent_files (childProcess : procp) : M K unit :=
  copy_files_loop NFILES 0 childProcess ;;;
  P <- proc_get childProcess ;;
  match p_cwd P with Some v => on_ext (vput v) | None => ret tt end ;;;
  C <- curproc_get ;;
  proc_upd childProcess (set_p_cwd (p_cwd C)) ;;;
  match p_cwd C with Some v => on_ext (vref v) | None => ret tt end.

Definition do_fork (regs : option positive) : M K Z :=
  regs <- deref regs ;;
  C <- curproc_get ;;
  kassert (bool_decide (p_state C = PROC_RUNNING)) ;;;
  newproc <- create_child_process ;;
  C <- curproc_get ;;
  N <- proc_get newproc ;;
  map <- deref (p_vmmap C) ;;
  newmap <- deref (p_vmmap N) ;;
  on_ext (fork_areas map newmap) ;;;
  on_ext (on_mm (pt_unmap_range USER_MEM_LOW USER_MEM_HIGH)) ;;;
  on_ext (on_mm tlb_flush_all) ;;;
  thr <- on_sch curthr_get ;;
  newthr <- kthread_clone thr ;;
  N <- proc_get newproc ;;
  kassert (bool_decide (p_state N = PROC_RUNNING)) ;;;
  kassert (bool_decide (p_pagedir N ≠ None)) ;;;
  m <- kt_mem_get newthr ;;
  kassert (bool_decide (kt_kstack m ≠ None)) ;;;
  setup_process_context newthr newproc regs ;;;
  copy_parent_files newproc ;;;
  on_sch (thr_upd newthr (set_kt_proc (Some newproc))) ;;;
  proc_upd newproc (λ P, set_p_threads (p_threads P ++ [newthr]) P) ;;;
  kt_mems_set (alter (λ m, KtMem (kt_kstack m) (kt_ctx m) true) newthr) ;;;
  C <- curproc_get ;;
  proc_upd newproc (set_p_brk (p_brk C)) ;;;
  C <- curproc_get ;;
  proc_upd newproc (set_p_start_brk (p_start_brk C)) ;;;
  on_sch (sched_make_runnable newthr) ;;;
  N <- proc_get newproc ;;
  ret (p_pid N).
End fork.
