(* ===== verification/ForkProps.v ===== *)
(** * Properties of fork: the address space of the child *)
From stdpp Require Import sorting.
From S2P Require Import Prelude Headers Sched Vmmap VmmapProps VmmapChange VmmapCopy Proc Fork.
Local Open Scope kernel_scope.

Section props.
Context `{HP : PageH, HM : MmanH} {S : Type} `{HO : !MmOps S, HL : !MmLaws S}.
Context `{HS : !SlabOps S}.
Implicit Types (map vma o x : positive) (s : vm S) (t : S) (pl : list (positive * vmarea)).

(** Objects in use stay in use, with the chains below them. *)
Definition kept t t' : Prop := ∀ x, live t x →
  live t' x ∧ shadowed t' x = shadowed t x ∧ bottom t' x = bottom t x.

Lemma kept_refl t : kept t t.
Proof. by intros x Hx. Qed.
Lemma kept_trans t1 t2 t3 : kept t1 t2 → kept t2 t3 → kept t1 t3.
Proof. intros H1 H2 x Hx. destruct (H1 x Hx) as (Hl & Hs & Hb). destruct (H2 x Hl). naive_solver congruence. Qed.

(** No objects but those of [l] are new. *)
Definition adds (l : list positive) t t' : Prop := ∀ x, live t' x → live t x ∨ x ∈ l.

Lemma adds_trans l1 l2 t1 t2 t3 : adds l1 t1 t2 → adds l2 t2 t3 → adds (l1 ++ l2) t1 t3.
Proof. intros H1 H2 x [[?|?]%H1|?]%H2; [by left|right; set_solver..]. Qed.
Lemma adds_same t t' : (∀ x, live t' x ↔ live t x) → adds [] t t'.
Proof. intros H x Hx. left. by apply H. Qed.
Lemma adds_perm l l' t t' : l ⊆ l' → adds l t t' → adds l' t t'.
Proof. intros Hl H x [?|?]%H; [by left|right; by apply Hl]. Qed.

(** A new object, not in use before, that nothing but itself has changed for. *)
Lemma new_shadow_spec (Hav : objs_available) t :
  ∃ r t', shadow_create t = Ret (Some r) t' ∧ ¬ live t r ∧ live t' r ∧
    shadowed t' r = None ∧ bottom t' r = None ∧ kept t t' ∧ adds [r] t t' ∧
    ∀ x, owned t' x = owned t x + if decide (x = r) then 1 else 0.
Proof.
  destruct (shadow_create_spec t) as (r & t' & Hr & Hl & Hown & Hnew & Hrest).
  destruct Hav as [_ Hav]. destruct (Hav _ _ _ Hr) as [sh ->].
  destruct (Hnew sh eq_refl) as (Hn & Hlsh & Hs & Hb).
  exists sh, t'. do 5 (split; [done|]). split.
  - intros x Hx. split; [apply Hl; by left|]. apply Hrest. by intros [= ->].
  - split; [intros x [?|[= ->]]%Hl; set_solver|]. intros x. rewrite Hown. destruct (decide (x = sh)), (decide (Some sh = Some x)); naive_solver.
Qed.

(** What [set_shadowed] and [set_bottom_obj] of a shadow object do to the others. *)
Definition kept_but sh t t' : Prop := ∀ x, live t x →
  live t' x ∧ (x ≠ sh → shadowed t' x = shadowed t x ∧ bottom t' x = bottom t x).

Lemma set_shadowed_spec t sh o :
  live t sh → live t o → shadowed t sh = None →
  ∃ t', mmo_set_shadowed sh o t = Ret tt t' ∧ kept_but sh t t' ∧ adds [] t t' ∧ shadowed t' sh = Some o ∧
    bottom t' sh = bottom t sh ∧ ∀ x, owned t' x = owned t x - if decide (x = o) then 1 else 0.
Proof.
  intros Hl Hlo Hn. destruct (mmo_set_shadowed_spec t sh o Hl Hlo Hn) as ([] & t' & Hr & Hown & Hlv & Hs & Hrest & Hb).
  exists t'. split; [done|]. split; [|split; [by apply adds_same|by rewrite Hb]]. intros x Hx. split; [by apply Hlv|].
  intros Hne. rewrite Hb. split; [|done]. by apply Hrest.
Qed.

Lemma set_bottom_spec t sh b :
  live t sh → live t b → bottom t sh = None →
  ∃ t', mmo_set_bottom_obj sh b t = Ret tt t' ∧ kept_but sh t t' ∧ adds [] t t' ∧ bottom t' sh = Some b ∧
    shadowed t' sh = shadowed t sh ∧ ∀ x, owned t' x = owned t x - if decide (x = b) then 1 else 0.
Proof.
  intros Hl Hlb Hn. destruct (mmo_set_bottom_obj_spec t sh b Hl Hlb Hn) as ([] & t' & Hr & Hown & Hlv & Hb & Hrest & Hs).
  exists t'. split; [done|]. split; [|split; [by apply adds_same|by rewrite Hs]]. intros x Hx. split; [by apply Hlv|].
  intros Hne. rewrite Hs. split; [done|]. by apply Hrest.
Qed.

Lemma ref_spec t o :
  live t o → ∃ t', mmo_ref o t = Ret tt t' ∧ kept t t' ∧ adds [] t t' ∧
    ∀ x, owned t' x = owned t x + if decide (x = o) then 1 else 0.
Proof.
  intros Hl. destruct (mmo_ref_spec t o Hl) as ([] & t' & Hr & Hown & Hlv & Hsb).
  exists t'. split; [done|]. split; [|split; [by apply adds_same|done]]. intros x Hx. by split; [apply Hlv|].
Qed.

(** [b] is the object at the bottom of [o]. *)
Definition bottom_is t o b : Prop := if shadowed t o then bottom t o = Some b else b = o.

Lemma bottom_is_kept t t' o b : live t o → kept t t' → bottom_is t o b → bottom_is t' o b.
Proof. intros Hl Hk. destruct (Hk o Hl) as (_ & Hs & Hb). unfold bottom_is. by rewrite Hs, Hb. Qed.

(** A shadow object over [o] with the bottom object [b], that of [o]. *)
Record over t sh o b : Prop := Over {
  ov_live : live t sh;
  ov_shadowed : shadowed t sh = Some o;
  ov_bottom : bottom t sh = Some b;
  ov_live_bottom : live t b;
  ov_live_below : live t o;
  ov_below : bottom_is t o b
}.

Lemma over_kept t t' sh o b : kept t t' → over t sh o b → over t' sh o b.
Proof.
  intros Hk [Hl Hs Hb Hlb Hlo Hbi]. destruct (Hk sh Hl) as (? & ? & ?).
  split; [done|congruence|congruence|by apply Hk|by apply Hk|by eapply bottom_is_kept].
Qed.

Lemma kept_but_new t0 t t' sh : ¬ live t0 sh → kept t0 t → kept_but sh t t' → kept t0 t'.
Proof.
  intros Hn H1 H2 x Hx. destruct (H1 x Hx) as (Hl & Hs & Hb). destruct (H2 x Hl) as [Hl' Hr].
  destruct Hr as [Hs' Hb']; [by intros ->|]. split; [done|]. split; congruence.
Qed.

Lemma bottom_kept t t' o b :
  live t o → kept t t' → bottom_is t o b → mmobj_bottom_obj o t' = Ret b t' ∧ bottom_is t' o b.
Proof.
  intros Hl Hk Hb. pose proof (bottom_is_kept t t' o b Hl Hk Hb). split; [|done].
  apply mmobj_bottom_obj_spec; [by apply Hk|done].
Qed.

Lemma rooted_kept t t' o : live t o → kept t t' → rooted t o → rooted t' o.
Proof.
  intros Hl Hk. destruct (Hk o Hl) as (_ & Hs & Hb). unfold rooted. rewrite Hs, Hb.
  destruct (shadowed t o); [|done]. intros (b & ? & ?). exists b. split; [done|]. by apply Hk.
Qed.

(** The shadow object of the parent, over [o]. *)
Lemma parent_shadow_spec (Hav : objs_available) t o b :
  live t o → live t b → bottom_is t o b → ∃ po t1 t2 t3,
    shadow_create t = Ret (Some po) t1 ∧ mmo_set_shadowed po o t1 = Ret tt t2 ∧
    mmobj_bottom_obj o t2 = Ret b t2 ∧ mmo_set_bottom_obj po b t2 = Ret tt t3 ∧
    ¬ live t po ∧ over t3 po o b ∧ kept t t3 ∧ adds [po] t t3 ∧
    ∀ x, owned t3 x = owned t x + (if decide (x = po) then 1 else 0)
                      - (if decide (x = o) then 1 else 0) - if decide (x = b) then 1 else 0.
Proof.
  intros Hl Hlb Hb. destruct (new_shadow_spec Hav t) as (po & t1 & H1 & Hn & Hl1 & Hs1 & Hb1 & Hk1 & Ha1 & Ho1).
  destruct (set_shadowed_spec t1 po o Hl1) as (t2 & H2 & Hk2 & Ha2 & Hs2 & Hb2 & Ho2); [by apply Hk1|done|].
  assert (live t2 po) as Hl2 by (by apply Hk2).
  assert (kept t t2) as Hkt2 by (by eapply kept_but_new).
  destruct (set_bottom_spec t2 po b Hl2) as (t3 & H3 & Hk3 & Ha3 & Hb3 & Hs3 & Ho3); [by apply Hkt2|by rewrite Hb2|].
  assert (kept t t3) as Hkt3 by (by eapply kept_but_new).
  exists po, t1, t2, t3. do 2 (split; [done|]). split; [by apply (bottom_kept t)|].
  do 2 (split; [done|]). split; [split; [by apply Hk3|congruence|congruence|by apply Hkt3|by apply Hkt3|by apply (bottom_is_kept t)]|].
  split; [done|]. split; [exact (adds_trans _ _ _ _ _ (adds_trans _ _ _ _ _ Ha1 Ha2) Ha3)|].
  intros x. rewrite Ho3, Ho2, Ho1. done.
Qed.

(** The shadow object of the child, and the references both shadow objects need. *)
Lemma child_shadow_spec (Hav : objs_available) t o b :
  live t o → live t b → bottom_is t o b → ∃ co t1 t2 t3 t4 t5 t6,
    shadow_create t = Ret (Some co) t1 ∧ mmo_set_shadowed co o t1 = Ret tt t2 ∧
    mmo_ref o t2 = Ret tt t3 ∧ mmobj_bottom_obj o t3 = Ret b t3 ∧
    mmo_set_bottom_obj co b t3 = Ret tt t4 ∧ mmo_ref b t4 = Ret tt t5 ∧ mmo_ref b t5 = Ret tt t6 ∧
    ¬ live t co ∧ over t6 co o b ∧ kept t t6 ∧ adds [co] t t6 ∧
    ∀ x, owned t6 x = owned t x + (if decide (x = co) then 1 else 0) + if decide (x = b) then 1 else 0.
Proof.
  intros Hl Hlb Hb. destruct (new_shadow_spec Hav t) as (co & t1 & H1 & Hn & Hl1 & Hs1 & Hb1 & Hk1 & Ha1 & Ho1).
  destruct (set_shadowed_spec t1 co o Hl1) as (t2 & H2 & Hk2 & Ha2 & Hs2 & Hb2 & Ho2); [by apply Hk1|done|].
  assert (kept t t2) as Hkt2 by (by eapply kept_but_new).
  destruct (ref_spec t2 o) as (t3 & H3 & Hk3 & Ha3 & Ho3); [by apply Hkt2|].
  assert (kept t t3) as Hkt3 by (by eapply kept_trans).
  assert (live t2 co) as Hl2 by (by apply Hk2). destruct (Hk3 co Hl2) as (Hl3 & Hs3 & Hb3).
  destruct (set_bottom_spec t3 co b Hl3) as (t4 & H4 & Hk4 & Ha4 & Hb4 & Hs4 & Ho4); [by apply Hkt3|congruence|].
  assert (kept t t4) as Hkt4 by (by eapply kept_but_new).
  destruct (ref_spec t4 b) as (t5 & H5 & Hk5 & Ha5 & Ho5); [by apply Hkt4|].
  destruct (ref_spec t5 b) as (t6 & H6 & Hk6 & Ha6 & Ho6); [by apply Hk5, Hkt4|].
  exists co, t1, t2, t3, t4, t5, t6. do 3 (split; [done|]). split; [by apply (bottom_kept t)|].
  do 4 (split; [done|]). split.
  - apply (over_kept t4 t6); [by eapply kept_trans|].
    split; [by apply Hk4|congruence|congruence|by apply Hkt4|by apply Hkt4|by apply (bottom_is_kept t)].
  - split; [eapply kept_trans; [done|by eapply kept_trans]|].
    split; [exact (adds_trans _ _ _ _ _ (adds_trans _ _ _ _ _ (adds_trans _ _ _ _ _ (adds_trans _ _ _ _ _ (adds_trans _ _ _ _ _ Ha1 Ha2) Ha3) Ha4) Ha5) Ha6)|].
    intros x. rewrite Ho6, Ho5, Ho4, Ho3, Ho2, Ho1. lia.
Qed.

(** ** One area *)

Definition is_shared (a : vmarea) : bool := MAP_SHARED =? Z.land (vma_flags a) MAP_TYPE.

(** The areas of parent and child after the fork: on the same object if the mapping is
    shared, and otherwise each on its own new shadow object over that object. *)
Definition forked t (a a' c' : vmarea) : Prop := ∃ o po co,
  vma_obj a = Some o ∧ a' = set_vma_obj (Some po) a ∧
  (vma_start c', vma_end c', vma_off c', vma_prot c', vma_flags c') =
    (vma_start a, vma_end a, vma_off a, vma_prot a, vma_flags a) ∧ vma_obj c' = Some co ∧
  if is_shared a then po = o ∧ co = o
  else po ≠ co ∧ ∃ b, over t po o b ∧ over t co o b.

Lemma forked_kept t t' a a' c' : kept t t' → forked t a a' c' → forked t' a a' c'.
Proof.
  intros Hk (o & po & co & Ho & Ha & Hc & Hco & Hsh). exists o, po, co. do 4 (split; [done|]).
  destruct (is_shared a); [done|]. destruct Hsh as (Hne & b & Hp & Hcc). split; [done|].
  exists b. split; by eapply over_kept.
Qed.

(** What one turn of the loop changes. *)
Definition forked_one s (cv pv : positive) (a c : vmarea) s' : Prop := ∃ po co,
  vmareas s' = <[pv := set_vma_obj (Some po) a]>
    (<[cv := set_vma_olink LIn (set_vma_obj (Some co) c)]> (vmareas s)) ∧
  vmmaps s' = vmmaps s ∧ kept (mm s) (mm s') ∧
  forked (mm s') a (set_vma_obj (Some po) a) (set_vma_olink LIn (set_vma_obj (Some co) c)) ∧
  (is_shared a = false → ¬ live (mm s) po ∧ ¬ live (mm s) co) ∧
  adds (if is_shared a then [] else [po; co]) (mm s) (mm s') ∧
  ∀ x, owned (mm s') x = owned (mm s) x + (if decide (x = po) then 1 else 0)
         + (if decide (x = co) then 1 else 0) - if decide (vma_obj a = Some x) then 1 else 0.

(** The last step: the area is put on the list of the bottom object. *)
Lemma link_area_spec s cv pv a c o :
  vmareas s !! pv = Some a → vmareas s !! cv = Some c → vma_obj a = Some o → live (mm s) o → rooted (mm s) o →
  ∃ t, (p <- vma_get pv ;; o <- deref (vma_obj p) ;; b <- on_mm (mmobj_bottom_obj o) ;;
     on_mm (mmo_vmas_insert_tail b cv) ;;; vma_upd cv (set_vma_olink LIn)) s =
     Ret tt (set_area cv (set_vma_olink LIn c) (set_mm t s)) ∧ kept (mm s) t ∧ adds [] (mm s) t ∧
     ∀ x, owned t x = owned (mm s) x.
Proof.
  intros Ha Hc Ho Hl Hrt. rewrite (bind_Ret _ _ _ _ _ (vma_get_eq _ _ _ Ha)), Ho. kstep.
  destruct (bottom_obj_rooted (mm s) o Hl Hrt) as (b & Hb & Hlb & _).
  rewrite (bind_Ret _ _ _ _ _ (on_mm_eq _ _ _ _ Hb)).
  destruct (mmo_vmas_insert_tail_spec (mm s) b cv Hlb) as ([] & t & Ht & Hown & Hlv & Hsb).
  exists t. split; [|split; [|split; [by apply adds_same|done]]].
  - rewrite (bind_Ret _ _ _ _ _ (on_mm_eq _ (set_mm (mm s) s) _ _ Ht)). by rewrite (vma_upd_eq _ cv c).
  - intros x Hx. by split; [apply Hlv|].
Qed.

Lemma handle_shared_spec s cv pv a c o :
  cv ≠ pv → vmareas s !! pv = Some a → vmareas s !! cv = Some c → vma_obj a = Some o →
  live (mm s) o → rooted (mm s) o → is_shared a = true →
  (vma_start c, vma_end c, vma_off c, vma_prot c, vma_flags c) =
    (vma_start a, vma_end a, vma_off a, vma_prot a, vma_flags a) →
  returns (handle_memory_object cv pv) s (λ _ s', forked_one s cv pv a c s').
Proof.
  intros Hne Ha Hc Ho Hl Hrt Hsh Heq. unfold handle_memory_object, returns.
  rewrite (bind_Ret _ _ _ _ _ (vma_get_eq _ _ _ Hc)).
  assert (MAP_SHARED =? Z.land (vma_flags c) MAP_TYPE = true) as ->.
  { unfold is_shared in Hsh. by injection Heq as _ _ _ _ ->. }
  destruct (ref_spec (mm s) o Hl) as (t1 & H1 & Hk1 & Ha1 & Ho1).
  set (s1 := set_area cv (set_vma_obj (Some o) c) (set_mm t1 s)).
  rewrite (bind_Ret _ _ _ tt s1).
  2: { simpl. rewrite (bind_Ret _ _ _ _ _ (vma_get_eq _ _ _ Ha)), Ho.
       rewrite (bind_Ret _ _ _ _ _ (vma_upd_eq _ _ _ _ Hc)). kstep. by rewrite (on_mm_eq _ (set_area _ _ s) _ _ H1). }
  destruct (link_area_spec s1 cv pv a (set_vma_obj (Some o) c) o) as (t2 & H2 & Hk2 & Ha2 & Ho2);
    [simpl; by rewrite lookup_insert_ne|apply lookup_insert_eq|done|by apply Hk1|by apply (rooted_kept (mm s))|].
  eexists _, _. split; [exact H2|]. exists o, o. split.
  { simpl. rewrite insert_insert_eq, (insert_id _ pv); [done|]. rewrite lookup_insert_ne by done.
    rewrite Ha. destruct a; simpl in *. by subst. }
  split; [done|]. split; [by eapply kept_trans|]. split.
  - exists o, o, o. do 2 (split; [done|]). split; [by simpl|]. split; [done|]. by rewrite Hsh.
  - split; [by rewrite Hsh|]. split; [rewrite Hsh; exact (adds_trans _ _ _ _ _ Ha1 Ha2)|].
    intros x. simpl. rewrite Ho2, Ho. simpl. rewrite Ho1.
    destruct (decide (x = o)), (decide (Some o = Some x)); naive_solver lia.
Qed.

Lemma mm_step {A B} (m : M S A) (f : A → M (vm S) B) s t a t' :
  m t = Ret a t' → bind (on_mm m) f (set_mm t s) = f a (set_mm t' s).
Proof. intros H. by rewrite (bind_Ret _ _ _ _ _ (on_mm_eq _ (set_mm t s) _ _ H)). Qed.

Lemma handle_private_spec (Hav : objs_available) s cv pv a c o :
  cv ≠ pv → vmareas s !! pv = Some a → vmareas s !! cv = Some c → vma_obj a = Some o →
  live (mm s) o → rooted (mm s) o → is_shared a = false →
  (vma_start c, vma_end c, vma_off c, vma_prot c, vma_flags c) =
    (vma_start a, vma_end a, vma_off a, vma_prot a, vma_flags a) →
  returns (handle_memory_object cv pv) s (λ _ s', forked_one s cv pv a c s').
Proof.
  intros Hne Ha Hc Ho Hl Hrt Hsh Heq. unfold handle_memory_object, returns.
  rewrite (bind_Ret _ _ _ _ _ (vma_get_eq _ _ _ Hc)).
  assert (MAP_SHARED =? Z.land (vma_flags c) MAP_TYPE = false) as ->.
  { unfold is_shared in Hsh. by injection Heq as _ _ _ _ ->. }
  destruct (bottom_obj_rooted (mm s) o Hl Hrt) as (b & _ & Hlb & Hb).
  destruct (parent_shadow_spec Hav (mm s) o b Hl Hlb Hb)
    as (po & t1 & t2 & t3 & H1 & H2 & H2b & H3 & Hnpo & Hpo & Hk3 & Ha3 & Ho3).
  destruct (child_shadow_spec Hav t3 o b) as (co & u1 & u2 & u3 & u4 & u5 & u6 & U1 & U2 & U3 & U3b &
    U4 & U5 & U6 & Hnco & Hco & Hk6 & Ha6 & Ho6); [by apply Hk3|by apply Hk3|by apply (bottom_kept (mm s))|].
  set (s1 := set_area pv (set_vma_obj (Some po) a) (set_area cv (set_vma_obj (Some co) c) (set_mm u6 s))).
  rewrite (bind_Ret _ _ _ tt s1).
  2: { simpl. rewrite (bind_Ret _ _ _ _ _ (on_mm_eq _ _ _ _ H1)). kstep.
       rewrite (bind_Ret _ _ _ a _) by (by apply vma_get_eq). rewrite Ho. kstep.
       rewrite (mm_step _ _ _ _ _ _ H2), (mm_step _ _ _ _ _ _ H2b), (mm_step _ _ _ _ _ _ H3),
         (mm_step _ _ _ _ _ _ U1). kstep.
       rewrite (mm_step _ _ _ _ _ _ U2), (mm_step _ _ _ _ _ _ U3), (mm_step _ _ _ _ _ _ U3b),
         (mm_step _ _ _ _ _ _ U4), (mm_step _ _ _ _ _ _ U5).
       rewrite (bind_Ret _ _ _ _ _ (vma_upd_eq (set_mm u5 s) _ _ _ Hc)).
       rewrite (mm_step _ _ (set_area cv _ s) _ _ _ U6 : bind _ _ (set_area cv _ (set_mm u5 s)) = _).
       apply vma_upd_eq. simpl. by rewrite lookup_insert_ne. }
  destruct (link_area_spec s1 cv pv (set_vma_obj (Some po) a) (set_vma_obj (Some co) c) po)
    as (t & H & Hk & Hat & Hown); [apply lookup_insert_eq|simpl; rewrite lookup_insert_ne by done; apply lookup_insert_eq
    |done|by apply Hk6, Hpo
    |apply (rooted_kept t3); [apply Hpo|done|]; destruct Hpo as [_ Hs Hb' Hlb' _ _]; unfold rooted; rewrite Hs; by exists b|].
  eexists _, _. split; [exact H|]. exists po, co.
  split; [simpl; rewrite insert_insert_ne, insert_insert_eq by done; done|].
  assert (kept (mm s) t) as Hkt by (eapply kept_trans; [done|by eapply kept_trans]).
  split; [done|]. split; [done|]. split.
  - exists o, po, co. do 3 (split; [done|]). split; [done|]. rewrite Hsh. split.
    + intros ->. apply Hnco. apply Hpo.
    + exists b. split; [|by apply (over_kept u6 t)]. apply (over_kept t3 t); [by eapply kept_trans|done].
  - split; [intros _; split; [done|]; intros Hco'; by apply Hnco, Hk3|].
    split; [rewrite Hsh; exact (adds_trans _ _ _ _ _ (adds_trans _ _ _ _ _ Ha3 Ha6) Hat)|]. intros x. simpl. rewrite Hown. simpl. rewrite Ho6, Ho3, Ho.
    destruct (decide (x = o)), (decide (Some o = Some x)); naive_solver lia.
Qed.

(** ** All areas *)

(** Two areas over the same range of pages, links in the map and offset alike. *)
Definition same_shape (a b : vmarea) : Prop :=
  (vma_start b, vma_end b, vma_off b, vma_vmmap b, vma_plink b) =
  (vma_start a, vma_end a, vma_off a, vma_vmmap a, vma_plink a).

Lemma areas_ok_shape map al a b al' :
  same_shape a b → areas_ok map (al ++ a :: al') → areas_ok map (al ++ b :: al').
Proof.
  unfold same_shape. intros [= Hs He Hoff Hv Hpl]. rewrite !areas_ok_app.
  rewrite (areas_ok_app _ [a] al'), (areas_ok_app _ [b] al'), !areas_ok_one.
  intros (H1 & ([?????] & H2 & Hb) & Hx). split; [done|]. split; [split; [|split; [done|]]|].
  - split; congruence.
  - intros y z ->%list_elem_of_singleton Hz. unfold before. rewrite He.
    apply (Hb a z); [set_solver|done].
  - intros y z Hy [-> |Hz]%elem_of_cons; [|apply Hx; [done|set_solver]].
    unfold before. rewrite Hs. apply (Hx y a Hy). set_solver.
Qed.

(** Changing one area of a map. *)
Lemma set_one_wf s s' map pr done rest p a a' :
  vmmap_wf s map pr (done ++ (p, a) :: rest) → same_shape a a' →
  vmmaps s' = vmmaps s → vmareas s' !! p = Some a' →
  (∀ q, q ∈ (done ++ (p, a) :: rest).*1 → q ≠ p → vmareas s' !! q = vmareas s !! q) →
  vmmap_wf s' map pr (done ++ (p, a') :: rest).
Proof.
  intros Hwf Hsh Hm Hp Hrest. pose proof (wf_NoDup _ _ _ _ Hwf) as Hnd.
  destruct Hwf as [[Hl Hh] Hok]. split.
  - split; [rewrite Hm, Hl; by rewrite !fmap_app|].
    rewrite fmap_app in Hnd. csimpl in Hnd. apply NoDup_app in Hnd as (_ & Hd & [Hr _]%NoDup_cons).
    apply Forall_app in Hh as [Hh1 [_ Hh2]%Forall_cons].
    apply Forall_app. split; [|constructor; [done|]].
    + apply Forall_forall. intros [q b] Hq. simpl.
      assert (q ∈ done.*1) as Hqd by (apply list_elem_of_fmap; by exists (q, b)).
      rewrite Hrest; [by apply (proj1 (Forall_forall _ _) Hh1 (q, b))|rewrite fmap_app; set_solver|].
      intros ->. apply (Hd p Hqd). set_solver.
    + apply Forall_forall. intros [q b] Hq. simpl.
      assert (q ∈ rest.*1) as Hqd by (apply list_elem_of_fmap; by exists (q, b)).
      rewrite Hrest; [by apply (proj1 (Forall_forall _ _) Hh2 (q, b))| |set_solver].
      rewrite fmap_app. csimpl. set_solver.
  - rewrite fmap_app in Hok |- *. csimpl in *. by eapply areas_ok_shape.
Qed.

Lemma lookup_start s map pr pl pv a :
  vmmap_wf s map pr pl → (pv, a) ∈ pl → vmmap_lookup map (vma_start a) s = Ret (Some pv) s.
Proof.
  intros Hwf Hin. pose proof (wf_area _ _ _ _ _ Hwf Hin) as [? Hlen ? ? ? ?]. simpl in *.
  pose proof (lookup_page_at s map pr pl (vma_start a) (wf_in _ _ _ _ Hwf)) as Hl.
  destruct (page_at pl.*2 (vma_start a)) as [pg|] eqn:Hpg.
  - destruct Hl as (p & b & Hl & _ & Hb & Hc & _). rewrite Hl. do 2 f_equal.
    apply covers_true in Hc. assert (b = a) as ->; [|by eapply wf_area_addr].
    eapply areas_ok_unique; [by apply (wf_ok _ _ _ _ Hwf)|..|exact Hc|lia];
      apply list_elem_of_fmap; by eexists (_, _).
  - exfalso. apply (proj1 (page_at_None _ _) Hpg a); [|lia]. apply list_elem_of_fmap. by exists (pv, a).
Qed.

(** The child's area before its turn: the same pages, no object. *)
Definition same_pages (a c : vmarea) : Prop :=
  (vma_start c, vma_end c, vma_off c, vma_prot c, vma_flags c) =
  (vma_start a, vma_end a, vma_off a, vma_prot a, vma_flags a).

(** The object of the area [a'], that the area [a] of a private mapping became, was not in
    use. *)
Definition unused t (a a' : vmarea) : Prop :=
  is_shared a = false → ∀ o, vma_obj a' = Some o → ¬ live t o.
Definition new_objs (a a' : vmarea) : list positive := if is_shared a then [] else option_list (vma_obj a').

Lemma fork_turn (Hav : objs_available) s map newmap pr pr' dp rp dc rc pv a cv c :
  vmmap_wf s map pr (dp ++ (pv, a) :: rp) → vmmap_wf s newmap pr' (dc ++ (cv, c) :: rc) →
  (∀ q, q ∈ (dp ++ (pv, a) :: rp).*1 → q ∉ (dc ++ (cv, c) :: rc).*1) → same_pages a c →
  (∀ o, vma_obj a = Some o → live (mm s) o ∧ rooted (mm s) o) → is_Some (vma_obj a) →
  returns (fork_area map cv) s (λ _ s', ∃ a' c',
    vmmap_wf s' map pr (dp ++ (pv, a') :: rp) ∧ vmmap_wf s' newmap pr' (dc ++ (cv, c') :: rc) ∧
    vmmaps s' = vmmaps s ∧ (∀ q, q ≠ pv → q ≠ cv → vmareas s' !! q = vmareas s !! q) ∧
    kept (mm s) (mm s') ∧ forked (mm s') a a' c' ∧ unused (mm s) a a' ∧ unused (mm s) a c' ∧
    adds (new_objs a a' ++ new_objs a c') (mm s) (mm s') ∧
    ∀ x, owned (mm s') x - obj_count x [a'] - obj_count x [c'] = owned (mm s) x - obj_count x [a]).
Proof.
  intros Hwf Hwf' Hdis Hsame Hl [o Ho]. destruct (Hl o Ho) as [Hlo Hrt]. pose proof Hsame as Hsm. injection Hsm as Hst _ _ _ _.
  assert ((pv, a) ∈ dp ++ (pv, a) :: rp) as Hpin by apply elem_of_middle.
  assert ((cv, c) ∈ dc ++ (cv, c) :: rc) as Hcin by apply elem_of_middle.
  assert (cv ≠ pv) as Hne.
  { intros ->. apply (Hdis pv); apply list_elem_of_fmap; by eexists (_, _). }
  pose proof (in_map_lookup _ _ _ _ _ _ (wf_in _ _ _ _ Hwf) Hpin) as Ha.
  pose proof (in_map_lookup _ _ _ _ _ _ (wf_in _ _ _ _ Hwf') Hcin) as Hc.
  assert (returns (handle_memory_object cv pv) s (λ _ s', forked_one s cv pv a c s'))
    as ([] & s' & Hr & po & co & Hareas & Hm & Hk & Hf & Hnew & Hadd & Hown).
  { destruct (is_shared a) eqn:Hs; [eapply handle_shared_spec|eapply handle_private_spec]; eauto. }
  exists tt, s'. split.
  { unfold fork_area. rewrite (bind_Ret _ _ _ _ _ (vma_get_eq _ _ _ Hc)), Hst.
    rewrite (bind_Ret _ _ _ _ _ (lookup_start _ _ _ _ _ _ Hwf Hpin)). by kstep. }
  assert (∀ q, q ≠ pv → q ≠ cv → vmareas s' !! q = vmareas s !! q) as Hrest.
  { intros q Hq Hq'. by rewrite Hareas, !lookup_insert_ne. }
  exists (set_vma_obj (Some po) a), (set_vma_olink LIn (set_vma_obj (Some co) c)).
  split; [|split; [|split; [done|split; [done|split; [done|split; [done|
    split; [by intros Hs x [= <-]; apply Hnew|split; [by intros Hs x [= <-]; apply Hnew|
      split; [by unfold new_objs; destruct (is_shared a)|]]]]]]]]].
  - eapply set_one_wf; [done|done|done|by rewrite Hareas, lookup_insert_eq|].
    intros q Hq Hqp. apply Hrest; [done|]. intros ->. apply (Hdis cv Hq), list_elem_of_fmap. by exists (cv, c).
  - eapply set_one_wf; [done|done|done|by rewrite Hareas, lookup_insert_ne, lookup_insert_eq|].
    intros q Hq Hqc. apply Hrest; [|done]. intros ->. apply (Hdis pv); [|done]. apply list_elem_of_fmap. by exists (pv, a).
  - intros x. rewrite !obj_count_one, Hown. simpl.
    destruct (decide (x = po)), (decide (x = co)), (decide (Some po = Some x)), (decide (Some co = Some x));
      simplify_eq; try congruence; lia.
Qed.

(** The objects of the private mappings among the areas [al], as [al'] has them. *)
Fixpoint private_objs (al al' : list vmarea) : list positive :=
  match al, al' with
  | a :: al, a' :: al' =>
      new_objs a a' ++ private_objs al al'
  | _, _ => []
  end.

(** The private objects of the two address spaces are all new, all different, and the
    only new ones. *)
Definition all_new t t' (al al1 al2 : list vmarea) : Prop :=
  NoDup (private_objs al al1 ++ private_objs al al2) ∧
  (∀ x, x ∈ private_objs al al1 ++ private_objs al al2 → ¬ live t x) ∧
  adds (private_objs al al1 ++ private_objs al al2) t t'.

Lemma forked_private t a a' c' :
  forked t a a' c' → is_shared a = false → ∃ po co, vma_obj a' = Some po ∧ vma_obj c' = Some co ∧
    po ≠ co ∧ live t po ∧ live t co.
Proof.
  intros (o & po & co & _ & -> & _ & Hco & Hsh) Hs. rewrite Hs in Hsh.
  destruct Hsh as (Hne & b & [Hp _ _ _ _ _] & [Hc _ _ _ _ _]). by exists po, co.
Qed.

Lemma all_new_cons t t1 t2 a a' c' al al1 al2 :
  kept t t1 → forked t1 a a' c' → unused t a a' → unused t a c' → adds (new_objs a a' ++ new_objs a c') t t1 →
  all_new t1 t2 al al1 al2 → all_new t t2 (a :: al) (a' :: al1) (c' :: al2).
Proof.
  intros Hk Hf Ha Hc Hadd (Hnd & Hnew & Hadd2). unfold all_new. simpl. apply (proj1 (Logic.and_assoc _ _ _)). split.
  2: { eapply adds_perm; [|exact (adds_trans _ _ _ _ _ Hadd Hadd2)]. set_solver. }
  unfold new_objs. destruct (is_shared a) eqn:Hs; simpl.
  { split; [done|]. intros x Hx Hl. apply (Hnew x Hx). by apply Hk. }
  destruct (forked_private _ _ _ _ Hf Hs) as (po & co & Hpo & Hco & Hne & Hlp & Hlc).
  rewrite Hpo, Hco. simpl.
  assert (po :: private_objs al al1 ++ co :: private_objs al al2 ≡ₚ
    po :: co :: private_objs al al1 ++ private_objs al al2) as Hperm
    by (constructor; symmetry; apply Permutation_middle).
  split.
  - rewrite Hperm. apply NoDup_cons. split; [|apply NoDup_cons; split; [|done]].
    + intros [-> |Hx]%elem_of_cons; [done|]. by apply (Hnew po).
    + intros Hx. by apply (Hnew co).
  - intros x. rewrite Hperm. intros [-> |[-> |Hx]%elem_of_cons]%elem_of_cons; [by apply Ha|by apply Hc|].
    intros Hl. apply (Hnew x Hx). by apply Hk.
Qed.

(** What the loop makes of the areas [rp] of the parent and [rc] of the child. *)
Definition forked_areas s (rp rc rp' rc' : list (positive * vmarea)) s' : Prop :=
  rp'.*1 = rp.*1 ∧ rc'.*1 = rc.*1 ∧ Forall3 (forked (mm s')) rp.*2 rp'.*2 rc'.*2 ∧
  vmmaps s' = vmmaps s ∧ (∀ q, q ∉ rp.*1 → q ∉ rc.*1 → vmareas s' !! q = vmareas s !! q) ∧
  kept (mm s) (mm s') ∧ all_new (mm s) (mm s') rp.*2 rp'.*2 rc'.*2 ∧
  ∀ x, owned (mm s') x - obj_count x rp'.*2 - obj_count x rc'.*2 = owned (mm s) x - obj_count x rp.*2.

Lemma forked_areas_cons s s1 s2 pv a a' cv c c' rp rc rp' rc' :
  vmmaps s1 = vmmaps s → (∀ q, q ≠ pv → q ≠ cv → vmareas s1 !! q = vmareas s !! q) →
  kept (mm s) (mm s1) → forked (mm s1) a a' c' → unused (mm s) a a' → unused (mm s) a c' →
  adds (new_objs a a' ++ new_objs a c') (mm s) (mm s1) →
  (∀ x, owned (mm s1) x - obj_count x [a'] - obj_count x [c'] = owned (mm s) x - obj_count x [a]) →
  forked_areas s1 rp rc rp' rc' s2 →
  forked_areas s ((pv, a) :: rp) ((cv, c) :: rc) ((pv, a') :: rp') ((cv, c') :: rc') s2.
Proof.
  intros Hm Hq Hk Hf Hua Huc Hadd Hown (Hp & Hc & Hf2 & Hm2 & Hq2 & Hk2 & Hn2 & Hown2). unfold forked_areas. csimpl.
  split; [by rewrite Hp|]. split; [by rewrite Hc|].
  split; [constructor; [by eapply forked_kept|done]|]. split; [congruence|].
  split; [|split; [by eapply kept_trans|split; [by eapply all_new_cons|]]].
  - intros q [??]%not_elem_of_cons [??]%not_elem_of_cons. by rewrite Hq2, Hq.
  - intros x. specialize (Hown x). specialize (Hown2 x). rewrite !obj_count_one in Hown.
    rewrite !obj_count_cons. lia.
Qed.

(** The object of an area has a known bottom. *)
Definition obj_rooted t (a : vmarea) : Prop := ∀ o, vma_obj a = Some o → rooted t o.

Lemma obj_rooted_kept t t' al :
  kept t t' → (∀ x, obj_count x al <= owned t x) → Forall (obj_rooted t) al → Forall (obj_rooted t') al.
Proof.
  intros Hk Hcnt. rewrite !Forall_forall. intros Hr a Ha o Ho.
  apply (rooted_kept t); [|done|by apply (Hr a)]. apply owned_live. specialize (Hcnt o).
  apply list_elem_of_split in Ha as (l1 & l2 & ->). rewrite obj_count_app, obj_count_cons in Hcnt.
  rewrite decide_True in Hcnt by done. pose proof (obj_count_pos o l1). pose proof (obj_count_pos o l2). lia.
Qed.

Lemma fork_loop_spec (Hav : objs_available) map newmap pr pr' rp : ∀ rc s dp dc fuel,
  vmmap_wf s map pr (dp ++ rp) → vmmap_wf s newmap pr' (dc ++ rc) →
  (∀ q, q ∈ (dp ++ rp).*1 → q ∉ (dc ++ rc).*1) → Forall2 same_pages rp.*2 rc.*2 →
  Forall (λ a, is_Some (vma_obj a)) rp.*2 → Forall (obj_rooted (mm s)) rp.*2 →
  (∀ x, obj_count x rp.*2 <= owned (mm s) x) →
  (length rc <= fuel)%nat →
  returns (vmm_iterate fuel newmap (fork_area map) (head rc.*1)) s (λ _ s', ∃ rp' rc',
    vmmap_wf s' map pr (dp ++ rp') ∧ vmmap_wf s' newmap pr' (dc ++ rc') ∧
    forked_areas s rp rc rp' rc' s').
Proof.
  induction rp as [|[pv a] rp IH]; intros rc s dp dc fuel Hwf Hwf' Hdis Hsame Hobj Hroot Hcnt Hfuel;
    (destruct rc as [|[cv c] rc]; [try by inversion Hsame|]; [..|try by inversion Hsame]).
  { exists tt, s. split; [by destruct fuel|]. exists [], []. do 2 (split; [done|]).
    split; [done|]. split; [done|]. split; [constructor|]. do 2 (split; [done|]).
    split; [apply kept_refl|]. split; [split; [constructor|split; [by intros x Hx%elem_of_nil|by left]]|]. intros x. csimpl. change (obj_count x []) with 0. lia. }
  csimpl in *. apply Forall2_cons in Hsame as [Hsa Hsame]. apply Forall_cons in Hobj as [Hoa Hobj].
  apply Forall_cons in Hroot as [Hra Hroot].
  destruct fuel as [|fuel]; [lia|].
  destruct (fork_turn Hav s map newmap pr pr' dp rp dc rc pv a cv c Hwf Hwf' Hdis Hsa)
    as ([] & s1 & Hr & a' & c' & Hwf1 & Hwf1' & Hm1 & Hq1 & Hk1 & Hf1 & Hua & Huc & Hadd1 & Hown1); [|done|].
  { intros o Ho. split; [|by apply Hra]. apply owned_live. specialize (Hcnt o). rewrite obj_count_cons, decide_True in Hcnt by done.
    pose proof (obj_count_pos o rp.*2). lia. }
  destruct (IH rc s1 (dp ++ [(pv, a')]) (dc ++ [(cv, c')]) fuel)
    as ([] & s2 & Hr2 & rp' & rc' & Hwf2 & Hwf2' & Hf2); rewrite <- ?app_assoc; try done.
  { intros q. rewrite !fmap_app. csimpl. intros Hq. specialize (Hdis q). rewrite !fmap_app in Hdis. by apply Hdis. }
  { apply (obj_rooted_kept (mm s)); [done| |done]. intros x. specialize (Hcnt x).
    rewrite obj_count_cons in Hcnt. case_decide; lia. }
  { intros x. specialize (Hown1 x). specialize (Hcnt x). rewrite obj_count_cons in Hcnt.
    rewrite !obj_count_one in Hown1. repeat case_decide; lia. }
  { lia. }
  exists tt, s2. split.
  - simpl. rewrite (bind_Ret _ _ _ _ _ (map_get_eq _ _ _ _ (wf_in _ _ _ _ Hwf'))). simpl.
    rewrite (bind_Ret _ _ _ _ _ Hr).
    pose proof (wf_NoDup _ _ _ _ Hwf') as Hnd. rewrite fmap_app in Hnd |- *. csimpl in *.
    rewrite next_in_app; [done|]. apply NoDup_app in Hnd as (_ & Hd & _).
    intros Hp. apply (Hd cv Hp), elem_of_cons. by left.
  - exists ((pv, a') :: rp'), ((cv, c') :: rc'). rewrite <- !app_assoc in Hwf2, Hwf2'.
    do 2 (split; [done|]). by eapply forked_areas_cons.
Qed.

(** ** The address spaces after a fork *)

(** A page of the parent before, the page of the parent after, and that of the child. *)
Definition forked_page t (pg pg1 pg2 : option (option positive * Z * Z * Z)) : Prop :=
  match pg with
  | None => pg1 = None ∧ pg2 = None
  | Some (obj, i, prot, flags) => ∃ o po co, obj = Some o ∧
      pg1 = Some (Some po, i, prot, flags) ∧ pg2 = Some (Some co, i, prot, flags) ∧
      if MAP_SHARED =? Z.land flags MAP_TYPE then po = o ∧ co = o
      else po ≠ co ∧ ∃ b, over t po o b ∧ over t co o b
  end.

Lemma page_at_forked t al al1 al2 vfn :
  Forall3 (forked t) al al1 al2 → forked_page t (page_at al vfn) (page_at al1 vfn) (page_at al2 vfn).
Proof.
  induction 1 as [|a a1 a2 al al1 al2 (o & po & co & Ho & -> & Heq & Hco & Hsh) _ IH]; [done|].
  rewrite (page_at_app [a] al), (page_at_app [set_vma_obj (Some po) a] al1), (page_at_app [a2] al2), !page_at_one.
  injection Heq as Hst Hen Hoff Hpr Hfl.
  assert (covers vfn (set_vma_obj (Some po) a) = covers vfn a) as -> by done.
  assert (covers vfn a2 = covers vfn a) as -> by (unfold covers; by rewrite Hst, Hen).
  destruct (covers vfn a); [|done]. exists o, po, co. split; [done|]. split; [done|].
  split; [|done]. unfold a_page. by rewrite Hco, Hst, Hoff, Hpr, Hfl.
Qed.

(** What [do_fork] does to the address spaces, in the order it does it: the clone of
    [create_child_process] and the loop over the areas. *)
Definition fork_memory map (child : positive) : M (vm S) positive :=
  newmap <- vmmap_clone map ;;
  map_upd newmap (λ m, Vmmap (vmm_list m) (Some child)) ;;;
  fork_areas map newmap ;;;
  ret newmap.

Lemma clone_disjoint map newmap pl pl' (q : positive) s pr pr' :
  map ≠ newmap → vmmap_wf s map pr pl → vmmap_wf s newmap pr' pl' → q ∈ pl.*1 → q ∉ pl'.*1.
Proof.
  intros Hne Hwf Hwf' ([p a] & -> & Hp)%list_elem_of_fmap ([p' c] & Heq & Hc)%list_elem_of_fmap.
  simpl in *. subst p'. pose proof (wf_area _ _ _ _ _ Hwf Hp) as [_ _ _ _ Hm _].
  pose proof (wf_area _ _ _ _ _ Hwf' Hc) as [_ _ _ _ Hm' _].
  pose proof (in_map_lookup _ _ _ _ _ _ (wf_in _ _ _ _ Hwf) Hp).
  pose proof (in_map_lookup _ _ _ _ _ _ (wf_in _ _ _ _ Hwf') Hc). simpl in *. congruence.
Qed.

Lemma set_proc_wf s map pr pl newmap l pr' pr2 :
  vmmap_wf s map pr pl → map ≠ newmap → vmmap_wf s newmap pr' l →
  vmmap_wf (set_list newmap l.*1 pr2 s) map pr pl ∧ vmmap_wf (set_list newmap l.*1 pr2 s) newmap pr2 l.
Proof.
  intros [[Hl Hh] Hok] Hne [[Hl' Hh'] Hok']. split; (split; [split|done]); simpl; try done.
  - by rewrite lookup_insert_ne.
  - apply lookup_insert_eq.
Qed.

Lemma clone_same_pages newmap al : Forall2 same_pages al (clone_area newmap <$> al).
Proof. induction al; constructor; done. Qed.

Lemma fork_memory_spec (Hav : objs_available) s map pr pl newmap child :
  vmmap_wf s map pr pl → vmmap_slab s = Some newmap → (∀ s' : vm S, is_Some (vmarea_slab s')) →
  Forall (λ a, is_Some (vma_obj a)) pl.*2 → Forall (obj_rooted (mm s)) pl.*2 →
  (∀ x, obj_count x pl.*2 <= owned (mm s) x) →
  returns (fork_memory map child) s (λ r s', r = newmap ∧ vmmaps s !! newmap = None ∧ ∃ pl1 pl2,
    vmmap_wf s' map pr pl1 ∧ vmmap_wf s' newmap (Some child) pl2 ∧
    Forall3 (forked (mm s')) pl.*2 pl1.*2 pl2.*2 ∧ all_new (mm s) (mm s') pl.*2 pl1.*2 pl2.*2 ∧
    (∀ m, m ≠ newmap → vmmaps s' !! m = vmmaps s !! m) ∧
    (∀ q b, q ∉ pl.*1 → vmareas s !! q = Some b → vmareas s' !! q = Some b) ∧ kept (mm s) (mm s') ∧
    ∀ x, owned (mm s') x - obj_count x pl1.*2 - obj_count x pl2.*2 = owned (mm s) x - obj_count x pl.*2).
Proof.
  intros Hwf Hnew Hslab Hobj Hroot Hcnt.
  destruct (vmmap_clone_spec s map pr pl newmap Hwf Hnew Hslab)
    as (r & s1 & Hr & -> & Hfresh & pl' & Hwf1' & Hwf1 & (Hm1 & Ha1 & Hmm1) & Hpl' & Hnw).
  assert (map ≠ newmap) as Hne by (intros ->; destruct Hwf as [[Hl _] _]; congruence).
  destruct (set_proc_wf s1 map pr pl newmap pl' pr (Some child) Hwf1 Hne Hwf1') as [Hwf2 Hwf2'].
  set (s2 := set_list newmap pl'.*1 (Some child) s1) in *.
  destruct (fork_loop_spec Hav map newmap pr (Some child) pl pl' s2 [] [] (length pl'.*1))
    as ([] & s3 & Hr3 & pl1 & pl2 & Hwf3 & Hwf3' & _ & _ & Hf & Hm3 & Hq3 & Hk3 & Hn3 & Hown3); try done.
  { intros q Hq. by eapply (clone_disjoint map newmap pl pl'). }
  { rewrite Hpl'. apply clone_same_pages. }
  { simpl. by rewrite Hmm1. }
  { simpl. by rewrite Hmm1. }
  { by rewrite length_fmap. }
  exists newmap, s3. split.
  - unfold fork_memory. rewrite (bind_Ret _ _ _ _ _ Hr).
    rewrite (bind_Ret _ _ _ _ _ (map_upd_eq _ _ _ _ (in_list _ _ _ _ (wf_in _ _ _ _ Hwf1')))). simpl.
    unfold fork_areas. erewrite bind_Ret; [done|].
    rewrite (bind_Ret _ _ _ _ _ (map_get_eq _ _ _ _ (wf_in _ _ _ _ Hwf2'))). exact Hr3.
  - do 2 (split; [done|]). exists pl1, pl2. do 3 (split; [done|]).
    split; [simpl in Hn3; by rewrite <- Hmm1|].
    split; [|split; [|split; [by rewrite <- Hmm1|intros x; rewrite Hown3; simpl; by rewrite Hmm1]]].
    + intros m Hm. rewrite Hm3. simpl. rewrite lookup_insert_ne by done. by apply Hm1.
    + intros q b Hq Hb. rewrite Hq3; [by apply Ha1|done|].
      intros Hin. pose proof (proj1 (Forall_forall _ _) Hnw q Hin). simpl in *. congruence.
Qed.

(** After a fork parent and child have the same memory, with copy-on-write.  The
    clone and the loop of [do_fork] return with both address spaces well-formed; page
    by page the child has the layout, protection and object pages of the parent; a
    shared mapping is on the same object in both, and a private one on two different
    new shadow objects over the object that was there, so that neither sees what the
    other stores.  Nothing else changes, and every area accounts for one reference. *)
Theorem fork_copies_memory s map pr pl newmap child :
  objs_available → vmmap_wf s map pr pl → vmmap_slab s = Some newmap →
  (∀ s' : vm S, is_Some (vmarea_slab s')) →
  Forall (λ a, is_Some (vma_obj a)) pl.*2 → Forall (obj_rooted (mm s)) pl.*2 →
  (∀ x, obj_count x pl.*2 <= owned (mm s) x) →
  returns (fork_memory map child) s (λ r s', r = newmap ∧ vmmaps s !! newmap = None ∧ ∃ pl1 pl2,
    vmmap_wf s' map pr pl1 ∧ vmmap_wf s' newmap (Some child) pl2 ∧
    (∀ vfn, forked_page (mm s') (page_at pl.*2 vfn) (page_at pl1.*2 vfn) (page_at pl2.*2 vfn)) ∧
    (∀ m, m ≠ newmap → vmmaps s' !! m = vmmaps s !! m) ∧
    (∀ q b, q ∉ pl.*1 → vmareas s !! q = Some b → vmareas s' !! q = Some b) ∧ kept (mm s) (mm s') ∧
    ∀ x, owned (mm s') x - obj_count x pl1.*2 - obj_count x pl2.*2 = owned (mm s) x - obj_count x pl.*2).
Proof.
  intros Hav Hwf Hnew Hslab Hobj Hroot Hcnt.
  eapply returns_mono; [by eapply (fork_memory_spec Hav s map pr pl newmap child)|].
  intros r s' (-> & Hfresh & pl1 & pl2 & Hwf1 & Hwf2 & Hf & _ & Hrest). do 2 (split; [done|]).
  exists pl1, pl2. do 2 (split; [done|]). split; [|done]. intros vfn. by apply page_at_forked.
Qed.
End props.
