(* ===== verification/ForkKeeps.v ===== *)
(** * Fork keeps what its operations keep

    Any property of the memory system that the operations on memory objects keep is
    kept by the copy of an address space that [do_fork] makes. *)
From S2P Require Import Prelude Headers Vmmap VmmapProps Fork ForkProps.
Local Open Scope kernel_scope.

(** The operations on memory objects that fork uses keep [I]. *)
Record objs_keep {S} `{MmOps S} (I : S → Prop) : Prop := {
  ok_create : keeps (λ _, I) I shadow_create;
  ok_set_shadowed sh o : keeps (λ _, I) I (mmo_set_shadowed sh o);
  ok_set_bottom sh b : keeps (λ _, I) I (mmo_set_bottom_obj sh b);
  ok_bottom o : keeps (λ _, I) I (mmobj_bottom_obj o);
  ok_ref o : keeps (λ _, I) I (mmo_ref o);
  ok_vmas o v : keeps (λ _, I) I (mmo_vmas_insert_tail o v)
}.

Section keeps.
Context `{HP : PageH, HM : MmanH} {S : Type} `{HO : !MmOps S, HS : !SlabOps S}.
Context (I : S → Prop) (HI : objs_keep I).
Implicit Types (v : vm S) (map : positive).

Local Definition J v : Prop := I (mm v).

Lemma keep_on_mm {A} (m : M S A) : keeps (λ _, I) I m → keeps (λ _, J) J (on_mm m).
Proof using. apply keeps_zoom; done. Qed.
Lemma keep_vma_get vma : keeps (λ _, J) J (vma_get vma).
Proof using. intros v Hv. unfold vma_get. by destruct (vmareas v !! vma). Qed.
Lemma keep_map_get map : keeps (λ _, J) J (map_get map).
Proof using. intros v Hv. unfold map_get. by destruct (vmmaps v !! map). Qed.
Lemma keep_vma_upd vma f : keeps (λ _, J) J (vma_upd vma f).
Proof using. by apply keeps_modify. Qed.
Lemma keep_map_upd map f : keeps (λ _, J) J (map_upd map f).
Proof using. by apply keeps_modify. Qed.
Lemma keep_lookup map vfn : keeps (λ _, J) J (vmmap_lookup map vfn).
Proof using.
  apply keeps_bind; [|intros; apply keeps_ret]. intros v Hv. unfold vmm_areas.
  by destruct (_ ≫= _).
Qed.
Lemma keep_alloc : keeps (λ _, J) J vmarea_alloc.
Proof using. intros v Hv. unfold vmarea_alloc. by destruct (vmarea_slab v). Qed.
Lemma keep_map_create : keeps (λ _, J) J vmmap_create.
Proof using.
  apply keeps_bind; [intros v Hv; by destruct (vmmap_slab v)|intros m].
  apply keeps_bind; [by apply keeps_modify|intros; apply keeps_ret].
Qed.

Lemma keep_iterate fuel map body cur :
  (∀ p, keeps (λ _, J) J (body p)) → keeps (λ _, J) J (vmm_iterate fuel map body cur).
Proof using.
  intros Hb. revert cur. induction fuel as [|fuel IH]; intros [p|]; simpl; try apply keeps_ret;
    [apply keeps_out_of_fuel|].
  apply keeps_bind; [apply keep_map_get|intros m]. apply keeps_bind; [apply Hb|intros _]. apply IH.
Qed.

#[local] Hint Resolve ok_create ok_set_shadowed ok_set_bottom ok_bottom ok_ref ok_vmas keep_vma_get keep_map_get keep_vma_upd keep_map_upd keep_lookup
  keep_alloc keep_map_create : keeps.
#[local] Hint Extern 4 (keeps _ _ (on_mm _)) => apply keep_on_mm : keeps.

Lemma keep_handle cv pv : keeps (λ _, J) J (handle_memory_object cv pv).
Proof using HI. unfold handle_memory_object. keeps. Qed.

Lemma keep_clone_body newmap p : keeps (λ _, J) J (vmmap_clone_body newmap p).
Proof using. unfold vmmap_clone_body. keeps. Qed.

Lemma fork_memory_keeps map child : keeps (λ _, J) J (fork_memory map child).
Proof using HI.
  apply keeps_bind; [|intros newmap; apply keeps_bind; [apply keep_map_upd|intros _];
    apply keeps_bind; [|intros; apply keeps_ret]].
  - apply keeps_bind; [apply keep_map_create|intros newmap].
    apply keeps_bind; [apply keep_map_upd|intros _]. apply keeps_bind; [apply keep_map_get|intros m].
    apply keeps_bind; [apply keep_map_upd|intros _]. apply keeps_bind; [|intros; apply keeps_ret].
    apply keep_iterate. intros p. apply keep_clone_body.
  - apply keeps_bind; [apply keep_map_get|intros m]. apply keep_iterate. intros cv.
    apply keeps_bind; [apply keep_vma_get|intros c]. apply keeps_bind; [apply keep_lookup|intros pv].
    apply keeps_bind; [apply keeps_deref|intros p]. apply keep_handle.
Qed.

(** What holds of the memory before holds after. *)
Lemma fork_memory_kept v map child r v' :
  fork_memory map child v = Ret r v' → I (mm v) → I (mm v').
Proof using HI. intros Hr Hv. pose proof (fork_memory_keeps map child v Hv) as Hk. by rewrite Hr in Hk. Qed.
End keeps.
