(* ===== verification/ForkCall.v ===== *)
(** * Fork as a system call: the process that [do_fork] makes

    The whole call: the new process in the table and the tree, its copy of the address
    space, its files and working directory, and its thread, which enters user mode with
    the registers of the parent and 0 as the result. *)
From S2P Require Import Prelude Headers Sched SchedProps Vmmap VmmapProps VmmapChange VmmapCopy.
From S2P Require Import Proc ProcProps ProcExit ProcThread ProcLinks Fork ForkProps ForkKeeps.
Local Open Scope kernel_scope.

(** ** What lies beneath *)

(** The saved registers of a thread: [r_eax], where a system call leaves its result, and
    the others. *)
Record registers := Registers { r_eax : Z; r_others : list Z }.
Definition with_eax (v : Z) (r : registers) : registers := Registers v (r_others r).

(** What the theorem observes: references to open files; references to vnodes, less those
    that memory objects hold; words of memory; and the saved registers at an address. *)
Class ForkView (S : Type) := {
  file_refs : S → positive → Z;
  vn_refs : S → positive → Z;
  word_at : S → Z → Z;
  regs_at : S → Z → registers
}.

(** Two ranges of memory that do not overlap. *)
Definition apart (a n b m : Z) : Prop := a + n <= b ∨ b + m <= a.

Section same.
Context {S : Type} `{HO : !MmOps S, HL : !MmLaws S, HV : !ForkView S}.
Implicit Types (t : S).

Definition objs_same t t' : Prop := ∀ x, owned t' x = owned t x ∧ (live t x → live t' x) ∧
  shadowed t' x = shadowed t x ∧ bottom t' x = bottom t x.
Definition held_same t t' : Prop :=
  (∀ f, file_refs t' f = file_refs t f) ∧ ∀ v, vn_refs t' v = vn_refs t v.
Definition regs_same t t' : Prop := ∀ a, word_at t' a = word_at t a ∧ regs_at t' a = regs_at t a.
Definition mem_same t t' : Prop := objs_same t t' ∧ held_same t t'.

(** The registers at [regs] are as they were. *)
Definition saved (regs : positive) t t' : Prop := regs_at t' (Z.pos regs) = regs_at t (Z.pos regs).
Definition quiet (regs : positive) t t' : Prop := mem_same t t' ∧ saved regs t t'.

Lemma mem_same_refl t : mem_same t t.
Proof. by repeat split. Qed.
Lemma objs_same_trans t1 t2 t3 : objs_same t1 t2 → objs_same t2 t3 → objs_same t1 t3.
Proof. intros H1 H2 x. destruct (H1 x) as (?&?&?&?), (H2 x) as (?&?&?&?). repeat split; [congruence|auto|congruence..]. Qed.
Lemma held_same_trans t1 t2 t3 : held_same t1 t2 → held_same t2 t3 → held_same t1 t3.
Proof. intros [F1 V1] [F2 V2]. split; intros; by rewrite ?F2, ?V2. Qed.
Lemma mem_same_trans t1 t2 t3 : mem_same t1 t2 → mem_same t2 t3 → mem_same t1 t3.
Proof. intros [H1 F1] [H2 F2]. split; [by eapply objs_same_trans|by eapply held_same_trans]. Qed.
Lemma quiet_trans regs t1 t2 t3 : quiet regs t1 t2 → quiet regs t2 t3 → quiet regs t1 t3.
Proof. intros [H1 S1] [H2 S2]. split; [by eapply mem_same_trans|]. unfold saved in *. congruence. Qed.
Lemma objs_same_kept t t' : objs_same t t' → kept t t'.
Proof. intros Hs x Hx. destruct (Hs x) as (_ & ? & ? & ?). auto. Qed.
End same.

(** What the operations of [KernOps] do; none but the last three groups touches the
    registers that the system call saved at [regs].  The file system holds its root until
    it is unmounted, so that a reference to it can always be given up. *)
Class ForkLaws (S : Type) (regs : positive)
    `{PageH, ProcH, ForkH, !MmOps S, !MmLaws S, !KernOps S, !ForkView S} := {
  root_vn : positive;
  root_vn_eq t : k_vfs_root_vn t = Some root_vn;
  k_pt_create_pagedir_ok t : returns k_pt_create_pagedir t (λ _, quiet regs t);
  k_page_alloc_n_ok n t : returns (k_page_alloc_n n) t (λ r t', quiet regs t t' ∧
    ∀ a, r = Some a → Z.pos a + n * PAGE_SIZE <= U32);
  (** writes on the stack *)
  k_context_setup_ok f a b st n pd t : apart (Z.pos regs) sizeof_regs (Z.pos st) n →
    returns (k_context_setup f a b (Some st) n pd) t (λ _, quiet regs t);
  unmap_range_ok lo hi t : returns (pt_unmap_range lo hi) t (λ _, quiet regs t);
  flush_all_ok t : returns tlb_flush_all t (λ _, quiet regs t);
  objs_keep_held t : objs_keep (λ t', held_same t t' ∧ saved regs t t');
  k_vref_ok v t : returns (k_vref v) t (λ _ t', objs_same t t' ∧ regs_same t t' ∧
    (∀ f, file_refs t' f = file_refs t f) ∧
    ∀ x, vn_refs t' x = vn_refs t x + if decide (x = v) then 1 else 0);
  k_vput_root_ok t : returns (k_vput root_vn) t (λ _ t', objs_same t t' ∧ regs_same t t' ∧
    (∀ f, file_refs t' f = file_refs t f) ∧
    ∀ x, vn_refs t' x = vn_refs t x - if decide (x = root_vn) then 1 else 0);
  fref_ok f t : returns (fref f) t (λ _ t', objs_same t t' ∧ regs_same t t' ∧
    (∀ g, file_refs t' g = file_refs t g + if decide (g = f) then 1 else 0) ∧
    ∀ x, vn_refs t' x = vn_refs t x);
  set_r_eax_ok r v t : returns (set_r_eax r v) t (λ _ t', mem_same t t' ∧
    regs_at t' (Z.pos r) = with_eax v (regs_at t (Z.pos r)) ∧
    (∀ a, apart a 4 (Z.pos r) sizeof_regs → word_at t' a = word_at t a) ∧
    ∀ a, apart a sizeof_regs (Z.pos r) sizeof_regs → regs_at t' a = regs_at t a);
  store_word_ok a w t : returns (store_word a w) t (λ _ t', mem_same t t' ∧ word_at t' a = w ∧
    ∀ b, apart b sizeof_regs a 4 → regs_at t' b = regs_at t b);
  copy_regs_ok a r t : returns (copy_regs a r) t (λ _ t', mem_same t t' ∧
    regs_at t' a = regs_at t (Z.pos r) ∧
    (∀ b, apart b 4 a sizeof_regs → word_at t' b = word_at t b) ∧
    ∀ b, apart b sizeof_regs a sizeof_regs → regs_at t' b = regs_at t b)
}.
#[global] Arguments root_vn {S} regs {_ _ _ _ _ _ _ _}.

(** 1 for the vnode [o], 0 for the others. *)
Definition vn_one (o : option positive) (x : positive) : Z := if decide (o = Some x) then 1 else 0.

Lemma vn_one_Some (v x : positive) : vn_one (Some v) x = if decide (x = v) then 1 else 0.
Proof. unfold vn_one. destruct (decide (Some v = Some x)), (decide (x = v)); congruence. Qed.

Section call.
Context `{HE : ErrnoH, HI : IntrH, HP : PageH, HM : MmanH, HL : LimitsH, HH : ProcH, HF : ForkH}.
Context {S : Type} `{HO : !MmOps S, HML : !MmLaws S, HS : !SlabOps S, HK : !KernOps S}.
Context `{HV : !ForkView S} (regs : positive) `{HFL : !ForkLaws S regs}.
Local Abbreviation root_vn := (root_vn regs).
Local Abbreviation K := (kernel (vm S) context).
Implicit Types (v : vm S) (t : S) (N C : proc).

(** There is memory for what fork makes; a stack fits below the end of memory, holds the
    registers, and is not where the saved registers are. *)
Record fork_available : Prop := {
  av_objs : objs_available (S:=S);
  av_area v : is_Some (vmarea_slab v);
  av_map v : is_Some (vmmap_slab v);
  av_proc (s : K) : is_Some (k_proc_slab s);
  av_thread (s : K) : is_Some (k_kthread_slab s);
  av_pd t r t' : k_pt_create_pagedir t = Ret r t' → is_Some r;
  av_stack t r t' : k_page_alloc_n stack_pages t = Ret r t' → ∃ a, r = Some a ∧
    apart (Z.pos regs) sizeof_regs (Z.pos a) (stack_pages * PAGE_SIZE);
  av_regs : 0 <= sizeof_regs ∧ sizeof_regs + 12 <= DEFAULT_STACK_SIZE
}.

(** ** The states of the call

    From the creation of the process on, the call changes the record of the child, the
    threads and what lies beneath. *)
Section states.
Context (base : K) (child : procp).

Definition fk (ths : gmap tid kthread) (kms : gmap tid (kt_mem context)) N v : K :=
  Kernel (Sched ths (queues (sch base)) (curthr (sch base)) (curproc (sch base)) (ipl (sch base)))
    (<[child := N]> (procs base)) (proc_list base) (next_pid base) (proc_initproc base) kms v.

Lemma fk_get ths kms N v : proc_get child (fk ths kms N v) = Ret N (fk ths kms N v).
Proof using. unfold proc_get. simpl. by rewrite lookup_insert_eq. Qed.
Lemma fk_upd ths kms N v f : proc_upd child f (fk ths kms N v) = Ret tt (fk ths kms (f N) v).
Proof using.
  rewrite (proc_upd_run _ _ N) by apply lookup_insert_eq. unfold fk, with_procs. simpl.
  by rewrite insert_insert_eq.
Qed.
Lemma fk_ext {A} (m : M (vm S) A) ths kms N v a v' :
  m v = Ret a v' → on_ext m (fk ths kms N v) = Ret a (fk ths kms N v').
Proof using. intros Hm. by rewrite (on_ext_run m _ a v'). Qed.
Lemma fk_mm {A} (m : M S A) ths kms N v a t :
  m (mm v) = Ret a t → on_ext (on_mm m) (fk ths kms N v) = Ret a (fk ths kms N (set_mm t v)).
Proof using. intros Hm. apply fk_ext. by apply on_mm_eq. Qed.
Lemma fk_mems ths kms N v f : kt_mems_set f (fk ths kms N v) = Ret tt (fk ths (f kms) N v).
Proof using. done. Qed.
Lemma fk_sch {A} (m : M sched A) ths kms N v a x :
  m (sch (fk ths kms N v)) = Ret a x → queues x = queues (sch base) → curthr x = curthr (sch base) →
  curproc x = curproc (sch base) → ipl x = ipl (sch base) →
  on_sch m (fk ths kms N v) = Ret a (fk (threads x) kms N v).
Proof using.
  intros Hm Hq Ht Hp Hi. rewrite (on_sch_run m _ a x Hm). destruct x. simpl in *. by subst.
Qed.

(** ** The registers of the child *)

Lemma stack_size : DEFAULT_STACK_SIZE < stack_pages * PAGE_SIZE.
Proof using.
  unfold stack_pages. rewrite Z.shiftr_div_pow2 by (pose proof page_shift_range; lia).
  rewrite <- page_size_eq. pose proof page_size_gt.
  pose proof (Z.mul_succ_div_gt DEFAULT_STACK_SIZE PAGE_SIZE). lia.
Qed.

Definition child_esp (st : positive) : Z := Z.pos st + DEFAULT_STACK_SIZE - (sizeof_regs + 12).

(** The stack of the child: the argument of the entry function is a pointer to a copy of
    the registers. *)
Lemma setup_stack_run ths kms N v st :
  fork_available → Z.pos st + stack_pages * PAGE_SIZE <= U32 →
  apart (Z.pos regs) sizeof_regs (Z.pos st) (stack_pages * PAGE_SIZE) →
  ∃ t, fork_setup_stack regs (Some st) (fk ths kms N v) = Ret (child_esp st) (fk ths kms N (set_mm t v)) ∧
    mem_same (mm v) t ∧ saved regs (mm v) t ∧ word_at t (child_esp st + 4) = child_esp st + 8 ∧
    regs_at t (child_esp st + 8) = regs_at (mm v) (Z.pos regs).
Proof using HFL.
  intros Hav Htop Hap. destruct (av_regs Hav) as [Hs0 Hs]. pose proof stack_size.
  unfold fork_setup_stack, stack_addr.
  assert (u32 (u32 (Z.pos st + DEFAULT_STACK_SIZE) - u32 (sizeof_regs + 12)) = child_esp st) as ->.
  { rewrite (u32_small (_ + DEFAULT_STACK_SIZE)), (u32_small (sizeof_regs + 12)) by lia. unfold child_esp. apply u32_small. lia. }
  assert (0 <= child_esp st ∧ child_esp st + 12 + sizeof_regs <= Z.pos st + stack_pages * PAGE_SIZE ∧
    Z.pos st <= child_esp st) as (Hlo & Hhi & Hst) by (unfold child_esp; lia).
  rewrite !u32_small by lia.
  destruct (store_word_ok (child_esp st + 4) (child_esp st + 8) (mm v)) as ([] & t1 & H1 & Hm1 & Hw1 & He1).
  rewrite (bind_Ret _ _ _ _ _ (fk_mm _ ths kms N v _ _ H1)).
  destruct (copy_regs_ok (child_esp st + 8) regs t1) as ([] & t2 & H2 & Hm2 & He2 & Hw2 & Ho2).
  rewrite (bind_Ret _ _ _ _ _ (fk_mm _ ths kms N (set_mm t1 v) _ _ H2)).
  assert (regs_at t1 (Z.pos regs) = regs_at (mm v) (Z.pos regs)) as Hs1 by (apply He1; destruct Hap; [left|right]; lia).
  exists t2. split; [done|]. split; [by eapply mem_same_trans|]. split; [|split].
  - unfold saved. rewrite Ho2; [done|]. destruct Hap; [left|right]; lia.
  - rewrite Hw2; [done|]. left. lia.
  - by rewrite He2.
Qed.

Definition child_context (pd : option positive) (st : positive) : context :=
  Context pd (child_esp st) userland_entry DEFAULT_STACK_SIZE (Z.pos st).

Lemma setup_context_run ths kms N v nt st x b :
  fork_available → Z.pos st + stack_pages * PAGE_SIZE <= U32 →
  apart (Z.pos regs) sizeof_regs (Z.pos st) (stack_pages * PAGE_SIZE) →
  ∃ t, setup_process_context nt child regs (fk ths (<[nt := KtMem (Some st) (Some x) b]> kms) N v) =
      Ret tt (fk ths (<[nt := KtMem (Some st) (Some (child_context (p_pagedir N) st)) b]> kms) N (set_mm t v)) ∧
    mem_same (mm v) t ∧ word_at t (child_esp st + 4) = child_esp st + 8 ∧
    regs_at t (child_esp st + 8) = with_eax 0 (regs_at (mm v) (Z.pos regs)) ∧
    regs_at t (Z.pos regs) = with_eax (p_pid N) (regs_at (mm v) (Z.pos regs)).
Proof using HFL.
  intros Hav Htop Hap. unfold setup_process_context.
  destruct (set_r_eax_ok regs 0 (mm v)) as ([] & t1 & H1 & Hm1 & He1 & _).
  rewrite (bind_Ret _ _ _ _ _ (fk_mm _ _ _ N v _ _ H1)).
  rewrite (bind_Ret _ _ _ _ _ (fk_get _ _ _ _)). unfold ctx_upd.
  rewrite (bind_Ret _ _ _ _ _ (fk_mems _ _ _ _ _)), alter_insert_eq.
  erewrite bind_Ret by (unfold kt_mem_get; simpl; by rewrite lookup_insert_eq). simpl kt_kstack.
  destruct (setup_stack_run ths (<[nt := KtMem (Some st) (Some (set_c_pdptr (p_pagedir N) x)) b]> kms)
    N (set_mm t1 v) st Hav Htop Hap) as (t2 & H2 & Hm2 & Hs2 & Hw2 & He2).
  rewrite (bind_Ret _ _ _ _ _ H2).
  do 4 (rewrite (bind_Ret _ _ _ _ _ (fk_mems _ _ _ _ _)), alter_insert_eq).
  rewrite (bind_Ret _ _ _ _ _ (fk_get _ _ _ _)).
  destruct (set_r_eax_ok regs (p_pid N) t2) as ([] & t3 & H3 & Hm3 & He3 & Hw3 & Ho3).
  rewrite (fk_mm _ _ _ N (set_mm t2 (set_mm t1 v)) _ _ H3).
  destruct (av_regs Hav) as [Hs0 Hs]. pose proof stack_size.
  assert (Z.pos st <= child_esp st ∧ child_esp st + 12 + sizeof_regs <= Z.pos st + stack_pages * PAGE_SIZE)
    as [Hst Hhi] by (unfold child_esp; lia).
  exists t3. split; [done|]. split; [eauto using mem_same_trans|]. split; [|split].
  - rewrite Hw3; [done|]. destruct Hap; [right|left]; lia.
  - rewrite Ho3; [by rewrite He2, <- He1|]. destruct Hap; [right|left]; lia.
  - rewrite He3, Hs2. simpl. by rewrite He1.
Qed.

(** ** The files of the child *)

Context (cur : procp) (C : proc) (Hne : child ≠ cur).
Context (Hcur : curproc (sch base) = Some cur) (HC : procs base !! cur = Some C).

Lemma fk_curproc ths kms N v : curproc_get (fk ths kms N v) = Ret C (fk ths kms N v).
Proof using Hne Hcur HC.
  apply (curproc_get_run _ cur); [done|]. simpl. by rewrite lookup_insert_ne.
Qed.

Lemma copy_files_run ths kms v n i N :
  length (p_files C) = NFILES → length (p_files N) = NFILES → (i + n = NFILES)%nat →
  ∃ t, copy_files_loop n i child (fk ths kms N v) =
      Ret tt (fk ths kms (set_p_files (take i (p_files N) ++ drop i (p_files C)) N) (set_mm t v)) ∧
    objs_same (mm v) t ∧ regs_same (mm v) t ∧ (∀ x, vn_refs t x = vn_refs (mm v) x) ∧
    ∀ f, file_refs t f = file_refs (mm v) f + fd_count (drop i (p_files C)) f.
Proof using HFL Hne Hcur HC.
  intros HlC. revert i N v. induction n as [|n IH]; intros i N v HlN Hi; simpl.
  - exists (mm v). rewrite take_ge, drop_ge, app_nil_r by lia. split; [by destruct N, v|].
    split; [by apply mem_same_refl|]. do 2 (split; [done|]). intros f. unfold fd_count. simpl. lia.
  - rewrite (bind_Ret _ _ _ _ _ (fk_curproc _ _ _ _)).
    destruct (lookup_lt_is_Some_2 (p_files C) i) as [o Ho]; [lia|]. rewrite Ho. kstep.
    rewrite (bind_Ret _ _ _ _ _ (fk_upd _ _ _ _ _)). set (N' := set_p_files _ N).
    assert (∃ t1, (match o with Some f => on_ext (on_mm (fref f)) | None => ret tt end) (fk ths kms N' v) =
        Ret tt (fk ths kms N' (set_mm t1 v)) ∧ objs_same (mm v) t1 ∧ regs_same (mm v) t1 ∧
        (∀ x, vn_refs t1 x = vn_refs (mm v) x) ∧ ∀ f, file_refs t1 f = file_refs (mm v) f + if decide (o = Some f) then 1 else 0)
      as (t1 & H1 & Ho1 & Hr1 & Hv1 & Hf1).
    { destruct o as [f|].
      - destruct (fref_ok f (mm v)) as ([] & t1 & H1 & ? & ? & Hf & ?). exists t1.
        split; [by apply fk_mm|]. do 3 (split; [done|]). intros g. rewrite Hf.
        destruct (decide (g = f)), (decide (Some f = Some g)); congruence.
      - exists (mm v). split; [by destruct v|]. split; [by apply mem_same_refl|]. do 2 (split; [done|]).
        intros f. rewrite decide_False by done. lia. }
    rewrite (bind_Ret _ _ _ _ _ H1).
    destruct (IH (i + 1)%nat N' (set_mm t1 v)) as (t2 & H2 & Ho2 & Hr2 & Hv2 & Hf2); [by unfold N'; simpl; rewrite length_insert|lia|].
    exists t2. split; [|split; [by eapply objs_same_trans|split; [|split]]].
    + rewrite H2. unfold fk. do 3 f_equal. unfold N'. simpl. unfold set_p_files. simpl. f_equal.
      rewrite (drop_S _ _ _ Ho). replace (i + 1)%nat with (Datatypes.S i) by lia.
      rewrite (take_S_r _ i o) by (apply list_lookup_insert_eq; lia).
      rewrite take_insert_ge by lia. by rewrite <- (assoc_L (++)).
    + intros a. destruct (Hr1 a) as [<- <-], (Hr2 a) as [-> ->]. done.
    + intros x. by rewrite Hv2, <- Hv1.
    + intros f. rewrite Hf2. simpl. rewrite Hf1, (drop_S _ _ _ Ho), fd_count_cons.
      replace (i + 1)%nat with (Datatypes.S i) by lia. lia.
Qed.

Lemma copy_parent_files_run ths kms v N :
  length (p_files C) = NFILES → length (p_files N) = NFILES → p_cwd N = Some root_vn →
  ∃ t, copy_parent_files child (fk ths kms N v) =
      Ret tt (fk ths kms (set_p_cwd (p_cwd C) (set_p_files (p_files C) N)) (set_mm t v)) ∧
    objs_same (mm v) t ∧ regs_same (mm v) t ∧
    (∀ f, file_refs t f = file_refs (mm v) f + fd_count (p_files C) f) ∧
    ∀ x, vn_refs t x = vn_refs (mm v) x - vn_one (Some root_vn) x + vn_one (p_cwd C) x.
Proof using HFL Hne Hcur HC.
  intros HlC HlN Hcwd. unfold copy_parent_files.
  destruct (copy_files_run ths kms v NFILES 0 N HlC HlN eq_refl) as (t1 & H1 & Ho1 & Hr1 & Hv1 & Hf1).
  rewrite (bind_Ret _ _ _ _ _ H1), (bind_Ret _ _ _ _ _ (fk_get _ _ _ _)).
  cbn [take drop app p_cwd set_p_files]. rewrite drop_0 in *. rewrite Hcwd.
  destruct (k_vput_root_ok t1) as ([] & t2 & H2 & Ho2 & Hr2 & Hf2 & Hv2).
  rewrite (bind_Ret _ _ _ _ _ (fk_mm _ _ _ _ (set_mm t1 v) _ _ H2)).
  rewrite (bind_Ret _ _ _ _ _ (fk_curproc _ _ _ _)), (bind_Ret _ _ _ _ _ (fk_upd _ _ _ _ _)).
  set (N' := set_p_cwd _ _).
  assert (∃ t3, (match p_cwd C with Some v => on_ext (vref v) | None => ret tt end)
      (fk ths kms N' (set_mm t2 (set_mm t1 v))) = Ret tt (fk ths kms N' (set_mm t3 v)) ∧ objs_same t2 t3 ∧ regs_same t2 t3 ∧
      (∀ f, file_refs t3 f = file_refs t2 f) ∧ ∀ x, vn_refs t3 x = vn_refs t2 x + vn_one (p_cwd C) x)
    as (t3 & H3 & Ho3 & Hr3 & Hf3 & Hv3).
  { destruct (p_cwd C) as [vn|].
    - destruct (k_vref_ok vn t2) as ([] & t3 & H3 & Hm & Hr & Hf & Hv). exists t3.
      split; [by apply (fk_mm _ _ _ _ (set_mm t2 (set_mm t1 v)) _ _ H3)|]. do 3 (split; [done|]).
      intros x. by rewrite Hv, vn_one_Some.
    - exists t2. split; [done|]. split; [by apply mem_same_refl|]. do 2 (split; [done|]).
      intros x. unfold vn_one. rewrite decide_False by done. lia. }
  exists t3. split; [done|]. split; [by eauto using objs_same_trans|]. split; [|split].
  - intros a. destruct (Hr1 a) as [<- <-], (Hr2 a) as [<- <-], (Hr3 a) as [-> ->]. done.
  - intros f. by rewrite Hf3, Hf2, Hf1.
  - intros x. by rewrite Hv3, Hv2, Hv1, vn_one_Some.
Qed.

(** ** The thread of the child *)

(** What [do_fork] does once the thread is there. *)
Definition finish (newthr : tid) : M K Z :=
  on_sch (thr_upd newthr (set_kt_proc (Some child))) ;;;
  proc_upd child (λ P, set_p_threads (p_threads P ++ [newthr]) P) ;;;
  kt_mems_set (alter (λ m, KtMem (kt_kstack m) (kt_ctx m) true) newthr) ;;;
  C <- curproc_get ;;
  proc_upd child (set_p_brk (p_brk C)) ;;;
  C <- curproc_get ;;
  proc_upd child (set_p_start_brk (p_start_brk C)) ;;;
  on_sch (sched_make_runnable newthr) ;;;
  N <- proc_get child ;;
  ret (p_pid N).

Definition finished N nt : proc :=
  set_p_start_brk (p_start_brk C) (set_p_brk (p_brk C) (set_p_threads (p_threads N ++ [nt]) N)).

Lemma finish_run ths kms v N nt th st x Q :
  kt_wchan th = None → queues (sch base) !! kt_runq = Some Q →
  let s1 := fk (<[nt := set_kt_proc (Some child) th]> ths) (<[nt := KtMem st x true]> kms) (finished N nt) v in
  finish nt (fk (<[nt := th]> ths) (<[nt := KtMem st x false]> kms) N v) =
    Ret (p_pid N) (with_sch (enqueued kt_runq nt (set_kt_proc (Some child) th) Q (sch s1)) s1).
Proof using Hne Hcur HC.
  intros Hw HQ s1. unfold finish.
  rewrite (bind_Ret _ _ _ tt (fk (<[nt := set_kt_proc (Some child) th]> ths) (<[nt := KtMem st x false]> kms) N v)).
  2: { unfold on_sch, zoom, thr_upd, modify. simpl. by rewrite alter_insert_eq. }
  rewrite (bind_Ret _ _ _ _ _ (fk_upd _ _ _ _ _)), (bind_Ret _ _ _ _ _ (fk_mems _ _ _ _ _)), alter_insert_eq.
  do 2 (rewrite (bind_Ret _ _ _ _ _ (fk_curproc _ _ _ _)), (bind_Ret _ _ _ _ _ (fk_upd _ _ _ _ _))).
  fold (finished N nt). fold s1. erewrite bind_Ret.
  2: { apply on_sch_run. rewrite sched_make_runnable_eq. simpl. rewrite lookup_insert_eq, HQ. simpl.
       by rewrite Hw. }
  erewrite bind_Ret by (unfold proc_get; simpl; rewrite lookup_insert_eq; reflexivity). done.
Qed.
End states.

(** ** The process of the child *)

(** What the new process holds: the root of the file system as its working directory. *)
Definition child_held t t' : Prop :=
  objs_same t t' ∧ saved regs t t' ∧ (∀ f, file_refs t' f = file_refs t f) ∧
  ∀ x, vn_refs t' x = vn_refs t x + vn_one (Some root_vn) x.

(** The new process, before its files and thread. *)
Definition child_proc pid (p : procp) pd map : proc :=
  new_proc pid child_name (Some p) (Some pd) (Some root_vn) (Some map).
(** The address spaces once the process has one: an empty one, replaced later. *)
Definition child_vm v t m0 (child : positive) : vm S :=
  Vm (vmareas v) (<[m0 := Vmmap [] (Some child)]> (vmmaps v)) t.

Lemma parent_running (s : K) p C :
  curproc (sch s) = Some p → procs s !! p = Some C → p_state C = PROC_RUNNING → parent_ok s.
Proof using. intros Hcur HC Hst c Hc. rewrite Hcur in Hc. injection Hc as <-. by exists C. Qed.

Lemma child_create_run s p C pid :
  fork_available → proc_wf s → curproc (sch s) = Some p → procs s !! p = Some C →
  p_state C = PROC_RUNNING → pid_spec s pid → 1 < pid →
  ∃ child pd m0 t, proc_slab s = Some child ∧ vmmaps (ext s) !! m0 = None ∧ child_held (mm (ext s)) t ∧
    proc_create child_name s =
      Ret child (created s child pid (child_proc pid p pd m0) (child_vm (ext s) t m0 child)).
Proof using HFL.
  intros Hav Hwf Hcur HC Hst Hspec Hpid. destruct (av_proc Hav s) as [child Hslab].
  destruct (k_pt_create_pagedir_ok (mm (ext s))) as (r & t1 & H1 & [Ho1 [Hf1 Hv1]] & Hs1).
  destruct (av_pd Hav _ _ _ H1) as [pd ->].
  destruct (k_vref_ok root_vn t1) as ([] & t2 & H2 & Ho2 & Hr2 & Hf2 & Hv2).
  set (v2 := set_mm t2 (ext s)). destruct (av_map Hav v2) as [m0 Hm0].
  pose proof (vmmap_slab_fresh v2 m0 Hm0) as Hfresh.
  exists child, pd, m0, t2. split; [done|]. split; [done|]. split.
  { split; [by eapply objs_same_trans|]. split; [by etrans; [apply Hr2|]|].
    split; intros; by rewrite ?Hf2, ?Hf1, ?Hv2, ?Hv1, ?vn_one_Some. }
  replace (Some root_vn) with (vfs_root_vn (set_mm t1 (ext s))) by (apply root_vn_eq). unfold child_proc.
  rewrite <- Hcur. replace (Some root_vn) with (vfs_root_vn (set_mm t1 (ext s))) by (apply root_vn_eq).
  eapply (proc_create_exec s child pid child_name (Some pd) m0 (set_mm t1 (ext s)) v2
    (Vm (vmareas v2) (<[m0 := Vmmap [] None]> (vmmaps v2)) t2)); try done.
  - apply Hwf.
  - by eapply parent_running.
  - split; [rewrite pid_idle_eq; lia|rewrite pid_init_eq; lia].
  - by apply on_mm_eq.
  - replace (vfs_root_vn (set_mm t1 (ext s))) with (Some root_vn) by (symmetry; apply root_vn_eq).
    apply (on_mm_eq _ (set_mm t1 (ext s)) _ _ H2).
  - simpl. unfold Vmmap.vmmap_create, bind, modify, ret. by rewrite Hm0.
  - simpl. unfold map_upd, modify. simpl. rewrite alter_insert_eq. done.
Qed.

Lemma child_vm_wf v t m0 child map pr pl :
  vmmaps v !! m0 = None → vmmap_wf v map pr pl → vmmap_wf (child_vm v t m0 child) map pr pl.
Proof using.
  intros Hn [[Hl Ha] Hok]. split; [|done]. split; [|done]. simpl. rewrite lookup_insert_ne; [done|congruence].
Qed.
Lemma set_mm_wf v t map pr pl : vmmap_wf v map pr pl → vmmap_wf (set_mm t v) map pr pl.
Proof using. by intros [[??] ?]. Qed.

(** The pieces of [fork_memory] as the call runs them. *)
Lemma fork_memory_inv map child v r v' :
  fork_memory map child v = Ret r v' → ∃ v1 v2, vmmap_clone map v = Ret r v1 ∧
    map_upd r (λ m, Vmmap (vmm_list m) (Some child)) v1 = Ret tt v2 ∧ fork_areas map r v2 = Ret tt v'.
Proof using.
  intros (r1 & v1 & H1 & (u & v2 & H2 & (u' & v3 & H3 & [= -> ->])%bind_ret_inv)%bind_ret_inv)%bind_ret_inv.
  destruct u, u'. eauto.
Qed.

Lemma forked_page_kept t t' pg pg1 pg2 :
  kept t t' → forked_page t pg pg1 pg2 → forked_page t' pg pg1 pg2.
Proof using.
  intros Hk. destruct pg as [[[[obj i] pr] fl]|]; [|done]. intros (o & po & co & H1 & H2 & H3 & Hs).
  exists o, po, co. do 3 (split; [done|]). destruct (_ =? _); [done|]. destruct Hs as (Hne & b & Hp & Hc).
  split; [done|]. exists b. split; by eapply over_kept.
Qed.

(** ** The call *)

(** The process [N] is a child of [p] like [C], with the thread [nt]. *)
Record child_like C N pid (p : procp) (nt : tid) newmap : Prop := {
  ch_pid : p_pid N = pid;
  ch_parent : p_pproc N = Some p;
  ch_state : p_state N = PROC_RUNNING;
  ch_children : p_children N = Linked [];
  ch_threads : p_threads N = [nt];
  ch_pagedir : is_Some (p_pagedir N);
  ch_vmmap : p_vmmap N = Some newmap;
  ch_files : p_files N = p_files C;
  ch_cwd : p_cwd N = p_cwd C;
  ch_brk : p_brk N = p_brk C;
  ch_start_brk : p_start_brk N = p_start_brk C
}.

(** The thread [nt] will enter user mode in the process [child] with the page directory of
    [N] and the registers [rs]: the pointer that the entry function takes from its stack
    leads to them. *)
Definition enters_user (s : K) (child : procp) N (nt : tid) (rs : registers) : Prop :=
  ∃ th st ctx, threads (sch s) !! nt = Some th ∧ kt_state th = KT_RUN ∧ kt_proc th = Some child ∧
    kt_mems s !! nt = Some (KtMem (Some st) (Some ctx) true) ∧
    c_pdptr ctx = p_pagedir N ∧ c_eip ctx = userland_entry ∧ c_kstack ctx = Z.pos st ∧
    Z.pos st <= c_esp ctx < Z.pos st + DEFAULT_STACK_SIZE ∧
    word_at (mm (ext s)) (c_esp ctx + 4) = c_esp ctx + 8 ∧
    regs_at (mm (ext s)) (c_esp ctx + 8) = rs.

(** The address space of the parent at [map], and a copy of it at [newmap]. *)
Definition forked_maps v v' map newmap pr (child : positive) (pl : list (positive * vmarea)) : Prop :=
  ∃ pl1 pl2, vmmap_wf v' map pr pl1 ∧ vmmap_wf v' newmap (Some child) pl2 ∧
    (∀ vfn, forked_page (mm v') (page_at pl.*2 vfn) (page_at pl1.*2 vfn) (page_at pl2.*2 vfn)) ∧
    ∀ x, owned (mm v') x - obj_count x pl1.*2 - obj_count x pl2.*2 = owned (mm v) x - obj_count x pl.*2.

(** What the call starts from. *)
Record can_fork (s : K) p C tr th map pr (pl : list (positive * vmarea)) : Prop := {
  cf_wf : proc_wf s;
  cf_sched : sched_wf (sch s);
  cf_cur : curproc (sch s) = Some p;
  cf_proc : procs s !! p = Some C;
  cf_state : p_state C = PROC_RUNNING;
  cf_map : p_vmmap C = Some map;
  cf_curthr : curthr (sch s) = Some tr;
  cf_thread : threads (sch s) !! tr = Some th;
  cf_run : kt_state th = KT_RUN;
  cf_kt_proc : kt_proc th = Some p;
  cf_wchan : kt_wchan th = None;
  cf_areas : vmmap_wf (ext s) map pr pl;
  cf_objs : Forall (λ a, is_Some (vma_obj a)) pl.*2;
  cf_rooted : Forall (obj_rooted (mm (ext s))) pl.*2;
  cf_refs x : obj_count x pl.*2 <= owned (mm (ext s)) x
}.

(** The copy of the address space, in the states that [do_fork] runs it in. *)
Lemma fork_maps_run s p C tr th map pr pl child m0 t :
  fork_available → can_fork s p C tr th map pr pl → vmmaps (ext s) !! m0 = None →
  child_held (mm (ext s)) t → let v := child_vm (ext s) t m0 child in
  ∃ newmap v1 v2 v3, vmmap_clone map v = Ret newmap v1 ∧
    map_upd newmap (λ m, Vmmap (vmm_list m) (Some child)) v1 = Ret tt v2 ∧
    fork_areas map newmap v2 = Ret tt v3 ∧ forked_maps (ext s) v3 map newmap pr child pl ∧
    held_same t (mm v3) ∧ saved regs t (mm v3).
Proof using HFL.
  intros Hav Hcf Hm0 (Hos & _) v. pose proof (child_vm_wf (ext s) t m0 child map pr pl Hm0 (cf_areas _ _ _ _ _ _ _ _ Hcf)) as Hwf.
  destruct (av_map Hav v) as [newmap Hnew].
  destruct (fork_memory_spec (av_objs Hav) v map pr pl newmap child) as
    (r & v3 & Hr & -> & _ & pl1 & pl2 & Hwf1 & Hwf2 & Hf & _ & _ & _ & _ & Hown); try done.
  { apply (av_area Hav). }
  { apply Hcf. }
  { eapply obj_rooted_kept; [by apply objs_same_kept|apply Hcf|apply Hcf]. }
  { intros x. change (mm v) with t. destruct (Hos x) as (-> & _). apply Hcf. }
  destruct (fork_memory_inv _ _ _ _ _ Hr) as (v1 & v2 & H1 & H2 & H3).
  exists newmap, v1, v2, v3. do 3 (split; [done|]). split.
  - exists pl1, pl2. do 2 (split; [done|]). split; [intros vfn; by apply page_at_forked|].
    intros x. rewrite Hown. change (mm v) with t. by destruct (Hos x) as (-> & _).
  - by apply (fork_memory_kept _ (objs_keep_held t) v map child newmap v3 Hr).
Qed.

Lemma forked_maps_same v v1 map newmap pr child pl t :
  objs_same (mm v1) t → forked_maps v v1 map newmap pr child pl →
  forked_maps v (set_mm t v1) map newmap pr child pl.
Proof using.
  intros Hs (pl1 & pl2 & H1 & H2 & Hp & Ho). exists pl1, pl2. split; [by apply set_mm_wf|].
  split; [by apply set_mm_wf|]. split.
  - intros vfn. eapply forked_page_kept; [by apply objs_same_kept|apply Hp].
  - intros x. simpl. destruct (Hs x) as (-> & _). apply Ho.
Qed.

(** The state in which the child has its address space. *)
Lemma child_process_run s p C tr th map pr pl pid :
  fork_available → can_fork s p C tr th map pr pl → pid_spec s pid → 1 < pid →
  ∃ child pd m0 e newmap v2 v3, proc_slab s = Some child ∧
    let P := child_proc pid p pd m0 in
    let base := created s child pid P e in
    let N := set_p_vmmap (Some newmap) P in
    create_child_process s = Ret child (fk base child (threads (sch s)) (kt_mems s) N v2) ∧
    fork_areas map newmap v2 = Ret tt v3 ∧ forked_maps (ext s) v3 map newmap pr child pl ∧
    (∀ f, file_refs (mm v3) f = file_refs (mm (ext s)) f) ∧ saved regs (mm (ext s)) (mm v3) ∧
    ∀ x, vn_refs (mm v3) x = vn_refs (mm (ext s)) x + vn_one (Some root_vn) x.
Proof using HFL.
  intros Hav Hcf Hspec Hpid.
  destruct (child_create_run s p C pid Hav (cf_wf _ _ _ _ _ _ _ _ Hcf)) as
    (child & pd & m0 & t & Hslab & Hm0 & Hmem & Hcr); try done; [apply Hcf..|].
  destruct (fork_maps_run s p C tr th map pr pl child m0 t Hav Hcf Hm0 Hmem) as
    (newmap & v1 & v2 & v3 & H1 & H2 & H3 & Hmaps & [Hf Hv] & Hs). destruct Hmem as (_ & Hs0 & Hf0 & Hv0).
  exists child, pd, m0, (child_vm (ext s) t m0 child), newmap, v2, v3. split; [done|]. intros P base N.
  split; [|do 2 (split; [done|]); split; [intros f; by rewrite Hf|split; [by etrans|intros x; by rewrite Hv]]].
  unfold create_child_process. rewrite (bind_Ret _ _ _ _ _ Hcr). fold P. fold base.
  destruct (proc_slab_fresh s child Hslab) as [Hfresh _].
  pose proof (cf_cur _ _ _ _ _ _ _ _ Hcf) as Hcur. pose proof (cf_proc _ _ _ _ _ _ _ _ Hcf) as HC.
  assert (procs base !! p = Some (add_child child C)) as HpC.
  { apply created_lookup; [done|]. right. split; [congruence|]. exists C. split; [done|].
    by rewrite bool_decide_eq_true_2. }
  rewrite (bind_Ret _ _ _ (add_child child C) base).
  2: { by apply (curproc_get_run base p). }
  simpl p_vmmap. rewrite (cf_map _ _ _ _ _ _ _ _ Hcf). kstep.
  rewrite (bind_Ret _ _ _ _ _ (on_ext_run _ base _ _ H1)).
  rewrite (bind_Ret _ _ _ tt (with_procs (<[child := N]> (procs base)) (with_ext v1 base))).
  2: { apply (proc_upd_run (with_ext v1 base) child P). simpl. by rewrite lookup_insert_eq. }
  erewrite bind_Ret by (apply on_ext_run; exact H2). done.
Qed.

(** The state the call ends in. *)
Definition fork_end base child C N ths kms v nt th st ctx Q : K :=
  let s1 := fk base child (<[nt := set_kt_proc (Some child) th]> ths) (<[nt := KtMem (Some st) (Some ctx) true]> kms)
              (finished C (set_p_cwd (p_cwd C) (set_p_files (p_files C) N)) nt) v in
  with_sch (enqueued kt_runq nt (set_kt_proc (Some child) th) Q (sch s1)) s1.

(** From the state with the copied address space on. *)
Lemma fork_thread_run base child p C tr th N map v2 v3 newmap Q :
  fork_available → child ≠ p → curproc (sch base) = Some p → procs base !! p = Some C →
  p_vmmap C = Some map → length (p_files C) = NFILES → curthr (sch base) = Some tr →
  threads (sch base) !! tr = Some th → kt_state th = KT_RUN → kt_proc th = Some p → kt_wchan th = None →
  queues (sch base) !! kt_runq = Some Q →
  p_vmmap N = Some newmap → p_state N = PROC_RUNNING → is_Some (p_pagedir N) →
  length (p_files N) = NFILES → p_cwd N = Some root_vn → fork_areas map newmap v2 = Ret tt v3 →
  ∃ nt st t, threads (sch base) !! nt = None ∧ kt_mems base !! nt = None ∧ objs_same (mm v3) t ∧
    (∀ f, file_refs t f = file_refs (mm v3) f + fd_count (p_files C) f) ∧
    (∀ x, vn_refs t x = vn_refs (mm v3) x - vn_one (Some root_vn) x + vn_one (p_cwd C) x) ∧
    word_at t (child_esp st + 4) = child_esp st + 8 ∧
    regs_at t (child_esp st + 8) = with_eax 0 (regs_at (mm v3) (Z.pos regs)) ∧
    regs_at t (Z.pos regs) = with_eax (p_pid N) (regs_at (mm v3) (Z.pos regs)) ∧
    (∀ C0 s0, p_state C0 = PROC_RUNNING → curproc_get s0 = Ret C0 s0 →
      create_child_process s0 = Ret child (fk base child (threads (sch base)) (kt_mems base) N v2) →
      do_fork (Some regs) s0 = Ret (p_pid N)
        (fork_end base child C N (threads (sch base)) (kt_mems base) (set_mm t v3) nt (cloned th) st
           (child_context (p_pagedir N) st) Q)).
Proof using HFL.
  intros Hav Hne Hcur HC Hmap HlC Hct Hth Hrun Hkp Hwch HQ HNm HNs [pd HNp] HlN HNc Har.
  destruct (unmap_range_ok USER_MEM_LOW USER_MEM_HIGH (mm v3)) as ([] & t4 & H4 & Hm4).
  destruct (flush_all_ok t4) as ([] & t5 & H5 & Hm5).
  set (s5 := fk base child (threads (sch base)) (kt_mems base) N (set_mm t5 (set_mm t4 v3))).
  destruct (av_thread Hav s5) as [nt Hnt]. destruct (k_kthread_slab_fresh s5 nt Hnt) as [Hf1 Hf2].
  destruct (k_page_alloc_n_ok stack_pages t5) as (r & t6 & H6 & Hm6 & Htop).
  destruct (av_stack Hav _ _ _ H6) as (st & -> & Hap).
  destruct (k_context_setup_ok None 0 0 st DEFAULT_STACK_SIZE (p_pagedir C) t6) as (x & t7 & H7 & Hm7).
  { pose proof stack_size. destruct Hap; [left|right]; lia. }
  assert (quiet regs (mm v3) t7) as [Hq7 Hs7] by eauto 10 using quiet_trans.
  set (v7 := set_mm t7 (set_mm t6 (set_mm t5 (set_mm t4 v3)))).
  destruct (setup_context_run base child (<[nt := cloned th]> (threads (sch base))) (kt_mems base) N v7 nt st x false)
    as (t8 & H8 & Hm8 & Hw8 & He8 & Hr8); try done; [by apply Htop|].
  destruct (copy_parent_files_run base child p C Hne Hcur HC (<[nt := cloned th]> (threads (sch base)))
    (<[nt := KtMem (Some st) (Some (child_context (p_pagedir N) st)) false]> (kt_mems base)) (set_mm t8 v7) N)
    as (t9 & H9 & Ho9 & Hr9 & Hf9 & Hv9); try done.
  assert (mem_same (mm v3) t8) as [Ho8 [Hf8 Hv8]] by eauto using mem_same_trans.
  exists nt, st, t9. do 2 (split; [done|]). split; [by eapply objs_same_trans|].
  split; [intros f; rewrite Hf9; simpl; by rewrite Hf8|].
  split; [intros y; rewrite Hv9; simpl; by rewrite Hv8|].
  destruct (Hr9 (child_esp st + 4)) as [-> _], (Hr9 (child_esp st + 8)) as [_ ->], (Hr9 (Z.pos regs)) as [_ ->].
  change (mm (set_mm t8 v7)) with t8. rewrite Hw8, He8, Hr8. change (mm v7) with t7. rewrite Hs7. do 3 (split; [done|]). intros C0 s0 Hst0 Hcp Hcr. unfold do_fork. kstep.
  rewrite (bind_Ret _ _ _ _ _ Hcp), (bind_Ret _ _ _ _ _ (kassert_true _ s0 (bool_decide_eq_true_2 _ Hst0))).
  rewrite (bind_Ret _ _ _ _ _ Hcr), (bind_Ret _ _ _ _ _ (fk_curproc base child p C Hne Hcur HC _ _ _ _)).
  rewrite (bind_Ret _ _ _ _ _ (fk_get base child _ _ _ _)), Hmap, HNm. do 2 kstep.
  rewrite (bind_Ret _ _ _ _ _ (fk_ext base child _ _ _ _ _ _ _ Har)).
  rewrite (bind_Ret _ _ _ _ _ (fk_mm base child _ _ _ _ v3 _ _ H4)).
  rewrite (bind_Ret _ _ _ _ _ (fk_mm base child _ _ _ _ (set_mm t4 v3) _ _ H5)). fold s5.
  rewrite (bind_Ret _ _ _ tr s5).
  2: { apply (fk_sch base child curthr_get _ _ _ _ _ (sch s5)); try done. unfold curthr_get. simpl. by rewrite Hct. }
  assert (kthread_clone tr s5 = Ret nt (fk base child (<[nt := cloned th]> (threads (sch base)))
    (<[nt := KtMem (Some st) (Some x) false]> (kt_mems base)) N v7)) as Hcl.
  { apply (kthread_clone_exec s5 tr th p C nt (Some st) x (set_mm t6 (set_mm t5 (set_mm t4 v3)))); try done.
    - by apply on_mm_eq.
    - simpl. by rewrite lookup_insert_ne.
    - by apply on_mm_eq. }
  rewrite (bind_Ret _ _ _ _ _ Hcl), (bind_Ret _ _ _ _ _ (fk_get base child _ _ _ _)).
  rewrite (bind_Ret _ _ _ _ _ (kassert_true _ _ (bool_decide_eq_true_2 _ HNs))).
  assert (p_pagedir N ≠ None) as HNp' by congruence.
  rewrite (bind_Ret _ _ _ _ _ (kassert_true _ _ (bool_decide_eq_true_2 _ HNp'))).
  erewrite bind_Ret by (unfold kt_mem_get; simpl; by rewrite lookup_insert_eq).
  kstep. rewrite (bind_Ret _ _ _ _ _ H8), (bind_Ret _ _ _ _ _ H9).
  by apply (finish_run base child p C Hne Hcur HC _ _ _ (set_p_cwd (p_cwd C) (set_p_files (p_files C) N))).
Qed.

Lemma fork_end_wf base child P C N v nt th st ctx Q :
  proc_wf base → procs base !! child = Some P → threads (sch base) !! nt = None →
  queues (sch base) !! kt_runq = Some Q → length (p_files C) = length (p_files P) →
  same_links P N → proc_wf (fork_end base child C N (threads (sch base)) (kt_mems base) v nt th st ctx Q).
Proof using.
  intros Hwf HP' Hnt HQ Hl (Hpid & Hpp & Hs & Hch & Hth & _). set (m := KtMem (Some st) (Some ctx) true).
  apply (relinked_wf (threaded base child P nt m v)).
  2: { split; [apply threaded_wf; try done; apply Hwf|apply Hwf]. }
  split; simpl; try done.
  - intros q Hq. destruct (decide (kt_runq = q)) as [<-|Hne]; [rewrite lookup_insert_eq; eauto|by rewrite lookup_insert_ne].
  - intros t1 th1. destruct (decide (nt = t1)) as [<-|Hne].
    + rewrite !lookup_insert_eq. intros [= <-]. by eexists.
    + rewrite !lookup_insert_ne by done. by eexists.
  - intros q. destruct (decide (child = q)) as [<-|Hne].
    + rewrite !lookup_insert_eq. constructor. repeat split; simpl; congruence.
    + rewrite !lookup_insert_ne by done. destruct (procs base !! q); constructor. apply same_links_refl.
Qed.

Lemma fork_end_sched base child C N kms v nt th st ctx Q :
  sched_wf (sch base) → threads (sch base) !! nt = None → queues (sch base) !! kt_runq = Some Q →
  kt_wchan th = None →
  sched_wf (sch (fork_end base child C N (threads (sch base)) kms v nt (cloned th) st ctx Q)).
Proof using HI.
  intros Hsw Hnt HQ Hw. pose proof (sched_wf_new_thread (sch base) nt (set_kt_proc (Some child) (cloned th)) Hsw Hnt) as Hs.
  eapply make_runnable_wf; [by apply Hs|]. rewrite sched_make_runnable_eq. simpl.
  rewrite lookup_insert_eq, HQ. simpl. by rewrite Hw.
Qed.

(** C3: [do_fork] makes a child of the current process and returns its process number in
    the parent.  The child is entered in the process table and tree, with the files, the
    working directory and the heap of the parent, one more reference to every open file
    for each descriptor and one to the working directory, and a copy of the address space
    with copy-on-write; its thread is the last in the run queue, and when it runs it
    enters user mode on its own stack with the registers of the parent but 0 as the
    result, while the parent's keep their values but for the result, the process number.
    Process table, tree and queues stay consistent, and no other process changes.  There
    is memory for all of it. *)
Theorem do_fork_forks s p C tr th map pr pl pid :
  fork_available → can_fork s p C tr th map pr pl → pid_spec s pid → 1 < pid →
  let rs := regs_at (mm (ext s)) (Z.pos regs) in
  ∃ s' child N nt newmap, do_fork (Some regs) s = Ret pid s' ∧ proc_wf s' ∧ sched_wf (sch s') ∧
    procs s !! child = None ∧ procs s' = <[child := N]> (alter (add_child child) p (procs s)) ∧
    child_like C N pid p nt newmap ∧ enters_user s' child N nt (with_eax 0 rs) ∧
    regs_at (mm (ext s')) (Z.pos regs) = with_eax pid rs ∧
    waiting (sch s') kt_runq = waiting (sch s) kt_runq ++ [nt] ∧
    curproc (sch s') = Some p ∧ curthr (sch s') = Some tr ∧
    forked_maps (ext s) (ext s') map newmap pr child pl ∧
    (∀ f, file_refs (mm (ext s')) f = file_refs (mm (ext s)) f + fd_count (p_files C) f) ∧
    ∀ x, vn_refs (mm (ext s')) x = vn_refs (mm (ext s)) x + vn_one (p_cwd C) x.
Proof using HI HFL.
  intros Hav Hcf Hspec Hpid rs.
  destruct (child_process_run s p C tr th map pr pl pid Hav Hcf Hspec Hpid) as
    (child & pd & m0 & e & newmap & v2 & v3 & Hslab & Hcr & Har & Hmaps & Hfiles & Hsv & Hvn).
  destruct Hcf as [Hwf Hsw Hcur HC Hst Hmap Hct Hth Hrun Hkp Hwch _ _ _ _].
  set (P := child_proc pid p pd m0) in *. set (base := created s child pid P e) in *.
  set (N0 := set_p_vmmap (Some newmap) P) in *.
  destruct (proc_slab_fresh s child Hslab) as [Hfr Hfq]. destruct (pw_runq _ Hwf) as [Q HQ].
  assert (child ≠ p) as Hne by congruence.
  assert (queues (sch base) !! kt_runq = Some Q) as HQb.
  { simpl. by rewrite lookup_insert_ne by apply p_wait_runq. }
  destruct (fork_thread_run base child p (add_child child C) tr th N0 map v2 v3 newmap Q)
    as (nt & st & t & Hnt & Hmt & Hos & Hfs & Hvs & Hw & He & Hr & Hdo); try done.
  { apply created_lookup; [done|]. right. split; [done|]. exists C. by rewrite bool_decide_eq_true_2. }
  { simpl. by apply (pw_files _ Hwf p). }
  { simpl. by rewrite length_replicate. }
  rewrite Hsv in He, Hr. fold rs in He, Hr.
  pose proof (parent_running s p C Hcur HC Hst) as Hpar.
  assert (proc_wf base) as Hwfb.
  { subst base P. unfold child_proc. rewrite <- Hcur. apply created_proc_wf; [apply Hwf|done..|apply (pw_runq _ Hwf)]. }
  eexists _, child, _, nt, newmap. split; [|split; [|split; [|split; [done|split; [|split; [|split]]]]]].
  - apply (Hdo C s); [done| |done]. by apply (curproc_get_run s p).
  - apply (fork_end_wf base child P); try done.
    + simpl. by rewrite lookup_insert_eq.
    + simpl. rewrite length_replicate. by apply (pw_files _ Hwf p).
  - apply fork_end_sched; try done. by apply sched_wf_new_queue.
  - simpl. rewrite insert_insert_eq, Hcur. reflexivity.
  - by split.
  - eexists _, st, _. simpl. rewrite !lookup_insert_eq. do 7 (split; [done|]).
    destruct (av_regs Hav) as [??]. split; [simpl; unfold child_esp; lia|done].
  - do 1 (split; [done|]). split; [|split; [done|split; [done|split; [|split]]]].
    + unfold fork_end. cbn zeta. cbn [sch with_sch]. rewrite waiting_enqueued by done.
      unfold waiting. change (queues (sch (fk base child _ _ _ _))) with (queues (sch base)).
      by rewrite HQ, HQb.
    + by apply forked_maps_same.
    + intros f. simpl. rewrite Hfs. by rewrite Hfiles.
    + intros x. simpl. rewrite Hvs, Hvn. simpl. lia.
Qed.
End call.
