(* ===== verification/ForkMemory.v ===== *)
(** * Fork and the page cache: the memory of parent and child

    The address spaces of Vmmap over the page cache of Pframe: what [do_fork] does to
    the memory of the two processes, down to the bytes they read. *)
From S2P Require Import Prelude Headers Vmmap VmmapProps VmmapChange VmmapCopy VmmapBytes Pframe.
From S2P Require Import PframeProps PframeLookup PframeShadow PframeCow PframePut PframeMm PframePages.
From S2P Require Import Fork ForkProps ForkKeeps.
Local Open Scope kernel_scope.

Section forks.
Context `{HP : PageH, HM : MmanH, HH : PmemH} {X : Type}.
Context `{HX : !PmemExt X, HT : !OtherObj X, HR : !MmRest X, HRL : !MmRestLaws, HL : !ExtLaws}.
Context `{HS : !SlabOps (pmem X)}.
Local Abbreviation P := (pmem X).
Implicit Types (p q o b sh x : positive) (s : P) (v : vm P) (O : mmobj) (n : Z).

(** ** What the code changes in the page cache *)

(** No frame changes, objects keep their functions, and new objects are shadow
    objects. *)
Record forks_to s s' : Prop := ForksTo {
  fk_frames : frames s' = frames s;
  fk_wf : pmem_wf s → pmem_wf s';
  fk_old o O : objs s !! o = Some O → ∃ O', objs s' !! o = Some O' ∧ mmo_ops O' = mmo_ops O;
  fk_new o O' : objs s' !! o = Some O' → objs s !! o = None → mmo_ops O' = shadow_mmobj_ops;
  fk_areas : same_areas (pext s) (pext s')
}.

Lemma forks_refl s : forks_to s s.
Proof. split; try done; [by eauto|]. congruence. Qed.

Lemma forks_trans s1 s2 s3 : forks_to s1 s2 → forks_to s2 s3 → forks_to s1 s3.
Proof.
  intros [F1 W1 O1 N1 A1] [F2 W2 O2 N2 A2]. split; [congruence|auto| | |by eapply same_areas_trans].
  - intros o O (O' & Ho' & Hop)%O1. destruct (O2 _ _ Ho') as (O'' & ? & ?). exists O''. split; congruence.
  - intros o O'' Ho Hn. destruct (objs s2 !! o) as [O'|] eqn:Ho'; [|by eapply N2].
    destruct (O2 _ _ Ho') as (? & ? & ?). rewrite <- (N1 o O' Ho' Hn). congruence.
Qed.

(** An object that differs in its references, links or areas only. *)
Definition same_cached O O' : Prop :=
  mmo_ops O' = mmo_ops O ∧ mmo_nrespages O' = mmo_nrespages O ∧ mmo_respages O' = mmo_respages O ∧
  mmo_refcount O <= mmo_refcount O'.

Lemma forks_insert s e o O O' :
  objs s !! o = Some O → same_cached O O' → same_areas (pext s) e →
  forks_to s (set_ext e (set_objs (<[o := O']> (objs s)) s)).
Proof.
  intros Ho (Hop & Hn & Hres & Href) He. split; [done| | | |done].
  - intros [[Hobj Hu Hcn Hch Hrn Hnr Hr] Hpn Hrefs]. split; [split; simpl; try done|done|]; simpl.
    + intros p y (o' & n & O1 & -> & HO1)%Hobj. destruct (decide (o' = o)) as [-> |Hne].
      * eexists _, _, _. split; [done|]. apply lookup_insert_eq.
      * eexists _, _, _. split; [done|]. by rewrite lookup_insert_ne.
    + intros o' O1. rewrite lookup_insert_Some. intros [[<- <-]|[_ H1]]; [rewrite Hres|]; by eapply Hrn.
    + intros o' O1. rewrite lookup_insert_Some. intros [[<- <-]|[_ H1]]; [rewrite Hn, Hres|]; by eapply Hnr.
    + intros o' O1 p. rewrite lookup_insert_Some. intros [[<- <-]|[_ H1]]; [rewrite Hres|]; by eapply Hr.
    + intros o' O1. rewrite lookup_insert_Some. intros [[<- <-]|[_ H1]]; [|by eapply Hrefs].
      specialize (Hrefs _ _ Ho). lia.
  - intros o' O1 HO1. simpl. destruct (decide (o' = o)) as [-> |Hne].
    + rewrite lookup_insert_eq. exists O'. split; [done|]. congruence.
    + rewrite lookup_insert_ne by done. by exists O1.
  - intros o' O1. simpl. rewrite lookup_insert_Some. intros [[<- <-]|[_ H1]]; congruence.
Qed.

Lemma forks_fresh s o :
  objs s !! o = None →
  forks_to s (set_objs (<[o := set_mmo_refcount 1 (mmobj_init shadow_mmobj_ops)]> (objs s)) s).
Proof.
  intros Ho. split; [done| | | |done].
  - intros [[Hobj Hu Hcn Hch Hrn Hnr Hr] Hpn Hrefs]. split; [split; simpl; try done|done|]; simpl.
    + intros p y (o' & n & O1 & -> & HO1)%Hobj. eexists _, _, _. split; [done|].
      rewrite lookup_insert_ne; [done|congruence].
    + intros o' O1. rewrite lookup_insert_Some. intros [[<- <-]|[_ H1]]; [apply NoDup_nil_2|by eapply Hrn].
    + intros o' O1. rewrite lookup_insert_Some. intros [[<- <-]|[_ H1]]; [done|by eapply Hnr].
    + intros o' O1 p. rewrite lookup_insert_Some. intros [[<- <-]|[_ H1]]; [|by eapply Hr].
      simpl. rewrite elem_of_nil. split; [done|]. intros (n & (? & ? & O2 & [= <- _] & HO2)%Hobj). congruence.
    + intros o' O1. rewrite lookup_insert_Some. intros [[<- <-]|[_ H1]]; [simpl; lia|by eapply Hrefs].
  - intros o' O1 HO1. exists O1. simpl. rewrite lookup_insert_ne; [done|congruence].
  - intros o' O1. simpl. rewrite lookup_insert_Some. intros [[<- <-]|[_ H1]]; [done|congruence].
Qed.

(** ** The operations that fork uses *)

Section keeps.
Context (s0 : P).

(** Nothing but such changes since the state [s0]. *)
Definition since s : Prop := forks_to s0 s.

Lemma since_obj_set o f :
  (∀ O, same_cached O (f O)) → keeps (λ _, since) since (obj_set o f).
Proof.
  intros Hf s Hs. destruct (objs s !! o) as [O|] eqn:Ho.
  - rewrite (obj_set_eq s o O f Ho). simpl. eapply forks_trans; [done|].
    by apply (forks_insert s (pext s) o O (f O)).
  - unfold obj_set, bind, obj_get. by rewrite Ho.
Qed.

Lemma since_bottom o : keeps (λ _, since) since (bottom_obj o).
Proof.
  intros s Hs. unfold bottom_obj, bind, obj_get. destruct (objs s !! o) as [O|]; [|done]. simpl.
  by destruct (mmo_shadowed O); [destruct (mmo_bottom_obj O)|].
Qed.

Lemma since_create : keeps (λ _, since) since Pframe.shadow_create.
Proof using HRL.
  intros s Hs. unfold Pframe.shadow_create. kstep. destruct (shadow_slab_some s) as [o Ho]. rewrite Ho. kstep.
  simpl. eapply forks_trans; [done|]. apply forks_fresh. by apply shadow_slab_fresh.
Qed.

Lemma since_ref o : keeps (λ _, since) since (Pframe.mmo_ref o).
Proof using HRL.
  intros s Hs. destruct (objs s !! o) as [O|] eqn:Ho.
  2: { unfold Pframe.mmo_ref, bind, obj_get. by rewrite Ho. }
  destruct (decide (0 < mmo_refcount O)) as [Hr|Hr].
  - destruct (mmo_ref_run s o O Ho Hr) as (e & Ha & He). rewrite He. simpl. eapply forks_trans; [done|].
    apply (forks_insert s e o O); [done| |done]. repeat split; simpl; lia.
  - assert (Pframe.mmo_ref o s = Panic) as Hp; [|by rewrite Hp].
    assert (0 <? mmo_refcount O = false) as Hf by (apply Z.ltb_ge; lia).
    unfold Pframe.mmo_ref. rewrite (bind_Ret _ _ _ _ _ (obj_get_eq _ _ _ Ho)). destruct (mmo_ops O) eqn:Hop.
    + unfold anon_ref. by rewrite (bind_Ret _ _ _ _ _ (obj_get_eq _ _ _ Ho)), Hf.
    + unfold shadow_ref. by rewrite (bind_Ret _ _ _ _ _ (obj_get_eq _ _ _ Ho)), Hf.
    + pose proof (other_ref_spec s o O Ho Hop) as Hs'. by rewrite Hf in Hs'.
Qed.

Lemma since_objs : objs_keep since.
Proof using HRL.
  split; intros; simpl; auto using since_create, since_bottom, since_ref; apply since_obj_set;
    intros ?; repeat split; done.
Qed.
End keeps.

Lemma fork_forks v map child r v' :
  fork_memory map child v = Ret r v' → forks_to (mm v) (mm v').
Proof using HRL.
  intros Hr. apply (fork_memory_kept _ (since_objs (mm v)) v map child r v' Hr). apply forks_refl.
Qed.

(** ** What the new objects show *)

Lemma unused_fresh s o : pmem_wf s → ¬ in_use s o → objs s !! o = None.
Proof.
  intros [Hi _ Hr] Hn. destruct (objs s !! o) as [O|] eqn:Ho; [|done]. destruct Hn. exists O. split; [done|].
  specialize (Hr _ _ Ho). rewrite (iw_nres _ _ _ Hi _ _ Ho) in Hr. lia.
Qed.

Lemma obj_in_use s o O : pmem_wf s → objs s !! o = Some O → in_use s o.
Proof.
  intros Hwf Ho. destruct (decide (0 < mmo_refcount O)) as [?|Hn]; [by exists O|].
  assert (objs s !! o = None); [|congruence]. apply unused_fresh; [done|].
  intros (O' & Ho' & ?). simplify_eq. lia.
Qed.

(** An object of before, as it is after. *)
Lemma forks_obj s s' o O :
  pmem_wf s → forks_to s s' → kept s s' → objs s !! o = Some O →
  ∃ O', objs s' !! o = Some O' ∧ mmo_ops O' = mmo_ops O ∧ mmo_shadowed O' = mmo_shadowed O ∧
    mmo_bottom_obj O' = mmo_bottom_obj O.
Proof.
  intros Hwf Hf Hk Ho. destruct (fk_old _ _ Hf _ _ Ho) as (O' & Ho' & Hop).
  destruct (Hk o (obj_in_use _ _ _ Hwf Ho)) as (_ & Hs & Hb). simpl in Hs, Hb.
  unfold obj_below, obj_bottom in Hs, Hb. rewrite Ho, Ho' in Hs, Hb. by exists O'.
Qed.

Section after.
Context s s' (Hwf : pmem_wf s) (Hf : forks_to s s') (Hk : kept s s').

Lemma forks_sees o n d : sees s o n d → sees s' o n d.
Proof using Hwf Hf Hk.
  induction 1 as [o n p f Hp Hfo Hn|o n O Ho Ha Hs Hr|o n O sh d Ho Hs Hr Hd IH].
  - eapply (sees_resident _ _ _ p); [by rewrite (fk_frames _ _ Hf)|done|done].
  - destruct (forks_obj s s' o O Hwf Hf Hk Ho) as (O' & ? & ? & ? & _).
    eapply sees_zero; [done|congruence|congruence|]. intros q g. rewrite (fk_frames _ _ Hf). apply Hr.
  - destruct (forks_obj s s' o O Hwf Hf Hk Ho) as (O' & ? & ? & Hsh & _).
    eapply sees_below; [done|by rewrite Hsh| |done]. intros q g. rewrite (fk_frames _ _ Hf). apply Hr.
Qed.

Lemma forks_chain o b k : chain s o b k → chain s' o b k.
Proof using Hwf Hf Hk.
  induction 1 as [o O Ho Hs|o O sh b k Ho Hs Hc IH];
    destruct (forks_obj s s' o O Hwf Hf Hk Ho) as (O' & ? & ? & ? & _); econstructor; try done; congruence.
Qed.

Lemma forks_plain o : plain s o → plain s' o.
Proof using Hwf Hf Hk.
  intros (O & Ho & Hop & Hs). destruct (forks_obj s s' o O Hwf Hf Hk Ho) as (O' & ? & ? & ? & _).
  exists O'. split_and!; congruence.
Qed.

Lemma forks_usable o : usable s o → usable s' o.
Proof using Hwf Hf Hk.
  intros [Hp|(b & k & [(O & Ho & Hop & Hb) Hc Hp])]; [left; by apply forks_plain|].
  right. exists b, k. split; [|by apply forks_chain|by apply forks_plain].
  destruct (forks_obj s s' o O Hwf Hf Hk Ho) as (O' & ? & ? & ? & ?). exists O'. split_and!; congruence.
Qed.

(** Only objects of before are found below an object of before. *)
Lemma forks_above o x : usable s o → above s' o x → is_Some (objs s !! x).
Proof using Hwf Hf Hk.
  intros (b & k & Hc & _)%usable_chain. induction Hc as [o O Ho Hs|o O sh b k Ho Hs Hc IH]; intros Ha;
    destruct (forks_obj s s' o O Hwf Hf Hk Ho) as (O' & Ho' & _ & Hs' & _);
    inversion Ha as [|? O1 sh1 ? HO1 HS1 Ha1]; subst; simplify_eq; try congruence; try by eexists.
  apply IH. congruence.
Qed.

(** The bottom that a shadow object over a usable object is given. *)
Lemma bottom_usable o b :
  usable s o → bottom_is s' o b → ∃ k, chain s' o b k ∧ plain s' b.
Proof using Hwf Hf Hk.
  intros Hu Hb. destruct (forks_usable o Hu) as [(O & Ho & Hop & Hs)|(b' & k & [(O & Ho & _ & HB) Hc Hp])];
    unfold bottom_is in Hb; simpl in Hb; unfold obj_below, obj_bottom in Hb; rewrite Ho in Hb; simpl in Hb.
  - rewrite Hs in Hb. subst b. exists 0%nat. split; [by econstructor|]. by exists O.
  - exists (S k). inversion Hc as [|? O1 sh1 ? ? HO1 HS1 _]; subst. simplify_eq. rewrite HS1 in Hb.
    by simplify_eq.
Qed.

Lemma over_usable sh o b :
  usable s o → objs s !! sh = None → over s' sh o b → usable s' sh.
Proof using Hwf Hf Hk.
  intros Hu Hn [(SH & HSH & _) Hs Hb _ _ Hbi]. destruct (bottom_usable o b Hu Hbi) as (k & Hc & Hp).
  simpl in Hs, Hb. unfold obj_below, obj_bottom in Hs, Hb. rewrite HSH in Hs, Hb. simpl in Hs, Hb.
  right. exists b, k. split; [|by econstructor|done].
  exists SH. split; [done|]. split; [by eapply fk_new|done].
Qed.

Lemma over_content sh o b n :
  usable s o → objs s !! sh = None → over s' sh o b → page_content s' (sh, n) = page_content s (o, n).
Proof using Hwf Hf Hk.
  intros Hu Hn Hov. pose proof (over_usable sh o b Hu Hn Hov) as Hu'.
  destruct Hov as [(SH & HSH & _) Hs _ _ _ _]. simpl in Hs. unfold obj_below in Hs. rewrite HSH in Hs.
  apply page_content_eq; [by apply (fk_wf _ _ Hf)|done|].
  eapply sees_below; [done|done| |by apply forks_sees, page_content_sees].
  intros p f. rewrite (fk_frames _ _ Hf). intros Hp [Hfo _].
  destruct (pmem_wf_frame s p f Hwf Hp) as (o' & O' & ? & ? & _). congruence.
Qed.

Lemma forks_content o n : usable s o → page_content s' (o, n) = page_content s (o, n).
Proof using Hwf Hf Hk.
  intros Hu. apply page_content_eq; [by apply (fk_wf _ _ Hf)|by apply forks_usable|].
  by apply forks_sees, page_content_sees.
Qed.

Lemma forks_mem_ok : mem_ok s → mem_ok s'.
Proof using Hf.
  intros [? Hok]. split; [by apply (fk_wf _ _ Hf)|]. intros p f. rewrite (fk_frames _ _ Hf). apply Hok.
Qed.
End after.
End forks.
