(* ===== verification/ForkIsolate.v ===== *)
(** * Fork: neither process sees what the other stores

    The theorem that copy-on-write is for: through [do_fork]'s copy of the address
    space, [vmmap_write] and [vmmap_read], down to the page cache. *)
From S2P Require Import Prelude Headers Vmmap VmmapProps VmmapChange VmmapCopy VmmapBytes Pframe.
From S2P Require Import PframeProps PframeLookup PframeShadow PframeCow PframeMm PframePages.
From S2P Require Import Fork ForkProps ForkMemory.
Local Open Scope kernel_scope.

(** ** One of the two address spaces *)

Section space.
Context `{HP : PageH, HM : MmanH} {S : Type} `{HO : !MmOps S, HL : !MmLaws S}.
Implicit Types (o x : positive) (t : S) (a : vmarea) (al : list vmarea).

(** The area [a] of before, and what the parent or the child has in its place. *)
Definition forked_to t a a' : Prop := same_pages a a' ∧ ∃ o o', vma_obj a = Some o ∧ vma_obj a' = Some o' ∧
  if is_shared a then o' = o else ∃ b, over t o' o b.

Lemma forked_both t al al1 al2 :
  Forall3 (forked t) al al1 al2 → Forall2 (forked_to t) al al1 ∧ Forall2 (forked_to t) al al2.
Proof.
  induction 1 as [|a a1 a2 al al1 al2 (o & po & co & Ho & -> & Heq & Hco & Hsh) _ [IH1 IH2]]; [done|].
  split; constructor; try done; (split; [done|]); [exists o, po|exists o, co]; (do 2 (split; [done|]));
    (destruct (is_shared a); [by destruct Hsh as [-> ->]|]); destruct Hsh as (_ & b & ? & ?); by exists b.
Qed.

(** The area that a page is in, in both. *)
Lemma page_at_fork t al al' vfn pg :
  Forall2 (forked_to t) al al' → page_at al' vfn = Some pg →
  ∃ j a a', al !! j = Some a ∧ al' !! j = Some a' ∧ forked_to t a a' ∧ covers vfn a' = true ∧
    pg = a_page vfn a' ∧ page_at al vfn = Some (a_page vfn a).
Proof.
  induction 1 as [|a a' al al' Ha Hal IH]; [done|].
  rewrite (page_at_app [a'] al'), (page_at_app [a] al), !page_at_one.
  assert (covers vfn a = covers vfn a') as -> by (destruct Ha as [[= Hs He _ _ _] _]; unfold covers; by rewrite Hs, He).
  destruct (covers vfn a') eqn:Hc.
  - intros [= <-]. exists 0%nat, a, a'. by rewrite Hc.
  - intros (j & b & b' & Hj & Hj' & Hrest)%IH. by exists (Datatypes.S j), b, b'.
Qed.

Lemma page_at_fork_back t al al' vfn :
  Forall2 (forked_to t) al al' → is_Some (page_at al vfn) → is_Some (page_at al' vfn).
Proof.
  induction 1 as [|a a' al al' Ha Hal IH]; [done|].
  rewrite (page_at_app [a'] al'), (page_at_app [a] al), !page_at_one.
  assert (covers vfn a = covers vfn a') as -> by (destruct Ha as [[= Hs He _ _ _] _]; unfold covers; by rewrite Hs, He).
  destruct (covers vfn a'); [by eexists|done].
Qed.

Lemma private_objs_in al al' j a a' x :
  al !! j = Some a → al' !! j = Some a' → is_shared a = false → vma_obj a' = Some x →
  x ∈ private_objs al al'.
Proof.
  revert al' j. induction al as [|b al IH]; intros [|b' al'] [|j]; simpl; try done; intros Ha Ha' Hs Hx; simplify_eq.
  - unfold new_objs. rewrite Hs, Hx. set_solver.
  - apply elem_of_app. right. by eapply IH.
Qed.

(** Different areas have different new objects. *)
Lemma private_objs_inj al al' j k a a' b b' x :
  NoDup (private_objs al al') → al !! j = Some a → al' !! j = Some a' → is_shared a = false →
  al !! k = Some b → al' !! k = Some b' → is_shared b = false →
  vma_obj a' = Some x → vma_obj b' = Some x → j = k.
Proof.
  revert al' j k. induction al as [|c al IH]; intros [|c' al'] [|j] [|k]; simpl; try done;
    intros Hnd Ha Ha' Hs Hb Hb' Hs' Hx Hx'; simplify_eq;
    [..|f_equal; eapply IH; try done; by apply NoDup_app in Hnd as (_ & _ & ?)].
  - exfalso. unfold new_objs in Hnd. rewrite Hs, Hx in Hnd. apply NoDup_app in Hnd as (_ & Hd & _). apply (Hd x); [set_solver|].
    by eapply private_objs_in.
  - exfalso. unfold new_objs in Hnd. rewrite Hs', Hx' in Hnd. apply NoDup_app in Hnd as (_ & Hd & _). apply (Hd x); [set_solver|].
    by eapply private_objs_in.
Qed.

(** Pages of one area are different pages of its object. *)
Lemma area_page_inj map a vfn vfn' :
  area_ok map a → covers vfn a = true → covers vfn' a = true →
  u32 (u32 (vfn - vma_start a) + vma_off a) = u32 (u32 (vfn' - vma_start a) + vma_off a) → vfn = vfn'.
Proof.
  intros [Hlo Hlen Hhi Hoff _ _] Hc%covers_true Hc'%covers_true. pose proof user_pn_range as Hr.
  rewrite !u32_add_l. intros Heq. unfold u32 in Heq.
  assert (vfn - vma_start a + vma_off a - (vfn' - vma_start a + vma_off a) = vfn - vfn') as Hd by lia.
  assert ((vfn - vfn') mod U32 = 0) as Hz by (by rewrite <- Hd, Zminus_mod, Heq, Z.sub_diag).
  apply Z.mod_divide in Hz as [q Hq]; [|done]. unfold U32 in *. lia.
Qed.
End space.

(** ** Both address spaces over the page cache *)

Section isolate.
Context `{HP : PageH, HM : MmanH, HH : PmemH} {X : Type}.
Context `{HX : !PmemExt X, HT : !OtherObj X, HR : !MmRest X, HRL : !MmRestLaws, HL : !ExtLaws}.
Context `{HS : !SlabOps (pmem X), HA : !MemoryAvailable}.
Local Abbreviation P := (pmem X).
Implicit Types (o : positive) (s t : P) (v : vm P) (a : vmarea) (al : list vmarea).

(** The area is on an anonymous object, or on shadow objects over one. *)
Definition obj_usable s a : Prop := ∃ o, vma_obj a = Some o ∧ usable s o.

(** Every address of the range is in a private mapping. *)
Definition private_range al (lo n : Z) : Prop := ∀ addr obj i prot flags, lo <= addr < lo + n →
  page_at al (ADDR_TO_PN addr) = Some (obj, i, prot, flags) → MAP_SHARED =? Z.land flags MAP_TYPE = false.

Lemma usable_rooted s a : pmem_wf s → obj_usable s a → obj_rooted s a.
Proof.
  intros Hwf (o & Ho & Hu) o' Ho'. simplify_eq. unfold rooted. simpl. unfold obj_below, obj_bottom.
  destruct Hu as [(O & HO & _ & Hs)|(b & k & [(O & HO & _ & Hb) _ (B & HB & _)])]; rewrite HO; simpl.
  - by rewrite Hs.
  - destruct (mmo_shadowed O); [|done]. exists b. split; [done|]. by eapply obj_in_use.
Qed.

(** What a fork leaves: [t] before, [t'] after, and the areas of one of the two. *)
Section one.
Context t t' (map : positive) al al' (Hok : mem_ok t) (Hf : forks_to t t') (Hk : kept t t').
Context (Hal : areas_ok map al') (Hfk : Forall2 (forked_to t') al al').
Context (Hnd : NoDup (private_objs al al')) (Hnew : ∀ x, x ∈ private_objs al al' → ¬ in_use t x).
Context (Hus : Forall (obj_usable t) al).

Lemma fork_area_at addr x' :
  obj_page al' addr = Some x' → ∃ j a a' o, al !! j = Some a ∧ al' !! j = Some a' ∧
    forked_to t' a a' ∧ covers (ADDR_TO_PN addr) a' = true ∧ vma_obj a = Some o ∧ usable t o ∧
    vma_obj a' = Some x'.1 ∧ x'.2 = u32 (u32 (ADDR_TO_PN addr - vma_start a') + vma_off a') ∧
    page_at al (ADDR_TO_PN addr) = Some (a_page (ADDR_TO_PN addr) a) ∧ obj_page al addr = Some (o, x'.2).
Proof using Hfk Hus.
  unfold obj_page. intros Hx. destruct (page_at al' (ADDR_TO_PN addr)) as [pg|] eqn:Hpg; [|done].
  destruct (page_at_fork _ _ _ _ _ Hfk Hpg) as (j & a & a' & Hj & Hj' & Hfa & Hc & -> & Hpa).
  destruct (proj1 (Forall_lookup _ _) Hus j a Hj) as (o & Ho & Hu).
  unfold a_page in Hx. destruct (vma_obj a') as [o'|] eqn:Ho'; [|done]. simplify_eq. simpl.
  exists j, a, a', o. do 8 (split; [done|]). split; [done|]. rewrite Hpa. unfold a_page. rewrite Ho.
  destruct Hfa as [[= Hst _ Hof _ _] _]. by rewrite Hst, Hof.
Qed.

(** The page behind an address shows what it showed before the fork. *)
Lemma fork_page_kept addr x' :
  obj_page al' addr = Some x' → ∃ o, obj_page al addr = Some (o, x'.2) ∧ page_ok t' x' ∧
    page_content t' x' = page_content t (o, x'.2).
Proof using Hok Hf Hk Hfk Hnew Hus.
  intros Hx. destruct (fork_area_at addr x' Hx)
    as (j & a & a' & o & Hj & Hj' & (_ & o1 & o' & Ho1 & Ho' & Hsh) & _ & Ho & Hu & Hx1 & _ & _ & Hpg).
  destruct x' as [x1 i]. simpl in *. simplify_eq. exists o1. split; [done|].
  pose proof (forks_mem_ok _ _ Hf Hok) as Hok'. pose proof (mk_wf _ Hok) as Hwf.
  destruct (is_shared a) eqn:Hs.
  - subst o'. split; [split; [done|by eapply forks_usable]|by eapply forks_content].
  - destruct Hsh as [b Hov]. assert (objs t !! o' = None) as Hn
      by (eapply unused_fresh; [done|]; apply Hnew; by eapply private_objs_in).
    split; [split; [done|by eapply over_usable]|by eapply over_content].
Qed.

Lemma fork_page_exists addr : is_Some (obj_page al addr) → is_Some (obj_page al' addr).
Proof using Hfk.
  intros [x Hx]. assert (is_Some (page_at al' (ADDR_TO_PN addr))) as [pg Hpg].
  { eapply page_at_fork_back; [done|]. unfold obj_page in Hx. by destruct (page_at al _). }
  destruct (page_at_fork _ _ _ _ _ Hfk Hpg) as (j & a & a' & _ & _ & (_ & o & o' & _ & Ho' & _) & _ & Hpg' & _).
  unfold obj_page. rewrite Hpg, Hpg'. unfold a_page. rewrite Ho'. by eexists.
Qed.

Lemma fork_byte addr : is_Some (obj_page al addr) → byte_at t' al' addr = byte_at t al addr.
Proof using Hok Hf Hk Hfk Hnew Hus.
  intros [y Hy]%fork_page_exists. destruct (fork_page_kept addr y Hy) as (o & Ho & _ & Hc).
  unfold byte_at. rewrite Hy, Ho. simpl. by rewrite Hc.
Qed.

Lemma fork_mapped lo n : mapped t al lo n → mapped t' al' lo n.
Proof using Hok Hf Hk Hfk Hnew Hus.
  intros Hm addr Ha. destruct (Hm addr Ha) as (x & Hx & _).
  destruct (fork_page_exists addr) as [y Hy]; [by eexists|]. exists y. split; [done|].
  by destruct (fork_page_kept addr y Hy) as (_ & _ & ? & _).
Qed.

(** The object behind an address of a private range is one of the new ones. *)
Lemma private_new lo n addr x' :
  private_range al lo n → lo <= addr < lo + n → obj_page al' addr = Some x' →
  x'.1 ∈ private_objs al al'.
Proof using Hfk Hus.
  intros Hp Ha Hx. destruct (fork_area_at addr x' Hx)
    as (j & a & a' & o & Hj & Hj' & _ & _ & _ & _ & Hx1 & _ & Hpa & _).
  eapply private_objs_in; [done|done|by eapply Hp|done].
Qed.

(** A new object shows through itself only, among the objects of this address space. *)
Lemma fork_above addr x' z :
  obj_page al' addr = Some x' → ¬ in_use t z → above t' x'.1 z →
  x'.1 = z ∧ x'.1 ∈ private_objs al al'.
Proof using Hok Hf Hk Hfk Hus.
  intros Hx Hz Hab. pose proof (mk_wf _ Hok) as Hwf. pose proof (unused_fresh _ _ Hwf Hz) as Hnz.
  destruct (fork_area_at addr x' Hx)
    as (j & a & a' & o & Hj & Hj' & (_ & o1 & o' & Ho1 & Ho' & Hsh) & _ & Ho & Hu & Hx1 & _).
  simplify_eq. destruct (is_shared a) eqn:Hs.
  - rewrite Hsh in Hab. destruct (forks_above t t' Hwf Hf Hk _ _ Hu Hab). congruence.
  - destruct Hsh as [b [(O & HO & _) Hso _ _ _ _]]. simpl in Hso. unfold obj_below in Hso.
    rewrite HO in Hso. simpl in Hso. inversion Hab as [|? O2 sh2 ? HO2 HS2 Hab2]; subst.
    + split; [done|]. by eapply private_objs_in.
    + simplify_eq. destruct (forks_above t t' Hwf Hf Hk _ _ Hu Hab2). congruence.
Qed.

Lemma fork_unaliased lo n addr : private_range al lo n → unaliased t' al' lo n addr.
Proof using All.
  intros Hp addr' Ha' Hpn x y Hx Hy. assert (¬ alias t' x y) as Hna.
  2: { split; [|done]. intros ->. apply Hna. split; [done|constructor]. }
  intros [Hi Hab]. assert (x.1 ∈ private_objs al al') as Hpx by (by eapply private_new).
  destruct (fork_above addr y x.1 Hy (Hnew _ Hpx) Hab) as [Heq _].
  destruct (fork_area_at addr' x Hx) as (j & a & a' & o & Hj & Hj' & _ & Hc & _ & _ & Hxo & Hxi & Hpa & _).
  destruct (fork_area_at addr y Hy) as (k & b & b' & ob & Hk1 & Hk1' & Hfb & Hcb & Hob & Hub & Hyo & Hyi & Hpb & _).
  assert (is_shared a = false) as Hs by (by eapply Hp).
  destruct (is_shared b) eqn:Hsb.
  { destruct Hfb as (_ & o1 & o2 & Ho1 & Ho2 & Hsh). rewrite Hsb in Hsh.
    destruct (usable_not_other t ob Hub) as (O & HO & _). apply (Hnew _ Hpx).
    eapply (obj_in_use _ _ O); [apply Hok|]. congruence. }
  assert (j = k) as <- by (eapply (private_objs_inj al al' j k a a' b b' x.1); try done; by rewrite <- Heq).
  assert (b' = a') as -> by congruence. apply Hpn.
  apply (area_page_inj map a'); [apply (Forall_lookup_1 _ _ _ _ (proj1 Hal) Hj')|done|done|congruence].
Qed.
End one.

(** ** A writer and a reader *)

(** Before the fork, [s]; after it, [s']; the areas of the process that writes and
    those of the one that reads. *)
Section two.
Context (v v' : vm P) (wmap rmap : positive) (wpr rpr : option positive).
Context (al : list vmarea) (wpl rpl : list (positive * vmarea)).
Context (Hok : mem_ok (mm v)) (Hf : forks_to (mm v) (mm v')) (Hk : kept (mm v) (mm v')).
Context (Hus : Forall (obj_usable (mm v)) al).
Context (Hw : vmmap_wf v' wmap wpr wpl) (Hr : vmmap_wf v' rmap rpr rpl).
Context (Hfw : Forall2 (forked_to (mm v')) al wpl.*2) (Hfr : Forall2 (forked_to (mm v')) al rpl.*2).
Context (Hnd : NoDup (private_objs al wpl.*2 ++ private_objs al rpl.*2)).
Context (Hnew : ∀ x, x ∈ private_objs al wpl.*2 ++ private_objs al rpl.*2 → ¬ in_use (mm v) x).

Lemma fork_unwritten lo n addr y :
  private_range al lo n → obj_page rpl.*2 addr = Some y → unwritten (mm v') wpl.*2 lo n y.
Proof using All.
  intros Hp Hy addr' x Ha' Hx. assert (¬ alias (mm v') x y) as Hna.
  2: { split; [|done]. intros ->. apply Hna. split; [done|constructor]. }
  intros [Hi Hab]. assert (x.1 ∈ private_objs al wpl.*2) as Hpx by (by eapply private_new).
  destruct (fork_above (mm v) (mm v') al rpl.*2 Hok Hf Hk Hfr Hus addr y x.1 Hy) as [Heq Hpy];
    [apply Hnew; set_solver|done|].
  apply NoDup_app in Hnd as (_ & Hd & _). apply (Hd _ Hpx). by rewrite <- Heq.
Qed.

Lemma write_isolated vaddr buf :
  let n := Z.of_nat (length buf) in
  0 <= vaddr → vaddr + n < U32 → mapped (mm v) al vaddr n → private_range al vaddr n →
  returns (vmmap_write wmap vaddr buf n) v' (λ z v2, z = 0 ∧
    returns (vmmap_read wmap vaddr n) v2 (λ r _, r = (0, buf)) ∧
    ∀ va m, 0 <= va → 0 <= m → va + m < U32 → mapped (mm v) al va m →
      returns (vmmap_read rmap va m) v2 (λ r _, r.1 = 0 ∧ Z.of_nat (length r.2) = m ∧
        ∀ i : nat, Z.of_nat i < m → r.2 !! i = byte_at (mm v) al (va + Z.of_nat i))).
Proof using All.
  intros n Hv Hend Hmap Hpriv.
  pose proof Hnd as (Hndw & _ & Hndr)%NoDup_app.
  assert (∀ x, x ∈ private_objs al wpl.*2 → ¬ in_use (mm v) x) as Hnw by (intros x Hx; apply Hnew; set_solver).
  assert (∀ x, x ∈ private_objs al rpl.*2 → ¬ in_use (mm v) x) as Hnr by (intros x Hx; apply Hnew; set_solver).
  assert (mapped (mm v') wpl.*2 vaddr n) as Hmap' by (by eapply (fork_mapped (mm v) (mm v') al)).
  assert (∀ addr, unaliased (mm v') wpl.*2 vaddr n addr) as Hun.
  { intros addr. eapply (fork_unaliased (mm v) (mm v') wmap al); try done. apply Hw. }
  eapply returns_mono; [apply (vmmap_write_spec v' wmap wpr wpl vaddr buf); try done; apply Hw|].
  intros z v2 (-> & Has & Hms & Hav & Hunw & Hb). split; [done|]. split.
  { eapply (read_after_write v' v2 wmap wpr wpl); try done; apply Hw. }
  intros va m Hva Hm Hvm Hmr. assert (mapped (mm v') rpl.*2 va m) as Hmr' by (by eapply (fork_mapped (mm v) (mm v') al)).
  eapply returns_mono; [apply (vmmap_read_spec v2 rmap rpr rpl va m); [|done|done|done|]|].
  - destruct Hr as [[Hl Hh] _]. split; [by rewrite Hms|by rewrite Has].
  - intros addr Ha. destruct (Hmr' addr Ha) as (y & Hy & Hya). exists y. split; [done|by apply Hav].
  - intros r _ (Hz & Hlen & Hbytes & _). do 2 (split; [done|]). intros i Hi. rewrite Hbytes by done.
    destruct (Hmr' (va + Z.of_nat i) ltac:(lia)) as (y & Hy & Hya).
    transitivity (byte_at (mm v') rpl.*2 (va + Z.of_nat i)).
    + unfold byte_at. rewrite Hy. simpl. change (page_content ?s ?y) with (content s y).
      by rewrite Hunw by (done || by eapply fork_unwritten).
    + destruct (Hmr (va + Z.of_nat i) ltac:(lia)) as (y0 & Hy0 & _).
      eapply (fork_byte (mm v) (mm v') al); done.
Qed.
End two.

(** C2: after a fork neither process sees what the other stores in private memory.  The
    copy of the address space returns; whichever process then writes a buffer to a
    range of its private pages, the write returns 0, the writer reads the buffer back,
    and whatever range the other process reads, it gets the bytes that were there when
    the process forked.  Down from the lists of areas, through the shadow objects that
    the fork makes, to the frames of the page cache. *)
Theorem fork_isolates (v : vm P) map pr pl newmap child :
  objs_available → vmmap_wf v map pr pl → vmmap_slab v = Some newmap →
  (∀ v' : vm P, is_Some (vmarea_slab v')) → mem_ok (mm v) → Forall (obj_usable (mm v)) pl.*2 →
  (∀ x, obj_count x pl.*2 <= owned (mm v) x) →
  returns (fork_memory map child) v (λ r v', r = newmap ∧
    ∀ writer reader, (writer, reader) = (map, newmap) ∨ (writer, reader) = (newmap, map) →
    ∀ vaddr buf, 0 <= vaddr → vaddr + Z.of_nat (length buf) < U32 →
      mapped (mm v) pl.*2 vaddr (Z.of_nat (length buf)) →
      private_range pl.*2 vaddr (Z.of_nat (length buf)) →
      returns (vmmap_write writer vaddr buf (Z.of_nat (length buf))) v' (λ z v2, z = 0 ∧
        returns (vmmap_read writer vaddr (Z.of_nat (length buf))) v2 (λ r _, r = (0, buf)) ∧
        ∀ va n, 0 <= va → 0 <= n → va + n < U32 → mapped (mm v) pl.*2 va n →
          returns (vmmap_read reader va n) v2 (λ r _, r.1 = 0 ∧ Z.of_nat (length r.2) = n ∧
            ∀ i : nat, Z.of_nat i < n → r.2 !! i = byte_at (mm v) pl.*2 (va + Z.of_nat i)))).
Proof.
  intros Hav Hwf Hnew Hslab Hok Hus Hcnt.
  destruct (fork_memory_spec Hav v map pr pl newmap child) as
    (r & v' & Hr & -> & _ & pl1 & pl2 & Hwf1 & Hwf2 & Hf & (Hnd & Hfresh & _) & _ & _ & Hk & _); try done.
  { eapply Forall_impl; [done|]. intros a (o & -> & _). by eexists. }
  { eapply Forall_impl; [done|]. intros a Ha. apply usable_rooted; [apply Hok|done]. }
  pose proof (fork_forks v map child _ _ Hr) as Hfk. destruct (forked_both _ _ _ _ Hf) as [Hf1 Hf2].
  exists newmap, v'. split; [done|]. split; [done|]. intros w rd [[= -> ->]|[= -> ->]] vaddr buf Hv He Hm Hp.
  - by eapply (write_isolated v v' map newmap).
  - eapply (write_isolated v v' newmap map); try done.
    + by rewrite Permutation_app_comm.
    + intros x Hx. apply Hfresh. set_solver.
Qed.
End isolate.
