(* ===== verification/ForkExit.v ===== *)
(** * Fork and exit

    A process forks and the child goes away without having run: the copy of the
    address space that fork.c makes is given up by [vmmap_destroy].  Nothing of the
    child stays in the page cache, and the parent has its memory as before. *)
From S2P Require Import Prelude Headers Vmmap VmmapProps VmmapChange VmmapCopy VmmapBytes Pframe.
From S2P Require Import PframeProps PframeLookup PframeShadow PframeCow PframePut PframeMm PframeRelease PframePages.
From S2P Require Import Fork ForkProps ForkMemory ForkIsolate.
Local Open Scope kernel_scope.

Section exit.
Context `{HP : PageH, HM : MmanH, HH : PmemH} {X : Type}.
Context `{HX : !PmemExt X, HT : !OtherObj X, HR : !MmRest X, HRL : !MmRestLaws, HL : !ExtLaws}.
Context `{Hmem : !MemoryAvailable, HS : !SlabOps (pmem X), HOP : !OtherPutLaws}.
Local Abbreviation P := (pmem X).
Implicit Types (o x y b : positive) (t : P) (v : vm P) (a : vmarea) (al : list vmarea).

(** ** What the fork leaves is counted *)

Lemma obj_count_in x a al : a ∈ al → vma_obj a = Some x → 0 < obj_count x al.
Proof.
  intros (l1 & l2 & ->)%list_elem_of_split Hx. rewrite obj_count_app, obj_count_cons, decide_True by done.
  pose proof (obj_count_pos x l1). pose proof (obj_count_pos x l2). lia.
Qed.

Lemma obj_count_inv x al : 0 < obj_count x al → ∃ a, a ∈ al ∧ vma_obj a = Some x.
Proof.
  induction al as [|a al IH]; [done|]. rewrite obj_count_cons. case_decide as Ha.
  - intros _. exists a. split; [by left|done].
  - intros Hlt. destruct IH as (a' & ? & ?); [lia|]. exists a'. split; [by right|done].
Qed.

(** A new object is over the object of an area. *)
Lemma private_objs_over t al al' x :
  Forall2 (forked_to t) al al' → x ∈ private_objs al al' →
  ∃ a o b, a ∈ al ∧ vma_obj a = Some o ∧ over t x o b.
Proof.
  induction 1 as [|a a' al al' (_ & o & o' & Ho & Ho' & Hsh) _ IH]; simpl; [by intros ?%elem_of_nil|].
  unfold new_objs. rewrite Ho'. intros [Hx|Hx]%elem_of_app.
  - destruct (is_shared a); [by apply elem_of_nil in Hx|]. apply list_elem_of_singleton in Hx as ->.
    destruct Hsh as [b Hov]. exists a, o, b. split; [by left|done].
  - destruct (IH Hx) as (a1 & o1 & b & ? & ? & ?). exists a1, o1, b. split; [by right|done].
Qed.

(** Before the fork [t], after it [t']. *)
Section forked.
Context t t' al al1 al2 (Hct : counted t) (Hf : forks_to t t') (Hk : ForkProps.kept t t').
Context (Hus : Forall (obj_usable t) al) (Hnew : all_new t t' al al1 al2).
Context (Hf1 : Forall2 (forked_to t') al al1) (Hf2 : Forall2 (forked_to t') al al2).

Lemma forked_shape o O : objs t' !! o = Some O → ∃ b k, chain t' o b k ∧ shadow_fields O b.
Proof using All.
  intros HO. pose proof (ct_wf _ Hct) as Hwf. destruct Hnew as (_ & Hn & Hadd).
  destruct (Hadd o (obj_in_use _ _ _ (fk_wf _ _ Hf Hwf) HO)) as [(O1 & HO1 & _)|Hx].
  - destruct (ct_chain _ Hct _ _ HO1) as (b & k & Hc & Hs).
    destruct (forks_obj t t' o O1 Hwf Hf Hk HO1) as (O' & HO' & Hop & Hsh & Hb). simplify_eq.
    exists b, k. split; [by eapply (forks_chain t t')|]. unfold shadow_fields. by rewrite Hsh, Hop, Hb.
  - assert (∃ a o1 b, a ∈ al ∧ vma_obj a = Some o1 ∧ over t' o o1 b) as (a & o1 & b & Ha & Ho1 & Hov).
    { apply elem_of_app in Hx as [Hx|Hx]; [by apply (private_objs_over t' al al1)|by apply (private_objs_over t' al al2)]. }
    destruct (proj1 (Forall_forall _ _) Hus a Ha) as (o2 & Ho2 & Hu). assert (o2 = o1) as -> by congruence.
    destruct Hov as [_ Hs Hb _ _ Hbi]. destruct (bottom_usable t t' Hwf Hf Hk o1 b Hu Hbi) as (k & Hc & _).
    simpl in Hs, Hb. unfold obj_below, obj_bottom in Hs, Hb. rewrite HO in Hs, Hb. simpl in Hs, Hb.
    exists b, (S k). split; [by econstructor|]. unfold shadow_fields. rewrite Hs.
    split; [|done]. eapply (fk_new _ _ Hf); [done|]. eapply unused_fresh; [done|by apply Hn].
Qed.

(** The areas of the kernel can be read wherever they are. *)
Context (Hrd : ∀ q, readable (pext t) [q]) (Hpos : ∀ x, 0 <= area_refs t' x).

Lemma forked_counted : counted t'.
Proof using All.
  pose proof (ct_wf _ Hct) as Hwf. split; [by apply Hf|done|exact forked_shape| |].
  - intros o O HO Hop p f Hp Hfo. rewrite (fk_frames _ _ Hf) in Hp.
    destruct (pmem_wf_frame t p f Hwf Hp) as (o1 & O1 & Hfo1 & HO1 & _). assert (o1 = o) as -> by congruence.
    destruct (forks_obj t t' o O1 Hwf Hf Hk HO1) as (O' & HO' & Hop' & _).
    assert (O' = O) as -> by congruence. apply (ct_idle _ Hct o O1 HO1 ltac:(congruence) p f Hp Hfo).
  - intros o O _. apply (readable_same (pext t)); [apply Hf|]. intros q _. apply (Hrd q). by left.
Qed.

(** ** What stays when the child goes *)

Context t2 (Hct2 : counted t2) (Hk2 : PframeRelease.kept t' t2).
Context (Hcnt : ∀ x, obj_count x al <= area_refs t x).
Context (Hrefs : ∀ x, area_refs t2 x = area_refs t x - obj_count x al + obj_count x al1).

Lemma parent_obj_stays a' x : a' ∈ al1 → vma_obj a' = Some x → is_Some (objs t2 !! x).
Proof using Hcnt Hrefs.
  intros Ha Hx. apply area_refs_present. rewrite Hrefs. pose proof (obj_count_in x a' al1 Ha Hx).
  specialize (Hcnt x). lia.
Qed.

(** Below an object that stays all stay. *)
Lemma below_stays y Y x :
  objs t' !! y = Some Y → mmo_shadowed Y = Some x → is_Some (objs t2 !! y) → is_Some (objs t2 !! x).
Proof using Hct2 Hk2.
  intros HY Hs [Y2 HY2]. destruct (kp_objs _ _ Hk2 _ _ HY2) as (Y1 & HY1 & _ & Hs2 & _). simplify_eq.
  eapply referred_present; [apply Hct2|exact HY2|]. left. by rewrite Hs2.
Qed.

Lemma above_stays y x : above t y x → is_Some (objs t2 !! y) → is_Some (objs t2 !! x).
Proof using Hct Hct2 Hk2 Hf Hk.
  induction 1 as [y|y Y sh x HY Hs _ IH]; [done|]. intros Hy. apply IH.
  destruct (forks_obj t t' y Y (ct_wf _ Hct) Hf Hk HY) as (Y' & HY' & _ & Hs' & _).
  eapply below_stays; [exact HY'|by rewrite Hs'|done].
Qed.

(** The object of an area of the parent, which may now be below a new object. *)
Lemma area_obj_stays y : 0 < area_refs t y → is_Some (objs t2 !! y).
Proof using Hct2 Hk2 Hf1 Hcnt Hrefs.
  intros Hlt. destruct (decide (0 < area_refs t2 y)) as [Hy|Hno]; [by apply area_refs_present|].
  rewrite Hrefs in Hno. pose proof (obj_count_pos y al1). destruct (obj_count_inv y al) as (a & Ha & Hy); [lia|].
  apply list_elem_of_lookup in Ha as [j Hj]. destruct (Forall2_lookup_l _ _ _ _ _ Hf1 Hj) as (a' & Hj' & Hfa).
  apply list_elem_of_lookup_2 in Hj'. destruct Hfa as (_ & o & o' & Ho & Ho' & Hsh). simplify_eq.
  pose proof (parent_obj_stays a' o' Hj' Ho') as Hst. destruct (is_shared a); [by subst|].
  destruct Hsh as [b [(O' & HO' & _) Hs _ _ _ _]]. simpl in Hs. unfold obj_below in Hs. rewrite HO' in Hs.
  by eapply below_stays.
Qed.

Lemma old_stays x : is_Some (objs t !! x) → is_Some (objs t2 !! x).
Proof using Hct Hf Hk Hf1 Hct2 Hk2 Hcnt Hrefs.
  intros Hx. destruct (counted_all_needed t x Hct Hx) as (y & Hab & Hy). apply (above_stays y x Hab).
  destruct Hy as [Hy|(Y & HY & Hop)]; [by apply area_obj_stays|].
  destruct (forks_obj t t' y Y (ct_wf _ Hct) Hf Hk HY) as (Y' & HY' & Hop' & _).
  eapply (kp_files _ _ Hk2); [done|congruence].
Qed.

Lemma frames_stay : frames t2 = frames t.
Proof using Hct Hf Hk Hf1 Hct2 Hk2 Hcnt Hrefs.
  apply map_eq. intros p. apply option_eq. intros f. rewrite (kp_frames _ _ Hk2), (fk_frames _ _ Hf).
  split; [by intros [? _]|]. intros Hp. split; [done|].
  destruct (pmem_wf_frame t p f (ct_wf _ Hct) Hp) as (o & O & Hfo & HO & _). exists o. split; [done|].
  apply old_stays. by eexists.
Qed.

Lemma usable_stays o : usable t' o → is_Some (objs t2 !! o) → usable t2 o.
Proof using Hct2 Hk2.
  assert (∀ x, plain t' x → is_Some (objs t2 !! x) → plain t2 x) as Hplain.
  { intros x (O & HO & Hop & Hs) [O2 HO2]. destruct (kp_objs _ _ Hk2 _ _ HO2) as (O1 & HO1 & Ho1 & Hs1 & _).
    simplify_eq. exists O2. split; [done|]. by rewrite Ho1, Hs1. }
  intros [Hp|(b & k & [(O & HO & Hop & Hb) Hc Hp])] Ho; [left; by apply Hplain|]. right. exists b, k.
  pose proof (kept_chain _ _ _ _ _ Hk2 (ct_pos _ Hct2) Ho Hc) as Hc2.
  split; [|done|apply Hplain; [done|]].
  - destruct Ho as [O2 HO2]. destruct (kp_objs _ _ Hk2 _ _ HO2) as (O1 & HO1 & Ho1 & _ & Hb1 & _). simplify_eq.
    exists O2. split; [done|]. by rewrite Ho1, Hb1.
  - pose proof (chain_end _ _ _ _ Hc2) as Hce. inversion Hce; by eexists.
Qed.

(** The parent has the bytes it had. *)
Lemma bytes_stay addr :
  mem_ok t → is_Some (obj_page al addr) → byte_at t2 al1 addr = byte_at t al addr.
Proof using Hct Hf Hk Hus Hnew Hf1 Hct2 Hk2 Hcnt Hrefs.
  intros Hok Hx. destruct Hnew as (_ & Hn & _).
  assert (∀ x, x ∈ private_objs al al1 → ¬ in_use t x) as Hn1 by (intros x Hx1; apply Hn, elem_of_app; by left).
  rewrite <- (fork_byte t t' al al1 Hok Hf Hk Hf1 Hn1 Hus addr Hx).
  destruct (fork_page_exists t' al al1 Hf1 addr Hx) as [[y i] Hy].
  destruct (fork_page_kept t t' al al1 Hok Hf Hk Hf1 Hn1 Hus addr _ Hy) as (_ & _ & [_ Hu] & _).
  destruct (fork_area_at t t' al al1 Hf1 Hus addr _ Hy) as (j & a & a' & o & _ & Hj & _ & _ & _ & _ & Ho & _).
  simpl in *. assert (is_Some (objs t2 !! y)) as Hst
    by (eapply parent_obj_stays; [by eapply list_elem_of_lookup_2|done]).
  unfold byte_at. rewrite Hy. simpl. f_equal. apply page_content_eq; [apply Hct2|by apply usable_stays|].
  eapply sees_kept; [done|apply Hct2|done|by apply page_content_sees].
Qed.
End forked.

(** C6: Fork and exit cancel out.  A process forks, and the address space of the child is
    destroyed: both return, the child's address space is gone, the page cache holds
    exactly the pages it held before the fork, every reference is accounted for, and
    the parent, whose private areas are now on shadow objects, has at every address
    the byte it had. *)
Theorem fork_exit_restores v map pr pl newmap child :
  objs_available → vmmap_wf v map pr pl → vmmap_slab v = Some newmap →
  (∀ v' : vm P, is_Some (vmarea_slab v')) → mem_ok (mm v) → counted (mm v) →
  Forall (obj_usable (mm v)) pl.*2 → (∀ x, obj_count x pl.*2 <= area_refs (mm v) x) →
  (∀ q, readable (pext (mm v)) [q]) →
  returns (m <- fork_memory map child ;; vmmap_destroy m) v (λ _ v2, vmmaps v2 !! newmap = None ∧
    counted (mm v2) ∧ frames (mm v2) = frames (mm v) ∧ ∃ pl1, vmmap_wf v2 map pr pl1 ∧
    (∀ x, area_refs (mm v2) x = area_refs (mm v) x - obj_count x pl.*2 + obj_count x pl1.*2) ∧
    ∀ addr, is_Some (obj_page pl.*2 addr) → byte_at (mm v2) pl1.*2 addr = byte_at (mm v) pl.*2 addr).
Proof.
  intros Hav Hwf Hslab Hareas Hok Hct Hus Hcnt Hrd.
  destruct (fork_memory_spec Hav v map pr pl newmap child) as
    (r & v' & Hr & -> & Hfresh & pl1 & pl2 & Hwf1 & Hwf2 & Hf & Hnew & _ & _ & Hk & Hown); try done.
  { eapply Forall_impl; [done|]. intros a (o & -> & _). by eexists. }
  { eapply Forall_impl; [done|]. intros a Ha. apply usable_rooted; [apply Hok|done]. }
  pose proof (fork_forks v map child _ _ Hr) as Hfk. destruct (forked_both _ _ _ _ Hf) as [Hf1 Hf2]. simpl in Hown.
  assert (counted (mm v')) as Hct1.
  { eapply (forked_counted (mm v)); try done. intros x. specialize (Hown x). specialize (Hcnt x).
    pose proof (obj_count_pos x pl1.*2). pose proof (obj_count_pos x pl2.*2). lia. }
  destruct (vmmap_destroy_spec (HQ := pmem_put_since (mm v')) v' newmap (Some child) pl2)
    as ([] & v2 & Hr2 & Hgone & Hmaps & Hown2 & Hareas2 & [Hct2 Hk2] & _); [done| | |].
  { split; [done|]. apply released_refl. apply Hct1. }
  { intros o. specialize (Hown o). specialize (Hcnt o). pose proof (obj_count_pos o pl1.*2). simpl. lia. }
  simpl in Hown2. assert (∀ x, area_refs (mm v2) x = area_refs (mm v) x - obj_count x pl.*2 + obj_count x pl1.*2) as Hrefs.
  { intros x. rewrite Hown2. specialize (Hown x). lia. }
  exists tt, v2. split; [by rewrite (bind_Ret _ _ _ _ _ Hr)|]. split; [done|]. split; [done|].
  split; [by eapply (frames_stay (mm v) (mm v') pl.*2 pl1.*2)|].
  exists pl1. split; [|split; [done|intros; by eapply (bytes_stay (mm v) (mm v') pl.*2 pl1.*2 pl2.*2)]].
  assert (map ≠ newmap) as Hne by (intros ->; destruct Hwf as [[Hl _] _]; congruence).
  pose proof Hwf1 as [[Hl Hh] Ha]. split; [split; [by rewrite Hmaps|]|done].
  apply Forall_forall. intros q Hq. rewrite Hareas2; [by apply (proj1 (Forall_forall _ _) Hh)|].
  eapply (clone_disjoint map newmap pl1 pl2); try done. apply list_elem_of_fmap. by exists q.
Qed.
End exit.
