(* ===== verification/ForkEx.v ===== *)
(** * Fork at work

    A process with a shared and a private area forks. *)
From S2P Require Import Prelude Headers Vmmap VmmapProps VmmapChange VmmapCopy VmmapBytes VmmapEx.
From S2P Require Import Fork ForkProps.
Local Open Scope kernel_scope.

#[local] Existing Instance page_ex.
#[local] Existing Instance mman_ex.
#[local] Existing Instance ex_ops.
#[local] Existing Instance ex_laws.
#[local] Existing Instance ex_put_laws.
#[local] Existing Instance ex_slab.

(** Pages 2000-2009 are shared and pages 3000-3004 private. *)
Definition fork_pl : list (positive * vmarea) :=
  [(1%positive, ex_area 2000 2010 20 5);
   (2%positive, set_vma_flags 2 (ex_area 3000 3005 0 6))].
Definition fork_vm : vm exmm :=
  Vm (list_to_map fork_pl) {[1%positive := Vmmap [1%positive; 2%positive] (Some 9%positive)]}
     (ExMm {[5%positive := 1; 6%positive := 1]} ∅ ∅ ∅ ∅ (ExPt ∅ ∅ ∅ 0 0 (ExKm ∅ {[500 := (7, [1; 2; 3])]} ∅ ∅))).

Lemma fork_vm_wf : vmmap_wf fork_vm 1 (Some 9%positive) fork_pl.
Proof.
  split; [split; [reflexivity|repeat constructor]|split].
  - repeat constructor; vm_compute; congruence.
  - repeat constructor; vm_compute; congruence.
Qed.

Lemma fork_vm_owned o : obj_count o fork_pl.*2 <= owned (mm fork_vm) o.
Proof.
  destruct (decide (o = 5%positive)) as [->|H5]; [by vm_compute|].
  destruct (decide (o = 6%positive)) as [->|H6]; [by vm_compute|].
  unfold fork_pl. csimpl. rewrite !obj_count_cons. change (obj_count o []) with 0. simpl.
  rewrite !decide_False by congruence. unfold x_owned. simpl.
  by rewrite lookup_insert_ne, lookup_singleton_ne by done.
Qed.

(** The private page 3001 is on different objects afterwards, both over object 6. *)
Lemma fork_copies_memory_witness :
  returns (fork_memory 1 7) fork_vm (λ _ s', ∃ (pl1 pl2 : list (positive * vmarea)) po co,
    page_at pl1.*2 3001 = Some (Some po, 1, 3, 2) ∧ page_at pl2.*2 3001 = Some (Some co, 1, 3, 2) ∧
    po ≠ co ∧ shadowed (mm s') po = Some 6%positive ∧ shadowed (mm s') co = Some 6%positive ∧
    page_at pl2.*2 2003 = Some (Some 5%positive, 23, 3, 1)).
Proof.
  destruct (fork_copies_memory fork_vm 1 (Some 9%positive) fork_pl 2 7)
    as (r & s' & Hr & _ & _ & pl1 & pl2 & _ & _ & Hpages & _).
  - apply ex_objs_available.
  - apply fork_vm_wf.
  - by vm_compute.
  - apply ex_slab_some.
  - repeat constructor; by eexists.
  - repeat constructor; intros o [= <-]; done.
  - apply fork_vm_owned.
  - exists r, s'. split; [done|]. pose proof (Hpages 3001) as (o & po & co & [= <-] & H1 & H2 & Hne & b & Hp & Hc).
    pose proof (Hpages 2003) as (o' & po' & co' & [= <-] & _ & H4 & _ & ->).
    exists pl1, pl2, po, co. split; [exact H1|]. split; [exact H2|]. split; [done|].
    split; [apply Hp|]. split; [apply Hc|exact H4].
Defined.
