(* ===== verification/ForkIsolateEx.v ===== *)
(** * Fork over the page cache at work

    A process with one private area on an anonymous object forks; the child writes, or
    it exits. *)
From S2P Require Import Prelude Headers Vmmap VmmapProps VmmapChange VmmapBytes Pframe PframeProps.
From S2P Require Import PframeLookup PframePut PframeMm PframeRelease PframePages PframeEx ReclaimEx.
From S2P Require Import Fork ForkProps ForkMemory ForkIsolate ForkExit.
Local Open Scope kernel_scope.

#[local] Existing Instance page_ex.
#[local] Existing Instance mman_ex.
#[local] Existing Instance pmem_h_ex.
#[local] Existing Instance ext_ex.

#[local] Existing Instance files_ex.
#[local] Existing Instance rest_ex.
#[local] Existing Instance rest_laws_ex.
#[local] Existing Instance rest_ext_laws_ex.
#[local] Existing Instance pslab_ex.
#[local] Existing Instance put_laws_ex.
#[local] Instance memory_ex : MemoryAvailable.
Proof. split; [by eexists|]. intros [] r x [= <- _]. by eexists. Qed.
(** Pages 3000-3004, private, on the anonymous object 6, none of them resident yet. *)
Definition iso_area : vmarea := Vmarea 3000 3005 0 3 2 (Some 1%positive) (Some 6%positive) LIn LIn.
Definition iso_pl : list (positive * vmarea) := [(1%positive, iso_area)].
Definition iso_mem : pmem unit :=
  Pmem ∅ {[6%positive := set_mmo_refcount 1 (mmobj_init anon_mmobj_ops)]} [] 0 [] 0 ∅ 0 5 tt.
Definition iso_vm : vm (pmem unit) :=
  Vm {[1%positive := iso_area]} {[1%positive := Vmmap [1%positive] (Some 9%positive)]} iso_mem.

Lemma iso_ok : mem_ok iso_mem.
Proof.
  split; [|done]. split; [split|split|]; simpl; try done.
  - intros i. apply NoDup_nil_2.
  - intros i p. unfold hash_chain. simpl. rewrite elem_of_nil. naive_solver.
  - intros o O [_ <-]%lookup_singleton_Some. apply NoDup_nil_2.
  - by intros o O [_ <-]%lookup_singleton_Some.
  - intros o O p [_ <-]%lookup_singleton_Some. simpl. rewrite elem_of_nil. naive_solver.
  - apply NoDup_nil_2.
  - apply NoDup_nil_2.
  - intros p. rewrite elem_of_nil. naive_solver.
  - intros p. rewrite elem_of_nil. naive_solver.
  - by intros o O [_ <-]%lookup_singleton_Some.
Qed.

Lemma iso_usable : usable iso_mem 6.
Proof. left. by eexists. Qed.

Lemma iso_mapped : mapped (mm iso_vm) iso_pl.*2 12292096 8192.
Proof.
  intros addr Ha. exists (6%positive, u32 (u32 (ADDR_TO_PN addr - 3000) + 0)).
  assert (3001 <= ADDR_TO_PN addr < 3003) as Hpn.
  { change (ADDR_TO_PN addr) with (addr / 4096). Z.to_euclidean_division_equations. lia. }
  split; [|split; [apply iso_ok|apply iso_usable]]. unfold obj_page, iso_pl. csimpl. rewrite page_at_one.
  rewrite (proj2 (covers_true _ _)); [done|]. change (3000 <= ADDR_TO_PN addr < 3005). lia.
Qed.

Lemma iso_refs x : obj_count x iso_pl.*2 <= owned (mm iso_vm) x.
Proof.
  unfold iso_pl. csimpl. rewrite obj_count_one. simpl. unfold area_refs, points_to, map_count. simpl.
  rewrite !map_filter_singleton. simpl. destruct (decide (Some 6%positive = Some x)) as [[= <-]|Hne].
  - by vm_compute.
  - rewrite lookup_singleton_ne by congruence. by vm_compute.
Qed.

(** The child writes three bytes across a page boundary; the parent still reads zeros. *)
Lemma fork_isolates_witness :
  returns (fork_memory 1 7) iso_vm (λ r v', r = 2%positive ∧
    returns (vmmap_write 2 12296190 [7; 8; 9] 3) v' (λ z v2, z = 0 ∧
      returns (vmmap_read 2 12296190 3) v2 (λ r _, r = (0, [7; 8; 9])) ∧
      returns (vmmap_read 1 12296190 3) v2 (λ r _, r.1 = 0 ∧ r.2 !! 1%nat = Some 0))).
Proof.
  eapply returns_mono; [apply (fork_isolates iso_vm 1 (Some 9%positive) iso_pl 2 7)|].
  - split; [intros t r t' [= <- _]; by eexists|]. intros t r t'. simpl. intros [= <- _]. by eexists.
  - split; [split; [reflexivity|repeat constructor]|split; [|repeat constructor]].
    repeat constructor; vm_compute; congruence.
  - reflexivity.
  - intros v'. by eexists.
  - apply iso_ok.
  - constructor; [|constructor]. exists 6%positive. split; [done|apply iso_usable].
  - apply iso_refs.
  - intros r v' [-> Hiso]. split; [done|].
    eapply returns_mono; [apply (Hiso 2%positive 1%positive (or_intror eq_refl) 12296190 [7; 8; 9])|].
    + lia.
    + done.
    + intros addr Ha. apply iso_mapped. simpl in Ha. lia.
    + intros addr obj i prot flags _. unfold iso_pl. csimpl. rewrite page_at_one.
      destruct (covers _ _); [|done]. by intros [= _ _ _ <-].
    + intros z v2 (-> & Hown & Hother). split; [done|]. split; [exact Hown|].
      eapply returns_mono; [apply (Hother 12296190 3); [lia|lia|done|]|].
      * intros addr Ha. apply iso_mapped. lia.
      * intros r _ (Hz & _ & Hb). split; [done|]. rewrite (Hb 1%nat) by lia. by vm_compute.
Defined.

Lemma iso_counted : counted iso_mem.
Proof.
  split; [apply iso_ok| | |done|]; simpl.
  - intros x. etrans; [apply (obj_count_pos x iso_pl.*2)|apply iso_refs].
  - intros o O HO. apply lookup_singleton_Some in HO as [<- <-]. exists 6%positive, 0%nat. split; [by eapply chain_bottom|done].
  - intros o O HO v Hv. apply lookup_singleton_Some in HO as [_ <-]. by apply elem_of_nil in Hv.
Qed.

(** The child exits; no page is left, and the parent still reads zeros. *)
Lemma fork_exit_restores_witness :
  returns (m <- fork_memory 1 7 ;; vmmap_destroy m) iso_vm (λ _ v2, vmmaps v2 !! 2%positive = None ∧
    frames (mm v2) = ∅ ∧ ∃ pl1 : list (positive * vmarea), byte_at (mm v2) pl1.*2 12292096 = Some 0).
Proof.
  eapply returns_mono; [apply (fork_exit_restores iso_vm 1 (Some 9%positive) iso_pl 2 7)|].
  - split; [intros t r t' [= <- _]; by eexists|]. intros t r t'. simpl. intros [= <- _]. by eexists.
  - split; [split; [reflexivity|repeat constructor]|split; [|repeat constructor]].
    repeat constructor; vm_compute; congruence.
  - reflexivity.
  - intros v'. by eexists.
  - apply iso_ok.
  - apply iso_counted.
  - constructor; [|constructor]. exists 6%positive. split; [done|apply iso_usable].
  - apply iso_refs.
  - intros q v _. by eexists.
  - intros [] v2 (Hgone & _ & Hfr & pl1 & _ & _ & Hb). split; [done|]. split; [done|]. exists pl1.
    destruct (iso_mapped 12292096) as (x & Hx & _); [lia|]. rewrite Hb by (by eexists). by vm_compute.
Defined.
