(* ===== verification/ForkCallEx.v ===== *)
(** * The fork system call at work

    A process with three open descriptors, a shared and a private area forks. *)
From S2P Require Import Prelude Headers Sched SchedProps Vmmap VmmapProps VmmapChange VmmapEx VmCallsEx.
From S2P Require Import Proc ProcProps ProcExit ProcEx Fork ForkProps ForkKeeps ForkCall ForkEx.
Local Open Scope kernel_scope.

#[local] Existing Instance errno_ex.
#[local] Existing Instance intr_ex.
#[local] Existing Instance page_ex.
#[local] Existing Instance mman_ex.
#[local] Existing Instance limits_ex.
#[local] Existing Instance ex_ops.
#[local] Existing Instance ex_laws.
#[local] Existing Instance ex_slab.
#[local] Existing Instance proc_ex.

#[local] Instance fork_ex : ForkH := {| sizeof_regs := 76; userland_entry := 3224000000 |}.

(** ** Kernel memory *)

Definition x_set_km (f : exkm → exkm) : exmm → exmm :=
  x_set_pt (λ x, ExPt (x_entries x) (x_pins x) (x_bufs x) (x_errno x) (x_eax x) (f (x_km x))).
Definition kmem (t : exmm) : exkm := x_km (x_pt t).
Definition x_regs_at (t : exmm) (a : Z) : registers :=
  from_option (λ r, Registers r.1 r.2) (Registers 0 []) (x_regs (kmem t) !! a).
Definition x_vn_refs (t : exmm) (v : positive) : Z := default 0 (x_vns (kmem t) !! v).
Definition x_put_regs (a : Z) (r : registers) : exmm → exmm :=
  x_set_km (λ k, ExKm (x_words k) (<[a := (r_eax r, r_others r)]> (x_regs k)) (x_files k) (x_vns k)).
Definition x_vmove (v : positive) (n : Z) (t : exmm) : exmm :=
  x_set_km (λ k, ExKm (x_words k) (x_regs k) (x_files k) (<[v := x_vn_refs t v + n]> (x_vns k))) t.
Definition x_file_refs (t : exmm) (f : positive) : Z := default 0 (x_files (kmem t) !! f).

(** An address for a process whose wait queue is free too. *)
Definition ex_proc_slab (s : kernel (vm exmm) context) : positive :=
  fresh (dom (procs s) ∪ set_map Pos.div2 (dom (queues (sch s)))).
Definition ex_thread_slab (s : kernel (vm exmm) context) : positive :=
  fresh (dom (threads (sch s)) ∪ dom (kt_mems s)).

(** Pages are given out at 8 MB, if they fit. *)
Definition ex_page (n : Z) : option positive :=
  if decide (8388608 + n * 4096 <= U32) then Some 8388608%positive else None.

#[local] Instance kern_ex : KernOps exmm.
Proof.
  refine {|
    k_proc_slab s := Some (ex_proc_slab s);
    k_kthread_slab s := Some (ex_thread_slab s);
    k_page_alloc_n n := ret (ex_page n);
    k_page_free_n a n := ret tt;
    k_context_setup f a b st n pd := ret (Context pd 0 0 n 0);
    k_pt_create_pagedir := ret (Some 77%positive);
    k_pt_destroy_pagedir a := ret tt;
    k_vfs_root_vn t := Some 1%positive;
    k_vref v := modify (x_vmove v 1);
    k_vput v := modify (x_vmove v (-1));
    k_fput f := modify (x_set_km (λ k, ExKm (x_words k) (x_regs k) (alter Z.pred f (x_files k)) (x_vns k)));
    fref f := modify (λ t, x_set_km (λ k, ExKm (x_words k) (x_regs k)
      (<[f := x_file_refs t f + 1]> (x_files k)) (x_vns k)) t);
    set_r_eax r v := modify (λ t, x_put_regs (Z.pos r) (with_eax v (x_regs_at t (Z.pos r))) t);
    store_word a w := modify (x_set_km (λ k, ExKm (<[a := w]> (x_words k)) (x_regs k) (x_files k) (x_vns k)));
    copy_regs a r := modify (λ t, x_put_regs a (x_regs_at t (Z.pos r)) t)
  |}.
  - intros s p [= <-]. pose proof (is_fresh (dom (procs s) ∪ set_map Pos.div2 (dom (queues (sch s))))) as Hf.
    fold (ex_proc_slab s) in Hf. apply not_elem_of_union in Hf as [H1 H2]. split; [by apply not_elem_of_dom|].
    apply not_elem_of_dom. intros Hq. apply H2, elem_of_map. by exists (p_wait (ex_proc_slab s)).
  - intros s t [= <-]. pose proof (is_fresh (dom (threads (sch s)) ∪ dom (kt_mems s))) as Hf.
    fold (ex_thread_slab s) in Hf. apply not_elem_of_union in Hf as [H1 H2].
    split; by apply not_elem_of_dom.
Defined.

#[local] Instance forkview_ex : ForkView exmm :=
  {| file_refs := x_file_refs; vn_refs := x_vn_refs; word_at t a := default 0 (x_words (kmem t) !! a);
     regs_at := x_regs_at |}.

Lemma x_set_km_same f t : objs_same t (x_set_km f t).
Proof. by intros x. Qed.

(** The operations on objects do not touch kernel memory. *)
Lemma ex_keep_held t : objs_keep (λ t', held_same t t' ∧ saved 500 t t').
Proof. split; intros; intros t' Ht; simpl; done. Qed.

Lemma x_put_regs_eq a r t : x_regs_at (x_put_regs a r t) a = r.
Proof. unfold x_regs_at. simpl. rewrite lookup_insert_eq. by destruct r. Qed.
Lemma x_put_regs_ne a b r t : b ≠ a → x_regs_at (x_put_regs a r t) b = x_regs_at t b.
Proof. intros Hne. unfold x_regs_at. simpl. by rewrite lookup_insert_ne. Qed.
Lemma x_vmove_refs v n t x : x_vn_refs (x_vmove v n t) x = x_vn_refs t x + if decide (x = v) then n else 0.
Proof.
  unfold x_vn_refs. simpl. destruct (decide (x = v)) as [-> |]; [by rewrite lookup_insert_eq|].
  rewrite lookup_insert_ne by done. unfold kmem. lia.
Qed.

#[local] Instance forklaws_ex : ForkLaws exmm 500.
Proof.
  refine {| root_vn := 1%positive |}.
  - done.
  - intros t. by eexists _, _.
  - intros n t. eexists _, _. split; [done|]. split; [done|]. intros a. unfold ex_page.
    case_decide as Hd; [|done]. by intros [= <-].
  - intros. by eexists _, _.
  - intros. by eexists _, _.
  - intros. by eexists _, _.
  - apply ex_keep_held.
  - intros v t. eexists _, _. split; [done|]. do 3 (split; [done|]). apply x_vmove_refs.
  - intros t. eexists _, _. split; [done|]. do 3 (split; [done|]). intros x. simpl. rewrite x_vmove_refs.
    destruct (decide (x = 1%positive)); lia.
  - intros f t. eexists _, _. split; [done|]. split; [apply x_set_km_same|]. split; [done|]. split; [|done].
    intros g. simpl. unfold x_file_refs. simpl. rewrite lookup_insert.
    destruct (decide (f = g)), (decide (g = f)); subst; try congruence; simpl; [done|]. unfold kmem. lia.
  - intros r v t. eexists _, _. split; [done|]. split; [done|]. split; [|split; [done|]].
    + apply x_put_regs_eq.
    + intros a Ha. apply x_put_regs_ne. destruct Ha; simpl in *; lia.
  - intros a w t. eexists _, _. split; [done|]. split; [done|]. split; [|done]. simpl. by rewrite lookup_insert_eq.
  - intros a r t. eexists _, _. split; [done|]. split; [done|]. split; [|split; [done|]].
    + apply x_put_regs_eq.
    + intros b Hb. apply x_put_regs_ne. destruct Hb; simpl in *; lia.
Defined.

(** ** A state *)

Definition forker : proc :=
  Proc 2 [] [1%positive] (Linked []) None 0 PROC_RUNNING (Some 1%positive) (Some 1%positive) sh_files
       (Some 1%positive) 0 0.
Definition fork_state : kernel (vm exmm) context :=
  Kernel (Sched {[1%positive := ex_thread KT_RUN None 1]}
            (<[kt_runq := Ktqueue [] 0]> {[2%positive := Ktqueue [] 0]}) (Some 1%positive) (Some 1%positive) 0)
    {[1%positive := forker]} [1%positive] 3 None
    {[1%positive := KtMem (Some 1%positive) (Some (Context None 0 0 0 0)) true]} fork_vm.

Lemma fork_ex_available : fork_available (S:=exmm) 500.
Proof.
  split; [apply ex_objs_available|by eexists|by eexists|by eexists|by eexists| | |simpl; lia].
  - intros t r t' [= <- <-]. by eexists.
  - intros t r t' [= <- <-]. eexists. split; [by vm_compute|]. left. by vm_compute.
Qed.

Lemma fork_state_can :
  can_fork fork_state 1 forker 1 (ex_thread KT_RUN None 1) 1 (Some 9%positive) fork_pl.
Proof.
  split; try done.
  - split; [apply (single_wf _ _ _ _ (ex_thread KT_RUN None 1)); done|by eexists].
  - apply sched_wfb_wf. by vm_compute.
  - apply fork_vm_wf.
  - repeat constructor; by eexists.
  - repeat constructor; intros o [= <-]; done.
  - apply fork_vm_owned.
Qed.

(** The child gets number 3; file 1, open twice in the parent, gets two more references,
    and the working directory, the root, one. *)
Lemma do_fork_forks_witness :
  ∃ s' child N nt, do_fork (Some 500%positive) fork_state = Ret 3 s' ∧ procs s' !! child = Some N ∧
    p_files N = sh_files ∧ waiting (sch s') kt_runq = [nt] ∧ enters_user s' child N nt (Registers 0 [1; 2; 3]) ∧
    regs_at (mm (ext s')) 500 = Registers 3 [1; 2; 3] ∧
    file_refs (mm (ext s')) 1 = 2 ∧ vn_refs (mm (ext s')) 1 = 1.
Proof.
  destruct (do_fork_forks 500 fork_state 1 forker 1 (ex_thread KT_RUN None 1) 1 (Some 9%positive) fork_pl 3)
    as (s' & child & N & nt & newmap & Hr & _ & _ & _ & Hp & Hch & Heu & Hrs & Hw & _ & _ & _ & Hf & Hv).
  - apply fork_ex_available.
  - apply fork_state_can.
  - right. exists 0. split; [by vm_compute|]. split; [by vm_compute|]. split.
    + intros (q & Q & _ & HQ & Hq). unfold fork_state in HQ. simpl in HQ.
      by apply lookup_singleton_Some in HQ as [_ <-].
    + intros j Hj. lia.
  - lia.
  - exists s', child, N, nt. split; [exact Hr|]. split; [rewrite Hp; apply lookup_insert_eq|].
    split; [apply Hch|]. split; [exact Hw|]. split; [exact Heu|]. split; [exact Hrs|].
    split; [rewrite Hf; by vm_compute|rewrite Hv; by vm_compute].
Defined.
