(* ===== verification/Main.v ===== *)
(** * Kernel start: main/kmain.c

    [bootstrap] makes the idle process and switches to its thread; the idle process
    makes init, sets up the file system and the devices, and waits for init to exit.
    The shell commands run a test in a process of its own.  The functions run on the
    processes of Proc; the calls of the file system are those of Vfs, on the open
    files and the descriptor table of the current process.  What lies outside, the
    registered initialisers, [kernel_execve], the shell and the shutdown, is the
    interface [MainOps]. *)
From Stdlib Require Import Ascii String.
From S2P Require Import Prelude Headers Text Sched Vfs Proc.
Local Open Scope kernel_scope.

(** drivers/dev.h and fs/stat.h *)
Class DevH := {
  S_IFCHR : Z;
  MEM_NULL_DEVID : Z;
  MEM_ZERO_DEVID : Z;
  MKDEVID : Z → Z → Z
}.

(** A path. *)
Definition path_of (name : string) : list ascii := list_ascii_of_string name.

Class MainOps (F E X : Type) `{ProcH} := {
  pt_template_init : M E unit;
  (** util/init.c: calls the functions that [init_func] registered *)
  init_call_all : M (kernel E X) unit;
  intr_enable : M E unit;
  kshell_add_command : list Z → positive → M E unit;
  (** [kernel_execve(path, argv, envp)] *)
  kernel_execve : list Z → list (list Z) → list (list Z) → M (kernel E X) unit;
  final_shutdown : M (kernel E X) unit;
  (** the addresses of functions that are passed as pointers *)
  idleproc_run_fn : positive;
  initproc_run_fn : positive;
  sunghan_test : positive;
  sunghan_deadlock_test : positive;
  faber_thread_test : positive;
  vfstest_main : positive;
  sunghan_test_dummy_fn : positive;
  sunghan_deadlock_test_dummy_fn : positive;
  faber_thread_test_dummy_fn : positive;
  my_vfs_test_fn : positive;
  faber_fs_thread_test_fn : positive;
  faber_directory_test_fn : positive;
  (** the open files and the file systems in the rest of the kernel *)
  e_files : E → gmap positive file;
  e_fs : E → F;
  e_with : gmap positive file → F → E → E
}.

Section main.
Context `{HE : ErrnoH, HI : IntrH, HP : PageH, HL : LimitsH, HFC : FcntlH, HH : ProcH, HD : DevH}.
Context {F E X : Type} `{HVN : !VnOps F, HFO : !FileOps F, HO : !ProcOps E X, HM : !MainOps F E X}.
Local Abbreviation K := (kernel E X).
Implicit Types (p : procp) (t : tid).

(** ** The file system calls of the current process *)

(** What the file system sees: the open files, and the table and working directory of
    the process. *)
Definition vfs_of p (s : K) : vfs F :=
  Vfs (e_files (ext s)) (from_option Proc.p_files [] (procs s !! p)) (procs s !! p ≫= Proc.p_cwd)
      (e_fs (ext s)).
Definition vfs_put p (v : vfs F) (s : K) : K :=
  Kernel (sch s) (alter (λ C, set_p_cwd (Vfs.p_cwd v) (set_p_files (Vfs.p_files v) C)) p (procs s))
    (proc_list s) (next_pid s) (proc_initproc s) (kt_mems s) (e_with (files v) (fs v) (ext s)).
Definition on_vfs {A} (m : M (vfs F) A) : M K A :=
  cur <- curproc_ptr ;; proc_get cur ;;; zoom (vfs_of cur) (vfs_put cur) m.

Definition curproc_set (p : option procp) : M K unit :=
  on_sch (modify (λ s, Sched (threads s) (queues s) (curthr s) p (ipl s))).
Definition curthr_set (t : option tid) : M K unit :=
  on_sch (modify (λ s, Sched (threads s) (queues s) t (curproc s) (ipl s))).

(** ** The commands of the kernel shell *)

(** [while (!list_empty(&curproc->p_children)) do_waitpid(-1, 0, NULL);] *)
Fixpoint wait_children (n : nat) : M K unit :=
  cur <- curproc_ptr ;;
  l <- children_get cur ;;
  if bool_decide (l = []) then ret tt
  else match n with O => out_of_fuel | S n => _ <- do_waitpid (-1) 0 false ;; wait_children n end.

(** A process for the function [func], and waiting for all children. *)
Definition test_dummy (name : string) (func : positive) (kshell : option positive) : M K Z :=
  kassert (bool_decide (kshell ≠ None)) ;;;
  tmp_proc <- proc_create (bytes_of name) ;;
  tmp_thread <- kthread_create (Some tmp_proc) func 0 0 ;;
  on_sch (sched_make_runnable tmp_thread) ;;;
  wait_children wait_turns ;;;
  ret 0.
Definition sunghan_test_dummy := test_dummy "sunghanTest" sunghan_test.
Definition sunghan_deadlock_test_dummy := test_dummy "sunghanDeadlockTest" sunghan_deadlock_test.
Definition faber_thread_test_dummy := test_dummy "faberThreadTest" faber_thread_test.

Definition my_vfs_test : M K Z :=
  pt_vfs <- proc_create (bytes_of "VFS") ;;
  kt_vfs <- kthread_create (Some pt_vfs) vfstest_main 1 0 ;;
  on_sch (sched_make_runnable kt_vfs) ;;;
  P <- proc_get pt_vfs ;;
  _ <- do_waitpid (p_pid P) 0 true ;;
  ret 0.

(** ** Starting *)

(** [context_make_active] does not come back. *)
Definition bootstrap : M K unit :=
  on_ext pt_template_init ;;;
  p <- proc_create (bytes_of "IDLE") ;;
  curproc_set (Some p) ;;;
  cur <- on_sch (get curproc) ;;
  t <- kthread_create cur idleproc_run_fn 0 0 ;;
  curthr_set (Some t) ;;;
  cur <- on_sch (get curproc) ;;
  kassert (bool_decide (cur ≠ None)) ;;;
  thr <- on_sch (get curthr) ;;
  kassert (bool_decide (thr ≠ None)) ;;;
  C <- curproc_get ;;
  kassert (PID_IDLE =? p_pid C) ;;;
  thr <- deref thr ;;
  m <- kt_mem_get thr ;;
  _ <- deref (kt_ctx m) ;;
  block ContextSwitch ;;;
  panic.

Definition initproc_create : M K tid :=
  res_proc <- proc_create (bytes_of "init proc") ;;
  P <- proc_get res_proc ;;
  kassert (PID_INIT =? p_pid P) ;;;
  kthread_create (Some res_proc) initproc_run_fn 0 0.

(** The directory and the nodes of the devices; the results are not looked at. *)
Definition make_devices : M (vfs F) unit :=
  _ <- do_mkdir (path_of "/dev") ;;
  _ <- do_mknod (path_of "/dev/null") S_IFCHR MEM_NULL_DEVID ;;
  _ <- do_mknod (path_of "/dev/zero") S_IFCHR MEM_ZERO_DEVID ;;
  _ <- do_mknod (path_of "/dev/tty0") S_IFCHR (MKDEVID 2 0) ;;
  _ <- do_mknod (path_of "/dev/tty1") S_IFCHR (MKDEVID 2 1) ;;
  ret tt.

(** The part of [idleproc_run] between the initialisers and the wait. *)
Definition idle_setup (initthr : tid) : M K unit :=
  root <- get (λ s, Proc.vfs_root_vn (ext s)) ;;
  root <- deref root ;;
  curproc_upd (set_p_cwd (Some root)) ;;;
  on_ext (Proc.vref root) ;;;
  th <- on_sch (thr_get initthr) ;;
  init <- deref (kt_proc th) ;;
  proc_get init ;;;
  proc_upd init (set_p_cwd (Some root)) ;;;
  on_ext (Proc.vref root) ;;;
  on_vfs make_devices ;;;
  on_ext intr_enable ;;;
  on_sch (sched_make_runnable initthr).

Definition idleproc_run : M K unit :=
  initthr <- initproc_create ;;
  init_call_all ;;;
  idle_setup initthr ;;;
  ' (child, _) <- do_waitpid (-1) 0 true ;;
  kassert (PID_INIT =? child) ;;;
  final_shutdown.

Definition initproc_run : M K unit :=
  on_ext (kshell_add_command (bytes_of "sunghan") sunghan_test_dummy_fn) ;;;
  on_ext (kshell_add_command (bytes_of "deadlock") sunghan_deadlock_test_dummy_fn) ;;;
  on_ext (kshell_add_command (bytes_of "faber") faber_thread_test_dummy_fn) ;;;
  on_ext (kshell_add_command (bytes_of "vfstest") my_vfs_test_fn) ;;;
  on_ext (kshell_add_command (bytes_of "thrtest") faber_fs_thread_test_fn) ;;;
  on_ext (kshell_add_command (bytes_of "dirtest") faber_directory_test_fn) ;;;
  kernel_execve (bytes_of "/sbin/init") [bytes_of "/sbin/init"] [].
End main.
