(* ===== verification/MainDev.v ===== *)
(** * Properties of kernel start: the devices

    What the calls of the idle process that make "/dev" and the special files in it
    leave in the file system. *)
From Stdlib Require Import Ascii String.
From S2P Require Import Prelude Headers Text Vfs NamevProps VfsProps VfsNames Proc Main.
Local Open Scope kernel_scope.

(** What the numbers of the headers promise: [S_IFCHR] is the type of a character
    device, and a file name may have four characters. *)
Class DevLaws `{FcntlH, LimitsH, DevH} := {
  s_ifchr_ok : S_ISCHR S_IFCHR = true;
  name_len_ok : 4 <= NAME_LEN
}.

Section devices.
Context `{HE : ErrnoH, HL : LimitsH, HFC : FcntlH, HD : DevH, HDL : !DevLaws} {F : Type}
  `{HVN : !VnOps F, HFO : !FileOps F, HW : !VnView F, HX : !VnLaws F, HNL : !VnNewLaws F}.
Implicit Types (t : F) (s : vfs F) (d c : vnode).

(** The special files of "/dev" and their devices. *)
Definition device_nodes : list (cstring * Z) :=
  [(path_of "null", MEM_NULL_DEVID); (path_of "zero", MEM_ZERO_DEVID);
   (path_of "tty0", MKDEVID 2 0); (path_of "tty1", MKDEVID 2 1)].

(** A file system whose root directory has no entry "dev" and room for one and for the
    special files. *)
Record dev_ready t : Prop := {
  dr_live : 0 < vrefs t (Vfs.vfs_root_vn t);
  dr_lookup : vn_has t VLookup (Vfs.vfs_root_vn t) = true;
  dr_mkdir : vn_has t VMkdir (Vfs.vfs_root_vn t) = true;
  dr_free : child t (Vfs.vfs_root_vn t) (path_of "dev") = None;
  dr_room : (5 <= fs_room t)%nat
}.

(** Between [t0] and [t] the directory [d] was made under "dev", with the special files
    [nodes] in it; the entries of the vnodes in use and all reference counts are as
    before. *)
Record dev_made t0 d (nodes : list (cstring * Z)) t : Prop := {
  dm_root : Vfs.vfs_root_vn t = Vfs.vfs_root_vn t0;
  dm_refs : same_refs t0 t;
  dm_dev : child t (Vfs.vfs_root_vn t) (path_of "dev") = Some d;
  dm_nodes name devid : (name, devid) ∈ nodes →
    ∃ c, child t d name = Some c ∧ special_file S_IFCHR devid t c;
  dm_frame x n : 0 < vrefs t0 x → (x, n) ≠ (Vfs.vfs_root_vn t0, path_of "dev") → child t x n = child t0 x n;
  dm_new : vrefs t0 d = 0;
  dm_root_dir : vn_has t VLookup (Vfs.vfs_root_vn t) = true;
  dm_dir : vn_has t VLookup d = true ∧ vn_has t VMknod d = true;
  dm_empty n : n ∉ nodes.*1 → n ≠ DOT → n ≠ DOTDOT → child t d n = None
}.

(** The calls change nothing but the file system below. *)
Definition only_fs s s' : Prop := s' = set_fs (fs s') s.

Lemma dev_mkdir s :
  dev_ready (fs s) →
  returns (do_mkdir (path_of "/dev")) s (λ _ s', only_fs s s' ∧
    (∃ d, dev_made (fs s) d [] (fs s')) ∧ (4 <= fs_room (fs s'))%nat).
Proof.
  intros [Hlive Hlk Hmk Hfree Hroom].
  change (path_of "/dev") with ([SLASH] ++ path_of "dev").
  assert (resolves s [SLASH] (path_of "dev") (Vfs.vfs_root_vn (fs s)) (Vfs.vfs_root_vn (fs s))) as Hres.
  { pose proof name_len_ok. split; try done; [..|by right|simpl; lia]. by apply (bool_decide_unpack _). }
  eapply returns_mono; [by apply (do_mkdir_free s [SLASH] (path_of "dev") _ _ Hres)|].
  intros z s' (t & -> & Hrefs & [Hcase Hr Hu]). simpl. split; [done|]. split; [|lia].
  destruct Hcase as [(_ & d & [Ech Eu En Ecs Eh Em Ed Er] & Hl & Hm & Hemp)|[Hz _]]; [|lia].
  assert (Vfs.vfs_root_vn (fs s) ≠ d) as Hne by (intros He; rewrite He in Hlive; lia).
  exists d. split; rewrite ?Er; try done.
  - by intros name devid Hin%elem_of_nil.
  - intros x n Hx Hxn. apply Ecs; [|done]. intros ->. lia.
  - by rewrite Eh.
  - intros n _. apply Hemp.
Qed.

Lemma dev_mknod s t0 d nodes name devid :
  dev_made t0 d nodes (fs s) → 0 < vrefs t0 (Vfs.vfs_root_vn t0) → (0 < fs_room (fs s))%nat →
  SLASH ∉ name → name ≠ [] → Z.of_nat (length name) <= NAME_LEN → name ≠ DOT → name ≠ DOTDOT → name ∉ nodes.*1 →
  returns (do_mknod (path_of "/dev/" ++ name) S_IFCHR devid) s (λ _ s', only_fs s s' ∧
    dev_made t0 d ((name, devid) :: nodes) (fs s') ∧ (fs_room (fs s) <= Datatypes.S (fs_room (fs s')))%nat).
Proof.
  intros [Hroot Hrefs Hdev Hnodes Hframe Hnew Hrd [Hdl Hdm] Hemp] Hlive Hroom Hs Hne Hlen Hn1 Hn2 Hnin.
  assert (0 < vrefs (fs s) (Vfs.vfs_root_vn (fs s))) as Hlr by (by rewrite Hrefs, Hroot).
  remember (Vfs.vfs_root_vn (fs s)) as r eqn:Hreq. symmetry in Hreq.
  assert (r ≠ d) as Hrnd by (intros ->; rewrite Hroot in Hnew; lia).
  assert (resolves s (path_of "/dev/") name r d) as Hres.
  { split; try done; [by right|by rewrite <- Hreq|]. change (walk (fs s) r [path_of "dev"] = WOk d). unfold walk. by rewrite Hrd, Hdev. }
  assert (child (fs s) d name = None) as Hfree by (by apply Hemp).
  eapply returns_mono; [apply (do_mknod_free s (path_of "/dev/") name r d); try done; by rewrite s_ifchr_ok|].
  intros z s' (t & -> & Hrefs' & [Hcase Hr Hu]). simpl. split; [done|]. split; [|lia].
  destruct Hcase as [(_ & c & [Ech Eu En Ecs Eh Em Ed Er] & HQ)|[Hz _]]; [|lia].
  assert (r ≠ c) as Hrc by (intros ->; lia). assert (d ≠ c) as Hdc by (intros ->; by eapply En).
  assert (∀ x n, x ≠ c → x ≠ d → child t x n = child (fs s) x n) as Hother.
  { intros x n Hxc Hxd. apply Ecs; [done|congruence]. }
  split; rewrite ?Er, ?Hreq; try done.
  - intros x. by rewrite Hrefs', Hrefs.
  - by rewrite Hother.
  - intros name' devid' [[= -> ->]|Hin]%elem_of_cons; [by exists c|].
    destruct (Hnodes _ _ Hin) as (c' & Hc' & Hm' & Hd'). assert (c' ≠ c) as Hcc by (intros ->; by eapply En).
    exists c'. unfold special_file. rewrite Em, Ed by done. split; [|done]. rewrite Ecs; [done|done|].
    intros [= ->]. apply Hnin, list_elem_of_fmap. by exists (name, devid').
  - intros x n Hx Hxn. rewrite Hother; [by apply Hframe|..]; intros ->; [rewrite Hrefs in Eu; lia|lia].
  - by rewrite Eh.
  - by rewrite !Eh.
  - intros n. simpl. rewrite not_elem_of_cons. intros [Hnn Hnot] H1 H2. rewrite Ecs; [by apply Hemp|done|congruence].
Qed.

(** A step of [make_devices]. *)
Lemma device_step s t0 d nodes name devid (m : M (vfs F) unit) (P : unit → vfs F → Prop) :
  dev_made t0 d nodes (fs s) → 0 < vrefs t0 (Vfs.vfs_root_vn t0) → (0 < fs_room (fs s))%nat →
  SLASH ∉ name → name ≠ [] → (length name <= 4)%nat → name ≠ DOT → name ≠ DOTDOT → name ∉ nodes.*1 →
  (∀ s', only_fs s s' → dev_made t0 d ((name, devid) :: nodes) (fs s') →
    (fs_room (fs s) <= Datatypes.S (fs_room (fs s')))%nat → returns m s' P) →
  returns (_ <- do_mknod (path_of "/dev/" ++ name) S_IFCHR devid ;; m) s P.
Proof.
  intros Hd Hl Hr Hs Hne Hlen H1 H2 Hn Hm. pose proof name_len_ok. apply returns_bind.
  eapply returns_mono; [by apply (dev_mknod s t0 d nodes name devid); try done; lia|].
  intros z s' (Ho & Hd' & Hr'). by apply Hm.
Qed.

(** [make_devices] makes the directory and the special files. *)
Lemma make_devices_makes s :
  dev_ready (fs s) →
  returns make_devices s (λ _ s', only_fs s s' ∧ ∃ d, dev_made (fs s) d (reverse device_nodes) (fs s')).
Proof.
  intros Hrd. pose proof (dr_live _ Hrd) as Hlive. unfold make_devices. apply returns_bind.
  eapply returns_mono; [by apply dev_mkdir|]. intros _ s1 (Ho1 & [d Hd1] & Hr1).
  assert (∀ n : cstring, bool_decide (SLASH ∉ n) = true → SLASH ∉ n) as Hsl by (by intros n ?%bool_decide_eq_true).
  apply (device_step s1 (fs s) d [] (path_of "null")); try done; [lia|by apply Hsl|by apply not_elem_of_nil|].
  intros s2 Ho2 Hd2 Hr2.
  eapply (device_step s2 (fs s) d _ (path_of "zero")); [done|done|lia|by apply Hsl|done|done|done|done|by apply (bool_decide_unpack _)|].
  intros s3 Ho3 Hd3 Hr3.
  eapply (device_step s3 (fs s) d _ (path_of "tty0")); [done|done|lia|by apply Hsl|done|done|done|done|by apply (bool_decide_unpack _)|].
  intros s4 Ho4 Hd4 Hr4.
  eapply (device_step s4 (fs s) d _ (path_of "tty1")); [done|done|lia|by apply Hsl|done|done|done|done|by apply (bool_decide_unpack _)|].
  intros s5 Ho5 Hd5 _. eexists _, _. split; [done|]. split; [|by exists d].
  unfold only_fs in *. rewrite Ho5, Ho4, Ho3, Ho2, Ho1. done.
Qed.
End devices.
