(* ===== verification/MainProps.v ===== *)
(** * Properties of kernel start

    From an empty process table to the idle process waiting for init. *)
From Stdlib Require Import String.
From S2P Require Import Prelude Headers Text Sched SchedProps Vfs Proc ProcProps ProcThread ProcLinks ProcWait Main.
Local Open Scope kernel_scope.

Section boot.
Context `{HE : ErrnoH, HI : IntrH, HP : PageH, HL : LimitsH, HFC : FcntlH, HH : ProcH, HD : DevH}.
Context {F E X : Type} `{HVN : !VnOps F, HFO : !FileOps F, HV : !ProcView E, HO : !ProcOps E X}.
Context `{HW : !ProcLaws E X, HM : !MainOps F E X}.
Local Abbreviation K := (kernel E X).
Implicit Types (p q : procp) (t : tid) (s : K).

(** What the boot code relies on: setting up the page tables and enabling interrupts
    return. *)
Class BootLaws := {
  pt_template_init_ok e : ∃ e', pt_template_init e = Ret tt e' ∧ same_view e e' ∧
    Proc.vfs_root_vn e' = Proc.vfs_root_vn e;
  intr_enable_ok e : ∃ e', intr_enable e = Ret tt e' ∧ same_view e e'
}.
Context {HB : BootLaws}.

(** There is memory for a process and for a thread. *)
Definition boot_memory s : Prop :=
  map_memory (ext s) ∧ (∀ e, is_Some (proc_slab (with_ext e s))) ∧
  ∀ s', threads (sch s') = threads (sch s) → kt_mems s' = kt_mems s → is_Some (kthread_slab s').

Lemma map_memory_same (e e' : E) : same_maps e e' → map_memory e → map_memory e'.
Proof. intros Hs Hm e1 He. apply Hm. unfold same_maps in *. congruence. Qed.

(** ** States *)

(** Who is running plays no part in the process table, tree and queues. *)
Definition running (ct : option tid) (cp : option procp) s : K :=
  with_sch (Sched (threads (sch s)) (queues (sch s)) ct cp (ipl (sch s))) s.

Lemma boot_wf_running ct cp s : boot_wf s → boot_wf (running ct cp s).
Proof. by intros [[] [] []]. Qed.

Lemma boot_wf_ext e s : boot_wf s → boot_wf (with_ext e s).
Proof. by intros [[] [] []]. Qed.

Lemma sched_wf_running ct cp s : sched_wf (sch s) → curthr (sch s) = None →
  sched_wf (sch (running ct cp s)).
Proof.
  intros [Hc [Hw Hcanc]] Hn. split; [by destruct Hc|]. split; [done|]. intros t th Ht Hst. simpl in *.
  destruct (Hcanc t th Ht Hst) as [?|?]; [by left|congruence].
Qed.

(** Nothing has been started yet. *)
Record unstarted s : Prop := {
  us_procs : procs s = ∅;
  us_list : proc_list s = [];
  us_next : next_pid s = 0;
  us_curproc : curproc (sch s) = None;
  us_curthr : curthr (sch s) = None;
  us_sched : sched_wf (sch s)
}.

Lemma unstarted_wf s : unstarted s → boot_wf s.
Proof.
  intros [Hp Hl Hn _ _ _]. pose proof proc_max_count_pos. split; split; rewrite ?Hp, ?Hl, ?Hn; try done.
  - apply NoDup_nil_2.
  - intros p. rewrite lookup_empty, elem_of_nil. split; [done|]. by intros [? ?].
  - lia.
  - intros p. rewrite lookup_empty. by intros [? ?].
Qed.

(** The next number is free. *)
Lemma pid_spec_next s : 0 <= next_pid s < PROC_MAX_COUNT → ¬ used s (next_pid s) → pid_spec s (next_pid s).
Proof.
  intros Hn Hu. right. exists 0. rewrite Z.add_0_r, Z.mod_small by done. do 3 (split; [done || lia|]). lia.
Qed.

(** Steps of the boot code. *)
Lemma curproc_set_run o s : curproc_set o s = Ret tt (running (curthr (sch s)) o s).
Proof. done. Qed.
Lemma curthr_set_run o s : curthr_set o s = Ret tt (running o (curproc (sch s)) s).
Proof. done. Qed.
Lemma on_sch_get {A} (f : sched → A) s : on_sch (get f) s = Ret (f (sch s)) s.
Proof. by destruct s. Qed.
(** ** The idle process *)

(** C19: [bootstrap] starts the idle process.  From an empty process table it gives up
    the processor, and never comes back from that (it would panic), in a state where
    the one process is process 0, with no parent and one thread; it is the current
    process and its thread, marked as running and with a context, the current thread;
    table, tree and queues are consistent and the next process will be process 1. *)
Theorem bootstrap_starts_idle s :
  unstarted s → boot_memory s →
  ∃ p t pd map st x s1 k, bootstrap s = Block ContextSwitch s1 k ∧ (∀ s', k s' = Panic) ∧
    boot_wf s1 ∧ sched_wf (sch s1) ∧
    curproc (sch s1) = Some p ∧ curthr (sch s1) = Some t ∧ proc_list s1 = [p] ∧ next_pid s1 = 1 ∧
    procs s1 = {[p := with_thread t (new_proc 0 (bytes_of "IDLE") None pd
                        (Proc.vfs_root_vn (ext s)) (Some map))]} ∧
    threads (sch s1) = <[t := Kthread KT_RUN None false 0 0 0 (Some p)]> (threads (sch s)) ∧
    kt_mems s1 = <[t := KtMem st (Some x) true]> (kt_mems s) ∧ threads (sch s) !! t = None.
Proof.
  intros Hus (Hmem & Hpslab & Htslab). pose proof (unstarted_wf s Hus) as Hwf.
  destruct Hus as [Hprocs Hlist Hnext Hcp Hct Hsw]. unfold bootstrap.
  destruct (pt_template_init_ok (ext s)) as (e0 & He0 & Hv0 & Hroot).
  rewrite (bind_Ret _ _ _ _ _ (on_ext_run _ _ _ _ He0)). set (s0 := with_ext e0 s).
  destruct (Hpslab e0) as [p Hp]. fold s0 in Hp.
  assert (pid_spec s0 0) as Hspec.
  { rewrite <- Hnext. apply (pid_spec_next s0); simpl; [apply Hwf|].
    intros (q & Q & Hq & _). simpl in Hq. rewrite Hlist in Hq. by apply elem_of_nil in Hq. }
  assert (parent_ok s0) as Hpar by (intros cur; simpl; congruence).
  destruct (proc_create_run s0 p 0 (bytes_of "IDLE")) as (pd & map & e1 & Hcr & Hec); try done.
  { by apply boot_wf_ext. }
  { split; [by simpl|]. rewrite pid_init_eq. done. }
  { eapply map_memory_same; [apply Hv0|done]. }
  rewrite (bind_Ret _ _ _ _ _ Hcr). set (P := new_proc _ _ _ _ _ _) in *. set (s1 := created s0 p 0 P e1) in *.
  rewrite (bind_Ret _ _ _ _ _ (curproc_set_run _ _)), (bind_Ret _ _ _ _ _ (on_sch_get _ _)).
  set (s2 := running _ (Some p) s1). change (curproc (sch s2)) with (Some p).
  assert (procs s2 !! p = Some P) as HP2 by apply lookup_insert_eq.
  destruct (Htslab s2) as [t Ht]; [done|done|].
  destruct (kthread_create_run s2 p P t idleproc_run_fn 0 0 HP2 Ht) as (st & x & e2 & Hk & _).
  rewrite (bind_Ret _ _ _ _ _ Hk). destruct (kthread_slab_fresh s2 t Ht) as [Hft Hfm].
  set (s3 := threaded s2 p P t (KtMem st (Some x) true) e2).
  rewrite (bind_Ret _ _ _ _ _ (curthr_set_run _ _)). set (s4 := running (Some t) _ s3).
  rewrite (bind_Ret _ _ _ _ _ (on_sch_get _ _)). kstep. rewrite (bind_Ret _ _ _ _ _ (on_sch_get _ _)). kstep.
  rewrite (bind_Ret _ _ _ _ _ (curproc_get_run s4 p (with_thread t P) eq_refl (lookup_insert_eq _ _ _))).
  rewrite pid_idle_eq. kstep. kstep.
  rewrite (bind_Ret _ _ _ (KtMem st (Some x) true) s4)
    by (unfold kt_mem_get; simpl; by rewrite lookup_insert_eq). kstep.
  assert (boot_wf s2) as Hwf2 by (apply boot_wf_running, created_wf; try done; by apply boot_wf_ext).
  exists p, t, pd, map, st, x, s4. eexists. split; [reflexivity|]. split; [done|].
  split; [apply boot_wf_running; apply threaded_wf; try done; by apply kthread_slab_fresh|].
  assert (procs s4 = {[p := with_thread t P]}) as Hps.
  { simpl. rewrite Hcp. simpl. by rewrite Hprocs, insert_insert_eq. }
  split; [|do 2 (split; [done|]); split; [simpl; by rewrite Hlist|]; split;
    [simpl; unfold numbered; simpl; by rewrite Z.mod_small by (pose proof proc_max_count_pos; lia)|]].
  - apply sched_wf_running; [|by simpl]. apply sched_wf_new_thread; try done; [|by simpl; case_match].
    apply (sched_wf_running _ _ s1); [|done]. apply sched_wf_new_queue; [done|].
    apply (proc_slab_fresh s0 p Hp).
  - split; [rewrite Hps; subst P; simpl; by rewrite Hcp, Hroot|].
    split; [|by split]. simpl. unfold new_thread. simpl. by rewrite pid_idle_eq.
Qed.

(** ** The init process *)

(** The idle process, running and about to make init. *)
Record idle_state s p (C : proc) t (th : kthread) : Prop := {
  id_wf : boot_wf s;
  id_sched : sched_wf (sch s);
  id_proc : curproc (sch s) = Some p;
  id_thread : curthr (sch s) = Some t;
  id_c : procs s !! p = Some C;
  id_pid : p_pid C = 0;
  id_run : p_state C = PROC_RUNNING;
  id_th : threads (sch s) !! t = Some th;
  id_chan : kt_wchan th = None;
  id_next : next_pid s = 1;
  id_free : ¬ used s 1;
  id_alive c Q : procs s !! c = Some Q → p_state Q = PROC_RUNNING
}.

(** [initproc_create] makes process 1, the only child that the idle process has gained,
    and its thread. *)
Definition init_made s p q ti s' : Prop :=
  boot_wf s' ∧ sched_wf (sch s') ∧ curproc (sch s') = curproc (sch s) ∧
  curthr (sch s') = curthr (sch s) ∧ proc_initproc s' = Some q ∧ procs s !! q = None ∧
  (∃ Q, procs s' !! q = Some Q ∧ p_pid Q = 1 ∧ p_pproc Q = Some p ∧ p_threads Q = [ti] ∧
    p_state Q = PROC_RUNNING) ∧
  (∀ c Q, procs s !! c = Some Q →
    procs s' !! c = Some (if bool_decide (Some p = Some c) then add_child q Q else Q)) ∧
  (∀ c, c ≠ q → is_Some (procs s' !! c) → is_Some (procs s !! c)) ∧
  threads (sch s') = <[ti := Kthread KT_NO_STATE None false 0 0 0 (Some q)]> (threads (sch s)) ∧
  threads (sch s) !! ti = None ∧ waiting (sch s') (p_wait p) = waiting (sch s) (p_wait p).

Lemma initproc_create_run s p C t th :
  idle_state s p C t th → boot_memory s →
  ∃ q ti s', initproc_create s = Ret ti s' ∧ init_made s p q ti s'.
Proof.
  intros [Hwf Hsw Hcur Hthr HC Hpid Hrun Hth Hchan Hnext Hfree _] (Hmem & Hpslab & Htslab).
  destruct (Hpslab (ext s)) as [q Hq]. replace (with_ext (ext s) s) with s in Hq by (by destruct s).
  destruct (proc_slab_fresh s q Hq) as [Hfq Hwq].
  assert (pid_spec s 1) as Hspec.
  { rewrite <- Hnext. apply pid_spec_next; [apply Hwf|by rewrite Hnext]. }
  assert (parent_ok s) as Hpar by (intros cur Hc; exists C; by simplify_eq).
  destruct (proc_create_run s q 1 (bytes_of "init proc")) as (pd & map & e1 & Hcr & Hec); try done.
  { split; [rewrite pid_idle_eq; done|]. intros _. exists p, C. by rewrite pid_idle_eq. }
  unfold initproc_create. rewrite (bind_Ret _ _ _ _ _ Hcr).
  set (P := new_proc _ _ _ _ _ _) in *. set (s1 := created s q 1 P e1) in *.
  assert (procs s1 !! q = Some P) as HP1 by apply lookup_insert_eq.
  rewrite (bind_Ret _ _ _ P s1) by (unfold proc_get; by rewrite HP1).
  rewrite pid_init_eq. kstep.
  destruct (Htslab s1) as [ti Ht]; [done|done|].
  destruct (kthread_create_run s1 q P ti initproc_run_fn 0 0 HP1 Ht) as (st & x & e2 & Hk & _).
  destruct (kthread_slab_fresh s1 ti Ht) as [Hft Hfm].
  set (m := KtMem st (Some x) true) in *.
  assert (p ≠ q) as Hne by congruence.
  exists q, ti, (threaded s1 q P ti m e2). split; [exact Hk|].
  assert (boot_wf s1) as Hwf1 by (by apply created_wf).
  split; [apply threaded_wf; try done; by apply kthread_slab_fresh|]. split; [|do 2 (split; [done|]); split].
  - apply sched_wf_new_thread; try done; [by apply sched_wf_new_queue|by simpl; case_match].
  - simpl. by rewrite pid_init_eq.
  - split; [done|]. split.
    { exists (with_thread ti P). simpl. by rewrite lookup_insert_eq. }
    split; [|split; [|split; [simpl; unfold new_thread; simpl; by rewrite pid_idle_eq|]]].
    + intros c Q HQ. simpl. rewrite lookup_insert_ne by congruence.
      apply (created_lookup s q 1 P e1 c); [done|]. right. split; [congruence|].
      exists Q. split; [done|]. by rewrite Hcur.
    + intros c Hcq [P' HP']. simpl in HP'. rewrite lookup_insert_ne in HP' by done.
      apply (created_lookup s q 1 P e1 c) in HP' as [[? _]|(_ & Q0 & HQ0 & _)]; [done|by eexists|done].
    + split; [done|]. unfold waiting. simpl. rewrite lookup_insert_ne; [done|].
      intros Heq. by apply Hne, eq_sym, p_wait_inj.
Qed.
End boot.
