(* ===== verification/Init.v ===== *)
(** * Initialisers: the *_init functions of proc/, vm/

    The functions that set up the run queue, the process list and the slab allocators
    before [bootstrap] runs.  Who calls them, and in which order, is outside the
    source; the order does not matter. *)
From Stdlib Require Import Ascii String.
From S2P Require Import Prelude Headers Text Sched SchedProps Proc ProcProps Main MainProps.
Local Open Scope kernel_scope.

(** The allocators of proc.c, kthread.c, vmmap.c, anon.c and shadow.c. *)
Inductive allocator : Set :=
  proc_allocator | kthread_allocator | vmmap_allocator | vmarea_allocator | anon_allocator | shadow_allocator.
#[export] Instance allocator_eq_dec : EqDecision allocator.
Proof. solve_decision. Defined.

Class InitOps (E : Type) := {
  (** mm/slab.h: [slab_allocator_create(name, size)] *)
  slab_allocator_create : string → Z → M E (option positive);
  sizeof_proc_t : Z; sizeof_kthread_t : Z; sizeof_vmmap_t : Z; sizeof_vmarea_t : Z; sizeof_mmobj_t : Z
}.

(** The kernel and the static variables that hold the allocators. *)
Record booting (E X : Type) := Booting {
  kern : kernel E X;
  slabs : allocator → option positive
}.
Arguments Booting {E X} kern slabs.
Arguments kern {E X} _.
Arguments slabs {E X} _ _.

Section init.
Context `{HE : ErrnoH, HI : IntrH, HP : PageH, HL : LimitsH, HH : ProcH}.
Context {E X : Type} `{HO : !ProcOps E X, HN : !InitOps E}.
Local Abbreviation B := (booting E X).

Definition on_kern {A} (m : M (kernel E X) A) : M B A := zoom kern (λ x s, Booting x (slabs s)) m.

(** [a = slab_allocator_create(name, size); KASSERT(NULL != a);] *)
Definition make_slab (a : allocator) (name : string) (size : Z) : M B unit :=
  r <- on_kern (on_ext (slab_allocator_create name size)) ;;
  modify (λ s, Booting (kern s) (λ b, if decide (b = a) then r else slabs s b)) ;;;
  r <- get (λ s, slabs s a) ;;
  kassert (bool_decide (r ≠ None)).

Definition sched_init : M B unit := on_kern (on_sch (sched_queue_init kt_runq)).
Definition proc_init : M B unit :=
  on_kern (proc_list_set (λ _, [])) ;;; make_slab proc_allocator "proc" sizeof_proc_t.
Definition kthread_init : M B unit := make_slab kthread_allocator "kthread" sizeof_kthread_t.
Definition vmmap_init : M B unit :=
  make_slab vmmap_allocator "vmmap" sizeof_vmmap_t ;;;
  make_slab vmarea_allocator "vmarea" sizeof_vmarea_t.
Definition anon_init : M B unit := make_slab anon_allocator "anon_allocator" sizeof_mmobj_t.
Definition shadow_init : M B unit := make_slab shadow_allocator "shadow" sizeof_mmobj_t.

Inductive init_fn : Set := ISched | IProc | IKthread | IVmmap | IAnon | IShadow.
Definition run_init (i : init_fn) : M B unit :=
  match i with
  | ISched => sched_init | IProc => proc_init | IKthread => kthread_init
  | IVmmap => vmmap_init | IAnon => anon_init | IShadow => shadow_init
  end.
Fixpoint run_inits (l : list init_fn) : M B unit :=
  match l with [] => ret tt | i :: l => run_init i ;;; run_inits l end.

(** ** What they set up *)

(** The kernel as it was loaded: static variables are zero, the process list and the
    run queue are not set up. *)
Record loaded (s : B) : Prop := Loaded {
  ld_procs : procs (kern s) = ∅;
  ld_next : next_pid (kern s) = 0;
  ld_curproc : curproc (sch (kern s)) = None;
  ld_curthr : curthr (sch (kern s)) = None;
  ld_threads : threads (sch (kern s)) = ∅;
  ld_queues q Q : queues (sch (kern s)) !! q = Some Q → Q = Ktqueue [] 0
}.

(** What one initialiser leaves behind. *)
Definition ready (i : init_fn) (s : B) : Prop :=
  match i with
  | ISched => queues (sch (kern s)) !! kt_runq = Some (Ktqueue [] 0)
  | IProc => proc_list (kern s) = [] ∧ is_Some (slabs s proc_allocator)
  | IKthread => is_Some (slabs s kthread_allocator)
  | IVmmap => is_Some (slabs s vmmap_allocator) ∧ is_Some (slabs s vmarea_allocator)
  | IAnon => is_Some (slabs s anon_allocator)
  | IShadow => is_Some (slabs s shadow_allocator)
  end.

(** There is memory for the allocators. *)
Definition slabs_available : Prop :=
  ∀ name size e, returns (slab_allocator_create name size) e (λ r _, is_Some r).

(** [s'] is [s] but for the rest of the kernel and perhaps more allocators. *)
Definition same_kern (s s' : B) : Prop :=
  sch (kern s') = sch (kern s) ∧ procs (kern s') = procs (kern s) ∧ next_pid (kern s') = next_pid (kern s) ∧
  proc_list (kern s') = proc_list (kern s) ∧ ∀ a, is_Some (slabs s a) → is_Some (slabs s' a).

Lemma same_kern_ready i s s' : same_kern s s' → ready i s → ready i s'.
Proof. intros (Hs & _ & _ & Hl & Ha). destruct i; simpl; rewrite ?Hs, ?Hl; naive_solver. Qed.

Lemma same_kern_loaded s s' : same_kern s s' → loaded s → loaded s'.
Proof. intros (Hs & Hp & Hn & _) []. split; rewrite ?Hs, ?Hp, ?Hn; done. Qed.

Lemma make_slab_run a name size s :
  slabs_available → returns (make_slab a name size) s (λ _ s', same_kern s s' ∧ is_Some (slabs s' a)).
Proof.
  intros Hav. destruct (Hav name size (ext (kern s))) as (r & e & Hr & [x ->]). unfold make_slab, returns.
  erewrite bind_Ret; [|unfold on_kern, on_ext, zoom; by rewrite Hr].
  do 2 kstep. simpl. rewrite decide_True by done. eexists _, _. split; [done|].
  simpl. rewrite decide_True by done. split; [|by eexists]. repeat split; try done.
  intros b Hb. simpl. case_decide; [by eexists|done].
Qed.

Lemma same_kern_trans s1 s2 s3 : same_kern s1 s2 → same_kern s2 s3 → same_kern s1 s3.
Proof. intros (?&?&?&?&?) (?&?&?&?&?). unfold same_kern. repeat split; (congruence || eauto). Qed.

(** One initialiser keeps what the others did. *)
Lemma run_init_ready i s :
  slabs_available → loaded s →
  returns (run_init i) s (λ _ s', loaded s' ∧ ready i s' ∧ ∀ j, ready j s → ready j s').
Proof.
  intros Hav Hld.
  assert (∀ a name size s0, (∀ j, ready j s → ready j s0) → loaded s0 →
    returns (make_slab a name size) s0 (λ _ s', loaded s' ∧ is_Some (slabs s' a) ∧
      proc_list (kern s') = proc_list (kern s0) ∧ (∀ b, is_Some (slabs s0 b) → is_Some (slabs s' b)) ∧
      ∀ j, ready j s → ready j s')) as Hslab.
  { intros a name size s0 Hj Hl0. eapply returns_mono; [by apply make_slab_run|]. intros [] s' [Hsk Ha].
    pose proof Hsk as (_ & _ & _ & Hpl & Hsl). split; [by eapply same_kern_loaded|]. do 3 (split; [done|]).
    intros j Hr. eapply same_kern_ready; eauto. }
  destruct i.
  - eexists _, _. split; [done|]. destruct Hld as [????? Hq]. split; [split; simpl; try done|split].
    + intros q Q. rewrite lookup_insert. case_decide; [by intros [= <-]|apply Hq].
    + apply lookup_insert_eq.
    + intros []; simpl; try done. intros _. apply lookup_insert_eq.
  - set (s0 := Booting (Kernel (sch (kern s)) (procs (kern s)) [] (next_pid (kern s)) (proc_initproc (kern s))
      (kt_mems (kern s)) (ext (kern s))) (slabs s)).
    destruct (Hslab proc_allocator "proc"%string sizeof_proc_t s0) as ([] & s' & Hr & Hl' & Ha & Hpl & _ & Hj).
    { intros []; simpl; naive_solver. }
    { by destruct Hld. }
    exists tt, s'. split; [|done]. simpl. unfold proc_init. erewrite bind_Ret; [exact Hr|done].
  - eapply returns_mono; [by apply Hslab|]. intros [] s' (? & ? & _ & _ & ?). done.
  - destruct (Hslab vmmap_allocator "vmmap"%string sizeof_vmmap_t s) as ([] & s1 & Hr1 & Hl1 & Ha1 & _ & _ & Hj1); try done.
    destruct (Hslab vmarea_allocator "vmarea"%string sizeof_vmarea_t s1) as ([] & s2 & Hr2 & Hl2 & Ha2 & _ & Hk2 & Hj2); try done.
    exists tt, s2. split; [simpl; unfold vmmap_init; by rewrite (bind_Ret _ _ _ _ _ Hr1)|].
    split; [done|]. split; [|done]. split; [by apply Hk2|done].
  - eapply returns_mono; [by apply Hslab|]. intros [] s' (? & ? & _ & _ & ?). done.
  - eapply returns_mono; [by apply Hslab|]. intros [] s' (? & ? & _ & _ & ?). done.
Qed.

Lemma run_inits_ready l : ∀ s,
  slabs_available → loaded s →
  returns (run_inits l) s (λ _ s', loaded s' ∧ (∀ i, i ∈ l → ready i s') ∧ ∀ j, ready j s → ready j s').
Proof.
  induction l as [|i l IH]; intros s Hav Hld.
  { exists tt, s. split; [done|]. split; [done|]. split; [|done]. by intros i ?%elem_of_nil. }
  destruct (run_init_ready i s Hav Hld) as ([] & s1 & Hr1 & Hl1 & Hi1 & Hj1).
  destruct (IH s1 Hav Hl1) as ([] & s2 & Hr2 & Hl2 & Hi2 & Hj2). exists tt, s2.
  split; [simpl; by rewrite (bind_Ret _ _ _ _ _ Hr1)|]. split; [done|]. split; [|auto].
  intros j [-> |Hj]%elem_of_cons; auto.
Qed.

(** The initialisers, run in any order on the kernel as it was loaded, leave an empty
    run queue, all allocators and a kernel that [bootstrap] can start from. *)
Theorem inits_make_unstarted s l :
  slabs_available → loaded s → (∀ i, i ∈ l) →
  returns (run_inits l) s (λ _ s', unstarted (kern s') ∧
    queues (sch (kern s')) !! kt_runq = Some (Ktqueue [] 0) ∧ ∀ a, is_Some (slabs s' a)).
Proof.
  intros Hav Hld Hall. eapply returns_mono; [by apply run_inits_ready|].
  intros [] s' ([Hp Hn Hcp Hct Hth Hq] & Hi & _). split; [|split; [by apply (Hi ISched)|]].
  - split; try done; [by apply (Hi IProc)|]. split; split; rewrite ?Hth; try (by intros ? ?; rewrite lookup_empty).
    + by intros q Q ->%Hq.
    + intros q Q ->%Hq. apply NoDup_nil_2.
    + by intros q Q t ->%Hq ?%elem_of_nil.
  - intros []; [apply (Hi IProc)|apply (Hi IKthread)|apply (Hi IVmmap)|apply (Hi IVmmap)
      |apply (Hi IAnon)|apply (Hi IShadow)]; done.
Qed.
End init.
