(* ===== verification/MainIdle.v ===== *)
(** * Properties of kernel start: the idle process

    What [idleproc_run] does up to its wait for init, and after. *)
From Stdlib Require Import String.
From S2P Require Import Prelude Headers Text Sched SchedProps Vfs NamevProps VfsNames Proc ProcProps ProcThread ProcLinks ProcWait Main MainDev MainProps.
Local Open Scope kernel_scope.

Section idle.
Context `{HE : ErrnoH, HI : IntrH, HP : PageH, HL : LimitsH, HFC : FcntlH, HH : ProcH, HD : DevH}.
Context {F E X : Type} `{HVN : !VnOps F, HFO : !FileOps F, HV : !ProcView E, HO : !ProcOps E X}.
Context `{HW : !ProcLaws E X, HM : !MainOps F E X, HB : !BootLaws}.
Context `{HDL : !DevLaws, HVV : !VnView F, HVL : !VnLaws F, HNL : !VnNewLaws F}.
Local Abbreviation K := (kernel E X).
Implicit Types (p q : procp) (t : tid) (s : K).

(** ** What the initialisers promise *)

(** The run queue is there and the root of the file system, without devices; processes may have been
    added, and those of before, their threads and wait queues are as they were. *)
Record inited s s' : Prop := {
  in_wf : proc_wf s';
  in_sched : sched_wf (sch s');
  in_cur : curproc (sch s') = curproc (sch s);
  in_thr : curthr (sch s') = curthr (sch s);
  in_init : proc_initproc s' = proc_initproc s;
  in_root : ∃ root, Proc.vfs_root_vn (ext s') = Some root ∧ Vfs.vfs_root_vn (e_fs (ext s')) = root ∧
    dev_ready (e_fs (ext s'));
  in_procs c Q : procs s !! c = Some Q → ∃ Q', procs s' !! c = Some Q' ∧ p_pid Q' = p_pid Q ∧
    p_state Q' = p_state Q ∧ p_pproc Q' = p_pproc Q ∧ p_threads Q' = p_threads Q;
  in_new c Q' : procs s' !! c = Some Q' → procs s !! c = None → p_state Q' = PROC_RUNNING;
  in_threads t th : threads (sch s) !! t = Some th → kt_wchan th = None → threads (sch s') !! t = Some th;
  in_wait p : is_Some (procs s !! p) → waiting (sch s') (p_wait p) = waiting (sch s) (p_wait p)
}.

Class InitLaws := init_call_all_ok s : boot_wf s → sched_wf (sch s) → parent_ok s →
  ∃ s', init_call_all s = Ret tt s' ∧ inited s s'.

(** The file systems in the rest of the kernel: [vref] of the boot code counts a reference
    there, and enabling interrupts leaves them alone. *)
Class BootFsLaws := {
  e_fs_with f x e : e_fs (e_with f x e) = x;
  boot_vref_fs v e e' : Proc.vref v e = Ret tt e' → 0 < vrefs (e_fs e) v →
    same_tree (e_fs e) (e_fs e') ∧ ∀ x, vrefs (e_fs e') x = vrefs (e_fs e) x + one (Some v) x;
  intr_enable_fs e e' : intr_enable e = Ret tt e' → e_fs e' = e_fs e
}.
Context {HBF : BootFsLaws}.

(** ** Working directories, devices and the run queue *)

Lemma on_vfs_run {A} (m : M (vfs F) A) s p C a v :
  curproc (sch s) = Some p → procs s !! p = Some C → m (vfs_of p s) = Ret a v →
  on_vfs m s = Ret a (vfs_put p v s).
Proof.
  intros Hc Hp Hm. unfold on_vfs. rewrite (bind_Ret _ _ _ p s) by (unfold curproc_ptr; by rewrite Hc).
  rewrite (bind_Ret _ _ _ C s) by (unfold proc_get; by rewrite Hp). unfold zoom. by rewrite Hm.
Qed.

Lemma vfs_put_eq p v s :
  vfs_put p v s = with_ext (e_with (files v) (fs v) (ext s))
    (with_procs (alter (λ C, set_p_cwd (Vfs.p_cwd v) (set_p_files (Vfs.p_files v) C)) p (procs s)) s).
Proof. done. Qed.

(** The process at [q] has [root] as its working directory. *)
Definition cwd_is s q (root : positive) : Prop := ∃ Q, procs s !! q = Some Q ∧ Proc.p_cwd Q = Some root.

Lemma thr_get_run s t th : threads (sch s) !! t = Some th → on_sch (thr_get t) s = Ret th s.
Proof. destruct s. unfold on_sch, zoom, thr_get. simpl. by intros ->. Qed.

Lemma curproc_upd_alter s p C f :
  curproc (sch s) = Some p → procs s !! p = Some C →
  curproc_upd f s = Ret tt (with_procs (alter f p (procs s)) s).
Proof.
  intros Hc Hp. unfold curproc_upd. rewrite (bind_Ret _ _ _ p s) by (unfold curproc_ptr; by rewrite Hc).
  by rewrite (bind_Ret _ _ _ C s) by (unfold proc_get; by rewrite Hp).
Qed.

Lemma relinked_ext e s : relinked s (with_ext e s).
Proof.
  split; simpl; try done; [by eauto|]. intros q. destruct (procs s !! q); constructor. apply same_links_refl.
Qed.

Lemma set_cwd_relinked s p root e :
  relinked s (with_ext e (with_procs (alter (set_p_cwd (Some root)) p (procs s)) s)).
Proof. apply relinked_procs. intros P _. by repeat split. Qed.

Lemma set_cwd_cwd s p q root e :
  is_Some (procs s !! p) → q = p ∨ cwd_is s q root →
  cwd_is (with_ext e (with_procs (alter (set_p_cwd (Some root)) p (procs s)) s)) q root.
Proof.
  intros [P HP'] Hor. unfold cwd_is. simpl. destruct (decide (q = p)) as [-> |Hne].
  - rewrite lookup_alter_eq, HP'. simpl. by eexists.
  - destruct Hor as [?|Hor]; [done|]. by rewrite lookup_alter_ne.
Qed.

(** The devices change nothing of the processes. *)
Lemma devices_run s p C :
  curproc (sch s) = Some p → procs s !! p = Some C → dev_ready (e_fs (ext s)) →
  ∃ e d, on_vfs make_devices s = Ret tt (with_ext e s) ∧ dev_made (e_fs (ext s)) d (reverse device_nodes) (e_fs e).
Proof.
  intros Hc Hp Hrd. destruct (make_devices_makes (vfs_of p s) Hrd) as ([] & v & Hr & Ho & d & Hd).
  rewrite (on_vfs_run _ _ _ _ _ _ Hc Hp Hr), vfs_put_eq. eexists _, d. rewrite e_fs_with. split; [|done].
  do 2 f_equal. rewrite Ho. simpl. rewrite Hp. simpl.
  destruct s as [sc ps pl nx ini km ex]. unfold with_procs. simpl in *. f_equal.
  rewrite (alter_lookup_insert _ _ _ _ Hp). rewrite insert_id; [done|]. rewrite Hp. by destruct C.
Qed.

(** A file system in use stays ready for the devices. *)
Lemma dev_ready_vref root e e' :
  Proc.vref root e = Ret tt e' → Vfs.vfs_root_vn (e_fs e) = root → dev_ready (e_fs e) →
  dev_ready (e_fs e') ∧ Vfs.vfs_root_vn (e_fs e') = root ∧ child (e_fs e') = child (e_fs e) ∧
  ∀ x, vrefs (e_fs e') x = vrefs (e_fs e) x + one (Some root) x.
Proof.
  intros Hr Hroot [Hlive Hlk Hmk Hfree Hroom].
  destruct (boot_vref_fs root e e' Hr) as [(Hc & Hh & _ & _ & Hrt & _ & Hrm) Hx]; [by rewrite <- Hroot|].
  split; [|split; [congruence|done]].
  split; rewrite ?Hrt, ?Hh, ?Hc, ?Hrm; try done. rewrite Hx. pose proof (one_range (Some root) (Vfs.vfs_root_vn (e_fs e))). lia.
Qed.

(** What the file system gained between [t] and [t']: the directory "dev" with the
    special files, and two references to the root, for two working directories. *)
Record idle_fs root (t t' : F) : Prop := {
  if_dev : ∃ d, child t' root (path_of "dev") = Some d ∧ vrefs t d = 0 ∧ ∀ name devid,
    (name, devid) ∈ device_nodes → ∃ c, child t' d name = Some c ∧ special_file S_IFCHR devid t' c;
  if_frame x n : 0 < vrefs t x → (x, n) ≠ (root, path_of "dev") → child t' x n = child t x n;
  if_refs x : vrefs t' x = vrefs t x + 2 * one (Some root) x
}.

Lemma idle_fs_made root (t t1 t2 t' : F) d :
  child t1 = child t → child t2 = child t1 →
  (∀ x, vrefs t1 x = vrefs t x + one (Some root) x) → (∀ x, vrefs t2 x = vrefs t1 x + one (Some root) x) →
  Vfs.vfs_root_vn t2 = root → dev_made t2 d (reverse device_nodes) t' → idle_fs root t t'.
Proof.
  intros Hc1 Hc2 Hx1 Hx2 Hroot [Hr Hrefs Hdev Hnodes Hframe Hnew _ _ _]. rewrite Hr, Hroot in *. split.
  - exists d. split; [done|]. split.
    + pose proof (vrefs_nonneg t d). pose proof (one_range (Some root) d). rewrite Hx2, Hx1 in Hnew. lia.
    + intros name devid Hin. apply Hnodes. by rewrite elem_of_reverse.
  - intros x n Hx Hxn. rewrite Hframe, Hc2, Hc1; [done| |done]. rewrite Hx2, Hx1.
    pose proof (one_range (Some root) x). lia.
  - intros x. rewrite Hrefs, Hx2, Hx1. lia.
Qed.

Lemma idle_setup_run s p C q Q ti thi root R :
  Proc.vfs_root_vn (ext s) = Some root → Vfs.vfs_root_vn (e_fs (ext s)) = root → dev_ready (e_fs (ext s)) →
  curproc (sch s) = Some p → procs s !! p = Some C →
  procs s !! q = Some Q → threads (sch s) !! ti = Some thi → kt_proc thi = Some q → kt_wchan thi = None →
  queues (sch s) !! kt_runq = Some R →
  ∃ s', idle_setup ti s = Ret tt s' ∧ relinked s s' ∧ cwd_is s' p root ∧ cwd_is s' q root ∧
    sch s' = enqueued kt_runq ti thi R (sch s) ∧ proc_initproc s' = proc_initproc s ∧
    idle_fs root (e_fs (ext s)) (e_fs (ext s')).
Proof.
  intros Hroot Hfr Hrd Hcur HC HQ Hti Hkp Hwc HR. unfold idle_setup. kstep. rewrite Hroot. kstep.
  rewrite (bind_Ret _ _ _ _ _ (curproc_upd_alter s p C _ Hcur HC)).
  destruct (vref_ok root (ext s)) as (e1 & He1 & _).
  destruct (dev_ready_vref root (ext s) e1 He1 Hfr Hrd) as (Hrd1 & Hfr1 & Hc1 & Hx1).
  rewrite (bind_Ret _ _ _ _ _ (on_ext_run _ (with_procs _ s) _ _ He1)).
  set (s1 := with_ext e1 _). pose proof (set_cwd_relinked s p root e1 : relinked s s1) as R1.
  assert (cwd_is s1 p root) as C1 by (apply set_cwd_cwd; [by eexists|by left]).
  rewrite (bind_Ret _ _ _ _ _ (thr_get_run s1 ti thi Hti)).
  rewrite Hkp. kstep. destruct (relinked_fwd _ _ _ _ R1 HQ) as (Q1 & HQ1 & _).
  rewrite (bind_Ret _ _ _ Q1 s1) by (unfold proc_get; by rewrite HQ1).
  rewrite (bind_Ret _ _ _ tt (with_procs (alter (set_p_cwd (Some root)) q (procs s1)) s1)) by done.
  destruct (vref_ok root (ext s1)) as (e2 & He2 & _).
  destruct (dev_ready_vref root (ext s1) e2 He2 Hfr1 Hrd1) as (Hrd2 & Hfr2 & Hc2 & Hx2).
  erewrite bind_Ret by (apply on_ext_run; exact He2).
  set (s2 := with_ext e2 _). pose proof (set_cwd_relinked s1 q root e2 : relinked s1 s2) as R2.
  assert (cwd_is s2 p root ∧ cwd_is s2 q root) as [C2 C2'].
  { split; apply set_cwd_cwd; eauto. }
  destruct C2 as (C2p & HC2 & Hcwd2).
  destruct (devices_run s2 p C2p Hcur HC2 Hrd2) as (e3 & d & He3 & Hmade). rewrite (bind_Ret _ _ _ _ _ He3).
  destruct (intr_enable_ok e3) as (e4 & He4 & _).
  rewrite (bind_Ret _ _ _ _ _ (on_ext_run _ (with_ext e3 s2) _ _ He4)).
  set (s3 := with_ext e4 _).
  assert (sched_make_runnable ti (sch s3) = Ret tt (enqueued kt_runq ti thi R (sch s))) as Hmr.
  { rewrite sched_make_runnable_eq. simpl. by rewrite Hti, HR, bool_decide_eq_true_2. }
  rewrite (on_sch_run _ _ _ _ Hmr). eexists. split; [done|]. split.
  - apply (relinked_trans _ s1); [done|]. apply (relinked_trans _ s2); [done|].
    apply (relinked_trans _ s3); [exact (relinked_ext e4 s2)|]. apply (relinked_enqueue s3 ti thi R Hti HR).
  - split; [by exists C2p|]. split; [exact C2'|]. do 2 (split; [done|]). simpl. rewrite (intr_enable_fs _ _ He4).
    by eapply (idle_fs_made root _ (e_fs e1) (e_fs e2)).
Qed.

(** The idle process after the initialisers: init is its child and nobody is dead. *)
Lemma inited_children s s' p C q Q :
  inited s s' → procs s !! p = Some C → procs s !! q = Some Q → p_pproc Q = Some p →
  (∀ c P, procs s !! c = Some P → p_state P = PROC_RUNNING) →
  ∃ C', procs s' !! p = Some C' ∧ p_state C' = PROC_RUNNING ∧ q ∈ child_list C' ∧
    ∀ c P, procs s' !! c = Some P → p_state P = PROC_RUNNING.
Proof.
  intros Hin HC HQ Hpp Hal. destruct (in_procs _ _ Hin _ _ HC) as (C' & HC' & _ & Hst & _ & _).
  destruct (in_procs _ _ Hin _ _ HQ) as (Q' & HQ' & _ & _ & Hpp' & _).
  exists C'. split; [done|]. split; [rewrite Hst; by eapply Hal|]. split.
  - apply (pw_children _ (in_wf _ _ Hin) _ _ _ HC'). exists Q'. split; [done|congruence].
  - intros c P HP'. destruct (procs s !! c) as [P0|] eqn:H0; [|by eapply in_new].
    destruct (in_procs _ _ Hin _ _ H0) as (P1 & ? & _ & Hs & _). simplify_eq. rewrite Hs. by eapply Hal.
Qed.

(** The idle process [p] when it starts to wait: init is process [q] with thread [ti]. *)
Record idle_ready s0 p t th q ti root s : Prop := {
  rd_wf : proc_wf s;
  rd_sched : sched_wf (sch s);
  rd_cur : curproc (sch s) = Some p;
  rd_thr : curthr (sch s) = Some t;
  rd_th : threads (sch s) !! t = Some th;
  rd_init : proc_initproc s = Some q;
  rd_cwd : cwd_is s p root;
  rd_cwd_init : cwd_is s q root;
  rd_q : ∃ Q, procs s !! q = Some Q ∧ p_pid Q = 1 ∧ p_pproc Q = Some p ∧ p_threads Q = [ti];
  rd_wait : waiting (sch s) (p_wait p) = waiting (sch s0) (p_wait p);
  rd_runq : ti ∈ waiting (sch s) kt_runq;
  rd_alive c P : procs s !! c = Some P → p_state P = PROC_RUNNING;
  rd_fs : ∃ s', (initthr <- initproc_create ;; init_call_all ;;; ret initthr) s0 = Ret ti s' ∧
    idle_fs root (e_fs (ext s')) (e_fs (ext s))
}.

Lemma idle_ready_run s p C t th :
  InitLaws → idle_state s p C t th → boot_memory s →
  ∃ q ti root s3, idle_ready s p t th q ti root s3 ∧
    idleproc_run s = (' (child, _) <- do_waitpid (-1) 0 true ;; kassert (PID_INIT =? child) ;;; final_shutdown) s3.
Proof.
  intros HIL Hid Hmem.
  destruct (initproc_create_run s p C t th Hid Hmem) as (q & ti & s1 & H1 & Hwf1 & Hsw1 & Hcp1 & Hct1 &
    Hini1 & Hq0 & (Q & HQ & Hpid & Hpp & Hths & Hst) & Hold & Hno & Hthr & Hti0 & Hw1).
  destruct Hid as [_ _ Hcur Hcth HC Hpidle Hrun Hth Hwc _ _ Hal].
  set (thi := Kthread KT_NO_STATE None false 0 0 0 (Some q)) in *.
  assert (p ≠ q) as Hpq by congruence. assert (t ≠ ti) as Htt by congruence.
  pose proof (Hold p C HC) as HC1. rewrite bool_decide_eq_true_2 in HC1 by done.
  assert (∀ c P, procs s1 !! c = Some P → p_state P = PROC_RUNNING) as Hal1.
  { intros c P HP'. destruct (decide (c = q)) as [-> |Hne]; [congruence|].
    destruct (Hno c Hne) as [P0 HP0]; [by eexists|]. rewrite (Hold _ _ HP0) in HP'. simplify_eq.
    rewrite apstate. by eapply Hal. }
  destruct (HIL s1 Hwf1 Hsw1) as (s2 & H2 & Hin).
  { intros cur Hc. rewrite Hcp1, Hcur in Hc. simplify_eq. eexists. split; [done|by apply Hal1 in HC1]. }
  destruct (inited_children s1 s2 p _ q Q Hin HC1 HQ Hpp Hal1) as (C2 & HC2 & Hst2 & Hch & Hal2).
  destruct (in_procs _ _ Hin q Q HQ) as (Q2 & HQ2 & Hpid2 & _ & Hpp2 & Hths2).
  assert (threads (sch s2) !! ti = Some thi) as Hti2
    by (apply (in_threads _ _ Hin); [rewrite Hthr; apply lookup_insert_eq|done]).
  assert (threads (sch s2) !! t = Some th) as Ht2
    by (apply (in_threads _ _ Hin); [by rewrite Hthr, lookup_insert_ne|done]).
  destruct (pw_runq _ (in_wf _ _ Hin)) as [R HR]. destruct (in_root _ _ Hin) as (root & Hroot & Hfr & Hrd).
  assert (curproc (sch s2) = Some p) as Hcp2 by (rewrite (in_cur _ _ Hin); congruence).
  destruct (idle_setup_run s2 p C2 q Q2 ti thi root R) as (s3 & H3 & Hre & Hcwp & Hcwq & Hsch & Hini3 & Hfs); try done.
  exists q, ti, root, s3. split; [|unfold idleproc_run;
    by rewrite (bind_Ret _ _ _ _ _ H1), (bind_Ret _ _ _ _ _ H2), (bind_Ret _ _ _ _ _ H3)].
  split; rewrite ?Hsch; simpl; try done.
  - by apply (relinked_wf _ _ Hre), Hin.
  - apply (make_runnable_wf ti (sch s2)); [apply Hin|]. rewrite sched_make_runnable_eq, Hti2, HR.
    by rewrite bool_decide_eq_true_2.
  - rewrite (in_thr _ _ Hin). congruence.
  - by rewrite lookup_insert_ne.
  - by rewrite Hini3, (in_init _ _ Hin).
  - destruct (relinked_fwd _ _ _ _ Hre HQ2) as (Q3 & HQ3 & ? & ? & _ & _ & ? & _). exists Q3. split_and!; congruence.
  - rewrite waiting_enqueued_ne by apply p_wait_runq. rewrite (in_wait _ _ Hin) by (by eexists). by rewrite Hw1.
  - rewrite waiting_enqueued by done. set_solver.
  - intros c P (P0 & HP0 & _ & _ & -> & _)%(relinked_back _ _ _ _ Hre). by eapply Hal2.
  - exists s2. split; [|done]. by rewrite (bind_Ret _ _ _ _ _ H1), (bind_Ret _ _ _ _ _ H2).
Qed.

(** Waiting for any child when none is dead. *)
Lemma ready_case s0 p t th q ti root s C :
  idle_ready s0 p t th q ti root s → procs s !! p = Some C → wait_case_of s C (-1) = Sleep None.
Proof.
  intros Hr HC. destruct (rd_q _ _ _ _ _ _ _ _ Hr) as (Q & HQ & _ & Hpp & _).
  assert (q ∈ child_list C) as Hch by (apply (pw_children _ (rd_wf _ _ _ _ _ _ _ _ Hr) _ _ _ HC); eauto).
  unfold wait_case_of.
  rewrite bool_decide_eq_false_2 by (intros Hn; rewrite Hn in Hch; by apply elem_of_nil in Hch). simpl.
  unfold first_of. rewrite (proj2 (head_filter_None _ _)); [done|].
  intros c _ Hd. unfold passes, is_dead in Hd. destruct (procs s !! c) as [P|] eqn:HP'; [|done].
  apply bool_decide_eq_true_1 in Hd. rewrite (rd_alive _ _ _ _ _ _ _ _ Hr c P HP') in Hd. done.
Qed.

(** What the idle process does once it runs again. *)
Definition idle_resumes (i : Z) p (k : K → res K unit) : Prop := ∀ s' M c C t th m st pd,
  proc_wf s' → reapable s' p M c C t th m st pd → first_of s' is_dead (child_list M) = Some c →
  ∃ e, k s' = if p_pid C =? 1 then final_shutdown (reaped (resume i s') p c t e) else Panic.

(** C18: [idleproc_run] starts init and waits for it.  It makes init, process 1, calls the
    initialisers, and gives up the processor with both processes in the root directory,
    each with a reference to it, with the directory "/dev" and in it the special files
    of the null, zero and terminal devices made (in a root file system that has none
    yet and has room for them) and the other directories in use as they were;
    init's thread is running or in line for the processor and the idle thread asleep on
    the wait queue of its process; when it wakes up with a child dead it disposes of it
    and shuts the kernel down if it was init, and stops the kernel if it was not. *)
Theorem idle_waits_for_init s p C t th :
  InitLaws → idle_state s p C t th → boot_memory s → (0 < wait_turns)%nat →
  ∃ q ti root s0 s1 k, idleproc_run s = Block ContextSwitch s1 k ∧
    proc_initproc s1 = Some q ∧ cwd_is s1 p root ∧ cwd_is s1 q root ∧
    (initthr <- initproc_create ;; init_call_all ;;; ret initthr) s = Ret ti s0 ∧
    idle_fs root (e_fs (ext s0)) (e_fs (ext s1)) ∧
    (∃ Q, procs s1 !! q = Some Q ∧ p_pid Q = 1 ∧ p_pproc Q = Some p ∧ p_threads Q = [ti]) ∧
    waiting (sch s1) (p_wait p) = waiting (sch s) (p_wait p) ++ [t] ∧
    (curthr (sch s1) = Some ti ∨ ti ∈ waiting (sch s1) kt_runq) ∧
    ∃ i, idle_resumes i p k.
Proof.
  intros HIL Hid Hmem Hturns. pose proof (id_chan _ _ _ _ _ Hid) as Hwc.
  destruct (idle_ready_run s p C t th HIL Hid Hmem) as (q & ti & root & s3 & Hr & Hrun).
  pose proof Hr as [Hwf Hsw Hcur Hct Hth Hini Hcw Hcwi HQ Hwait Hrq Hal (s0 & Hs0 & Hfs)].
  destruct (waiting (sch s3) kt_runq) as [|next rest] eqn:Hnext; [by apply elem_of_nil in Hrq|].
  destruct Hcw as (C3 & HC3 & Hcwd).
  destruct (wait_blocks s3 p C3 (-1) 0 true None t th next rest)
    as (x & k & Hdo & Hx1 & Hx2 & Hx3 & _ & Hk); try done; [by eapply Hal|by eapply ready_case|].
  exists q, ti, root, s0, (with_sch x s3). eexists. split.
  { rewrite Hrun. unfold bind at 1. rewrite Hdo. reflexivity. }
  split; [done|]. split; [by exists C3|]. do 4 (split; [done|]). split; [|split].
  - simpl. by rewrite Hx1, Hwait.
  - simpl. rewrite Hx2, Hx3. apply elem_of_cons in Hrq as [-> |?]; [by left|by right].
  - exists (ipl (sch s3)). intros s' M c Cd t' th' m st pd Hwf' Hreap Hf.
    destruct (waking_reaps (resume (ipl (sch s3)) s') p M c Cd t' th' m st pd (-1) true None (pred wait_turns))
      as (e & Hre & _); [by apply resume_wf|by apply resume_reapable|done|].
    exists e. simpl. rewrite Hk, Hre. simpl. unfold bind at 1. rewrite pid_init_eq, Z.eqb_sym.
    by destruct (p_pid Cd =? 1).
Qed.
End idle.
