(* ===== verification/MainEx.v ===== *)
(** * Kernel start at work

    The boot code on the small kernel of the process examples. *)
From Stdlib Require Import String.
From S2P Require Import Prelude Headers Text Sched SchedProps Vfs NamevProps VfsProps VfsNames Proc ProcProps ProcEx Main MainDev MainProps MainIdle.
Local Open Scope kernel_scope.

#[local] Existing Instance errno_ex.
#[local] Existing Instance intr_ex.
#[local] Existing Instance page_ex.
#[local] Existing Instance limits_ex.
#[local] Existing Instance fcntl_ex.
#[local] Existing Instance proc_ex.
#[local] Existing Instance procops_ex.
#[local] Existing Instance procview_ex.
#[local] Existing Instance proclaws_ex.

#[local] Instance dev_ex : DevH :=
  {| S_IFCHR := 1; MEM_NULL_DEVID := 256; MEM_ZERO_DEVID := 257; MKDEVID a b := a * 256 + b |}.

(** A file system in which directories, of mode 2, and special files can be made. *)
Definition x_mode (t : xfs) (v : positive) : Z := from_option fst 0 (xn t !! v).
Definition x_dev (t : xfs) (v : positive) : Z := from_option snd 0 (xn t !! v).
Definition x_isdir (t : xfs) (v : positive) : bool := x_mode t v =? 2.
Definition x_vput (v : positive) (t : xfs) : xfs := XFs (<[v := N.pred (xrefs t v)]> (xr t)) (xe t) (xn t).
Definition x_used (t : xfs) : gset positive :=
  dom (xr t) ∪ map_img (xe t) ∪ set_map fst (dom (xe t)) ∪ dom (xn t).
Definition x_new (d : positive) (name : cstring) (mode devid : Z) : M xfs Z := λ t,
  let c := fresh (x_used t) in
  Ret 0 (XFs (xr t) (<[(d, name) := c]> (xe t)) (<[c := (mode, devid)]> (xn t))).

#[local] Instance vn_ex : VnOps xfs := {|
  Vfs.vfs_root_vn _ := 1%positive; vn_mode := x_mode; vn_len _ _ := 0; vn_devid := x_dev;
  vn_has t op v := match op with VLookup | VMknod | VMkdir => x_isdir t v | _ => false end;
  Vfs.vref v := modify (xvref v); Vfs.vput v := modify (x_vput v);
  vn_lookup d name := λ t,
    match xe t !! (d, name) with Some c => Ret (0, Some c) (xvref c t) | None => Ret (-2, None) t end;
  vn_create _ _ := ret (-2, None); vn_mknod := x_new; vn_mkdir d name := x_new d name 2 0;
  vn_rmdir _ _ := ret 0; vn_unlink _ _ := ret 0; vn_link _ _ _ := ret 0; vn_readdir _ _ := ret (0, []);
  vn_stat _ := ret (0, []); vn_read _ _ _ := ret (0, []); vn_write _ _ _ := ret 0 |}.
#[local] Instance view_ex : VnView xfs :=
  {| vrefs t v := Z.of_N (xrefs t v); child t d name := xe t !! (d, name); fs_room _ := 5%nat |}.
#[local] Instance file_ex : FileOps xfs := {| fget _ := ret None; Vfs.fput _ := ret tt |}.

Lemma xvref_refs v t x : Z.of_N (xrefs (xvref v t) x) = Z.of_N (xrefs t x) + one (Some v) x.
Proof.
  unfold xrefs at 1, xvref, one. simpl. destruct (decide (v = x)) as [-> |Hne].
  - rewrite lookup_insert_eq, decide_True by done. simpl. lia.
  - rewrite lookup_insert_ne, decide_False by congruence. unfold xrefs. lia.
Qed.

#[local] Instance vn_laws_ex : VnLaws xfs.
Proof.
  split; simpl.
  - intros t v. lia.
  - intros t v _. eexists _, _. split; [done|]. split; [done|]. intros x. apply xvref_refs.
  - intros t v Hv. eexists _, _. split; [done|]. split; [done|]. intros x. unfold xrefs at 1, x_vput, one. simpl.
    destruct (decide (v = x)) as [-> |Hne].
    + rewrite lookup_insert_eq, decide_True by done. simpl. lia.
    + rewrite lookup_insert_ne, decide_False by congruence. unfold xrefs. lia.
  - intros t d name _ _. unfold returns. destruct (xe t !! (d, name)) as [c|]; eexists _, _; (split; [done|]).
    + split; [done|]. split; [done|]. intros x. apply xvref_refs.
    + split; [done|]. split; [by split|]. intros x. unfold one. rewrite decide_False by done. lia.
  - done.
  - done.
Qed.

Lemma x_new_made d name mode devid (Q : xfs → positive → Prop) t :
  (∀ c, c ∉ x_used t → Q (XFs (xr t) (<[(d, name) := c]> (xe t)) (<[c := (mode, devid)]> (xn t))) c) →
  xe t !! (d, name) = None →
  returns (x_new d name mode devid) t (λ z t', same_refs t t' ∧ made d name Q z t t').
Proof.
  intros HQ Hnone. pose proof (is_fresh (x_used t)) as Hf. eexists _, _. split; [done|]. split; [done|].
  split; [|done|simpl; lia]. left. split; [done|]. eexists. split; [|by apply HQ].
  set (c := fresh (x_used t)) in *. unfold x_used in Hf. rewrite !not_elem_of_union in Hf.
  destruct Hf as [[[Hr Hi] Hd] Hn]. split; simpl.
  - apply lookup_insert_eq.
  - unfold xrefs. by rewrite (not_elem_of_dom_1 _ _ Hr).
  - intros d' n' Hc. apply Hi. apply elem_of_map_img. by eexists.
  - intros d' n' _ Hne. by rewrite lookup_insert_ne.
  - intros op x Hx. unfold x_isdir, x_mode. simpl. by rewrite lookup_insert_ne.
  - intros x Hx. unfold x_mode. simpl. by rewrite lookup_insert_ne.
  - intros x Hx. unfold x_dev. simpl. by rewrite lookup_insert_ne.
  - done.
Qed.

#[local] Instance vn_new_ex : VnNewLaws xfs.
Proof.
  split; simpl.
  - intros t d name Hd Hl Hc. apply x_new_made; [|done]. intros c Hf. unfold x_used in Hf.
    rewrite !not_elem_of_union in Hf. destruct Hf as [[[Hr Hi] Hdm] Hn].
    assert (d ≠ c) as Hdc. { intros ->. unfold xrefs in Hl. by rewrite (not_elem_of_dom_1 _ _ Hr) in Hl. }
    unfold empty_dir. simpl. unfold x_isdir, x_mode. simpl. rewrite lookup_insert_eq. split; [done|]. split; [done|].
    intros n _ _. rewrite lookup_insert_ne by congruence. apply not_elem_of_dom_1. intros Hin.
    apply Hdm, elem_of_map. by exists (c, n).
  - intros t d name mode devid Hd Hl Hc. apply x_new_made; [|done]. intros c _.
    unfold special_file. simpl. unfold x_mode, x_dev. simpl. by rewrite lookup_insert_eq.
Qed.

#[local] Instance dev_laws_ex : DevLaws.
Proof. split; [done|simpl; lia]. Qed.

(** The initialisers make the run queue, if it is not there yet, and mount a file system
    with an empty root directory. *)
Definition runq_ex (x : sched) : sched :=
  match queues x !! kt_runq with
  | Some _ => x
  | None => Sched (threads x) (<[kt_runq := Ktqueue [] 0]> (queues x)) (curthr x) (curproc x) (ipl x)
  end.
Definition mount_ex (e : xk) : xk :=
  Xk (xf e) (xm e) (xp e) (xs e) (XFs {[1%positive := 1%N]} ∅ {[1%positive := (2, 0)]}).
#[local] Instance main_ex : MainOps xfs xk unit := {|
  pt_template_init := ret tt; init_call_all := on_sch (modify runq_ex) ;;; on_ext (modify mount_ex); intr_enable := ret tt;
  kshell_add_command _ _ := ret tt; kernel_execve _ _ _ := ret tt; final_shutdown := ret tt;
  idleproc_run_fn := 1; initproc_run_fn := 2; sunghan_test := 3; sunghan_deadlock_test := 4;
  faber_thread_test := 5; vfstest_main := 6; sunghan_test_dummy_fn := 7;
  sunghan_deadlock_test_dummy_fn := 8; faber_thread_test_dummy_fn := 9; my_vfs_test_fn := 10;
  faber_fs_thread_test_fn := 11; faber_directory_test_fn := 12;
  e_files _ := ∅; e_fs := xv; e_with _ t e := Xk (xf e) (xm e) (xp e) (xs e) t |}%positive.
#[local] Instance boot_ex : BootLaws.
Proof. split; intros e; exists e; by repeat split. Qed.

#[local] Instance boot_fs_ex : BootFsLaws.
Proof.
  split; [done| |by intros e e' [= <-]]. intros v e e' [= <-] _. split; [done|]. intros x. apply xvref_refs.
Qed.

Lemma init_ex : InitLaws.
Proof.
  intros s Hwf Hsw _. destruct s as [sc ps pl nx ini km ex]. eexists. split; [done|]. simpl in *. unfold runq_ex.
  destruct (queues sc !! kt_runq) as [Q|] eqn:HQ; split; simpl; try done; try by eexists.
  all: try (by intros c P HP'; exists P).
  all: try (intros c P H1 H2; congruence).
  all: try (exists 1%positive; do 2 (split; [done|]); by split; try (simpl; lia)).
  - split; [|simpl; by eexists]. by destruct Hwf as [[] [] []].
  - split; [|simpl; rewrite lookup_insert_eq; by eexists]. destruct Hwf as [[] [] [Hw ??]]. split; split; try done.
    intros p Hp. simpl. rewrite lookup_insert_ne by done. by apply Hw.
  - by apply sched_wf_new_queue.
  - intros p _. unfold waiting. simpl. by rewrite lookup_insert_ne by done.
Qed.

Lemma memory_ex s : procs s !! 9%positive = None → queues (sch s) !! 18%positive = None →
  threads (sch s) !! 9%positive = None → kt_mems s !! 9%positive = None →
  9%positive ∉ xm (ext s) → boot_memory s.
Proof.
  intros Hp Hq Ht Hm Hx. split; [|split].
  - intros e He. eexists _, _. simpl. unfold xalloc.
    rewrite decide_False by (unfold same_maps in He; simpl in He; by rewrite He). reflexivity.
  - intros e. simpl. rewrite decide_True by done. by eexists.
  - intros s' Hth Hkm. simpl. rewrite decide_True by (by rewrite Hth, Hkm). by eexists.
Qed.

Definition empty_ex : kernel xk unit :=
  Kernel (Sched ∅ ∅ None None 0) ∅ [] 0 None ∅ (Xk ∅ ∅ ∅ ∅ (XFs ∅ ∅ ∅)).

Lemma bootstrap_starts_idle_witness :
  ∃ p s1 k, bootstrap empty_ex = Block ContextSwitch s1 k ∧ (∀ s', k s' = Panic) ∧
    curproc (sch s1) = Some p ∧ ∃ P, procs s1 !! p = Some P ∧ p_pid P = 0.
Proof.
  destruct (bootstrap_starts_idle empty_ex) as (p & t & pd & map & st & x & s1 & k & Hb & Hk & _ & _ & Hc & _ & _ & _ & Hp & _).
  - split; done.
  - by apply memory_ex.
  - exists p, s1, k. split; [exact Hb|]. split; [exact Hk|]. split; [exact Hc|].
    rewrite Hp, lookup_singleton_eq. eexists. split; reflexivity.
Defined.

(** The idle process at address 1 is all there is. *)
Definition idle_ex : kernel xk unit :=
  Kernel (Sched {[1%positive := ex_thread KT_RUN None 1]} {[2%positive := Ktqueue [] 0]}
            (Some 1%positive) (Some 1%positive) 0)
    {[1%positive := ex_proc 0 1 [] None PROC_RUNNING 0 no_files]} [1%positive] 1 None
    {[1%positive := KtMem (Some 1%positive) (Some tt) true]} (Xk ∅ {[1%positive]} {[1%positive]} {[1%positive]} (XFs ∅ ∅ ∅)).

Lemma idle_ex_procs p P : procs idle_ex !! p = Some P → p = 1%positive ∧ P = ex_proc 0 1 [] None PROC_RUNNING 0 no_files.
Proof. unfold idle_ex. simpl. by intros [<- <-]%lookup_singleton_Some. Qed.

Lemma idle_ex_wf : boot_wf idle_ex.
Proof. apply (single_wf _ _ _ _ (ex_thread KT_RUN None 1)); done. Qed.

Lemma idle_waits_for_init_witness :
  ∃ q s1 k, idleproc_run idle_ex = Block ContextSwitch s1 k ∧ proc_initproc s1 = Some q ∧
    waiting (sch s1) 2 = [1%positive] ∧
    ∃ root d c, child (xv (ext s1)) root (path_of "dev") = Some d ∧ child (xv (ext s1)) d (path_of "tty0") = Some c ∧
      vn_devid (xv (ext s1)) c = 512.
Proof.
  destruct (idle_waits_for_init idle_ex 1 (ex_proc 0 1 [] None PROC_RUNNING 0 no_files) 1 (ex_thread KT_RUN None 1))
    as (q & ti & root & s0 & s1 & k & Hr & Hi & _ & _ & H0 & [(d & Hd & _ & Hnodes) _ _] & _ & Hw & _).
  - apply init_ex.
  - split; try done.
    + apply idle_ex_wf.
    + apply sched_wfb_wf. by vm_compute.
    + by intros (p & P & _ & [_ ->]%idle_ex_procs & Hpid).
    + by intros c Q [_ ->]%idle_ex_procs.
  - by apply memory_ex.
  - simpl. lia.
  - exists q, s1, k. split; [exact Hr|]. split; [exact Hi|]. split; [exact Hw|].
    destruct (Hnodes (path_of "tty0") 512) as (c & Hc & _ & Hdev).
    { apply list_elem_of_In. simpl. tauto. }
    exists root, d, c. split; [exact Hd|]. split; [exact Hc|exact Hdev].
Defined.
